(** * A block file system over an emulated disk: model of [filesystem.py]

    The engine of [filesystem.py] keeps all of its state in Python lists that
    are shared by reference: an open-file-table buffer is the very list object
    stored in the disk array (no copy is made by [read_block]), slot 0 buffers
    the directory list itself, and [close] stores the buffer object back into
    the disk array.  The model therefore has an explicit store of list objects
    ([heap]) and the disk, the buffers, the bitmap and the directory are
    references into it.  Operations return the store they leave behind
    together with either the returned integer or the Python exception that
    escapes the method. *)

From Stdlib Require Import ZArith Lia.
From stdpp Require Import base list strings.
Open Scope Z_scope.

(** ** Values, objects and results *)

(** What a cell of a list object can hold: an integer (a byte of a data block,
    a bit of the bitmap) or a directory entry [[name, descriptor_index]].
    Directory entries are never mutated in place by the source, only replaced,
    so they are values. *)
Inductive val :=
  | VInt (z : Z)
  | VEntry (name : string) (d : Z).

Definition loc := nat.

(** Python exceptions that the engine can let escape.  [OutOfModel] is not a
    Python exception: it marks the one situation the model does not follow,
    a descriptor block (disk index 1..6) being read as a data block.  That
    needs a block number in 1..6 inside a descriptor; the engine only ever
    stores 0, 7 and numbers found by a scan of [range(8, 64)]. *)
Inductive exn := IndexError | ValueError | TypeError | OutOfModel.

Inductive result (A : Type) :=
  | Ret (a : A)
  | Raise (e : exn).
Arguments Ret {A} a.
Arguments Raise {A} e.

(** What [self.disk.disk[i]] holds: one of the six descriptor blocks (which the
    engine reaches through [self.descriptors]) or a list object of the store. *)
Inductive blockref :=
  | DescBlock (k : nat)
  | Obj (l : loc).

(** An entry of [self.oft]. *)
Record slot := mkSlot {
  buffer : loc;
  current_pos : Z;
  file_size : Z;
  descriptor_index : Z
}.

(** The [FileSystem] object with its [EmulatedDisk].  [descriptors] is the
    list [self.descriptors] of six blocks of 32 descriptors, each descriptor
    the four-element list [[length, block1, block2, block3]].  The scratch
    lists [I], [O], [M] of the source are never read and are left out. *)
Record FileSystem := mkFS {
  heap : list (list val);
  disk : list blockref;
  bitmap : loc;
  descriptors : list (list (list Z));
  directory : loc;
  oft : list slot
}.

(** ** Python list indexing *)

(** [l[i]] for a Python list: negative indices count from the end, anything
    outside raises [IndexError] (here [None]). *)
Definition py_index {A} (l : list A) (i : Z) : option nat :=
  let n := Z.of_nat (length l) in
  if (0 <=? i) && (i <? n) then Some (Z.to_nat i)
  else if (i <? 0) && (- n <=? i) then Some (Z.to_nat (n + i))
  else None.

Definition py_get {A} (l : list A) (i : Z) : option A :=
  match py_index l i with
  | Some k => l !! k
  | None => None
  end.

Definition py_set {A} (l : list A) (i : Z) (x : A) : option (list A) :=
  match py_index l i with
  | Some k => Some (<[k := x]> l)
  | None => None
  end.

(** The list object at a reference. *)
Definition obj (h : list (list val)) (l : loc) : list val :=
  default [] (h !! l).

Definition set_obj (h : list (list val)) (l : loc) (o : list val) : list (list val) :=
  <[l := o]> h.

(** A new list object: its reference and the extended store. *)
Definition alloc (h : list (list val)) (o : list val) : loc * list (list val) :=
  (length h, h ++ [o]).

Definition zeros (n : nat) : list val := replicate n (VInt 0).

(** ** State updates *)

Definition with_heap (s : FileSystem) (h : list (list val)) : FileSystem :=
  mkFS h (disk s) (bitmap s) (descriptors s) (directory s) (oft s).

Definition with_disk (s : FileSystem) (d : list blockref) : FileSystem :=
  mkFS (heap s) d (bitmap s) (descriptors s) (directory s) (oft s).

Definition with_descriptors (s : FileSystem) (d : list (list (list Z))) : FileSystem :=
  mkFS (heap s) (disk s) (bitmap s) d (directory s) (oft s).

Definition with_oft (s : FileSystem) (o : list slot) : FileSystem :=
  mkFS (heap s) (disk s) (bitmap s) (descriptors s) (directory s) o.

Definition with_buffer (e : slot) (b : loc) : slot :=
  mkSlot b (current_pos e) (file_size e) (descriptor_index e).

Definition with_pos (e : slot) (p : Z) : slot :=
  mkSlot (buffer e) p (file_size e) (descriptor_index e).

(** ** EmulatedDisk *)

(** [read_block]: the list object itself, not a copy. *)
Definition read_block (s : FileSystem) (block_index : Z) : result loc :=
  if (block_index <? 0) || (63 <? block_index) then Raise IndexError
  else match py_get (disk s) block_index with
       | Some (Obj l) => Ret l
       | Some (DescBlock _) => Raise OutOfModel
       | None => Raise IndexError
       end.

(** [write_block]: stores a copy [list(data)] of the list object [data]. *)
Definition write_block (s : FileSystem) (block_index : Z) (data : loc)
  : FileSystem * result unit :=
  if (block_index <? 0) || (63 <? block_index) then (s, Raise IndexError)
  else if negb (length (obj (heap s) data) =? 512)%nat then (s, Raise ValueError)
  else
    let '(l, h) := alloc (heap s) (obj (heap s) data) in
    match py_set (disk s) block_index (Obj l) with
    | Some d => (with_disk (with_heap s h) d, Ret tt)
    | None => (s, Raise IndexError)
    end.

(** [self.disk[i] = e] through [__setitem__]: stores the reference. *)
Definition disk_setitem (s : FileSystem) (i : Z) (e : loc) : option FileSystem :=
  match py_set (disk s) i (Obj e) with
  | Some d => Some (with_disk s d)
  | None => None
  end.

(** ** FileSystem.init *)

Definition free_descriptor : list Z := [-1; 0; 0; 0].

(** The store after [init]: object [i] is the list held by disk block [i] for
    [i = 0] (the 64-cell bitmap), [i = 7] (the directory) and the data blocks
    8..63; objects 1..6 are the zero blocks that [init] replaces by descriptor
    blocks; objects 64..67 are the four buffers of line 52 (slot 0 then takes
    the directory as its buffer). *)
Definition init_heap : list (list val) :=
  [replicate 8 (VInt 1) ++ replicate 56 (VInt 0)]
  ++ replicate 6 (zeros 512)
  ++ [replicate 64 (VEntry "" 0)]
  ++ replicate 56 (zeros 512)
  ++ replicate 4 (zeros 512).

Definition init_disk : list blockref :=
  [Obj 0%nat] ++ map DescBlock (seq 0 6) ++ map Obj (seq 7 57).

Definition init_descriptors : list (list (list Z)) :=
  <[0%nat := <[0%nat := [0; 7; 0; 0]]> (replicate 32 free_descriptor)]>
    (replicate 6 (replicate 32 free_descriptor)).

Definition closed_slot (b : loc) : slot := mkSlot b (-1) 0 0.

Definition init : FileSystem :=
  mkFS init_heap init_disk 0%nat init_descriptors 7%nat
       [mkSlot 7%nat 0 0 0; closed_slot 65%nat; closed_slot 66%nat; closed_slot 67%nat].

(** ** Lookups shared by the operations *)

(** [for i, entry in enumerate(self.directory): if entry[0] == filename: ...]:
    the first cell whose name is [filename], with its index and descriptor
    index.  Subscripting an integer cell raises [TypeError]. *)
Fixpoint dir_find (filename : string) (l : list val) (i : nat)
  : result (option (nat * Z)) :=
  match l with
  | [] => Ret None
  | VEntry name d :: l' =>
      if String.eqb name filename then Ret (Some (i, d))
      else dir_find filename l' (S i)
  | VInt _ :: _ => Raise TypeError
  end.

(** [self.descriptors[desc_index // 32][desc_index % 32]] *)
Definition get_descriptor (s : FileSystem) (desc_index : Z) : option (list Z) :=
  match py_get (descriptors s) (desc_index / 32) with
  | Some blk => py_get blk (desc_index mod 32)
  | None => None
  end.

(** [self.descriptors[desc_index // 32][desc_index % 32] = d] *)
Definition set_descriptor (s : FileSystem) (desc_index : Z) (d : list Z)
  : option FileSystem :=
  match py_index (descriptors s) (desc_index / 32) with
  | Some b =>
      match descriptors s !! b with
      | Some blk =>
          match py_set blk (desc_index mod 32) d with
          | Some blk' => Some (with_descriptors s (<[b := blk']> (descriptors s)))
          | None => None
          end
      | None => None
      end
  | None => None
  end.

(** The scan [for i in range(192)] of [create]: the first descriptor whose
    length field is -1. *)
Fixpoint scan_descriptors (s : FileSystem) (idxs : list Z) : result (option Z) :=
  match idxs with
  | [] => Ret None
  | i :: rest =>
      match get_descriptor s i with
      | Some d =>
          match py_get d 0 with
          | Some len => if len =? -1 then Ret (Some i) else scan_descriptors s rest
          | None => Raise IndexError
          end
      | None => Raise IndexError
      end
  end.

Definition range (a b : nat) : list Z := map Z.of_nat (seq a (b - a)).

(** [x == 0] for a cell [x]: a directory entry is never equal to 0. *)
Definition is_zero (v : val) : bool :=
  match v with
  | VInt z => z =? 0
  | VEntry _ _ => false
  end.

(** The scan [for i in range(8, 64): if self.bitmap[i] == 0] that [create]
    and [find_free_block] both make. *)
Fixpoint scan_bitmap (bits : list val) (idxs : list Z) : result (option Z) :=
  match idxs with
  | [] => Ret None
  | i :: rest =>
      match py_get bits i with
      | Some v => if is_zero v then Ret (Some i) else scan_bitmap bits rest
      | None => Raise IndexError
      end
  end.

Definition find_free_block (s : FileSystem) : result (option Z) :=
  scan_bitmap (obj (heap s) (bitmap s)) (range 8 64).

(** [EmulatedDisk.block_free]: [self.bitmap[block_index] == 0]. *)
Definition block_free (s : FileSystem) (block_index : Z) : result bool :=
  match py_get (obj (heap s) (bitmap s)) block_index with
  | Some v => Ret (is_zero v)
  | None => Raise IndexError
  end.

(** [self.bitmap[i] = v] *)
Definition set_bit (s : FileSystem) (i : Z) (v : Z) : option FileSystem :=
  match py_set (obj (heap s) (bitmap s)) i (VInt v) with
  | Some bits => Some (with_heap s (set_obj (heap s) (bitmap s) bits))
  | None => None
  end.

(** ** create *)

Definition create (s : FileSystem) (filename : string) : FileSystem * result Z :=
  if (3 <? String.length filename)%nat then (s, Ret (-1))
  else
  match dir_find filename (obj (heap s) (directory s)) 0 with
  | Raise e => (s, Raise e)
  | Ret (Some _) => (s, Ret (-1))
  | Ret None =>
  match dir_find "" (obj (heap s) (directory s)) 0 with
  | Raise e => (s, Raise e)
  | Ret None => (s, Ret (-1))
  | Ret (Some (dir_index, _)) =>
  match scan_descriptors s (range 0 192) with
  | Raise e => (s, Raise e)
  | Ret None => (s, Ret (-1))
  | Ret (Some desc_index) =>
  match find_free_block s with
  | Raise e => (s, Raise e)
  | Ret None => (s, Ret (-1))
  | Ret (Some block_num) =>
  match set_bit s block_num 1 with
  | None => (s, Raise IndexError)
  | Some s1 =>
  match set_descriptor s1 desc_index [0; block_num; 0; 0] with
  | None => (s1, Raise IndexError)
  | Some s2 =>
      let dir := <[dir_index := VEntry filename desc_index]> (obj (heap s2) (directory s2)) in
      let s3 := with_heap s2 (set_obj (heap s2) (directory s2) dir) in
      match disk_setitem s3 7 (directory s3) with
      | None => (s3, Raise IndexError)
      | Some s4 => (s4, Ret 0)
      end
  end end end end end end.

(** ** destroy *)

(** [for block_num in descriptor[1:4]: if block_num != 0: self.bitmap[block_num] = 0] *)
Fixpoint free_blocks (s : FileSystem) (blocks : list Z) : FileSystem * result unit :=
  match blocks with
  | [] => (s, Ret tt)
  | block_num :: rest =>
      if block_num =? 0 then free_blocks s rest
      else match set_bit s block_num 0 with
           | Some s' => free_blocks s' rest
           | None => (s, Raise IndexError)
           end
  end.

Definition destroy (s : FileSystem) (filename : string) : FileSystem * result Z :=
  match dir_find filename (obj (heap s) (directory s)) 0 with
  | Raise e => (s, Raise e)
  | Ret None => (s, Ret (-1))
  | Ret (Some (dir_index, desc_index)) =>
  match get_descriptor s desc_index with
  | None => (s, Raise IndexError)
  | Some descriptor =>
  match free_blocks s (take 3 (drop 1 descriptor)) with
  | (s1, Raise e) => (s1, Raise e)
  | (s1, Ret _) =>
  match set_descriptor s1 desc_index free_descriptor with
  | None => (s1, Raise IndexError)
  | Some s2 =>
      let dir := <[dir_index := VEntry "" 0]> (obj (heap s2) (directory s2)) in
      let s3 := with_heap s2 (set_obj (heap s2) (directory s2) dir) in
      match disk_setitem s3 7 (directory s3) with
      | None => (s3, Raise IndexError)
      | Some s4 => (s4, Ret 0)
      end
  end end end end.

(** ** The open file table *)

Definition set_slot (s : FileSystem) (index : nat) (e : slot) : FileSystem :=
  with_oft s (<[index := e]> (oft s)).

(** The guard [index < 0 or index > 3 or self.oft[index]["current_pos"] == -1]
    that close, read, write and seek start with: the slot when it passes. *)
Definition open_slot (s : FileSystem) (index : Z) : option slot :=
  if (index <? 0) || (3 <? index) then None
  else match oft s !! Z.to_nat index with
       | Some e => if current_pos e =? -1 then None else Some e
       | None => None
       end.

(** [for i in range(4): if oft[i]["descriptor_index"] == desc_index and
    oft[i]["current_pos"] != -1] *)
Definition is_open_on (desc_index : Z) (e : slot) : bool :=
  (descriptor_index e =? desc_index) && negb (current_pos e =? -1).

Definition already_open (s : FileSystem) (desc_index : Z) : bool :=
  existsb (is_open_on desc_index) (take 4 (oft s)).

(** [for i in range(1, 4): if oft[i]["current_pos"] == -1] *)
Fixpoint scan_oft (o : list slot) (idxs : list nat) : option nat :=
  match idxs with
  | [] => None
  | i :: rest =>
      match o !! i with
      | Some e => if current_pos e =? -1 then Some i else scan_oft o rest
      | None => scan_oft o rest
      end
  end.

(** ** open *)

Definition open (s : FileSystem) (filename : string) : FileSystem * result Z :=
  match dir_find filename (obj (heap s) (directory s)) 0 with
  | Raise e => (s, Raise e)
  | Ret None => (s, Ret (-1))
  | Ret (Some (_, desc_index)) =>
  if desc_index =? -1 then (s, Ret (-1))
  else if already_open s desc_index then (s, Ret (-1))
  else
  match scan_oft (oft s) [1; 2; 3]%nat with
  | None => (s, Ret (-1))
  | Some oft_index =>
  match get_descriptor s desc_index with
  | None => (s, Raise IndexError)
  | Some descriptor =>
  match py_get descriptor 1 with
  | None => (s, Raise IndexError)
  | Some block1 =>
  match read_block s block1 with
  | Raise e => (s, Raise e)
  | Ret buf =>
  match py_get descriptor 0 with
  | None => (s, Raise IndexError)
  | Some len =>
      (set_slot s oft_index (mkSlot buf 0 len desc_index), Ret (Z.of_nat oft_index))
  end end end end end end.

(** ** close *)

Definition close (s : FileSystem) (index : Z) : FileSystem * result Z :=
  match open_slot s index with
  | None => (s, Ret (-1))
  | Some e =>
  match get_descriptor s (descriptor_index e) with
  | None => (s, Raise IndexError)
  | Some descriptor =>
  let current_block_index := current_pos e / 512 in
  match (if current_block_index =? 0 then py_get descriptor 1
         else py_get descriptor (1 + current_block_index)) with
  | None => (s, Raise IndexError)
  | Some current_block =>
  match (if current_block =? 0 then Some s
         else disk_setitem s current_block (buffer e)) with
  | None => (s, Raise IndexError)
  | Some s1 =>
      let '(b, h) := alloc (heap s1) (zeros 512) in
      (set_slot (with_heap s1 h) (Z.to_nat index) (closed_slot b), Ret 0)
  end end end end.

(** How one pass through a loop body ends: with [break] / [return] or by
    going round again. *)
Inductive outcome := Stop | Continue.

(** ** read *)

(** The loads of [read]: [block_num = descriptor[1 + k]; if block_num != 0:
    buffer = read_block(block_num)].  [None] in the result is the [else]
    branch (block not allocated, buffer kept). *)
Definition load_block (s : FileSystem) (index : nat) (e : slot)
    (descriptor : list Z) (k : Z) : result (option FileSystem) :=
  match py_get descriptor (1 + k) with
  | None => Raise IndexError
  | Some block_num =>
      if block_num =? 0 then Ret None
      else match read_block s block_num with
           | Raise x => Raise x
           | Ret b => Ret (Some (set_slot s index (with_buffer e b)))
           end
  end.

Definition slot_at (s : FileSystem) (index : nat) : slot :=
  default (closed_slot 0%nat) (oft s !! index).

(** One pass through the body of [while bytes_read < count]; [last] tells
    whether [bytes_read + 1 == count].  [mem_area] is the caller's list; the
    result carries [bytes_read] as the pass leaves it. *)
Definition read_body (s : FileSystem) (index : nat) (descriptor : list Z)
    (mem_area : list val) (bytes_read : Z) (last : bool)
  : FileSystem * list val * result (outcome * Z) :=
  let e := slot_at s index in
  match py_get descriptor 0 with
  | None => (s, mem_area, Raise IndexError)
  | Some len =>
  if len <=? current_pos e then (s, mem_area, Ret (Stop, bytes_read))
  else
  let current_block_index := current_pos e / 512 in
  let buffer_pos := current_pos e mod 512 in
  match (if (0 <? current_block_index) && (bytes_read =? 0)
         then match load_block s index e descriptor current_block_index with
              | Raise x => Raise x
              | Ret (Some s') => Ret s'
              | Ret None => Ret s
              end
         else Ret s) with
  | Raise x => (s, mem_area, Raise x)
  | Ret s1 =>
  let e1 := slot_at s1 index in
  match py_get (obj (heap s1) (buffer e1)) buffer_pos with
  | None => (s1, mem_area, Raise IndexError)
  | Some v =>
  match py_set mem_area bytes_read v with
  | None => (s1, mem_area, Raise IndexError)
  | Some mem_area' =>
  let bytes_read' := bytes_read + 1 in
  let e2 := with_pos e1 (current_pos e1 + 1) in
  let s2 := set_slot s1 index e2 in
  if (current_pos e2 mod 512 =? 0) && negb last then
    let next_block_index := current_pos e2 / 512 in
    if next_block_index <? 3 then
      match load_block s2 index e2 descriptor next_block_index with
      | Raise x => (s2, mem_area', Raise x)
      | Ret None => (s2, mem_area', Ret (Stop, bytes_read'))
      | Ret (Some s3) => (s3, mem_area', Ret (Continue, bytes_read'))
      end
    else (s2, mem_area', Ret (Stop, bytes_read'))
  else (s2, mem_area', Ret (Continue, bytes_read'))
  end end end end.

(** The [while bytes_read < count] loop; [remaining] is [count - bytes_read]. *)
Fixpoint read_loop (remaining : nat) (s : FileSystem) (index : nat)
    (descriptor : list Z) (mem_area : list val) (bytes_read : Z)
  : FileSystem * list val * result Z :=
  match remaining with
  | O => (s, mem_area, Ret bytes_read)
  | S remaining' =>
      match read_body s index descriptor mem_area bytes_read (Nat.eqb remaining' 0) with
      | (s', mem_area', Raise x) => (s', mem_area', Raise x)
      | (s', mem_area', Ret (Stop, bytes_read')) => (s', mem_area', Ret bytes_read')
      | (s', mem_area', Ret (Continue, bytes_read')) =>
          read_loop remaining' s' index descriptor mem_area' bytes_read'
      end
  end.

Definition read (s : FileSystem) (index : Z) (mem_area : list val) (count : Z)
  : FileSystem * list val * result Z :=
  match open_slot s index with
  | None => (s, mem_area, Ret (-1))
  | Some e =>
  match get_descriptor s (descriptor_index e) with
  | None => (s, mem_area, Raise IndexError)
  | Some descriptor =>
      read_loop (Z.to_nat count) s (Z.to_nat index) descriptor mem_area 0
  end end.

(** ** seek *)

Definition seek (s : FileSystem) (index : Z) (pos : Z) : FileSystem * result Z :=
  match open_slot s index with
  | None => (s, Ret (-1))
  | Some e =>
  match get_descriptor s (descriptor_index e) with
  | None => (s, Raise IndexError)
  | Some descriptor =>
  match py_get descriptor 0 with
  | None => (s, Raise IndexError)
  | Some len =>
  if (pos <? 0) || (len <? pos) then (s, Ret (-1))
  else
  let new_block_index := pos / 512 in
  if new_block_index <? 3 then
    match load_block s (Z.to_nat index) e descriptor new_block_index with
    | Raise x => (s, Raise x)
    | Ret None => (s, Ret (-1))
    | Ret (Some s1) =>
        (set_slot s1 (Z.to_nat index) (with_pos (slot_at s1 (Z.to_nat index)) pos), Ret pos)
    end
  else (s, Ret (-1))
  end end end.

(** ** list_directory *)

Fixpoint list_entries (s : FileSystem) (l : list val) : result (list (string * Z)) :=
  match l with
  | [] => Ret []
  | VInt _ :: _ => Raise TypeError
  | VEntry name d :: l' =>
      if String.eqb name "" then list_entries s l'
      else match get_descriptor s d with
           | None => Raise IndexError
           | Some descriptor =>
               match py_get descriptor 0 with
               | None => Raise IndexError
               | Some len =>
                   match list_entries s l' with
                   | Raise x => Raise x
                   | Ret r => Ret ((name, len) :: r)
                   end
               end
           end
  end.

Definition list_directory (s : FileSystem) : result (list (string * Z)) :=
  list_entries s (obj (heap s) (directory s)).

(** ** write *)

(** [descriptor[k] = v] on the descriptor object bound at the start of
    [write].  No statement of [write] replaces a cell of the descriptor
    table, so the object is the one the table holds at [desc_index]. *)
Definition set_descriptor_field (s : FileSystem) (desc_index : Z) (k : Z) (v : Z)
  : option FileSystem :=
  match get_descriptor s desc_index with
  | Some d =>
      match py_set d k v with
      | Some d' => set_descriptor s desc_index d'
      | None => None
      end
  | None => None
  end.

Definition descriptor_field (s : FileSystem) (desc_index : Z) (k : Z) : option Z :=
  match get_descriptor s desc_index with
  | Some d => py_get d k
  | None => None
  end.

(** The body of [if buffer_pos == 0 and current_block_index > 0]: [None] in
    the result is [new_block == -1]. *)
Definition grow (s : FileSystem) (index : nat) (desc_index : Z)
    (current_block_index : Z) : FileSystem * result (option unit) :=
  match find_free_block s with
  | Raise x => (s, Raise x)
  | Ret None => (s, Ret None)
  | Ret (Some new_block) =>
  match set_descriptor_field s desc_index (1 + current_block_index) new_block with
  | None => (s, Raise IndexError)
  | Some s1 =>
  match set_bit s1 new_block 1 with
  | None => (s1, Raise IndexError)
  | Some s2 =>
      let '(b, h) := alloc (heap s2) (zeros 512) in
      (set_slot (with_heap s2 h) index (with_buffer (slot_at s2 index) b), Ret (Some tt))
  end end end.

(** [if buffer_pos == 511 or bytes_written == count: ...write_block...] *)
Definition flush (s : FileSystem) (index : nat) (desc_index : Z)
    (current_block_index : Z) : FileSystem * result unit :=
  match descriptor_field s desc_index (1 + current_block_index) with
  | None => (s, Raise IndexError)
  | Some block_num =>
      if block_num =? 0 then (s, Ret tt)
      else write_block s block_num (buffer (slot_at s index))
  end.

(** [if current_pos > descriptor[0]: descriptor[0] = current_pos] *)
Definition update_length (s : FileSystem) (index : nat) (desc_index : Z)
  : option FileSystem :=
  match descriptor_field s desc_index 0 with
  | None => None
  | Some len =>
      if len <? current_pos (slot_at s index)
      then set_descriptor_field s desc_index 0 (current_pos (slot_at s index))
      else Some s
  end.

(** One pass through the body of [while bytes_written < count].  [byte] is
    [mem_area[bytes_written]] ([None] when the list is too short) and [last]
    tells whether [bytes_written + 1 == count]. *)
Definition write_body (s : FileSystem) (index : nat) (desc_index : Z)
    (byte : option Z) (last : bool) : FileSystem * result outcome :=
  let e := slot_at s index in
  let current_block_index := current_pos e / 512 in
  if 3 <=? current_block_index then (s, Ret Stop)
  else
  let buffer_pos := current_pos e mod 512 in
  match (if (buffer_pos =? 0) && (0 <? current_block_index)
         then grow s index desc_index current_block_index
         else (s, Ret (Some tt))) with
  | (s1, Raise x) => (s1, Raise x)
  | (s1, Ret None) => (s1, Ret Stop)
  | (s1, Ret (Some _)) =>
  match byte with
  | None => (s1, Raise IndexError)
  | Some byte =>
  let e1 := slot_at s1 index in
  match py_set (obj (heap s1) (buffer e1)) buffer_pos (VInt byte) with
  | None => (s1, Raise IndexError)
  | Some data =>
  let s2 := with_heap s1 (set_obj (heap s1) (buffer e1) data) in
  let s3 := set_slot s2 index (with_pos e1 (current_pos e1 + 1)) in
  match (if (buffer_pos =? 511) || last
         then flush s3 index desc_index current_block_index
         else (s3, Ret tt)) with
  | (s4, Raise x) => (s4, Raise x)
  | (s4, Ret _) =>
  match update_length s4 index desc_index with
  | None => (s4, Raise IndexError)
  | Some s5 => (s5, Ret Continue)
  end end end end end.

(** The [while bytes_written < count] loop; [remaining] is
    [count - bytes_written] and [mem_area] what is left of the caller's list
    from index [bytes_written] on. *)
Fixpoint write_loop (remaining : nat) (s : FileSystem) (index : nat)
    (desc_index : Z) (mem_area : list Z) (bytes_written : Z)
  : FileSystem * result Z :=
  match remaining with
  | O => (s, Ret bytes_written)
  | S remaining' =>
      match write_body s index desc_index (head mem_area) (Nat.eqb remaining' 0) with
      | (s', Raise x) => (s', Raise x)
      | (s', Ret Stop) => (s', Ret bytes_written)
      | (s', Ret Continue) =>
          write_loop remaining' s' index desc_index (tail mem_area) (bytes_written + 1)
      end
  end.

Definition write (s : FileSystem) (index : Z) (mem_area : list Z) (count : Z)
  : FileSystem * result Z :=
  match open_slot s index with
  | None => (s, Ret (-1))
  | Some e =>
  match get_descriptor s (descriptor_index e) with
  | None => (s, Raise IndexError)
  | Some _ =>
      write_loop (Z.to_nat count) s (Z.to_nat index) (descriptor_index e) mem_area 0
  end end.

(** ** Sequences of engine calls *)

Inductive call :=
  | Init
  | Create (filename : string)
  | Destroy (filename : string)
  | Open (filename : string)
  | Close (index : Z)
  | Read (index : Z) (mem_area : list val) (count : Z)
  | Write (index : Z) (mem_area : list Z) (count : Z)
  | Seek (index : Z) (pos : Z)
  | ListDirectory.

(** The engine after a call, whether the call returned or raised. *)
Definition step (s : FileSystem) (c : call) : FileSystem :=
  match c with
  | Init => init
  | Create f => fst (create s f)
  | Destroy f => fst (destroy s f)
  | Open f => fst (open s f)
  | Close i => fst (close s i)
  | Read i m n => fst (fst (read s i m n))
  | Write i m n => fst (write s i m n)
  | Seek i p => fst (seek s i p)
  | ListDirectory => s
  end.

Definition run (cs : list call) : FileSystem := foldl step init cs.

Inductive reachable : FileSystem -> Prop :=
  | reachable_init : reachable init
  | reachable_step s c : reachable s -> reachable (step s c).

(** ** The quantities the properties speak about *)

Definition is_one (v : val) : bool :=
  match v with
  | VInt z => z =? 1
  | VEntry _ _ => false
  end.

(** Number of 1 bits of the bitmap. *)
Definition bitmap_ones (s : FileSystem) : nat :=
  length (filter (fun v => is_one v = true) (obj (heap s) (bitmap s))).

(** Non-zero block numbers held by a descriptor that is not free. *)
Definition blocks_of (d : list Z) : list Z :=
  match d with
  | len :: blocks =>
      if len =? -1 then [] else filter (fun b => b <> 0) (take 3 blocks)
  | [] => []
  end.

(** The 192 descriptors in the order of the scan of [create]
    ([self.descriptors[i // 32][i % 32]] for [i] in [range(192)]). *)
Definition descriptor_list (s : FileSystem) : list (list Z) :=
  map (fun i => default [] (get_descriptor s i)) (range 0 192).

Definition referenced_blocks (s : FileSystem) : nat :=
  length (concat (map blocks_of (descriptor_list s))).

Definition capacity_invariant (s : FileSystem) : Prop :=
  bitmap_ones s = (8 + referenced_blocks s)%nat.

(** Number of open slots bound to descriptor [d]. *)
Definition open_count (s : FileSystem) (d : Z) : nat :=
  length (filter (fun e => is_open_on d e = true) (oft s)).

(** The descriptor an open slot is bound to, [None] for a closed slot. *)
Definition open_key (e : slot) : option Z :=
  if current_pos e =? -1 then None else Some (descriptor_index e).

(** The content of the store object behind a slot's buffer. *)
Definition buffer_of (s : FileSystem) (index : nat) : list val :=
  obj (heap s) (buffer (slot_at s index)).

(** The content of the list stored at a disk index. *)
Definition block_content (s : FileSystem) (b : Z) : option (list val) :=
  match py_get (disk s) b with
  | Some (Obj l) => Some (obj (heap s) l)
  | _ => None
  end.

Definition bit (s : FileSystem) (i : Z) : option val :=
  py_get (obj (heap s) (bitmap s)) i.

(** A source buffer of [n] copies of the byte [x]. *)
Definition bytes (n : nat) (x : Z) : list Z := replicate n x.

(** ** seek, following the specification *)

(** The block slot of a descriptor that position [pos] falls in. *)
Definition block_slot (d : list Z) (pos : Z) : option Z := py_get d (1 + pos / 512).

(** The failure conditions of seek as the specification lists them: handle
    invalid or closed, position outside [[0, length]], block index beyond the
    third block, block slot not allocated. *)
Definition seek_error (s : FileSystem) (index : Z) (pos : Z) : bool :=
  match open_slot s index with
  | None => true
  | Some e =>
      match get_descriptor s (descriptor_index e) with
      | Some (len :: blocks) =>
          (pos <? 0) || (len <? pos) || (3 <=? pos / 512)
          || bool_decide (block_slot (len :: blocks) pos = Some 0)
      | _ => false
      end
  end.

(** What seek needs of the descriptor behind an open handle: it has its four
    fields and each block it names can be read from the disk. *)
Definition readable_descriptor (s : FileSystem) (d : list Z) : Prop :=
  length d = 4%nat /\
  forall k b, (1 <= k <= 3) -> py_get d k = Some b -> b <> 0 ->
              exists l, read_block s b = Ret l.

Definition seek_ready (s : FileSystem) (index : Z) : Prop :=
  forall e, open_slot s index = Some e ->
  exists d, get_descriptor s (descriptor_index e) = Some d /\ readable_descriptor s d.

(** The block that holds the byte just before the cursor of slot [index] is
    on disk what the slot's buffer holds, if the descriptor [desc_index] has
    that block allocated. *)
Definition flushed (s : FileSystem) (index : nat) (desc_index : Z) : Prop :=
  forall b,
    descriptor_field s desc_index (1 + (current_pos (slot_at s index) - 1) / 512) = Some b ->
    b <> 0 ->
    block_content s b = Some (buffer_of s index).

(** A source buffer of [n] bytes that differ from their neighbours. *)
Definition pattern (n : nat) : list Z := map (fun i => Z.of_nat (1 + i mod 250)) (seq 0 n).

(** ** At most one open slot per descriptor *)

Definition keys (s : FileSystem) : list (option Z) := map open_key (oft s).

(** The table has its four slots, cursors are never below the closed mark,
    and no two slots are open on the same descriptor. *)
Definition oft_ok (s : FileSystem) : Prop :=
  length (oft s) = 4%nat /\
  Forall (fun e => -1 <= current_pos e) (oft s) /\
  forall i j d, keys s !! i = Some (Some d) -> keys s !! j = Some (Some d) -> i = j.

(** Slot [index] keeps its descriptor and cached size; its buffer may be
    rebound and its cursor moved to another position that is not negative. *)
Definition slot_rebound (s s' : FileSystem) (index : nat) : Prop :=
  exists b p, 0 <= p /\
    oft s' = <[index := mkSlot b p (file_size (slot_at s index))
                               (descriptor_index (slot_at s index))]> (oft s).

(** ** What a write needs of the state *)

(** Number of free blocks of the data pool (bitmap cells 8.. that are 0). *)
Definition free_blocks_left (s : FileSystem) : nat :=
  length (filter (fun v => is_zero v = true) (drop 8 (obj (heap s) (bitmap s)))).

(** The state of a slot through which bytes can be written: the table and
    the disk have their sizes, the bitmap is a 64-cell list of its own, the
    slot's buffer is a 512-cell list other than the bitmap, and the descriptor
    has its four fields, with block numbers that are disk indices. *)
Definition write_ready (s : FileSystem) (index : nat) (di : Z) : Prop :=
  (index < length (oft s))%nat /\
  length (disk s) = 64%nat /\
  length (obj (heap s) (bitmap s)) = 64%nat /\
  buffer (slot_at s index) <> bitmap s /\
  length (buffer_of s index) = 512%nat /\
  exists d, get_descriptor s di = Some d /\ length d = 4%nat /\
            forall k b, 1 <= k <= 3 -> py_get d k = Some b -> 0 <= b <= 63.

(** Block boundaries (512, 1024) that a run of [n] bytes from cursor [p]
    starts a block at. *)
Definition crossings (p : Z) (n : nat) : nat :=
  length (filter (fun k => p <= 512 * k < p + Z.of_nat n) [1; 2]).

(** A pass of the write loop takes a new block when the cursor is on the
    first byte of the second or third block. *)
Definition grows (p : Z) : bool := (p mod 512 =? 0) && (0 <? p / 512).

(** What a run of [w] passes from cursor [p] leaves: the slot is ready again
    with its cursor at [p + w]; block slots whose boundary the run did not
    start on are unchanged; each block slot whose boundary it did start on
    names a block of the pool whose bit is set; bits that were set stay set. *)
Definition write_run_post (s s' : FileSystem) (index : nat) (di p w : Z) : Prop :=
  write_ready s' index di /\
  current_pos (slot_at s' index) = p + w /\
  bitmap s' = bitmap s /\
  (forall j, 1 <= j <= 3 -> (j = 1 \/ 512 * (j - 1) < p \/ p + w <= 512 * (j - 1)) ->
             descriptor_field s' di j = descriptor_field s di j) /\
  (forall j, 2 <= j <= 3 -> p <= 512 * (j - 1) < p + w ->
             exists nb : nat, (8 <= nb <= 63)%nat /\
               descriptor_field s' di j = Some (Z.of_nat nb) /\
               obj (heap s') (bitmap s') !! nb = Some (VInt 1)) /\
  (forall nb, obj (heap s) (bitmap s) !! nb = Some (VInt 1) ->
              obj (heap s') (bitmap s') !! nb = Some (VInt 1)).

(** ** Consistency of the allocator *)

(** The non-zero block fields of a descriptor, free or not. *)
Definition nz (d : list Z) : list Z := filter (fun b => b <> 0) (take 3 (drop 1 d)).

(** All block numbers held by the descriptor table. *)
Definition refs (s : FileSystem) : list Z := concat (map nz (descriptor_list s)).

(** A list object that can serve as a block buffer: 512 cells, and not the
    bitmap. *)
Definition data_obj (s : FileSystem) (l : loc) : Prop :=
  l <> bitmap s /\ length (obj (heap s) l) = 512%nat.

Definition shape_ok (s : FileSystem) : Prop :=
  length (oft s) = 4%nat /\ length (disk s) = 64%nat /\
  bitmap s <> directory s /\
  length (obj (heap s) (bitmap s)) = 64%nat /\
  length (obj (heap s) (directory s)) = 64%nat.

(** The blocks of the pool hold data lists, and so do the buffers of slots
    1..3; an open slot among them has a cursor and a descriptor in range. *)
Definition data_ok (s : FileSystem) : Prop :=
  (forall b : nat, (8 <= b <= 63)%nat ->
     exists l, disk s !! b = Some (Obj l) /\ data_obj s l) /\
  (forall (i : nat) (e : slot), (1 <= i)%nat -> oft s !! i = Some e ->
     data_obj s (buffer e) /\
     (current_pos e <> -1 -> 0 <= current_pos e /\ 1 <= descriptor_index e < 192)).

(** A descriptor of a file: four fields, blocks in the pool or 0, and no
    block at all while it is free. *)
Definition descriptor_ok (d : list Z) : Prop :=
  length d = 4%nat /\
  (forall k b, 1 <= k <= 3 -> py_get d k = Some b -> b = 0 \/ 8 <= b <= 63) /\
  (py_get d 0 = Some (-1) -> nz d = []).

Definition descs_ok (s : FileSystem) : Prop :=
  get_descriptor s 0 = Some [0; 7; 0; 0] /\
  forall di, 1 <= di < 192 -> exists d, get_descriptor s di = Some d /\ descriptor_ok d.

(** No block is held twice, every block held has its bit set, and the bits
    set are the seven reserved blocks 0..6 and the blocks held. *)
Definition bits_ok (s : FileSystem) : Prop :=
  NoDup (refs s) /\
  (forall b, b ∈ refs s -> bit s b = Some (VInt 1)) /\
  bitmap_ones s = (7 + length (refs s))%nat.

(** A named directory entry points to a descriptor of its own that is in
    use and has its first block. *)
Definition dir_ok (s : FileSystem) : Prop :=
  forall i name d,
    obj (heap s) (directory s) !! i = Some (VEntry name d) -> name <> "" ->
    1 <= d < 192 /\
    (exists desc len b1, get_descriptor s d = Some desc /\
       py_get desc 0 = Some len /\ len <> -1 /\
       py_get desc 1 = Some b1 /\ 8 <= b1 <= 63) /\
    (forall j name', obj (heap s) (directory s) !! j = Some (VEntry name' d) ->
       name' <> "" -> i = j).

Definition fs_ok (s : FileSystem) : Prop :=
  shape_ok s /\ data_ok s /\ descs_ok s /\ bits_ok s /\ dir_ok s.

(** ** Calls that keep to the interface *)

(** A write of [count] bytes through [index] starts no block that the
    descriptor already has. *)
Definition write_fresh (s : FileSystem) (index : Z) (count : Z) : Prop :=
  forall e, open_slot s index = Some e ->
  forall k, 1 <= k <= 2 -> current_pos e <= 512 * k < current_pos e + count ->
  descriptor_field s (descriptor_index e) (1 + k) = Some 0.

(** File names are not empty, handle 0 is left to the directory, a write
    brings at least [count] bytes and starts no block anew. *)
Definition admissible (s : FileSystem) (c : call) : Prop :=
  match c with
  | Init | ListDirectory => True
  | Create f | Destroy f | Open f => f <> ""
  | Close i | Seek i _ | Read i _ _ => i <> 0
  | Write i src n => i <> 0 /\ n <= Z.of_nat (length src) /\ write_fresh s i n
  end.

Inductive reachable_by_interface : FileSystem -> Prop :=
  | by_interface_init : reachable_by_interface init
  | by_interface_step s c :
      reachable_by_interface s -> admissible s c -> reachable_by_interface (step s c).

(** Slot [index] is rebound as read and seek do it: nothing but the table
    changes, the slot keeps its descriptor, and its buffer is the old one or
    the list stored at a block the descriptor names. *)
Definition slot_loaded (s s' : FileSystem) (index : nat) : Prop :=
  heap s' = heap s /\ disk s' = disk s /\ descriptors s' = descriptors s /\
  bitmap s' = bitmap s /\ directory s' = directory s /\
  exists b p, 0 <= p /\
    oft s' = <[index := mkSlot b p (file_size (slot_at s index))
                               (descriptor_index (slot_at s index))]> (oft s) /\
    (b = buffer (slot_at s index) \/
     exists d k bn, get_descriptor s (descriptor_index (slot_at s index)) = Some d /\
                    0 <= k /\ py_get d (1 + k) = Some bn /\ bn <> 0 /\
                    read_block s bn = Ret b).

(** The bitmap cells after the loop of destroy has cleared the blocks [bs]. *)
Definition clear_bits (bits : list val) (bs : list Z) : list val :=
  foldl (fun acc b => <[Z.to_nat b := VInt 0]> acc) bits bs.

(** What a pass of the write loop leaves alone, for a slot bound to
    descriptor [di]: the bitmap and directory references, every other
    descriptor, the content of the directory list, the data lists, and the
    disk but for blocks that now hold a data list. *)
Definition pass_frame (di : Z) (s s' : FileSystem) : Prop :=
  bitmap s' = bitmap s /\ directory s' = directory s /\
  (length (heap s) <= length (heap s'))%nat /\
  (forall j, 0 <= j -> j <> di -> get_descriptor s' j = get_descriptor s j) /\
  obj (heap s') (directory s') = obj (heap s) (directory s) /\
  (forall l, data_obj s l -> data_obj s' l) /\
  (forall b, disk s' !! b = disk s !! b \/
             exists l, disk s' !! b = Some (Obj l) /\ data_obj s' l).

(** The bitmap and the directory are two objects of the store. *)
Definition valid_locs (s : FileSystem) : Prop :=
  bitmap s <> directory s /\
  (bitmap s < length (heap s))%nat /\ (directory s < length (heap s))%nat.

(** Every call of a sequence keeps to the interface in the state it is
    made in. *)
Fixpoint admissible_run (s : FileSystem) (cs : list call) : Prop :=
  match cs with
  | [] => True
  | c :: cs' => admissible s c /\ admissible_run (step s c) cs'
  end.

(** Every cell of the directory list is an entry (a name and a descriptor
    index), as [init] makes them. *)
Definition is_entry (v : val) : bool :=
  match v with
  | VEntry _ _ => true
  | VInt _ => false
  end.

Definition directory_intact (s : FileSystem) : Prop :=
  Forall (fun v => is_entry v = true) (obj (heap s) (directory s)).

(** No two entries of the directory carry the same file name, and a free
    entry is [["", 0]]. *)
Definition names_ok (s : FileSystem) : Prop :=
  (forall (i j : nat) name d d',
     obj (heap s) (directory s) !! i = Some (VEntry name d) ->
     obj (heap s) (directory s) !! j = Some (VEntry name d') ->
     name <> "" -> i = j) /\
  (forall (i : nat) d, obj (heap s) (directory s) !! i = Some (VEntry "" d) -> d = 0).

(** No descriptor records more than the 1536 bytes of three blocks, and no
    cursor is beyond them. *)
Definition sizes_ok (s : FileSystem) : Prop :=
  (forall di d len, 0 <= di < 192 -> get_descriptor s di = Some d ->
     py_get d 0 = Some len -> -1 <= len <= 1536) /\
  (forall (i : nat) e, oft s !! i = Some e -> -1 <= current_pos e <= 1536).

(** ** Reading *)

(** The buffer a slot has after "load block [k] of the descriptor if it is
    allocated": the list stored at that block, or the buffer [dflt] the slot
    had. *)
Definition block_buffer (s : FileSystem) (d : list Z) (k : Z) (dflt : loc) : loc :=
  match py_get d (1 + k) with
  | Some bn =>
      if bn =? 0 then dflt
      else match read_block s bn with
           | Ret l => l
           | Raise _ => dflt
           end
  | None => dflt
  end.

(** The buffer a pass of the read loop takes its byte from, at cursor [p]
    with [br] bytes read so far. *)
Definition pass_buffer (s : FileSystem) (d : list Z) (p br : Z) (b : loc) : loc :=
  if (0 <? p / 512) && (br =? 0) then block_buffer s d (p / 512) b else b.

(** The buffer the pass leaves in the slot: the next block's when the
    cursor has reached it and more bytes are wanted. *)
Definition next_buffer (s : FileSystem) (d : list Z) (p : Z) (last : bool) (b : loc) : loc :=
  if ((p + 1) mod 512 =? 0) && negb last && ((p + 1) / 512 <? 3)
  then block_buffer s d ((p + 1) / 512) b else b.

(** The pass ends the loop when the next block is wanted and is beyond the
    third or not allocated. *)
Definition pass_stops (d : list Z) (p : Z) (last : bool) : bool :=
  ((p + 1) mod 512 =? 0) && negb last &&
  (negb ((p + 1) / 512 <? 3) ||
   match py_get d (1 + (p + 1) / 512) with Some bn => bn =? 0 | None => false end).

(** What the read loop needs: a four-field descriptor of at most 1536
    bytes whose blocks can be read and hold 512 cells, and a 512-cell
    buffer in the slot. *)
Definition read_ready (s : FileSystem) (index : nat) (d : list Z) : Prop :=
  (index < length (oft s))%nat /\
  length d = 4%nat /\
  (forall len, py_get d 0 = Some len -> len <= 1536) /\
  (forall k b, 1 <= k <= 3 -> py_get d k = Some b -> b <> 0 ->
     exists l, read_block s b = Ret l /\ length (obj (heap s) l) = 512%nat) /\
  length (obj (heap s) (buffer (slot_at s index))) = 512%nat /\
  0 <= current_pos (slot_at s index).

(** ** Where a byte is kept *)




(** ** Call sequences used as instances *)

(** A file [f] is created and opened (handle 1), 513 bytes are written, the
    cursor is put back on the first byte of the second block and one more
    byte is written. *)
Definition rewrite_second_block : list call :=
  [Create "f"; Open "f"; Write 1 (bytes 513 65) 513; Seek 1 512; Write 1 [66] 1].

(** A file is created, opened and filled up to the three-block ceiling. *)
Definition fill_file : list call :=
  [Create "f"; Open "f"; Write 1 (bytes 1536 65) 1536].

(** A handle that outlives its file: [f] is opened, destroyed, and its
    descriptor reused by [g]; slot 1 is still open on descriptor 1. *)
Definition stale_handle : list call :=
  [Create "f"; Open "f"; Destroy "f"; Create "g"].

(** The round trip of [n] bytes: create, open, write, close, open again
    and read [n] bytes into a list of [n] cells. *)
Definition round_trip (n : nat) : FileSystem * list val * result Z :=
  read (run [Create "f"; Open "f"; Write 1 (pattern n) (Z.of_nat n); Close 1; Open "f"])
       1 (zeros n) (Z.of_nat n).

(** Three files are created and opened, and a fourth is created. *)
Definition three_open_files : list call :=
  [Create "a"; Open "a"; Create "b"; Open "b"; Create "c"; Open "c"; Create "d"].

(** Create, open, write 600 bytes across the first block boundary, close,
    and write again from the start after reopening: the second write stays
    in the first block. *)
Definition two_blocks_then_rewrite : list call :=
  [Create "a"; Open "a"; Write 1 (bytes 600 65) 600; Close 1;
   Open "a"; Write 1 (bytes 10 66) 10; Close 1; Destroy "a"].


(** * Properties *)

(** ** Reachability *)

Lemma reachable_foldl (cs : list call) (s : FileSystem) :
  reachable s -> reachable (foldl step s cs).
Proof.
  revert s. induction cs as [|c cs IH]; intros s Hs; simpl.
  - exact Hs.
  - apply IH. apply reachable_step. exact Hs.
Qed.

Lemma reachable_run (cs : list call) : reachable (run cs).
Proof. apply reachable_foldl. apply reachable_init. Qed.

(** Closed goals about concrete runs are settled by evaluation, conjunct by
    conjunct. *)
Ltac by_evaluation :=
  lazymatch goal with
  | |- _ /\ _ => split; [vm_compute; reflexivity | by_evaluation]
  | |- _ => vm_compute; reflexivity
  end.

(** ** Python indexing *)

Lemma py_index_lt {A} (l : list A) (i : Z) (k : nat) :
  py_index l i = Some k -> (k < length l)%nat.
Proof.
  unfold py_index. intros H.
  destruct ((0 <=? i) && (i <? Z.of_nat (length l))) eqn:H1.
  - apply andb_true_iff in H1. destruct H1 as [Ha Hb].
    apply Z.leb_le in Ha. apply Z.ltb_lt in Hb. inversion H; subst. lia.
  - destruct ((i <? 0) && (- Z.of_nat (length l) <=? i)) eqn:H2; [|discriminate].
    apply andb_true_iff in H2. destruct H2 as [Ha Hb].
    apply Z.ltb_lt in Ha. apply Z.leb_le in Hb. inversion H; subst. lia.
Qed.

Lemma py_index_length {A B} (l : list A) (l' : list B) (i : Z) :
  length l = length l' -> py_index l i = py_index l' i.
Proof. unfold py_index. intros ->. reflexivity. Qed.

Lemma py_index_nonneg {A} (l : list A) (i : Z) :
  0 <= i -> i < Z.of_nat (length l) -> py_index l i = Some (Z.to_nat i).
Proof.
  intros H0 H1. unfold py_index.
  replace (0 <=? i) with true by (symmetry; apply Z.leb_le; lia).
  replace (i <? Z.of_nat (length l)) with true by (symmetry; apply Z.ltb_lt; lia).
  reflexivity.
Qed.

Lemma py_set_length {A} (l l' : list A) (i : Z) (x : A) :
  py_set l i x = Some l' -> length l' = length l.
Proof.
  unfold py_set. destruct (py_index l i); [|discriminate].
  intros H. inversion H. apply length_insert.
Qed.

Lemma py_get_set_eq {A} (l l' : list A) (i : Z) (x : A) :
  py_set l i x = Some l' -> py_get l' i = Some x.
Proof.
  intros H. pose proof (py_set_length _ _ _ _ H) as Hlen.
  unfold py_set in H. unfold py_get.
  rewrite (py_index_length l' l i Hlen).
  destruct (py_index l i) as [k|] eqn:Hk; [|discriminate].
  inversion H; subst. apply list_lookup_insert_eq. eapply py_index_lt; eauto.
Qed.

Lemma py_get_set_ne {A} (l l' : list A) (i j : Z) (x : A) :
  py_set l i x = Some l' -> py_index l i <> py_index l j -> py_get l' j = py_get l j.
Proof.
  intros H Hne. pose proof (py_set_length _ _ _ _ H) as Hlen.
  unfold py_set in H. unfold py_get.
  rewrite (py_index_length l' l j Hlen).
  destruct (py_index l i) as [k|] eqn:Hk; [|discriminate].
  inversion H; subst.
  destruct (py_index l j) as [k'|] eqn:Hk'; [|reflexivity].
  apply list_lookup_insert_ne. congruence.
Qed.

Lemma py_get_Some_nonneg {A} (l : list A) (i : Z) :
  0 <= i -> (i < Z.of_nat (length l)) -> exists x, py_get l i = Some x.
Proof.
  intros H0 H1. unfold py_get, py_index.
  replace (0 <=? i) with true by (symmetry; apply Z.leb_le; lia).
  replace (i <? Z.of_nat (length l)) with true by (symmetry; apply Z.ltb_lt; lia).
  simpl. apply lookup_lt_is_Some_2. lia.
Qed.

Lemma open_slot_Some (s : FileSystem) (index : Z) (e : slot) :
  open_slot s index = Some e ->
  0 <= index <= 3 /\ oft s !! Z.to_nat index = Some e /\ current_pos e <> -1.
Proof.
  unfold open_slot. intros H.
  destruct ((index <? 0) || (3 <? index)) eqn:Hr; [discriminate|].
  apply orb_false_iff in Hr. destruct Hr as [Ha Hb].
  apply Z.ltb_ge in Ha. apply Z.ltb_ge in Hb.
  destruct (oft s !! Z.to_nat index) as [e'|] eqn:He; [|discriminate].
  destruct (current_pos e' =? -1) eqn:Hp; [discriminate|].
  apply Z.eqb_neq in Hp. inversion H; subst. auto.
Qed.

Lemma slot_at_lookup (s : FileSystem) (i : nat) (e : slot) :
  oft s !! i = Some e -> slot_at s i = e.
Proof. unfold slot_at. intros ->. reflexivity. Qed.

Lemma py_index_nonneg_inv {A} (l : list A) (i : Z) (k : nat) :
  0 <= i -> py_index l i = Some k -> k = Z.to_nat i /\ i < Z.of_nat (length l).
Proof.
  intros H0. unfold py_index.
  destruct ((0 <=? i) && (i <? Z.of_nat (length l))) eqn:H1.
  - apply andb_true_iff in H1. destruct H1 as [_ Hb]. apply Z.ltb_lt in Hb.
    intros H. inversion H. auto.
  - replace (i <? 0) with false by (symmetry; apply Z.ltb_ge; lia). discriminate.
Qed.

Lemma py_get_set_ne_nonneg {A} (l l' : list A) (i j : Z) (x : A) :
  0 <= i -> 0 <= j -> i <> j ->
  py_set l i x = Some l' -> py_get l' j = py_get l j.
Proof.
  intros Hi Hj Hne H. eapply py_get_set_ne; eauto.
  unfold py_set in H. destruct (py_index l i) as [k|] eqn:Hk; [|discriminate].
  destruct (py_index_nonneg_inv _ _ _ Hi Hk) as [-> _].
  destruct (py_index l j) as [k'|] eqn:Hk'; [|discriminate].
  destruct (py_index_nonneg_inv _ _ _ Hj Hk') as [-> _].
  intros Heq. inversion Heq. lia.
Qed.

(** ** The descriptor table *)

Lemma set_descriptor_frame (s s' : FileSystem) (di : Z) (d : list Z) :
  set_descriptor s di d = Some s' ->
  heap s' = heap s /\ disk s' = disk s /\ bitmap s' = bitmap s /\
  directory s' = directory s /\ oft s' = oft s.
Proof.
  unfold set_descriptor. intros H.
  destruct (py_index (descriptors s) (di / 32)); [|discriminate].
  destruct (descriptors s !! n); [|discriminate].
  destruct (py_set l (di mod 32) d); [|discriminate].
  inversion H; subst. simpl. auto.
Qed.

Lemma get_set_descriptor_eq (s s' : FileSystem) (di : Z) (d : list Z) :
  set_descriptor s di d = Some s' -> get_descriptor s' di = Some d.
Proof.
  unfold set_descriptor, get_descriptor. intros H.
  destruct (py_index (descriptors s) (di / 32)) as [b|] eqn:Hb; [|discriminate].
  destruct (descriptors s !! b) as [blk|] eqn:Hblk; [|discriminate].
  destruct (py_set blk (di mod 32) d) as [blk'|] eqn:Hset; [|discriminate].
  inversion H; subst. simpl. unfold py_get at 1.
  rewrite (py_index_length (<[b:=blk']> (descriptors s)) (descriptors s));
    [|apply length_insert].
  rewrite Hb. rewrite list_lookup_insert_eq; [|eapply py_index_lt; eauto].
  eapply py_get_set_eq; eauto.
Qed.

Lemma set_descriptor_field_frame (s s' : FileSystem) (di k v : Z) :
  set_descriptor_field s di k v = Some s' ->
  heap s' = heap s /\ disk s' = disk s /\ bitmap s' = bitmap s /\
  directory s' = directory s /\ oft s' = oft s.
Proof.
  unfold set_descriptor_field. intros H.
  destruct (get_descriptor s di); [|discriminate].
  destruct (py_set l k v); [|discriminate].
  eapply set_descriptor_frame; eauto.
Qed.

Lemma descriptor_field_set_eq (s s' : FileSystem) (di k v : Z) :
  set_descriptor_field s di k v = Some s' -> descriptor_field s' di k = Some v.
Proof.
  unfold set_descriptor_field, descriptor_field. intros H.
  destruct (get_descriptor s di) as [d|]; [|discriminate].
  destruct (py_set d k v) as [d'|] eqn:Hd'; [|discriminate].
  rewrite (get_set_descriptor_eq _ _ _ _ H). eapply py_get_set_eq; eauto.
Qed.

Lemma descriptor_field_set_ne (s s' : FileSystem) (di k k' v : Z) :
  0 <= k -> 0 <= k' -> k <> k' ->
  set_descriptor_field s di k v = Some s' ->
  descriptor_field s' di k' = descriptor_field s di k'.
Proof.
  unfold set_descriptor_field, descriptor_field. intros Hk Hk' Hne H.
  destruct (get_descriptor s di) as [d|]; [|discriminate].
  destruct (py_set d k v) as [d'|] eqn:Hd'; [|discriminate].
  rewrite (get_set_descriptor_eq _ _ _ _ H).
  apply (py_get_set_ne_nonneg d d' k k' v); auto.
Qed.

(** ** Effects of the steps of write on the parts of the state *)

Lemma set_bit_frame (s s' : FileSystem) (i v : Z) :
  set_bit s i v = Some s' ->
  descriptors s' = descriptors s /\ disk s' = disk s /\ bitmap s' = bitmap s /\
  directory s' = directory s /\ oft s' = oft s /\
  length (heap s') = length (heap s).
Proof.
  unfold set_bit. intros H.
  destruct (py_set (obj (heap s) (bitmap s)) i (VInt v)); [|discriminate].
  inversion H; subst. simpl. unfold set_obj. rewrite length_insert. auto 10.
Qed.

Lemma write_block_frame (s s' : FileSystem) (b : Z) (data : loc) (r : result unit) :
  write_block s b data = (s', r) ->
  descriptors s' = descriptors s /\ bitmap s' = bitmap s /\
  directory s' = directory s /\ oft s' = oft s.
Proof.
  unfold write_block. intros H.
  destruct ((b <? 0) || (63 <? b)); [inversion H; subst; auto|].
  destruct (negb (length (obj (heap s) data) =? 512)%nat); [inversion H; subst; auto|].
  simpl in H. destruct (py_set (disk s) b (Obj (length (heap s))));
    inversion H; subst; simpl; auto.
Qed.

Lemma flush_frame (s s' : FileSystem) (index : nat) (di cbi : Z) (r : result unit) :
  flush s index di cbi = (s', r) ->
  descriptors s' = descriptors s /\ bitmap s' = bitmap s /\
  directory s' = directory s /\ oft s' = oft s.
Proof.
  unfold flush. intros H.
  destruct (descriptor_field s di (1 + cbi)); [|inversion H; subst; auto].
  destruct (z =? 0); [inversion H; subst; auto|].
  eapply write_block_frame; eauto.
Qed.

Lemma slot_at_set_slot (s : FileSystem) (index : nat) (e : slot) :
  (index < length (oft s))%nat -> slot_at (set_slot s index e) index = e.
Proof.
  intros H. unfold slot_at, set_slot. simpl.
  rewrite list_lookup_insert_eq; [reflexivity | exact H].
Qed.

Lemma slot_at_set_slot_ne (s : FileSystem) (index j : nat) (e : slot) :
  index <> j -> slot_at (set_slot s index e) j = slot_at s j.
Proof.
  intros H. unfold slot_at, set_slot. simpl.
  rewrite list_lookup_insert_ne; [reflexivity | exact H].
Qed.

Lemma grow_stop (s s1 : FileSystem) (index : nat) (di cbi : Z) :
  grow s index di cbi = (s1, Ret None) -> s1 = s.
Proof.
  unfold grow. intros H.
  destruct (find_free_block s) as [[nb|]|];
    [|inversion H; subst; reflexivity|discriminate].
  destruct (set_descriptor_field s di (1 + cbi) nb) as [s'|]; [|discriminate].
  destruct (set_bit s' nb 1) as [s''|]; [|discriminate].
  simpl in H. discriminate.
Qed.

(** What [grow] leaves of the open file table, whatever its outcome: at most
    the buffer of slot [index] is rebound. *)
Lemma grow_oft (s s1 : FileSystem) (index : nat) (di cbi : Z) (r : result (option unit)) :
  grow s index di cbi = (s1, r) ->
  bitmap s1 = bitmap s /\ directory s1 = directory s /\
  (oft s1 = oft s \/
   exists b, oft s1 = <[index := with_buffer (slot_at s index) b]> (oft s)).
Proof.
  unfold grow. intros H.
  destruct (find_free_block s) as [[nb|]|];
    [|inversion H; subst; auto|inversion H; subst; auto].
  destruct (set_descriptor_field s di (1 + cbi) nb) as [s'|] eqn:H1;
    [|inversion H; subst; auto].
  destruct (set_descriptor_field_frame _ _ _ _ _ H1) as (_ & _ & Hb1 & Hd1 & Ho1).
  destruct (set_bit s' nb 1) as [s''|] eqn:H2.
  - destruct (set_bit_frame _ _ _ _ H2) as (_ & _ & Hb2 & Hd2 & Ho2 & _).
    simpl in H. inversion H; subst. simpl.
    split; [congruence|]. split; [congruence|].
    right. eexists. unfold slot_at. rewrite Ho2, Ho1. reflexivity.
  - inversion H; subst. split; [congruence|]. split; [congruence|]. left. congruence.
Qed.

Lemma grow_length_field (s s1 : FileSystem) (index : nat) (di cbi : Z)
    (r : result (option unit)) :
  0 < cbi -> grow s index di cbi = (s1, r) ->
  descriptor_field s1 di 0 = descriptor_field s di 0.
Proof.
  unfold grow. intros Hc H.
  destruct (find_free_block s) as [[nb|]|];
    [|inversion H; subst; auto|inversion H; subst; auto].
  destruct (set_descriptor_field s di (1 + cbi) nb) as [s'|] eqn:H1;
    [|inversion H; subst; auto].
  assert (Hf : descriptor_field s' di 0 = descriptor_field s di 0).
  { eapply (descriptor_field_set_ne s s' di (1 + cbi) 0 nb); eauto; lia. }
  destruct (set_bit s' nb 1) as [s''|] eqn:H2.
  - destruct (set_bit_frame _ _ _ _ H2) as (Hd & _).
    simpl in H. inversion H; subst.
    unfold descriptor_field, get_descriptor in *. simpl. rewrite Hd. exact Hf.
  - inversion H; subst. exact Hf.
Qed.

Lemma update_length_effect (s s' : FileSystem) (index : nat) (di : Z) :
  update_length s index di = Some s' ->
  heap s' = heap s /\ disk s' = disk s /\ bitmap s' = bitmap s /\
  directory s' = directory s /\ oft s' = oft s /\
  exists L, descriptor_field s di 0 = Some L /\
            descriptor_field s' di 0 = Some (Z.max L (current_pos (slot_at s index))).
Proof.
  unfold update_length. intros H.
  destruct (descriptor_field s di 0) as [L|] eqn:HL; [|discriminate].
  destruct (L <? current_pos (slot_at s index)) eqn:Hlt.
  - apply Z.ltb_lt in Hlt.
    destruct (set_descriptor_field_frame _ _ _ _ _ H) as (? & ? & ? & ? & ?).
    repeat (split; [assumption|]). exists L. split; [reflexivity|].
    rewrite (descriptor_field_set_eq _ _ _ _ _ H). f_equal. lia.
  - apply Z.ltb_ge in Hlt. inversion H; subst.
    repeat (split; [reflexivity|]). exists L. split; [reflexivity|].
    rewrite HL. f_equal. lia.
Qed.

(** ** Concrete runs *)

(** C1, as stated, fails in the initial state: [init] marks blocks 0..7 and
    binds descriptor 0 to block 7, so 8 bits are set while one block number is
    already held by a descriptor that is not free. *)
Lemma C1_counterexample :
  reachable init /\ bitmap_ones init = 8%nat /\ referenced_blocks init = 1%nat /\
  ~ capacity_invariant init.
Proof.
  split; [apply reachable_init|].
  assert (H1 : bitmap_ones init = 8%nat) by (vm_compute; reflexivity).
  assert (H2 : referenced_blocks init = 1%nat) by (vm_compute; reflexivity).
  split; [exact H1|]. split; [exact H2|].
  unfold capacity_invariant. rewrite H1, H2. discriminate.
Qed.

(** [write] takes a new block whenever the cursor is at offset 0 of block 1
    or 2, without looking at the descriptor's slot: block 9 stays marked in
    the bitmap while the descriptor now names block 10. *)
Lemma write_leaks_block :
  get_descriptor (run (take 3 rewrite_second_block)) 1 = Some [513; 8; 9; 0] /\
  bitmap_ones (run (take 3 rewrite_second_block)) = 10%nat /\
  referenced_blocks (run (take 3 rewrite_second_block)) = 3%nat /\
  get_descriptor (run rewrite_second_block) 1 = Some [513; 8; 10; 0] /\
  bit (run rewrite_second_block) 9 = Some (VInt 1) /\
  bitmap_ones (run rewrite_second_block) = 11%nat /\
  referenced_blocks (run rewrite_second_block) = 3%nat.
Proof. by_evaluation. Qed.

(** C2: with the cursor at 1536 [close] computes block index 3 and reads
    [descriptor[4]]: [IndexError] escapes, and the slot is left open. *)
Theorem C2_close_at_ceiling_raises :
  reachable (run fill_file) /\
  open_slot (run fill_file) 1 = Some (mkSlot 71%nat 1536 0 1) /\
  close (run fill_file) 1 = (run fill_file, Raise IndexError).
Proof.
  split; [apply reachable_run|].
  split; vm_compute; reflexivity.
Qed.

(** C3: the round trip with n = 1536.  The write succeeds, [close] raises
    (the slot stays open), so the second [open] finds the file already open
    and returns -1; a read on that result is rejected. *)
Theorem C3_round_trip_fails_at_1536 :
  snd (create init "f") = Ret 0 /\
  snd (open (run [Create "f"]) "f") = Ret 1 /\
  snd (write (run [Create "f"; Open "f"]) 1 (bytes 1536 65) 1536) = Ret 1536 /\
  snd (close (run fill_file) 1) = Raise IndexError /\
  snd (open (run (fill_file ++ [Close 1])) "f") = Ret (-1) /\
  snd (read (run (fill_file ++ [Close 1; Open "f"])) (-1) (zeros 1536) 1536) = Ret (-1).
Proof. by_evaluation. Qed.

(** C4: [close(0)] is accepted in the initial state and closes slot 0; the
    next [open] still skips slot 0. *)
Theorem C4_close_0_closes_directory_slot :
  open_slot init 0 = Some (mkSlot 7%nat 0 0 0) /\
  snd (close init 0) = Ret 0 /\
  oft (run [Close 0]) !! 0%nat = Some (closed_slot 68%nat) /\
  open_slot (run [Close 0]) 0 = None /\
  reachable (run [Close 0]).
Proof.
  split; [vm_compute; reflexivity|].
  split; [vm_compute; reflexivity|].
  split; [vm_compute; reflexivity|].
  split; [vm_compute; reflexivity|].
  apply reachable_run.
Qed.

(** C10: a write through handle 0 stores its byte in the directory list
    (slot 0 buffers that very list) before [write_block] rejects the 64-cell
    buffer; [create] then subscripts the integer and raises [TypeError]. *)
Theorem C10_create_empty_raises_on_overwritten_directory :
  snd (write init 0 [65] 1) = Raise ValueError /\
  obj (heap (run [Write 0 [65] 1])) (directory (run [Write 0 [65] 1])) !! 0%nat
    = Some (VInt 65) /\
  create (run [Write 0 [65] 1]) "" = (run [Write 0 [65] 1], Raise TypeError) /\
  reachable (run [Write 0 [65] 1]).
Proof.
  split; [vm_compute; reflexivity|].
  split; [vm_compute; reflexivity|].
  split; [vm_compute; reflexivity|].
  apply reachable_run.
Qed.

(** C6, as stated, fails for a write that is cut at the ceiling: 1537 bytes
    are asked for at cursor 0 of a new file, 1536 are written and the length
    is 1536, not max(0, 0 + 1537). *)
Lemma C6_counterexample :
  open_slot (run [Create "f"; Open "f"]) 1 = Some (mkSlot 8%nat 0 0 1) /\
  descriptor_field (run [Create "f"; Open "f"]) 1 0 = Some 0 /\
  snd (write (run [Create "f"; Open "f"]) 1 (bytes 1537 65) 1537) = Ret 1536 /\
  descriptor_field (run [Create "f"; Open "f"; Write 1 (bytes 1537 65) 1537]) 1 0
    = Some 1536 /\
  1536 <> Z.max 0 (0 + 1537).
Proof. repeat (split; [vm_compute; reflexivity|]). lia. Qed.

(** ** seek *)

(** C9: behind an open handle whose descriptor is readable, seek returns the
    error value exactly under the listed conditions, and changes nothing
    then; otherwise it returns [pos], and the state it leaves is the old one
    with the slot's buffer bound to the list stored at the block containing
    [pos] and its cursor set to [pos]: store (bitmap included), disk and
    descriptor table (lengths included) are the old ones. *)
Theorem C9_seek_specification (s : FileSystem) (index pos : Z) :
  seek_ready s index ->
  (seek_error s index pos = true /\ seek s index pos = (s, Ret (-1))) \/
  (seek_error s index pos = false /\
   exists e d b l,
     open_slot s index = Some e /\
     get_descriptor s (descriptor_index e) = Some d /\
     0 <= pos /\ (forall len, py_get d 0 = Some len -> pos <= len) /\
     block_slot d pos = Some b /\ b <> 0 /\ read_block s b = Ret l /\
     seek s index pos =
       (set_slot s (Z.to_nat index) (mkSlot l pos (file_size e) (descriptor_index e)),
        Ret pos) /\
     heap (fst (seek s index pos)) = heap s /\
     bitmap (fst (seek s index pos)) = bitmap s /\
     disk (fst (seek s index pos)) = disk s /\
     descriptors (fst (seek s index pos)) = descriptors s).
Proof.
  intros Hready. unfold seek_ready in Hready.
  unfold seek_error, seek.
  destruct (open_slot s index) as [e|] eqn:Ho; [|left; auto].
  destruct (Hready e eq_refl) as (d & Hd & Hlen & Hread). rewrite Hd.
  destruct d as [|len blocks]; [discriminate|].
  replace (py_get (len :: blocks) 0) with (Some len) by reflexivity.
  destruct ((pos <? 0) || (len <? pos)) eqn:Hrange; [left; auto|].
  apply orb_false_iff in Hrange. destruct Hrange as [Hp0 Hp1].
  apply Z.ltb_ge in Hp0. apply Z.ltb_ge in Hp1. simpl orb.
  destruct (pos / 512 <? 3) eqn:Hblk.
  - apply Z.ltb_lt in Hblk.
    replace (3 <=? pos / 512) with false by (symmetry; apply Z.leb_gt; lia).
    simpl orb.
    assert (Hk : 0 <= pos / 512) by (apply Z.div_pos; lia).
    destruct (py_get_Some_nonneg (len :: blocks) (1 + pos / 512)) as [b Hb];
      [lia | rewrite Hlen; lia |].
    unfold load_block, block_slot. rewrite Hb.
    destruct (b =? 0) eqn:Hb0.
    + apply Z.eqb_eq in Hb0. subst b. left. split; [|reflexivity].
      apply bool_decide_eq_true. reflexivity.
    + apply Z.eqb_neq in Hb0. right. split.
      { apply bool_decide_eq_false. congruence. }
      destruct (Hread (1 + pos / 512) b) as [l Hl]; [lia | exact Hb | exact Hb0 |].
      rewrite Hl. exists e, (len :: blocks), b, l.
      assert (Hslot : slot_at (set_slot s (Z.to_nat index) (with_buffer e l)) (Z.to_nat index)
                      = with_buffer e l).
      { destruct (open_slot_Some _ _ _ Ho) as (_ & Hl1 & _).
        unfold slot_at, set_slot. simpl.
        rewrite list_lookup_insert_eq; [reflexivity|].
        eapply lookup_lt_Some; eauto. }
      rewrite Hslot. unfold set_slot, with_oft, with_pos, with_buffer. simpl.
      rewrite list_insert_insert_eq.
      repeat split; auto.
      intros len' Hl'. inversion Hl'; subst. lia.
  - apply Z.ltb_ge in Hblk.
    replace (3 <=? pos / 512) with true by (symmetry; apply Z.leb_le; lia).
    left. auto.
Qed.

Lemma C9_seek_specification_witness :
  seek_ready (run [Create "f"; Open "f"]) 1 /\
  snd (seek (run [Create "f"; Open "f"]) 1 0) = Ret 0.
Proof.
  assert (Hready : seek_ready (run [Create "f"; Open "f"]) 1).
  { intros e He. vm_compute in He. inversion He; subst e. clear He.
    exists [0; 8; 0; 0]. split; [vm_compute; reflexivity|].
    split; [reflexivity|].
    intros k b Hk Hget Hb.
    assert (Hcases : k = 1 \/ k = 2 \/ k = 3) by lia.
    destruct Hcases as [-> | [-> | ->]]; vm_compute in Hget; inversion Hget; subst b.
    - exists 8%nat. vm_compute. reflexivity.
    - contradiction.
    - contradiction. }
  split; [exact Hready|].
  destruct (C9_seek_specification _ 1 0 Hready) as [[Herr _]|(_ & e & d & b & l & _ & _ & _ & _ & _ & _ & _ & Hs & _)].
  - vm_compute in Herr. discriminate.
  - rewrite Hs. reflexivity.
Defined.

(** ** One pass of the write loop *)

Lemma write_body_stop (s s' : FileSystem) (index : nat) (di : Z)
    (byte : option Z) (last : bool) :
  write_body s index di byte last = (s', Ret Stop) ->
  s' = s /\
  (3 <= current_pos (slot_at s index) / 512 \/
   (current_pos (slot_at s index) mod 512 = 0 /\ 0 < current_pos (slot_at s index) / 512)).
Proof.
  unfold write_body. intros H.
  destruct (3 <=? current_pos (slot_at s index) / 512) eqn:H3.
  { apply Z.leb_le in H3. inversion H; subst. auto. }
  destruct ((current_pos (slot_at s index) mod 512 =? 0)
            && (0 <? current_pos (slot_at s index) / 512)) eqn:Hg.
  - apply andb_true_iff in Hg. destruct Hg as [Ha Hb].
    apply Z.eqb_eq in Ha. apply Z.ltb_lt in Hb.
    destruct (grow s index di (current_pos (slot_at s index) / 512)) as [s1 [[u|]|x]] eqn:Hgrow.
    + exfalso. destruct byte; [|discriminate].
      destruct (py_set _ _ _); [|discriminate].
      destruct (if _ : bool then _ else _) as [s4 [u'|x]]; [|discriminate].
      destruct (update_length s4 index di); discriminate.
    + inversion H; subst. split; [eapply grow_stop; eauto|]. auto.
    + discriminate.
  - exfalso. destruct byte; [|discriminate].
    destruct (py_set _ _ _); [|discriminate].
    destruct (if _ : bool then _ else _) as [s4 [u'|x]]; [|discriminate].
    destruct (update_length s4 index di); discriminate.
Qed.

Lemma write_body_continue_inv (s s' : FileSystem) (index : nat) (di : Z)
    (byte : option Z) (last : bool) :
  write_body s index di byte last = (s', Ret Continue) ->
  let cbi := current_pos (slot_at s index) / 512 in
  let bp := current_pos (slot_at s index) mod 512 in
  cbi < 3 /\
  exists s1 x data s4,
    (if (bp =? 0) && (0 <? cbi)
     then grow s index di cbi = (s1, Ret (Some tt)) else s1 = s) /\
    byte = Some x /\
    py_set (obj (heap s1) (buffer (slot_at s1 index))) bp (VInt x) = Some data /\
    (if (bp =? 511) || last
     then flush (set_slot (with_heap s1 (set_obj (heap s1) (buffer (slot_at s1 index)) data))
                   index (with_pos (slot_at s1 index) (current_pos (slot_at s1 index) + 1)))
            index di cbi = (s4, Ret tt)
     else s4 = set_slot (with_heap s1 (set_obj (heap s1) (buffer (slot_at s1 index)) data))
                   index (with_pos (slot_at s1 index) (current_pos (slot_at s1 index) + 1))) /\
    update_length s4 index di = Some s'.
Proof.
  intros H. cbv zeta. unfold write_body in H.
  set (cbi := current_pos (slot_at s index) / 512) in *.
  set (bp := current_pos (slot_at s index) mod 512) in *.
  destruct (3 <=? cbi) eqn:H3; [discriminate|].
  apply Z.leb_gt in H3. split; [exact H3|].
  destruct (if (bp =? 0) && (0 <? cbi) then grow s index di cbi else (s, Ret (Some tt)))
    as [s1 [[u|]|x]] eqn:Hg; [|discriminate|discriminate].
  destruct byte as [x|]; [|discriminate].
  destruct (py_set (obj (heap s1) (buffer (slot_at s1 index))) bp (VInt x)) as [data|] eqn:Hd;
    [|discriminate].
  match type of H with
  | context [if ?c then flush ?a ?b ?c1 ?d else ?e] =>
      destruct (if c then flush a b c1 d else e) as [s4 [u'|x']] eqn:Hf; [|discriminate]
  end.
  destruct (update_length s4 index di) as [s5|] eqn:Hu; [|discriminate].
  inversion H; subst s5.
  exists s1, x, data, s4.
  split.
  { destruct ((bp =? 0) && (0 <? cbi)).
    - destruct u. exact Hg.
    - inversion Hg. reflexivity. }
  split; [reflexivity|]. split; [exact Hd|]. split; [|exact Hu].
  destruct ((bp =? 511) || last).
  - destruct u'. exact Hf.
  - inversion Hf. reflexivity.
Qed.

Lemma descriptor_field_ext (s s' : FileSystem) (di k : Z) :
  descriptors s' = descriptors s -> descriptor_field s' di k = descriptor_field s di k.
Proof. unfold descriptor_field, get_descriptor. intros ->. reflexivity. Qed.

(** The open file table and the length field after a pass that stored a
    byte: slot [index] has advanced by one (its buffer possibly rebound), and
    the length is the larger of the old length and the new cursor. *)
Lemma write_body_continue_effect (s s' : FileSystem) (index : nat) (di : Z)
    (byte : option Z) (last : bool) :
  (index < length (oft s))%nat ->
  write_body s index di byte last = (s', Ret Continue) ->
  bitmap s' = bitmap s /\ directory s' = directory s /\
  (exists b, oft s' = <[index := mkSlot b (current_pos (slot_at s index) + 1)
                                   (file_size (slot_at s index))
                                   (descriptor_index (slot_at s index))]> (oft s)) /\
  exists L, descriptor_field s di 0 = Some L /\
            descriptor_field s' di 0 = Some (Z.max L (current_pos (slot_at s index) + 1)).
Proof.
  intros Hidx H.
  destruct (write_body_continue_inv _ _ _ _ _ _ H) as (Hc & s1 & x & data & s4 & Hg & _ & _ & Hf & Hu).
  set (e := slot_at s index) in *.
  (* after grow *)
  assert (G : bitmap s1 = bitmap s /\ directory s1 = directory s /\
              descriptor_field s1 di 0 = descriptor_field s di 0 /\
              exists b, oft s1 = <[index := with_buffer e b]> (oft s)).
  { destruct ((current_pos e mod 512 =? 0) && (0 <? current_pos e / 512)) eqn:Hcond.
    - apply andb_true_iff in Hcond. destruct Hcond as [_ Hpos]. apply Z.ltb_lt in Hpos.
      destruct (grow_oft _ _ _ _ _ _ Hg) as (Hb & Hd & Ho).
      split; [exact Hb|]. split; [exact Hd|].
      split; [eapply grow_length_field; eauto|].
      destruct Ho as [Ho|[b Ho]].
      + exists (buffer e). rewrite Ho. symmetry. apply list_insert_id.
        unfold e, slot_at. destruct (oft s !! index) as [e0|] eqn:He0.
        * destruct e0; reflexivity.
        * apply lookup_ge_None in He0. lia.
      + exists b. exact Ho.
    - subst s1. repeat (split; [reflexivity|]).
      exists (buffer e). symmetry. apply list_insert_id.
      unfold e, slot_at. destruct (oft s !! index) as [e0|] eqn:He0.
      + destruct e0; reflexivity.
      + apply lookup_ge_None in He0. lia. }
  destruct G as (Gb & Gd & Gl & b & Go).
  assert (He1 : slot_at s1 index = with_buffer e b).
  { unfold slot_at. rewrite Go. rewrite list_lookup_insert_eq; [reflexivity|exact Hidx]. }
  rewrite He1 in *.
  set (s3 := set_slot (with_heap s1 (set_obj (heap s1) (buffer (with_buffer e b)) data)) index
               (with_pos (with_buffer e b) (current_pos (with_buffer e b) + 1))) in *.
  assert (F : descriptors s4 = descriptors s3 /\ bitmap s4 = bitmap s3 /\
              directory s4 = directory s3 /\ oft s4 = oft s3).
  { destruct ((current_pos e mod 512 =? 511) || last).
    - eapply flush_frame; eauto.
    - subst s4. auto. }
  destruct F as (Fd & Fb & Fdir & Fo).
  destruct (update_length_effect _ _ _ _ Hu) as (_ & _ & Ub & Udir & Uo & L & UL & UL').
  split; [rewrite Ub, Fb; exact Gb|].
  split; [rewrite Udir, Fdir; exact Gd|].
  split.
  - exists b. rewrite Uo, Fo. unfold s3, set_slot. simpl. rewrite Go.
    rewrite list_insert_insert_eq. reflexivity.
  - exists L. split.
    + rewrite <- Gl. rewrite <- UL. symmetry.
      rewrite (descriptor_field_ext s3 s4 di 0 Fd). reflexivity.
    + rewrite UL'. f_equal. f_equal.
      unfold slot_at. rewrite Fo. unfold s3, set_slot. simpl.
      rewrite list_lookup_insert_eq; [reflexivity|].
      rewrite Go. rewrite length_insert. exact Hidx.
Qed.

(** ** The length field under write *)

Lemma write_loop_length (r : nat) :
  forall (s : FileSystem) (index : nat) (di : Z) (src : list Z) (bw : Z)
         (s' : FileSystem) (k : Z),
  (index < length (oft s))%nat ->
  write_loop r s index di src bw = (s', Ret k) ->
  bw <= k <= bw + Z.of_nat r /\
  (length (oft s') = length (oft s)) /\
  current_pos (slot_at s' index) = current_pos (slot_at s index) + (k - bw) /\
  (k = bw -> s' = s) /\
  (bw < k -> forall L, descriptor_field s di 0 = Some L ->
     descriptor_field s' di 0 = Some (Z.max L (current_pos (slot_at s index) + (k - bw)))).
Proof.
  induction r as [|r IH]; intros s index di src bw s' k Hidx H; simpl in H.
  - inversion H; subst.
    split; [lia|]. split; [reflexivity|]. split; [lia|]. split; [reflexivity|intros; lia].
  - destruct (write_body s index di (head src) (Nat.eqb r 0)) as [s1 [[|]|x]] eqn:Hb;
      [| |discriminate].
    + inversion H; subst. destruct (write_body_stop _ _ _ _ _ _ Hb) as [-> _].
      split; [lia|]. split; [reflexivity|]. split; [lia|]. split; [reflexivity|intros; lia].
    + destruct (write_body_continue_effect _ _ _ _ _ _ Hidx Hb)
        as (_ & _ & [b Ho] & L1 & HL1 & HL1').
      assert (Hlen1 : length (oft s1) = length (oft s)) by (rewrite Ho; apply length_insert).
      assert (Hpos1 : current_pos (slot_at s1 index) = current_pos (slot_at s index) + 1).
      { unfold slot_at at 1. rewrite Ho.
        rewrite list_lookup_insert_eq; [reflexivity|exact Hidx]. }
      destruct (IH s1 index di (tail src) (bw + 1) s' k) as (Hk & Hlen & Hpos & Hsame & Hfield);
        [lia | exact H |].
      split; [lia|]. split; [congruence|]. split; [lia|]. split; [intros; lia|].
      intros _ L HL. rewrite HL in HL1. inversion HL1; subst L1.
      destruct (Z.eq_dec k (bw + 1)) as [->|Hne].
      * rewrite (Hsame eq_refl). rewrite HL1'. f_equal. lia.
      * rewrite (Hfield ltac:(lia) _ HL1'). f_equal. lia.
Qed.

(** C6, amended: behind an open handle with cursor [c] and length [L], a
    write that returns [k] (the number of bytes it stored, which is smaller
    than the count asked for when the three-block ceiling or the lack of a
    free block stops it) leaves the length at [max L (c + k)] when [k > 0] and
    at [L] when [k = 0]; the length never decreases. *)
Theorem C6_length_after_write (s s' : FileSystem) (index : Z) (src : list Z)
    (count k : Z) (e : slot) (L : Z) :
  open_slot s index = Some e ->
  descriptor_field s (descriptor_index e) 0 = Some L ->
  write s index src count = (s', Ret k) ->
  0 <= k /\ k <= Z.max 0 count /\
  descriptor_field s' (descriptor_index e) 0
    = Some (if k =? 0 then L else Z.max L (current_pos e + k)) /\
  (forall L', descriptor_field s' (descriptor_index e) 0 = Some L' -> L <= L').
Proof.
  intros Ho HL Hw. unfold write in Hw. rewrite Ho in Hw.
  destruct (open_slot_Some _ _ _ Ho) as (Hrange & Hlk & _).
  destruct (get_descriptor s (descriptor_index e)) eqn:Hd; [|discriminate].
  assert (Hidx : (Z.to_nat index < length (oft s))%nat) by (eapply lookup_lt_Some; eauto).
  destruct (write_loop_length _ _ _ _ _ _ _ _ Hidx Hw) as (Hk & _ & _ & Hsame & Hfield).
  rewrite (slot_at_lookup _ _ _ Hlk) in Hfield.
  assert (Hres : descriptor_field s' (descriptor_index e) 0
                 = Some (if k =? 0 then L else Z.max L (current_pos e + k))).
  { destruct (k =? 0) eqn:Hk0.
    - apply Z.eqb_eq in Hk0. rewrite (Hsame Hk0). exact HL.
    - apply Z.eqb_neq in Hk0. rewrite (Hfield ltac:(lia) _ HL). f_equal. f_equal. lia. }
  split; [lia|]. split; [lia|]. split; [exact Hres|].
  intros L' HL'. rewrite Hres in HL'. inversion HL'.
  destruct (k =? 0); lia.
Qed.

Lemma C6_length_after_write_witness :
  open_slot (run [Create "f"; Open "f"]) 1 = Some (mkSlot 8%nat 0 0 1) /\
  descriptor_field (run [Create "f"; Open "f"]) 1 0 = Some 0 /\
  descriptor_field (fst (write (run [Create "f"; Open "f"]) 1 (bytes 1537 65) 1537)) 1 0
    = Some (Z.max 0 (0 + 1536)).
Proof.
  assert (Ho : open_slot (run [Create "f"; Open "f"]) 1 = Some (mkSlot 8%nat 0 0 1))
    by (vm_compute; reflexivity).
  assert (HL : descriptor_field (run [Create "f"; Open "f"]) (descriptor_index (mkSlot 8%nat 0 0 1)) 0 = Some 0)
    by (vm_compute; reflexivity).
  assert (Hw : write (run [Create "f"; Open "f"]) 1 (bytes 1537 65) 1537
               = (fst (write (run [Create "f"; Open "f"]) 1 (bytes 1537 65) 1537), Ret 1536))
    by (vm_compute; reflexivity).
  split; [exact Ho|]. split; [exact HL|].
  exact (proj1 (proj2 (proj2 (C6_length_after_write _ _ _ _ _ _ _ _ Ho HL Hw)))).
Defined.

(** ** write flushes before it returns *)

Lemma obj_app_l (h : list (list val)) (o : list val) (l : loc) :
  (l < length h)%nat -> obj (h ++ [o]) l = obj h l.
Proof. intros H. unfold obj. rewrite lookup_app_l; [reflexivity | exact H]. Qed.

Lemma obj_app_new (h : list (list val)) (o : list val) :
  obj (h ++ [o]) (length h) = o.
Proof.
  unfold obj. rewrite lookup_app_r; [|lia].
  replace (length h - length h)%nat with 0%nat by lia. reflexivity.
Qed.

Lemma obj_nonempty_valid (h : list (list val)) (l : loc) :
  obj h l <> [] -> (l < length h)%nat.
Proof.
  unfold obj. intros H. destruct (h !! l) eqn:Hl.
  - eapply lookup_lt_Some; eauto.
  - contradiction.
Qed.

(** [write_block] stores a copy: afterwards the block's list has the content
    of [data], and [data] itself is untouched. *)
Lemma write_block_effect (s s' : FileSystem) (b : Z) (data : loc) :
  write_block s b data = (s', Ret tt) ->
  0 <= b <= 63 /\
  length (obj (heap s) data) = 512%nat /\
  heap s' = heap s ++ [obj (heap s) data] /\
  py_set (disk s) b (Obj (length (heap s))) = Some (disk s') /\
  block_content s' b = Some (obj (heap s) data).
Proof.
  unfold write_block. intros H.
  destruct ((b <? 0) || (63 <? b)) eqn:Hr; [discriminate|].
  apply orb_false_iff in Hr. destruct Hr as [Ha Hb].
  apply Z.ltb_ge in Ha. apply Z.ltb_ge in Hb.
  destruct (length (obj (heap s) data) =? 512)%nat eqn:Hlen; [|discriminate].
  apply Nat.eqb_eq in Hlen. simpl in H.
  destruct (py_set (disk s) b (Obj (length (heap s)))) as [d|] eqn:Hd; [|discriminate].
  inversion H; subst. simpl.
  split; [lia|]. split; [exact Hlen|]. split; [reflexivity|]. split; [reflexivity|].
  unfold block_content. simpl. rewrite (py_get_set_eq _ _ _ _ Hd).
  rewrite obj_app_new. reflexivity.
Qed.

(** A pass that runs the flush leaves the buffer on disk. *)
Lemma write_body_flushed (s s' : FileSystem) (index : nat) (di : Z)
    (byte : option Z) (last : bool) :
  (index < length (oft s))%nat ->
  0 <= current_pos (slot_at s index) ->
  write_body s index di byte last = (s', Ret Continue) ->
  (current_pos (slot_at s index) mod 512 =? 511) || last = true ->
  flushed s' index di.
Proof.
  intros Hidx Hpos H Hfl.
  destruct (write_body_continue_effect _ _ _ _ _ _ Hidx H) as (_ & _ & [bf Ho] & _).
  destruct (write_body_continue_inv _ _ _ _ _ _ H)
    as (Hc & s1 & x & data & s4 & _ & _ & _ & Hf & Hu).
  rewrite Hfl in Hf.
  destruct (update_length_effect _ _ _ _ Hu) as (Uh & Ud & _ & _ & Uo & _).
  assert (Hcbi : 0 <= current_pos (slot_at s index) / 512) by (apply Z.div_pos; lia).
  assert (Hpos' : current_pos (slot_at s' index) = current_pos (slot_at s index) + 1).
  { unfold slot_at at 1. rewrite Ho. rewrite list_lookup_insert_eq; [reflexivity|exact Hidx]. }
  intros b Hb Hb0. rewrite Hpos' in Hb.
  replace (current_pos (slot_at s index) + 1 - 1) with (current_pos (slot_at s index)) in Hb by lia.
  (* the length update leaves the block fields alone *)
  assert (Hb4 : descriptor_field s4 di (1 + current_pos (slot_at s index) / 512) = Some b).
  { unfold update_length in Hu.
    destruct (descriptor_field s4 di 0) as [L|]; [|discriminate].
    destruct (L <? current_pos (slot_at s4 index)).
    - rewrite <- Hb. symmetry.
      eapply (descriptor_field_set_ne s4 s' di 0 _ _); eauto; lia.
    - inversion Hu; subst. exact Hb. }
  unfold flush in Hf.
  match type of Hf with
  | context [descriptor_field ?s3 di _] =>
      assert (H34 : descriptor_field s4 di (1 + current_pos (slot_at s index) / 512)
                    = descriptor_field s3 di (1 + current_pos (slot_at s index) / 512));
      [ destruct (descriptor_field s3 di (1 + current_pos (slot_at s index) / 512)) as [b3|] eqn:Hb3;
        [ destruct (b3 =? 0);
          [ inversion Hf; subst; exact Hb3
          | destruct (write_block_frame _ _ _ _ _ Hf) as (Hd & _);
            rewrite <- Hb3; apply descriptor_field_ext; exact Hd ]
        | discriminate ]
      | ]
  end.
  rewrite Hb4 in H34. rewrite <- H34 in Hf.
  replace (b =? 0) with false in Hf by (symmetry; apply Z.eqb_neq; exact Hb0).
  destruct (write_block_effect _ _ _ _ Hf) as (_ & Hlen & Hh & _ & Hbc).
  unfold block_content, buffer_of in *. rewrite Ud, Uh. rewrite Hbc.
  f_equal. unfold slot_at. rewrite Uo.
  destruct (write_block_frame _ _ _ _ _ Hf) as (_ & _ & _ & Ho4). rewrite Ho4.
  match type of Hlen with
  | length (obj ?h ?l) = _ =>
      rewrite Hh; rewrite (obj_app_l h _ l); [reflexivity|];
      apply obj_nonempty_valid; intros Hnil; rewrite Hnil in Hlen; discriminate
  end.
Qed.

Lemma write_loop_flushed (r : nat) :
  forall (s : FileSystem) (index : nat) (di : Z) (src : list Z) (bw : Z)
         (s' : FileSystem) (k : Z),
  (index < length (oft s))%nat ->
  0 <= current_pos (slot_at s index) ->
  write_loop r s index di src bw = (s', Ret k) ->
  bw < k ->
  flushed s' index di.
Proof.
  induction r as [|r IH]; intros s index di src bw s' k Hidx Hpos H Hk; simpl in H.
  - inversion H; subst. lia.
  - destruct (write_body s index di (head src) (Nat.eqb r 0)) as [s1 [[|]|x]] eqn:Hb;
      [| |discriminate].
    + inversion H; subst. lia.
    + destruct (write_body_continue_effect _ _ _ _ _ _ Hidx Hb) as (_ & _ & [b Ho] & _).
      assert (Hidx1 : (index < length (oft s1))%nat) by (rewrite Ho, length_insert; exact Hidx).
      assert (Hpos1 : current_pos (slot_at s1 index) = current_pos (slot_at s index) + 1).
      { unfold slot_at at 1. rewrite Ho.
        rewrite list_lookup_insert_eq; [reflexivity|exact Hidx]. }
      destruct (write_loop_length _ _ _ _ _ _ _ _ Hidx1 H) as (Hk1 & _ & _ & Hsame & _).
      destruct (Z.eq_dec k (bw + 1)) as [->|Hne].
      * (* the pass just made was the last one *)
        rewrite (Hsame eq_refl).
        apply (write_body_flushed s s1 index di (head src) (Nat.eqb r 0) Hidx Hpos Hb).
        destruct r as [|r']; [apply orb_true_r|].
        simpl in H.
        destruct (write_body s1 index di (head (tail src)) (Nat.eqb r' 0))
          as [s2 [[|]|x]] eqn:Hb2; [| |discriminate].
        -- destruct (write_body_stop _ _ _ _ _ _ Hb2) as (_ & Hwhy).
           destruct (write_body_continue_inv _ _ _ _ _ _ Hb) as (Hc & _).
           rewrite Hpos1 in Hwhy. apply orb_true_iff. left. apply Z.eqb_eq.
           pose proof (Z.div_mod (current_pos (slot_at s index)) 512 ltac:(lia)) as E1.
           pose proof (Z.mod_pos_bound (current_pos (slot_at s index)) 512 ltac:(lia)) as B1.
           pose proof (Z.div_mod (current_pos (slot_at s index) + 1) 512 ltac:(lia)) as E2.
           pose proof (Z.mod_pos_bound (current_pos (slot_at s index) + 1) 512 ltac:(lia)) as B2.
           destruct Hwhy as [Hthree|[Hzero _]]; lia.
        -- assert (Hidx2 : (index < length (oft s2))%nat).
           { destruct (write_body_continue_effect _ _ _ _ _ _ Hidx1 Hb2) as (_ & _ & [b2 Ho2] & _).
             rewrite Ho2, length_insert. exact Hidx1. }
           destruct (write_loop_length _ _ _ _ _ _ _ _ Hidx2 H) as (Hk2 & _). lia.
      * apply (IH s1 index di (tail src) (bw + 1) s' k Hidx1); [lia | exact H | lia].
Qed.

(** Every write that returns a positive count has copied the buffer to the
    block holding the last byte it stored, when that block is allocated. *)
Lemma write_flushes (s s' : FileSystem) (index : Z) (src : list Z) (count k : Z) (e : slot) :
  open_slot s index = Some e ->
  0 <= current_pos e ->
  write s index src count = (s', Ret k) ->
  0 < k ->
  flushed s' (Z.to_nat index) (descriptor_index e).
Proof.
  intros Ho Hpos Hw Hk. unfold write in Hw. rewrite Ho in Hw.
  destruct (open_slot_Some _ _ _ Ho) as (_ & Hlk & _).
  destruct (get_descriptor s (descriptor_index e)); [|discriminate].
  eapply write_loop_flushed; eauto.
  - eapply lookup_lt_Some; eauto.
  - rewrite (slot_at_lookup _ _ _ Hlk). exact Hpos.
Qed.

(** seek only rebinds the slot: store, disk and descriptor table are kept,
    whatever it returns. *)
Lemma seek_frame (s s' : FileSystem) (index pos : Z) (r : result Z) :
  seek s index pos = (s', r) ->
  heap s' = heap s /\ disk s' = disk s /\ descriptors s' = descriptors s /\
  bitmap s' = bitmap s /\ directory s' = directory s.
Proof.
  unfold seek. intros H.
  destruct (open_slot s index) as [e|]; [|inversion H; subst; auto].
  destruct (get_descriptor s (descriptor_index e)) as [d|]; [|inversion H; subst; auto].
  destruct (py_get d 0) as [len|]; [|inversion H; subst; auto].
  destruct ((pos <? 0) || (len <? pos)); [inversion H; subst; auto|].
  destruct (pos / 512 <? 3); [|inversion H; subst; auto].
  unfold load_block in H.
  destruct (py_get d (1 + pos / 512)) as [b|]; [|inversion H; subst; auto].
  destruct (b =? 0); [inversion H; subst; auto|].
  destruct (read_block s b) as [l|x]; inversion H; subst; simpl; auto.
Qed.

(** When the block that holds the last byte written is allocated, a write
    that returns a positive count has copied the buffer to it, and seek
    changes neither the disk nor the store: after the seek that block still
    holds what the buffer held.  (Nothing is said of a block that is not
    allocated: there the bytes stay in the buffer only.) *)
Lemma write_then_seek_keeps_allocated_block (s s' s'' : FileSystem) (index : Z)
    (src : list Z) (count k pos : Z) (e : slot) (r : result Z) :
  open_slot s index = Some e ->
  0 <= current_pos e ->
  write s index src count = (s', Ret k) ->
  0 < k ->
  seek s' index pos = (s'', r) ->
  forall b,
    descriptor_field s' (descriptor_index e)
      (1 + (current_pos (slot_at s' (Z.to_nat index)) - 1) / 512) = Some b ->
    b <> 0 ->
    block_content s' b = Some (buffer_of s' (Z.to_nat index)) /\
    block_content s'' b = Some (buffer_of s' (Z.to_nat index)) /\
    descriptor_field s'' (descriptor_index e)
      (1 + (current_pos (slot_at s' (Z.to_nat index)) - 1) / 512) = Some b.
Proof.
  intros Ho Hpos Hw Hk Hs b Hb Hb0.
  pose proof (write_flushes _ _ _ _ _ _ _ Ho Hpos Hw Hk b Hb Hb0) as Hfl.
  destruct (seek_frame _ _ _ _ _ Hs) as (Hh & Hd & Hdesc & _).
  split; [exact Hfl|]. split.
  - unfold block_content in *. rewrite Hd, Hh. exact Hfl.
  - rewrite (descriptor_field_ext s' s'' _ _ Hdesc). exact Hb.
Qed.


(** ** The open file table under the operations *)

Lemma slot_at_insert_self (s : FileSystem) (index : nat) :
  (index < length (oft s))%nat ->
  <[index := slot_at s index]> (oft s) = oft s.
Proof.
  intros H. apply list_insert_id. unfold slot_at.
  destruct (oft s !! index) eqn:He; [reflexivity|].
  apply lookup_ge_None in He. lia.
Qed.

Lemma slot_rebound_refl (s : FileSystem) (index : nat) :
  (index < length (oft s))%nat -> 0 <= current_pos (slot_at s index) ->
  slot_rebound s s index.
Proof.
  intros Hidx Hpos. exists (buffer (slot_at s index)), (current_pos (slot_at s index)).
  split; [exact Hpos|].
  rewrite <- (slot_at_insert_self s index Hidx) at 1.
  destruct (slot_at s index); reflexivity.
Qed.

Lemma slot_rebound_same_oft (s s' : FileSystem) (index : nat) :
  (index < length (oft s))%nat -> 0 <= current_pos (slot_at s index) ->
  oft s' = oft s -> slot_rebound s s' index.
Proof.
  intros Hidx Hpos Ho. destruct (slot_rebound_refl s index Hidx Hpos) as (b & p & Hp & H).
  exists b, p. split; [exact Hp|]. rewrite Ho. exact H.
Qed.

Lemma slot_rebound_slot (s s' : FileSystem) (index : nat) :
  (index < length (oft s))%nat -> slot_rebound s s' index ->
  (index < length (oft s'))%nat /\
  0 <= current_pos (slot_at s' index) /\
  file_size (slot_at s' index) = file_size (slot_at s index) /\
  descriptor_index (slot_at s' index) = descriptor_index (slot_at s index).
Proof.
  intros Hidx (b & p & Hp & Ho).
  split; [rewrite Ho, length_insert; exact Hidx|].
  assert (He : slot_at s' index
               = mkSlot b p (file_size (slot_at s index)) (descriptor_index (slot_at s index))).
  { unfold slot_at at 1. rewrite Ho.
    rewrite list_lookup_insert_eq; [reflexivity|exact Hidx]. }
  rewrite He. simpl. auto.
Qed.

Lemma slot_rebound_trans (s s1 s2 : FileSystem) (index : nat) :
  (index < length (oft s))%nat ->
  slot_rebound s s1 index -> slot_rebound s1 s2 index -> slot_rebound s s2 index.
Proof.
  intros Hidx H1 H2.
  destruct (slot_rebound_slot _ _ _ Hidx H1) as (_ & _ & Hfs & Hdi).
  destruct H1 as (b1 & p1 & Hp1 & Ho1). destruct H2 as (b2 & p2 & Hp2 & Ho2).
  exists b2, p2. split; [exact Hp2|].
  rewrite Ho2, Hfs, Hdi, Ho1. apply list_insert_insert_eq.
Qed.

(** Rebinding an open slot changes no key and keeps the cursors in range. *)
Lemma slot_rebound_keys (s s' : FileSystem) (index : nat) :
  (index < length (oft s))%nat -> current_pos (slot_at s index) <> -1 ->
  slot_rebound s s' index ->
  keys s' = keys s /\
  (Forall (fun e => -1 <= current_pos e) (oft s) ->
   Forall (fun e => -1 <= current_pos e) (oft s')).
Proof.
  intros Hidx Hopen (b & p & Hp & Ho). split.
  - unfold keys. rewrite Ho. rewrite list_fmap_insert.
    apply list_insert_id. rewrite list_lookup_fmap.
    unfold slot_at in *. destruct (oft s !! index) as [e|] eqn:He.
    + simpl. f_equal. unfold open_key. simpl.
      replace (p =? -1) with false by (symmetry; apply Z.eqb_neq; lia).
      replace (current_pos e =? -1) with false by (symmetry; apply Z.eqb_neq; exact Hopen).
      reflexivity.
    + apply lookup_ge_None in He. lia.
  - intros Hall. rewrite Ho. apply Forall_insert; [exact Hall|]. simpl. lia.
Qed.

Lemma oft_ok_rebound (s s' : FileSystem) (index : nat) :
  (index < length (oft s))%nat -> current_pos (slot_at s index) <> -1 ->
  slot_rebound s s' index -> oft_ok s -> oft_ok s'.
Proof.
  intros Hidx Hopen Hr (Hlen & Hall & Huniq).
  destruct (slot_rebound_keys _ _ _ Hidx Hopen Hr) as [Hk Hf].
  split.
  { destruct Hr as (b & p & _ & ->). rewrite length_insert. exact Hlen. }
  split; [auto|]. rewrite Hk. exact Huniq.
Qed.

Lemma oft_ok_same_oft (s s' : FileSystem) :
  oft s' = oft s -> oft_ok s -> oft_ok s'.
Proof. unfold oft_ok, keys. intros ->. auto. Qed.

(** write: one pass, whatever its outcome, rebinds at most slot [index]. *)
Lemma write_body_rebound (s s' : FileSystem) (index : nat) (di : Z)
    (byte : option Z) (last : bool) (r : result outcome) :
  (index < length (oft s))%nat -> 0 <= current_pos (slot_at s index) ->
  write_body s index di byte last = (s', r) ->
  slot_rebound s s' index.
Proof.
  intros Hidx Hpos H. unfold write_body in H.
  set (e := slot_at s index) in *.
  destruct (3 <=? current_pos e / 512); [inversion H; subst; apply slot_rebound_refl; auto|].
  destruct (if (current_pos e mod 512 =? 0) && (0 <? current_pos e / 512)
            then grow s index di (current_pos e / 512) else (s, Ret (Some tt)))
    as [s1 rg] eqn:Hg.
  assert (G : exists b, oft s1 = <[index := with_buffer e b]> (oft s)).
  { destruct ((current_pos e mod 512 =? 0) && (0 <? current_pos e / 512)).
    - destruct (grow_oft _ _ _ _ _ _ Hg) as (_ & _ & [Ho|[b Ho]]).
      + exists (buffer e). rewrite Ho. symmetry.
        replace (with_buffer e (buffer e)) with (slot_at s index) by (unfold e; destruct (slot_at s index); reflexivity).
        apply slot_at_insert_self. exact Hidx.
      + exists b. exact Ho.
    - inversion Hg; subst s1. exists (buffer e). symmetry.
      replace (with_buffer e (buffer e)) with (slot_at s index) by (unfold e; destruct (slot_at s index); reflexivity).
      apply slot_at_insert_self. exact Hidx. }
  destruct G as [b Go].
  assert (R1 : slot_rebound s s1 index).
  { exists b, (current_pos e). split; [exact Hpos|]. rewrite Go. reflexivity. }
  assert (He1 : slot_at s1 index = with_buffer e b).
  { unfold slot_at. rewrite Go. rewrite list_lookup_insert_eq; [reflexivity|exact Hidx]. }
  destruct rg as [[u|]|x]; [|inversion H; subst; exact R1|inversion H; subst; exact R1].
  destruct byte as [x|]; [|inversion H; subst; exact R1].
  destruct (py_set (obj (heap s1) (buffer (slot_at s1 index))) (current_pos e mod 512) (VInt x))
    as [data|]; [|inversion H; subst; exact R1].
  rewrite He1 in H.
  set (s3 := set_slot (with_heap s1 (set_obj (heap s1) (buffer (with_buffer e b)) data)) index
               (with_pos (with_buffer e b) (current_pos (with_buffer e b) + 1))) in *.
  assert (R3 : forall s4, oft s4 = oft s3 -> slot_rebound s s4 index).
  { intros s4 Ho4. exists b, (current_pos e + 1). split; [lia|].
    rewrite Ho4. unfold s3, set_slot. simpl. rewrite Go.
    rewrite list_insert_insert_eq. reflexivity. }
  destruct (if (current_pos e mod 512 =? 511) || last
            then flush s3 index di (current_pos e / 512) else (s3, Ret tt))
    as [s4 rf] eqn:Hf.
  assert (F : oft s4 = oft s3).
  { destruct ((current_pos e mod 512 =? 511) || last).
    - destruct (flush_frame _ _ _ _ _ _ Hf) as (_ & _ & _ & Ho). exact Ho.
    - inversion Hf; reflexivity. }
  destruct rf as [u'|x']; [|inversion H; subst; apply R3; exact F].
  destruct (update_length s4 index di) as [s5|] eqn:Hu; [|inversion H; subst; apply R3; exact F].
  destruct (update_length_effect _ _ _ _ Hu) as (_ & _ & _ & _ & Uo & _).
  inversion H; subst. apply R3. congruence.
Qed.

Lemma write_loop_rebound (r : nat) :
  forall (s : FileSystem) (index : nat) (di : Z) (src : list Z) (bw : Z)
         (s' : FileSystem) (res : result Z),
  (index < length (oft s))%nat -> 0 <= current_pos (slot_at s index) ->
  write_loop r s index di src bw = (s', res) ->
  slot_rebound s s' index.
Proof.
  induction r as [|r IH]; intros s index di src bw s' res Hidx Hpos H; simpl in H.
  - inversion H; subst. apply slot_rebound_refl; auto.
  - destruct (write_body s index di (head src) (Nat.eqb r 0)) as [s1 rb] eqn:Hb.
    pose proof (write_body_rebound _ _ _ _ _ _ _ Hidx Hpos Hb) as R1.
    destruct rb as [[|]|x]; try (inversion H; subst; exact R1).
    destruct (slot_rebound_slot _ _ _ Hidx R1) as (Hidx1 & Hpos1 & _).
    eapply slot_rebound_trans; [exact Hidx | exact R1 |].
    eapply IH; eauto.
Qed.

Lemma write_rebound (s s' : FileSystem) (index : Z) (src : list Z) (count : Z)
    (res : result Z) :
  Forall (fun e => -1 <= current_pos e) (oft s) ->
  write s index src count = (s', res) ->
  s' = s \/ exists e, open_slot s index = Some e /\ slot_rebound s s' (Z.to_nat index).
Proof.
  intros Hall H. unfold write in H.
  destruct (open_slot s index) as [e|] eqn:Ho; [|inversion H; auto].
  destruct (open_slot_Some _ _ _ Ho) as (_ & Hlk & Hopen).
  destruct (get_descriptor s (descriptor_index e)); [|inversion H; auto].
  right. exists e. split; [reflexivity|].
  eapply write_loop_rebound; eauto.
  - eapply lookup_lt_Some; eauto.
  - rewrite (slot_at_lookup _ _ _ Hlk).
    pose proof (proj1 (Forall_lookup _ _) Hall _ _ Hlk) as Hge. simpl in Hge. lia.
Qed.

Lemma load_block_Some (s s' : FileSystem) (index : nat) (e : slot) (d : list Z) (k : Z) :
  load_block s index e d k = Ret (Some s') ->
  exists b, s' = set_slot s index (with_buffer e b).
Proof.
  unfold load_block. intros H.
  destruct (py_get d (1 + k)) as [bn|]; [|discriminate].
  destruct (bn =? 0); [discriminate|].
  destruct (read_block s bn) as [b|]; [|discriminate].
  inversion H. exists b. reflexivity.
Qed.

Lemma set_slot_rebound (s : FileSystem) (index : nat) (b : loc) (p : Z) :
  0 <= p ->
  slot_rebound s (set_slot s index (mkSlot b p (file_size (slot_at s index))
                                          (descriptor_index (slot_at s index)))) index.
Proof. intros Hp. exists b, p. split; [exact Hp|]. reflexivity. Qed.

(** read: one pass, whatever its outcome, rebinds at most slot [index]. *)
Lemma read_body_rebound (s s' : FileSystem) (index : nat) (d : list Z)
    (mem mem' : list val) (br : Z) (last : bool) (r : result (outcome * Z)) :
  (index < length (oft s))%nat -> 0 <= current_pos (slot_at s index) ->
  read_body s index d mem br last = (s', mem', r) ->
  slot_rebound s s' index.
Proof.
  intros Hidx Hpos H. unfold read_body in H.
  set (e := slot_at s index) in *.
  pose proof (slot_rebound_refl s index Hidx Hpos) as R0.
  destruct (py_get d 0) as [len|]; [|inversion H; subst; exact R0].
  destruct (len <=? current_pos e); [inversion H; subst; exact R0|].
  match type of H with
  | context [match ?c with Ret s1 => _ | Raise x => _ end] =>
      destruct c as [s1|x] eqn:Hl; [|inversion H; subst; exact R0]
  end.
  assert (R1 : slot_rebound s s1 index).
  { destruct ((0 <? current_pos e / 512) && (br =? 0)); [|inversion Hl; subst; exact R0].
    destruct (load_block s index e d (current_pos e / 512)) as [[s1'|]|x] eqn:Hlb;
      [| inversion Hl; subst; exact R0 | discriminate].
    inversion Hl; subst s1'. destruct (load_block_Some _ _ _ _ _ _ Hlb) as [b ->].
    apply (set_slot_rebound s index b (current_pos e)). exact Hpos. }
  destruct (slot_rebound_slot _ _ _ Hidx R1) as (Hidx1 & Hpos1 & Hfs1 & Hdi1).
  set (e1 := slot_at s1 index) in *.
  destruct (py_get (obj (heap s1) (buffer e1)) (current_pos e mod 512)) as [v|];
    [|inversion H; subst; exact R1].
  destruct (py_set mem br v) as [m'|]; [|inversion H; subst; exact R1].
  set (s2 := set_slot s1 index (with_pos e1 (current_pos e1 + 1))) in *.
  assert (R2 : slot_rebound s s2 index).
  { eapply slot_rebound_trans; [exact Hidx | exact R1 |].
    apply (set_slot_rebound s1 index (buffer e1) (current_pos e1 + 1)). lia. }
  destruct ((current_pos (with_pos e1 (current_pos e1 + 1)) mod 512 =? 0) && negb last);
    [|inversion H; subst; exact R2].
  destruct (current_pos (with_pos e1 (current_pos e1 + 1)) / 512 <? 3);
    [|inversion H; subst; exact R2].
  destruct (load_block s2 index (with_pos e1 (current_pos e1 + 1)) d
              (current_pos (with_pos e1 (current_pos e1 + 1)) / 512)) as [[s3|]|x] eqn:Hlb;
    [| inversion H; subst; exact R2 | inversion H; subst; exact R2].
  inversion H; subst s'. destruct (load_block_Some _ _ _ _ _ _ Hlb) as [b ->].
  eapply slot_rebound_trans; [exact Hidx | exact R1 |].
  exists b, (current_pos e1 + 1). split; [lia|].
  unfold s2, set_slot. simpl. rewrite list_insert_insert_eq. reflexivity.
Qed.

Lemma read_loop_rebound (r : nat) :
  forall (s : FileSystem) (index : nat) (d : list Z) (mem : list val) (br : Z)
         (s' : FileSystem) (mem' : list val) (res : result Z),
  (index < length (oft s))%nat -> 0 <= current_pos (slot_at s index) ->
  read_loop r s index d mem br = (s', mem', res) ->
  slot_rebound s s' index.
Proof.
  induction r as [|r IH]; intros s index d mem br s' mem' res Hidx Hpos H; simpl in H.
  - inversion H; subst. apply slot_rebound_refl; auto.
  - destruct (read_body s index d mem br (Nat.eqb r 0)) as [[s1 m1] rb] eqn:Hb.
    pose proof (read_body_rebound _ _ _ _ _ _ _ _ _ Hidx Hpos Hb) as R1.
    destruct rb as [[[|] br1]|x]; try (inversion H; subst; exact R1).
    destruct (slot_rebound_slot _ _ _ Hidx R1) as (Hidx1 & Hpos1 & _).
    eapply slot_rebound_trans; [exact Hidx | exact R1 |].
    eapply IH; eauto.
Qed.

Lemma read_rebound (s s' : FileSystem) (index : Z) (mem mem' : list val) (count : Z)
    (res : result Z) :
  Forall (fun e => -1 <= current_pos e) (oft s) ->
  read s index mem count = (s', mem', res) ->
  s' = s \/ exists e, open_slot s index = Some e /\ slot_rebound s s' (Z.to_nat index).
Proof.
  intros Hall H. unfold read in H.
  destruct (open_slot s index) as [e|] eqn:Ho; [|inversion H; auto].
  destruct (open_slot_Some _ _ _ Ho) as (_ & Hlk & Hopen).
  destruct (get_descriptor s (descriptor_index e)); [|inversion H; auto].
  right. exists e. split; [reflexivity|].
  eapply read_loop_rebound; eauto.
  - eapply lookup_lt_Some; eauto.
  - rewrite (slot_at_lookup _ _ _ Hlk).
    pose proof (proj1 (Forall_lookup _ _) Hall _ _ Hlk) as Hge. simpl in Hge. lia.
Qed.

Lemma seek_rebound (s s' : FileSystem) (index pos : Z) (res : result Z) :
  seek s index pos = (s', res) ->
  s' = s \/ exists e, open_slot s index = Some e /\ slot_rebound s s' (Z.to_nat index).
Proof.
  unfold seek. intros H.
  destruct (open_slot s index) as [e|] eqn:Ho; [|inversion H; auto].
  destruct (open_slot_Some _ _ _ Ho) as (_ & Hlk & Hopen).
  destruct (get_descriptor s (descriptor_index e)) as [d|]; [|inversion H; auto].
  destruct (py_get d 0) as [len|]; [|inversion H; auto].
  destruct ((pos <? 0) || (len <? pos)) eqn:Hr; [inversion H; auto|].
  apply orb_false_iff in Hr. destruct Hr as [Hp0 _]. apply Z.ltb_ge in Hp0.
  destruct (pos / 512 <? 3); [|inversion H; auto].
  destruct (load_block s (Z.to_nat index) e d (pos / 512)) as [[s1|]|x] eqn:Hlb;
    [| inversion H; auto | inversion H; auto].
  destruct (load_block_Some _ _ _ _ _ _ Hlb) as [b ->].
  inversion H; subst s'. right. exists e. split; [reflexivity|].
  exists b, pos. split; [exact Hp0|].
  assert (Hidx : (Z.to_nat index < length (oft s))%nat) by (eapply lookup_lt_Some; eauto).
  rewrite slot_at_set_slot; [|exact Hidx].
  rewrite (slot_at_lookup _ _ _ Hlk).
  unfold set_slot. simpl. rewrite list_insert_insert_eq. reflexivity.
Qed.

(** create and destroy leave the open file table alone. *)
Lemma disk_setitem_frame (s s' : FileSystem) (i : Z) (l : loc) :
  disk_setitem s i l = Some s' ->
  heap s' = heap s /\ descriptors s' = descriptors s /\ bitmap s' = bitmap s /\
  directory s' = directory s /\ oft s' = oft s.
Proof.
  unfold disk_setitem. destruct (py_set (disk s) i (Obj l)); [|discriminate].
  intros H. inversion H; subst. simpl. auto.
Qed.

Lemma free_blocks_frame (blocks : list Z) :
  forall (s s' : FileSystem) (r : result unit),
  free_blocks s blocks = (s', r) ->
  descriptors s' = descriptors s /\ disk s' = disk s /\ bitmap s' = bitmap s /\
  directory s' = directory s /\ oft s' = oft s.
Proof.
  induction blocks as [|b rest IH]; intros s s' r H; simpl in H.
  - inversion H; subst. auto.
  - destruct (b =? 0); [eapply IH; eauto|].
    destruct (set_bit s b 0) as [s1|] eqn:Hb; [|inversion H; subst; auto].
    destruct (set_bit_frame _ _ _ _ Hb) as (H1 & H2 & H3 & H4 & H5 & _).
    destruct (IH _ _ _ H) as (G1 & G2 & G3 & G4 & G5).
    repeat split; congruence.
Qed.

Lemma create_oft (s s' : FileSystem) (f : string) (r : result Z) :
  create s f = (s', r) -> oft s' = oft s.
Proof.
  unfold create. intros H.
  destruct (3 <? String.length f)%nat; [inversion H; reflexivity|].
  destruct (dir_find f (obj (heap s) (directory s)) 0) as [[?|]|]; try (inversion H; reflexivity).
  destruct (dir_find "" (obj (heap s) (directory s)) 0) as [[[di ?]|]|]; try (inversion H; reflexivity).
  destruct (scan_descriptors s (range 0 192)) as [[desc|]|]; try (inversion H; reflexivity).
  destruct (find_free_block s) as [[bn|]|]; try (inversion H; reflexivity).
  destruct (set_bit s bn 1) as [s1|] eqn:H1; [|inversion H; reflexivity].
  destruct (set_bit_frame _ _ _ _ H1) as (_ & _ & _ & _ & O1 & _).
  destruct (set_descriptor s1 desc [0; bn; 0; 0]) as [s2|] eqn:H2; [|inversion H; subst; exact O1].
  destruct (set_descriptor_frame _ _ _ _ H2) as (_ & _ & _ & _ & O2).
  match type of H with
  | context [disk_setitem ?s3 7 ?l] =>
      destruct (disk_setitem s3 7 l) as [s4|] eqn:H4;
      [ destruct (disk_setitem_frame _ _ _ _ H4) as (_ & _ & _ & _ & O4);
        inversion H; subst; rewrite O4; simpl; congruence
      | inversion H; subst; simpl; congruence ]
  end.
Qed.

Lemma destroy_oft (s s' : FileSystem) (f : string) (r : result Z) :
  destroy s f = (s', r) -> oft s' = oft s.
Proof.
  unfold destroy. intros H.
  destruct (dir_find f (obj (heap s) (directory s)) 0) as [[[di desc]|]|]; try (inversion H; reflexivity).
  destruct (get_descriptor s desc) as [d|]; [|inversion H; reflexivity].
  destruct (free_blocks s (take 3 (drop 1 d))) as [s1 r1] eqn:H1.
  destruct (free_blocks_frame _ _ _ _ H1) as (_ & _ & _ & _ & O1).
  destruct r1 as [u|x]; [|inversion H; subst; exact O1].
  destruct (set_descriptor s1 desc free_descriptor) as [s2|] eqn:H2; [|inversion H; subst; exact O1].
  destruct (set_descriptor_frame _ _ _ _ H2) as (_ & _ & _ & _ & O2).
  match type of H with
  | context [disk_setitem ?s3 7 ?l] =>
      destruct (disk_setitem s3 7 l) as [s4|] eqn:H4;
      [ destruct (disk_setitem_frame _ _ _ _ H4) as (_ & _ & _ & _ & O4);
        inversion H; subst; rewrite O4; simpl; congruence
      | inversion H; subst; simpl; congruence ]
  end.
Qed.

Lemma scan_oft_Some (o : list slot) (idxs : list nat) (i : nat) :
  scan_oft o idxs = Some i ->
  In i idxs /\ exists e, o !! i = Some e /\ current_pos e = -1.
Proof.
  induction idxs as [|j rest IH]; simpl; [discriminate|].
  destruct (o !! j) as [e|] eqn:He.
  - destruct (current_pos e =? -1) eqn:Hp.
    + intros H. inversion H; subst. apply Z.eqb_eq in Hp. split; [auto|]. eauto.
    + intros H. destruct (IH H) as [Hin Hex]. auto.
  - intros H. destruct (IH H) as [Hin Hex]. auto.
Qed.

Lemma open_effect (s s' : FileSystem) (f : string) (r : result Z) :
  open s f = (s', r) ->
  s' = s \/
  exists i d b len e,
    In i [1; 2; 3]%nat /\ oft s !! i = Some e /\ current_pos e = -1 /\
    already_open s d = false /\
    s' = set_slot s i (mkSlot b 0 len d) /\ r = Ret (Z.of_nat i).
Proof.
  unfold open. intros H.
  destruct (dir_find f (obj (heap s) (directory s)) 0) as [[[di d]|]|];
    [| inversion H; auto | inversion H; auto].
  destruct (d =? -1); [inversion H; auto|].
  destruct (already_open s d) eqn:Ha; [inversion H; auto|].
  destruct (scan_oft (oft s) [1; 2; 3]%nat) as [i|] eqn:Hs; [|inversion H; auto].
  destruct (get_descriptor s d) as [desc|]; [|inversion H; auto].
  destruct (py_get desc 1) as [b1|]; [|inversion H; auto].
  destruct (read_block s b1) as [b|]; [|inversion H; auto].
  destruct (py_get desc 0) as [len|]; [|inversion H; auto].
  inversion H; subst. right.
  destruct (scan_oft_Some _ _ _ Hs) as (Hin & e & He & Hp).
  exists i, d, b, len, e. auto 10.
Qed.

Lemma close_effect (s s' : FileSystem) (index : Z) (r : result Z) :
  close s index = (s', r) ->
  s' = s \/
  exists e b, open_slot s index = Some e /\ r = Ret 0 /\
              oft s' = <[Z.to_nat index := closed_slot b]> (oft s).
Proof.
  unfold close. intros H.
  destruct (open_slot s index) as [e|] eqn:Ho; [|inversion H; auto].
  destruct (get_descriptor s (descriptor_index e)) as [d|]; [|inversion H; auto].
  destruct (if current_pos e / 512 =? 0 then py_get d 1
            else py_get d (1 + current_pos e / 512)) as [cb|]; [|inversion H; auto].
  destruct (if cb =? 0 then Some s else disk_setitem s cb (buffer e)) as [s1|] eqn:H1;
    [|inversion H; auto].
  assert (O1 : oft s1 = oft s).
  { destruct (cb =? 0).
    - inversion H1; reflexivity.
    - destruct (disk_setitem_frame _ _ _ _ H1) as (_ & _ & _ & _ & O). exact O. }
  simpl in H. inversion H; subst. right. exists e, (length (heap s1)).
  split; [reflexivity|]. split; [reflexivity|]. simpl. rewrite O1. reflexivity.
Qed.

Lemma open_key_lookup (s : FileSystem) (j : nat) (d : Z) :
  keys s !! j = Some (Some d) ->
  exists e, oft s !! j = Some e /\ is_open_on d e = true.
Proof.
  unfold keys. rewrite list_lookup_fmap.
  destruct (oft s !! j) as [e|]; [|discriminate].
  simpl. unfold open_key, is_open_on. intros H.
  destruct (current_pos e =? -1) eqn:Hp; [discriminate|].
  inversion H; subst. exists e. split; [reflexivity|].
  rewrite Z.eqb_refl, Hp. reflexivity.
Qed.

Lemma already_open_false (s : FileSystem) (d : Z) (j : nat) :
  length (oft s) = 4%nat -> already_open s d = false ->
  keys s !! j = Some (Some d) -> False.
Proof.
  intros Hlen Ha Hk. destruct (open_key_lookup _ _ _ Hk) as (e & He & Hopen).
  unfold already_open in Ha. rewrite take_ge in Ha; [|lia].
  assert (Hex : existsb (is_open_on d) (oft s) = true).
  { apply existsb_exists. exists e. split; [|exact Hopen].
    apply list_elem_of_In. eapply list_elem_of_lookup_2; eauto. }
  congruence.
Qed.

Lemma oft_ok_open (s : FileSystem) (i : nat) (d len : Z) (b : loc) (e : slot) :
  oft s !! i = Some e -> already_open s d = false ->
  oft_ok s -> oft_ok (set_slot s i (mkSlot b 0 len d)).
Proof.
  intros He Ha (Hlen & Hall & Huniq).
  assert (Hi : (i < length (oft s))%nat) by (eapply lookup_lt_Some; eauto).
  split; [simpl; rewrite length_insert; exact Hlen|].
  split; [simpl; apply Forall_insert; [exact Hall|simpl; lia]|].
  assert (Hk : keys (set_slot s i (mkSlot b 0 len d)) = <[i := Some d]> (keys s)).
  { unfold keys, set_slot. simpl. rewrite list_fmap_insert. reflexivity. }
  rewrite Hk. intros j1 j2 d' H1 H2.
  destruct (decide (j1 = i)) as [->|N1]; destruct (decide (j2 = i)) as [->|N2].
  - reflexivity.
  - rewrite list_lookup_insert_eq in H1 by (unfold keys; rewrite length_fmap; exact Hi).
    rewrite list_lookup_insert_ne in H2 by congruence.
    inversion H1; subst d'. exfalso. eapply already_open_false; eauto.
  - rewrite list_lookup_insert_eq in H2 by (unfold keys; rewrite length_fmap; exact Hi).
    rewrite list_lookup_insert_ne in H1 by congruence.
    inversion H2; subst d'. exfalso. eapply already_open_false; eauto.
  - rewrite list_lookup_insert_ne in H1 by congruence.
    rewrite list_lookup_insert_ne in H2 by congruence. eauto.
Qed.

Lemma oft_ok_close (s s' : FileSystem) (i : nat) (b : loc) :
  oft s' = <[i := closed_slot b]> (oft s) -> oft_ok s -> oft_ok s'.
Proof.
  intros Ho (Hlen & Hall & Huniq).
  split; [rewrite Ho, length_insert; exact Hlen|].
  split; [rewrite Ho; apply Forall_insert; [exact Hall|simpl; lia]|].
  assert (Hk : keys s' = <[i := None]> (keys s)).
  { unfold keys. rewrite Ho. rewrite list_fmap_insert. reflexivity. }
  rewrite Hk. intros j1 j2 d' H1 H2.
  destruct (decide (j1 = i)) as [->|N1].
  { destruct (decide (i < length (keys s))%nat).
    - rewrite list_lookup_insert_eq in H1 by assumption. discriminate.
    - rewrite list_insert_ge in H1 by lia. rewrite lookup_ge_None_2 in H1 by lia. discriminate. }
  destruct (decide (j2 = i)) as [->|N2].
  { destruct (decide (i < length (keys s))%nat).
    - rewrite list_lookup_insert_eq in H2 by assumption. discriminate.
    - rewrite list_insert_ge in H2 by lia. rewrite lookup_ge_None_2 in H2 by lia. discriminate. }
  rewrite list_lookup_insert_ne in H1 by congruence.
  rewrite list_lookup_insert_ne in H2 by congruence. eauto.
Qed.

(** ** At most one open slot per descriptor *)

Lemma oft_ok_init : oft_ok init.
Proof.
  split; [reflexivity|]. split.
  - unfold init, closed_slot. simpl. repeat constructor; simpl; lia.
  - intros i j d H1 H2.
    destruct i as [|[|[|[|i]]]]; simpl in H1; try discriminate;
    destruct j as [|[|[|[|j]]]]; simpl in H2; try discriminate; reflexivity.
Qed.

Lemma oft_ok_step (s : FileSystem) (c : call) : oft_ok s -> oft_ok (step s c).
Proof.
  intros Hok. destruct c as [|f|f|f|i|i m n|i m n|i p|]; simpl.
  - apply oft_ok_init.
  - destruct (create s f) as [s' r] eqn:H. simpl.
    eapply oft_ok_same_oft; [eapply create_oft; eauto | exact Hok].
  - destruct (destroy s f) as [s' r] eqn:H. simpl.
    eapply oft_ok_same_oft; [eapply destroy_oft; eauto | exact Hok].
  - destruct (open s f) as [s' r] eqn:H. simpl.
    destruct (open_effect _ _ _ _ H) as [->|(j & d & b & len & e & _ & He & _ & Ha & -> & _)];
      [exact Hok|].
    eapply oft_ok_open; eauto.
  - destruct (close s i) as [s' r] eqn:H. simpl.
    destruct (close_effect _ _ _ _ H) as [->|(e & b & _ & _ & Ho)]; [exact Hok|].
    eapply oft_ok_close; eauto.
  - destruct (read s i m n) as [[s' m'] r] eqn:H. simpl.
    destruct (read_rebound _ _ _ _ _ _ _ (proj1 (proj2 Hok)) H) as [->|(e & Ho & Hr)];
      [exact Hok|].
    destruct (open_slot_Some _ _ _ Ho) as (_ & Hlk & Hopen).
    eapply oft_ok_rebound; [| |exact Hr|exact Hok].
    + eapply lookup_lt_Some; eauto.
    + rewrite (slot_at_lookup _ _ _ Hlk). exact Hopen.
  - destruct (write s i m n) as [s' r] eqn:H. simpl.
    destruct (write_rebound _ _ _ _ _ _ (proj1 (proj2 Hok)) H) as [->|(e & Ho & Hr)];
      [exact Hok|].
    destruct (open_slot_Some _ _ _ Ho) as (_ & Hlk & Hopen).
    eapply oft_ok_rebound; [| |exact Hr|exact Hok].
    + eapply lookup_lt_Some; eauto.
    + rewrite (slot_at_lookup _ _ _ Hlk). exact Hopen.
  - destruct (seek s i p) as [s' r] eqn:H. simpl.
    destruct (seek_rebound _ _ _ _ _ H) as [->|(e & Ho & Hr)]; [exact Hok|].
    destruct (open_slot_Some _ _ _ Ho) as (_ & Hlk & Hopen).
    eapply oft_ok_rebound; [| |exact Hr|exact Hok].
    + eapply lookup_lt_Some; eauto.
    + rewrite (slot_at_lookup _ _ _ Hlk). exact Hopen.
  - exact Hok.
Qed.

Lemma reachable_oft_ok (s : FileSystem) : reachable s -> oft_ok s.
Proof.
  induction 1 as [|s c _ IH]; [apply oft_ok_init | apply oft_ok_step; exact IH].
Qed.

Lemma filter_nil_lookup {A} (P : A -> Prop) `{forall x, Decision (P x)} (l : list A) :
  (forall j y, l !! j = Some y -> ~ P y) -> filter P l = [].
Proof.
  induction l as [|a l IH]; intros Hno; [reflexivity|].
  rewrite filter_cons. destruct (decide (P a)) as [Ha|Ha].
  - exfalso. exact (Hno 0%nat a eq_refl Ha).
  - apply IH. intros j y Hj. exact (Hno (S j) y Hj).
Qed.

Lemma filter_length_le_1 {A} (P : A -> Prop) `{forall x, Decision (P x)} (l : list A) :
  (forall i j x y, l !! i = Some x -> l !! j = Some y -> P x -> P y -> i = j) ->
  (length (filter P l) <= 1)%nat.
Proof.
  induction l as [|a l IH]; intros Huniq; [simpl; lia|].
  rewrite filter_cons. destruct (decide (P a)) as [Ha|Ha].
  - rewrite (filter_nil_lookup P l); [simpl; lia|].
    intros j y Hj Hy. pose proof (Huniq 0%nat (S j) a y eq_refl Hj Ha Hy). discriminate.
  - apply IH. intros i j x y Hi Hj Hx Hy.
    pose proof (Huniq (S i) (S j) x y Hi Hj Hx Hy). lia.
Qed.

Lemma is_open_on_key (s : FileSystem) (i : nat) (e : slot) (d : Z) :
  oft s !! i = Some e -> is_open_on d e = true -> keys s !! i = Some (Some d).
Proof.
  intros He Hopen. unfold keys. rewrite list_lookup_fmap, He. simpl. f_equal.
  unfold is_open_on in Hopen. apply andb_true_iff in Hopen. destruct Hopen as [Hd Hp].
  apply Z.eqb_eq in Hd. unfold open_key.
  destruct (current_pos e =? -1); [discriminate|]. congruence.
Qed.

Lemma oft_ok_open_count (s : FileSystem) (d : Z) :
  oft_ok s -> (open_count s d <= 1)%nat.
Proof.
  intros (_ & _ & Huniq). unfold open_count.
  apply filter_length_le_1. intros i j x y Hi Hj Hx Hy.
  eapply (Huniq i j d); eapply is_open_on_key; eauto.
Qed.

(** C8: in every reachable state, every descriptor index has at most one
    slot of the open file table that is open and bound to it. *)
Theorem C8_at_most_one_open (s : FileSystem) (d : Z) :
  reachable s -> (open_count s d <= 1)%nat.
Proof.
  intros Hr. apply oft_ok_open_count. apply reachable_oft_ok. exact Hr.
Qed.

Lemma C8_at_most_one_open_witness :
  reachable (run (stale_handle ++ [Open "g"])) /\
  (open_count (run (stale_handle ++ [Open "g"])) 1 <= 1)%nat.
Proof.
  split; [apply reachable_run|].
  apply (C8_at_most_one_open _ 1 (reachable_run _)).
Defined.

(** In that sequence the open of [g] is refused because of the stale slot. *)
Lemma open_after_reuse_is_refused :
  oft (run stale_handle) !! 1%nat = Some (mkSlot 8%nat 0 0 1) /\
  get_descriptor (run stale_handle) 1 = Some [0; 8; 0; 0] /\
  open (run stale_handle) "g" = (run stale_handle, Ret (-1)) /\
  open_count (run (stale_handle ++ [Open "g"])) 1 = 1%nat.
Proof. by_evaluation. Qed.

(** ** The bitmap scan *)

Lemma scan_bitmap_spec (bits : list val) (n : nat) :
  forall a : nat,
  (a + n <= length bits)%nat ->
  (exists nb : nat, (a <= nb < a + n)%nat /\
     scan_bitmap bits (map Z.of_nat (seq a n)) = Ret (Some (Z.of_nat nb)) /\
     (exists v, bits !! nb = Some v /\ is_zero v = true) /\
     filter (fun v => is_zero v = true) (take (nb - a) (drop a bits)) = []) \/
  (scan_bitmap bits (map Z.of_nat (seq a n)) = Ret None /\
   filter (fun v => is_zero v = true) (take n (drop a bits)) = []).
Proof.
  induction n as [|n IH]; intros a Hlen; simpl.
  - right. split; [reflexivity|]. rewrite take_0. reflexivity.
  - assert (Ha : (a < length bits)%nat) by lia.
    destruct (lookup_lt_is_Some_2 bits a Ha) as [v Hv].
    unfold py_get. rewrite py_index_nonneg by lia. rewrite Nat2Z.id, Hv.
    destruct (is_zero v) eqn:Hz.
    + left. exists a. split; [lia|]. split; [reflexivity|]. split; [eauto|].
      replace (a - a)%nat with 0%nat by lia. rewrite take_0. reflexivity.
    + assert (Hdrop : drop a bits = v :: drop (S a) bits).
      { apply drop_S. exact Hv. }
      destruct (IH (S a) ltac:(lia)) as [(nb & Hnb & Hscan & Hzero & Hbefore)|[Hscan Hnone]].
      * left. exists nb. split; [lia|]. split; [exact Hscan|]. split; [exact Hzero|].
        replace (nb - a)%nat with (S (nb - S a)) by lia.
        rewrite Hdrop. rewrite firstn_cons. rewrite filter_cons.
        destruct (decide (is_zero v = true)); [congruence|]. exact Hbefore.
      * right. split; [exact Hscan|].
        rewrite Hdrop. rewrite firstn_cons. rewrite filter_cons.
        destruct (decide (is_zero v = true)); [congruence|]. exact Hnone.
Qed.

(** With a free block left, [find_free_block] finds one in 8..63. *)
Lemma find_free_block_Some (s : FileSystem) :
  length (obj (heap s) (bitmap s)) = 64%nat ->
  (0 < free_blocks_left s)%nat ->
  exists nb : nat, (8 <= nb <= 63)%nat /\
    find_free_block s = Ret (Some (Z.of_nat nb)) /\
    exists v, obj (heap s) (bitmap s) !! nb = Some v /\ is_zero v = true.
Proof.
  intros Hlen Hfree. unfold find_free_block, range.
  destruct (scan_bitmap_spec (obj (heap s) (bitmap s)) (64 - 8) 8 ltac:(lia))
    as [(nb & Hnb & Hscan & Hzero & _)|[_ Hnone]].
  - exists nb. split; [lia|]. split; [exact Hscan|exact Hzero].
  - exfalso. unfold free_blocks_left in Hfree.
    rewrite take_ge in Hnone by (rewrite length_drop; lia).
    rewrite Hnone in Hfree. simpl in Hfree. lia.
Qed.

(** Marking a free cell leaves one free block less. *)
Lemma filter_insert_length {A} (P : A -> Prop) `{forall x, Decision (P x)}
    (l : list A) (k : nat) (x y : A) :
  l !! k = Some x -> P x -> ~ P y ->
  S (length (filter P (<[k := y]> l))) = length (filter P l).
Proof.
  revert k. induction l as [|a l IH]; intros k Hk Hx Hy; [discriminate|].
  destruct k as [|k]; simpl in *.
  - inversion Hk; subst a. rewrite !filter_cons.
    destruct (decide (P y)); [contradiction|].
    destruct (decide (P x)); [reflexivity|contradiction].
  - rewrite !filter_cons. destruct (decide (P a)); simpl; rewrite (IH k Hk Hx Hy); reflexivity.
Qed.

(** ** The steps of a pass succeed on a ready state *)

Lemma py_set_nonneg {A} (l : list A) (i : Z) (x : A) :
  0 <= i -> i < Z.of_nat (length l) -> py_set l i x = Some (<[Z.to_nat i := x]> l).
Proof. intros H0 H1. unfold py_set. rewrite py_index_nonneg by lia. reflexivity. Qed.

Lemma py_get_nonneg {A} (l : list A) (i : Z) :
  0 <= i -> py_get l i = l !! Z.to_nat i.
Proof.
  intros H0. unfold py_get, py_index.
  replace (0 <=? i) with true by (symmetry; apply Z.leb_le; lia).
  destruct (i <? Z.of_nat (length l)) eqn:Hlt; simpl.
  - reflexivity.
  - replace (i <? 0) with false by (symmetry; apply Z.ltb_ge; lia). simpl.
    apply Z.ltb_ge in Hlt. symmetry. apply lookup_ge_None. lia.
Qed.

Lemma set_descriptor_ok (s : FileSystem) (di : Z) (d d' : list Z) :
  get_descriptor s di = Some d ->
  exists s', set_descriptor s di d' = Some s'.
Proof.
  unfold get_descriptor, set_descriptor, py_get. intros H.
  destruct (py_index (descriptors s) (di / 32)) as [b|]; [|discriminate].
  destruct (descriptors s !! b) as [blk|]; [|discriminate].
  unfold py_set. destruct (py_index blk (di mod 32)) as [k|]; [|discriminate].
  eauto.
Qed.

Lemma set_descriptor_field_ok (s : FileSystem) (di k v : Z) (d : list Z) :
  get_descriptor s di = Some d -> 0 <= k < Z.of_nat (length d) ->
  exists s', set_descriptor_field s di k v = Some s' /\
             get_descriptor s' di = Some (<[Z.to_nat k := v]> d).
Proof.
  intros Hd Hk. unfold set_descriptor_field. rewrite Hd.
  rewrite py_set_nonneg by lia.
  destruct (set_descriptor_ok s di d (<[Z.to_nat k := v]> d) Hd) as [s' Hs'].
  exists s'. split; [exact Hs'|]. eapply get_set_descriptor_eq; eauto.
Qed.

Lemma set_bit_ok (s : FileSystem) (i v : Z) :
  0 <= i < Z.of_nat (length (obj (heap s) (bitmap s))) ->
  exists s', set_bit s i v = Some s' /\
    heap s' = <[bitmap s := <[Z.to_nat i := VInt v]> (obj (heap s) (bitmap s))]> (heap s).
Proof.
  intros Hi. unfold set_bit. rewrite py_set_nonneg by lia.
  eexists. split; reflexivity.
Qed.

Lemma obj_insert_eq (h : list (list val)) (l : loc) (o : list val) :
  (l < length h)%nat -> obj (<[l := o]> h) l = o.
Proof. intros H. unfold obj. rewrite list_lookup_insert_eq by exact H. reflexivity. Qed.

Lemma obj_insert_ne (h : list (list val)) (l l' : loc) (o : list val) :
  l <> l' -> obj (<[l := o]> h) l' = obj h l'.
Proof. intros H. unfold obj. rewrite list_lookup_insert_ne by exact H. reflexivity. Qed.

Lemma obj_length_valid (h : list (list val)) (l : loc) (n : nat) :
  length (obj h l) = S n -> (l < length h)%nat.
Proof.
  intros H. apply obj_nonempty_valid. intros Hnil. rewrite Hnil in H. discriminate.
Qed.

Lemma descriptor_field_insert (s s' : FileSystem) (di : Z) (d : list Z) (k v : Z) :
  get_descriptor s di = Some d -> get_descriptor s' di = Some (<[Z.to_nat k := v]> d) ->
  0 <= k < Z.of_nat (length d) ->
  descriptor_field s' di k = Some v /\
  forall k', 0 <= k' -> k' <> k -> descriptor_field s' di k' = descriptor_field s di k'.
Proof.
  intros Hd Hd' Hk. unfold descriptor_field. rewrite Hd, Hd'. split.
  - rewrite py_get_nonneg by lia. apply list_lookup_insert_eq. lia.
  - intros k' Hk' Hne. rewrite !py_get_nonneg by lia.
    apply list_lookup_insert_ne. lia.
Qed.

Lemma fields_in_range_insert (d : list Z) (j : nat) (v : Z) :
  (forall k b, 1 <= k <= 3 -> py_get d k = Some b -> 0 <= b <= 63) ->
  (j = 0%nat \/ 0 <= v <= 63) ->
  forall k b, 1 <= k <= 3 -> py_get (<[j := v]> d) k = Some b -> 0 <= b <= 63.
Proof.
  intros Hd Hv k b Hk Hget. rewrite py_get_nonneg in Hget by lia.
  destruct (decide (j = Z.to_nat k)) as [->|Hne].
  - destruct (decide (Z.to_nat k < length d)%nat) as [Hlt|Hge].
    + rewrite list_lookup_insert_eq in Hget by exact Hlt. inversion Hget; subst b.
      destruct Hv as [Hv|Hv]; [lia|exact Hv].
    + rewrite list_insert_ge in Hget by lia.
      apply (Hd k b Hk). rewrite py_get_nonneg by lia. exact Hget.
  - rewrite list_lookup_insert_ne in Hget by exact Hne.
    apply (Hd k b Hk). rewrite py_get_nonneg by lia. exact Hget.
Qed.

(** Taking a new block on a ready state with a free block left. *)
Lemma grow_ready (s : FileSystem) (index : nat) (di cbi : Z) :
  write_ready s index di -> 0 < cbi < 3 -> (0 < free_blocks_left s)%nat ->
  exists s1 (nb : nat),
    grow s index di cbi = (s1, Ret (Some tt)) /\
    write_ready s1 index di /\
    (8 <= nb <= 63)%nat /\
    descriptor_field s1 di (1 + cbi) = Some (Z.of_nat nb) /\
    (forall k, 0 <= k -> k <> 1 + cbi ->
               descriptor_field s1 di k = descriptor_field s di k) /\
    bitmap s1 = bitmap s /\
    obj (heap s1) (bitmap s1) = <[nb := VInt 1]> (obj (heap s) (bitmap s)) /\
    S (free_blocks_left s1) = free_blocks_left s /\
    current_pos (slot_at s1 index) = current_pos (slot_at s index) /\
    disk s1 = disk s.
Proof.
  intros (Hidx & Hdisk & Hbits & Hbuf & Hblen & d & Hd & Hdlen & Hrange) Hcbi Hfree.
  destruct (find_free_block_Some s Hbits Hfree) as (nb & Hnb & Hfind & v & Hv & Hz).
  destruct (set_descriptor_field_ok s di (1 + cbi) (Z.of_nat nb) d Hd ltac:(lia))
    as (sa & Hsa & Hda).
  destruct (set_descriptor_field_frame _ _ _ _ _ Hsa) as (Ah & Adisk & Ab & Adir & Ao).
  destruct (set_bit_ok sa (Z.of_nat nb) 1) as (sb & Hsb & Bh).
  { rewrite Ah, Ab, Hbits. lia. }
  destruct (set_bit_frame _ _ _ _ Hsb) as (Bd & Bdisk & Bb & Bdir & Bo & Blen).
  rewrite Nat2Z.id in Bh. rewrite Ah, Ab in Bh.
  assert (Hbv : (bitmap s < length (heap s))%nat) by (eapply obj_length_valid; eauto).
  exists (set_slot (with_heap sb (heap sb ++ [zeros 512])) index
            (with_buffer (slot_at sb index) (length (heap sb)))), nb.
  split.
  { unfold grow. rewrite Hfind, Hsa, Hsb. reflexivity. }
  assert (Hslot : slot_at sb index = slot_at s index)
    by (unfold slot_at; rewrite Bo, Ao; reflexivity).
  assert (Hbits1 : obj (heap sb ++ [zeros 512]) (bitmap s)
                   = <[nb := VInt 1]> (obj (heap s) (bitmap s))).
  { rewrite obj_app_l by (rewrite Bh, length_insert; exact Hbv).
    rewrite Bh. apply obj_insert_eq. exact Hbv. }
  destruct (descriptor_field_insert s sa di d (1 + cbi) (Z.of_nat nb) Hd Hda ltac:(lia))
    as [Hf1 Hf2].
  split; [|split; [exact Hnb|]; split; [|split; [|split; [|split; [|split; [|split]]]]]].
  - (* ready *)
    split; [simpl; rewrite length_insert, Bo, Ao; exact Hidx|].
    split; [simpl; rewrite Bdisk, Adisk; exact Hdisk|].
    split; [simpl; rewrite Bb, Ab, Hbits1, length_insert; exact Hbits|].
    rewrite slot_at_set_slot by (simpl; rewrite Bo, Ao; exact Hidx).
    split; [simpl; rewrite Bb, Ab, Bh, length_insert; lia|].
    split.
    { unfold buffer_of. rewrite slot_at_set_slot by (simpl; rewrite Bo, Ao; exact Hidx).
      simpl. rewrite obj_app_new. unfold zeros. apply length_replicate. }
    exists (<[Z.to_nat (1 + cbi) := Z.of_nat nb]> d).
    split; [unfold get_descriptor in *; simpl; rewrite Bd; exact Hda|].
    split; [rewrite length_insert; exact Hdlen|].
    apply fields_in_range_insert; [exact Hrange|right; lia].
  - rewrite <- Hf1. apply descriptor_field_ext. simpl. exact Bd.
  - intros k Hk Hne. rewrite <- (Hf2 k Hk Hne). apply descriptor_field_ext. simpl. exact Bd.
  - simpl. rewrite Bb, Ab. reflexivity.
  - simpl. rewrite Bb, Ab. exact Hbits1.
  - unfold free_blocks_left. simpl. rewrite Bb, Ab, Hbits1.
    rewrite drop_insert_ge by lia.
    apply (filter_insert_length _ _ _ v).
    + rewrite lookup_drop. replace (8 + (nb - 8))%nat with nb by lia. exact Hv.
    + exact Hz.
    + simpl. discriminate.
  - rewrite slot_at_set_slot by (simpl; rewrite Bo, Ao; exact Hidx).
    simpl. rewrite Hslot. reflexivity.
  - simpl. rewrite Bdisk, Adisk. reflexivity.
Qed.

(** Storing the byte and advancing the cursor. *)
Lemma store_ready (s : FileSystem) (index : nat) (di bp x : Z) :
  write_ready s index di -> 0 <= bp < 512 ->
  py_set (obj (heap s) (buffer (slot_at s index))) bp (VInt x)
    = Some (<[Z.to_nat bp := VInt x]> (buffer_of s index)) /\
  forall s3,
    s3 = set_slot (with_heap s (set_obj (heap s) (buffer (slot_at s index))
                                  (<[Z.to_nat bp := VInt x]> (buffer_of s index))))
           index (with_pos (slot_at s index) (current_pos (slot_at s index) + 1)) ->
    write_ready s3 index di /\
    descriptors s3 = descriptors s /\ disk s3 = disk s /\ bitmap s3 = bitmap s /\
    obj (heap s3) (bitmap s3) = obj (heap s) (bitmap s) /\
    current_pos (slot_at s3 index) = current_pos (slot_at s index) + 1 /\
    buffer_of s3 index = <[Z.to_nat bp := VInt x]> (buffer_of s index).
Proof.
  intros (Hidx & Hdisk & Hbits & Hbuf & Hblen & d & Hd & Hdlen & Hrange) Hbp.
  unfold buffer_of in *.
  split; [apply py_set_nonneg; lia|].
  intros s3 ->.
  assert (Hvalid : (buffer (slot_at s index) < length (heap s))%nat)
    by (eapply obj_length_valid; eauto).
  rewrite slot_at_set_slot by exact Hidx. simpl.
  unfold set_obj. rewrite obj_insert_eq by exact Hvalid.
  rewrite obj_insert_ne by exact Hbuf.
  repeat split; try reflexivity.
  - simpl. rewrite length_insert. exact Hidx.
  - exact Hdisk.
  - simpl. rewrite obj_insert_ne by exact Hbuf. exact Hbits.
  - rewrite slot_at_set_slot by exact Hidx. simpl. exact Hbuf.
  - unfold buffer_of. rewrite slot_at_set_slot by exact Hidx. simpl.
    rewrite obj_insert_eq by exact Hvalid. rewrite length_insert. exact Hblen.
  - exists d. split; [exact Hd|]. split; [exact Hdlen|exact Hrange].
Qed.

(** The flush succeeds on a ready state. *)
Lemma flush_ready (s : FileSystem) (index : nat) (di cbi : Z) :
  write_ready s index di -> 0 <= cbi < 3 ->
  exists s4,
    flush s index di cbi = (s4, Ret tt) /\
    write_ready s4 index di /\
    descriptors s4 = descriptors s /\ bitmap s4 = bitmap s /\
    obj (heap s4) (bitmap s4) = obj (heap s) (bitmap s) /\
    oft s4 = oft s /\
    buffer_of s4 index = buffer_of s index.
Proof.
  intros Hready Hcbi.
  pose proof Hready as (Hidx & Hdisk & Hbits & Hbuf & Hblen & d & Hd & Hdlen & Hrange).
  unfold flush, descriptor_field. rewrite Hd.
  destruct (py_get_Some_nonneg d (1 + cbi)) as [bn Hbn]; [lia|lia|]. rewrite Hbn.
  destruct (bn =? 0) eqn:Hz.
  { exists s. split; [reflexivity|]. split; [exact Hready|]. auto 10. }
  pose proof (Hrange (1 + cbi) bn ltac:(lia) Hbn) as Hbr.
  unfold write_block.
  replace ((bn <? 0) || (63 <? bn)) with false
    by (symmetry; apply orb_false_iff; split; apply Z.ltb_ge; lia).
  unfold buffer_of in Hblen. rewrite Hblen. simpl.
  rewrite py_set_nonneg by lia.
  assert (Hvb : (bitmap s < length (heap s))%nat) by (eapply obj_length_valid; eauto).
  assert (Hvbuf : (buffer (slot_at s index) < length (heap s))%nat)
    by (eapply obj_length_valid; eauto).
  eexists. split; [reflexivity|].
  unfold buffer_of. simpl.
  assert (Hs : forall dsk h, slot_at (with_disk (with_heap s h) dsk) index = slot_at s index)
    by reflexivity.
  rewrite !Hs. rewrite !obj_app_l by assumption.
  split; [|auto 10].
  split; [exact Hidx|].
  split; [simpl; rewrite length_insert; exact Hdisk|].
  split; [simpl; rewrite obj_app_l by assumption; exact Hbits|].
  rewrite Hs. split; [exact Hbuf|].
  split; [unfold buffer_of; simpl; rewrite Hs, obj_app_l by assumption; exact Hblen|].
  exists d. split; [exact Hd|]. split; [exact Hdlen|exact Hrange].
Qed.

(** The length update succeeds on a ready state. *)
Lemma length_ready (s : FileSystem) (index : nat) (di : Z) :
  write_ready s index di ->
  exists s5,
    update_length s index di = Some s5 /\
    write_ready s5 index di /\
    heap s5 = heap s /\ disk s5 = disk s /\ bitmap s5 = bitmap s /\ oft s5 = oft s /\
    forall k, 1 <= k -> descriptor_field s5 di k = descriptor_field s di k.
Proof.
  intros Hready.
  pose proof Hready as (Hidx & Hdisk & Hbits & Hbuf & Hblen & d & Hd & Hdlen & Hrange).
  unfold update_length, descriptor_field at 1. rewrite Hd.
  destruct (py_get_Some_nonneg d 0) as [L HL]; [lia|lia|]. rewrite HL.
  destruct (L <? current_pos (slot_at s index)).
  - destruct (set_descriptor_field_ok s di 0 (current_pos (slot_at s index)) d Hd ltac:(lia))
      as (s5 & Hs5 & Hd5).
    destruct (set_descriptor_field_frame _ _ _ _ _ Hs5) as (Fh & Fdisk & Fb & Fdir & Fo).
    exists s5. split; [exact Hs5|].
    split.
    { split; [rewrite Fo; exact Hidx|]. split; [rewrite Fdisk; exact Hdisk|].
      split; [rewrite Fh, Fb; exact Hbits|].
      unfold buffer_of, slot_at. rewrite Fo, Fh, Fb.
      split; [exact Hbuf|]. split; [exact Hblen|].
      exists (<[Z.to_nat 0 := current_pos (slot_at s index)]> d).
      split; [exact Hd5|]. split; [rewrite length_insert; exact Hdlen|].
      apply fields_in_range_insert; [exact Hrange|left; reflexivity]. }
    repeat (split; [assumption|]).
    intros k Hk.
    destruct (descriptor_field_insert s s5 di d 0 _ Hd Hd5 ltac:(lia)) as [_ Hne].
    apply Hne; lia.
  - exists s. split; [reflexivity|]. split; [exact Hready|]. auto.
Qed.

(** ** A whole pass on a ready state *)

Lemma write_pass (s : FileSystem) (index : nat) (di x : Z) (last : bool) :
  write_ready s index di ->
  0 <= current_pos (slot_at s index) < 1536 ->
  (grows (current_pos (slot_at s index)) = true -> (0 < free_blocks_left s)%nat) ->
  exists s',
    write_body s index di (Some x) last = (s', Ret Continue) /\
    write_ready s' index di /\
    current_pos (slot_at s' index) = current_pos (slot_at s index) + 1 /\
    bitmap s' = bitmap s /\
    if grows (current_pos (slot_at s index))
    then exists nb : nat,
           (8 <= nb <= 63)%nat /\
           descriptor_field s' di (1 + current_pos (slot_at s index) / 512)
             = Some (Z.of_nat nb) /\
           (forall k, 1 <= k -> k <> 1 + current_pos (slot_at s index) / 512 ->
                      descriptor_field s' di k = descriptor_field s di k) /\
           obj (heap s') (bitmap s') = <[nb := VInt 1]> (obj (heap s) (bitmap s)) /\
           S (free_blocks_left s') = free_blocks_left s
    else (forall k, 1 <= k -> descriptor_field s' di k = descriptor_field s di k) /\
         obj (heap s') (bitmap s') = obj (heap s) (bitmap s) /\
         free_blocks_left s' = free_blocks_left s.
Proof.
  intros Hready Hp Hfree.
  set (p := current_pos (slot_at s index)) in *.
  assert (Hcbi : 0 <= p / 512 < 3).
  { split; [apply Z.div_pos; lia|apply Z.div_lt_upper_bound; lia]. }
  assert (Hbp : 0 <= p mod 512 < 512) by (apply Z.mod_pos_bound; lia).
  unfold write_body. fold p.
  replace (3 <=? p / 512) with false by (symmetry; apply Z.leb_gt; lia).
  fold (grows p).
  (* the state after the optional allocation *)
  assert (G : exists s1,
    (if grows p then grow s index di (p / 512) else (s, Ret (Some tt))) = (s1, Ret (Some tt)) /\
    write_ready s1 index di /\ current_pos (slot_at s1 index) = p /\ bitmap s1 = bitmap s /\
    if grows p
    then exists nb : nat,
           (8 <= nb <= 63)%nat /\
           descriptor_field s1 di (1 + p / 512) = Some (Z.of_nat nb) /\
           (forall k, 1 <= k -> k <> 1 + p / 512 ->
                      descriptor_field s1 di k = descriptor_field s di k) /\
           obj (heap s1) (bitmap s1) = <[nb := VInt 1]> (obj (heap s) (bitmap s)) /\
           S (free_blocks_left s1) = free_blocks_left s
    else s1 = s).
  { destruct (grows p) eqn:Hg.
    - unfold grows in Hg. apply andb_true_iff in Hg. destruct Hg as [_ Hg].
      apply Z.ltb_lt in Hg.
      destruct (grow_ready s index di (p / 512) Hready ltac:(lia) (Hfree eq_refl))
        as (s1 & nb & H1 & H2 & H3 & H4 & H5 & H6 & H7 & H8 & H9 & _).
      exists s1. split; [exact H1|]. split; [exact H2|]. split; [exact H9|].
      split; [exact H6|]. exists nb. split; [exact H3|]. split; [exact H4|].
      split; [intros k Hk Hne; apply H5; [lia|exact Hne]|]. split; [exact H7|exact H8].
    - exists s. split; [reflexivity|]. split; [exact Hready|]. auto. }
  destruct G as (s1 & -> & Hready1 & Hp1 & Hb1 & Hgrow).
  destruct (store_ready s1 index di (p mod 512) x Hready1 Hbp) as [Hset Hs3].
  rewrite Hset.
  match goal with
  | |- context [set_slot ?a index ?b] =>
      destruct (Hs3 (set_slot a index b)) as (Hready3 & Hd3 & Hdisk3 & Hb3 & Hbits3 & Hp3 & _);
      [unfold buffer_of; reflexivity|];
      set (s3 := set_slot a index b) in *
  end.
  assert (F : exists s4,
    (if (p mod 512 =? 511) || last then flush s3 index di (p / 512) else (s3, Ret tt))
      = (s4, Ret tt) /\
    write_ready s4 index di /\ descriptors s4 = descriptors s3 /\ bitmap s4 = bitmap s3 /\
    obj (heap s4) (bitmap s4) = obj (heap s3) (bitmap s3) /\ oft s4 = oft s3).
  { destruct ((p mod 512 =? 511) || last).
    - destruct (flush_ready s3 index di (p / 512) Hready3 Hcbi)
        as (s4 & H1 & H2 & H3 & H4 & H5 & H6 & _).
      exists s4. auto 10.
    - exists s3. auto 10. }
  destruct F as (s4 & -> & Hready4 & Hd4 & Hb4 & Hbits4 & Ho4).
  destruct (length_ready s4 index di Hready4) as (s5 & -> & Hready5 & Hh5 & Hdisk5 & Hb5 & Ho5 & Hf5).
  exists s5. split; [reflexivity|]. split; [exact Hready5|].
  assert (Hbits5 : obj (heap s5) (bitmap s5) = obj (heap s1) (bitmap s1))
    by (rewrite Hh5, Hb5, Hbits4; exact Hbits3).
  assert (Hfield : forall k, 1 <= k -> descriptor_field s5 di k = descriptor_field s1 di k).
  { intros k Hk. rewrite (Hf5 k Hk). rewrite (descriptor_field_ext s3 s4 di k Hd4).
    apply descriptor_field_ext. exact Hd3. }
  split.
  { unfold slot_at. rewrite Ho5, Ho4. fold (slot_at s3 index). rewrite Hp3, Hp1. reflexivity. }
  split; [congruence|].
  destruct (grows p).
  - destruct Hgrow as (nb & H1 & H2 & H3 & H4 & H5).
    exists nb. split; [exact H1|]. split; [rewrite Hfield by lia; exact H2|].
    split; [intros k Hk Hne; rewrite Hfield by lia; apply H3; assumption|].
    split; [rewrite Hbits5; exact H4|].
    rewrite <- H5. unfold free_blocks_left. rewrite Hbits5. reflexivity.
  - subst s1. split; [exact Hfield|]. split; [exact Hbits5|].
    unfold free_blocks_left. rewrite Hbits5. reflexivity.
Qed.

(** ** A run of passes *)

Lemma grows_iff (p : Z) :
  0 <= p < 1536 -> (grows p = true <-> p = 512 \/ p = 1024).
Proof.
  intros Hp. unfold grows. rewrite andb_true_iff, Z.eqb_eq, Z.ltb_lt.
  pose proof (Z.div_mod p 512 ltac:(lia)) as E.
  pose proof (Z.mod_pos_bound p 512 ltac:(lia)) as B.
  split.
  - intros [Hm Hd]. assert (p / 512 < 3) by (apply Z.div_lt_upper_bound; lia). lia.
  - intros [->| ->]; split; reflexivity.
Qed.

Lemma crossings_step (p : Z) (n : nat) :
  0 <= p < 1536 ->
  crossings p (S n) = ((if grows p then 1 else 0) + crossings (p + 1) n)%nat.
Proof.
  intros Hp. pose proof (grows_iff p Hp) as Hg.
  unfold crossings. rewrite !filter_cons, !filter_nil.
  destruct (grows p).
  - destruct (proj1 Hg eq_refl) as [-> | ->];
      repeat (case_decide; simpl); try reflexivity; lia.
  - assert (p <> 512 /\ p <> 1024).
    { split; intros ->; destruct Hg as [_ Hg]; discriminate Hg; auto. }
    repeat (case_decide; simpl); try reflexivity; lia.
Qed.

Lemma bit_stays_set (bits bits' : list val) (nb : nat) :
  (bits' = bits \/ exists nb', bits' = <[nb' := VInt 1]> bits) ->
  bits !! nb = Some (VInt 1) -> bits' !! nb = Some (VInt 1).
Proof.
  intros [->|[nb' ->]] H; [exact H|].
  destruct (decide (nb' = nb)) as [->|Hne].
  - rewrite list_lookup_insert_eq; [reflexivity|]. eapply lookup_lt_Some; eauto.
  - rewrite list_lookup_insert_ne by exact Hne. exact H.
Qed.

Lemma write_body_at_ceiling (s : FileSystem) (index : nat) (di : Z)
    (byte : option Z) (last : bool) :
  1536 <= current_pos (slot_at s index) ->
  write_body s index di byte last = (s, Ret Stop).
Proof.
  intros Hp. unfold write_body.
  replace (3 <=? current_pos (slot_at s index) / 512) with true; [reflexivity|].
  symmetry. apply Z.leb_le. apply Z.div_le_lower_bound; lia.
Qed.

Lemma write_run_post_refl (s : FileSystem) (index : nat) (di : Z) :
  write_ready s index di ->
  write_run_post s s index di (current_pos (slot_at s index)) 0.
Proof.
  intros Hready. split; [exact Hready|]. split; [lia|]. split; [reflexivity|].
  split; [reflexivity|]. split; [intros; lia|auto].
Qed.

(** One pass followed by a run is a run. *)
Lemma write_run_post_step (s s1 s' : FileSystem) (index : nat) (di w' : Z) :
  let p := current_pos (slot_at s index) in
  0 <= p < 1536 -> 0 <= w' ->
  length (obj (heap s) (bitmap s)) = 64%nat ->
  (* the pass *)
  current_pos (slot_at s1 index) = p + 1 ->
  bitmap s1 = bitmap s ->
  (if grows p
   then exists nb : nat,
          (8 <= nb <= 63)%nat /\
          descriptor_field s1 di (1 + p / 512) = Some (Z.of_nat nb) /\
          (forall k, 1 <= k -> k <> 1 + p / 512 ->
                     descriptor_field s1 di k = descriptor_field s di k) /\
          obj (heap s1) (bitmap s1) = <[nb := VInt 1]> (obj (heap s) (bitmap s)) /\
          S (free_blocks_left s1) = free_blocks_left s
   else (forall k, 1 <= k -> descriptor_field s1 di k = descriptor_field s di k) /\
        obj (heap s1) (bitmap s1) = obj (heap s) (bitmap s) /\
        free_blocks_left s1 = free_blocks_left s) ->
  (* the run *)
  write_run_post s1 s' index di (p + 1) w' ->
  write_run_post s s' index di p (1 + w').
Proof.
  intros p Hp Hw Hbits Hp1 Hb1 Hpass (Rready & Rpos & Rb & Rsame & Rnew & Rbits).
  pose proof (grows_iff p Hp) as Hg.
  assert (Hmono : forall nb, obj (heap s) (bitmap s) !! nb = Some (VInt 1) ->
                             obj (heap s1) (bitmap s1) !! nb = Some (VInt 1)).
  { intros nb. apply bit_stays_set. destruct (grows p).
    - destruct Hpass as (nb' & _ & _ & _ & -> & _). right. eauto.
    - destruct Hpass as (_ & -> & _). left. reflexivity. }
  split; [exact Rready|]. split; [lia|]. split; [congruence|].
  split; [|split].
  - intros j Hj Hcond. rewrite (Rsame j Hj ltac:(lia)).
    destruct (grows p).
    + destruct Hpass as (nb & _ & _ & Hother & _). apply Hother; [lia|].
      destruct (proj1 Hg eq_refl) as [E|E]; rewrite E in *;
        [replace (1 + 512 / 512) with 2 by reflexivity
        |replace (1 + 1024 / 512) with 3 by reflexivity]; lia.
    + destruct Hpass as (Hall & _). apply Hall. lia.
  - intros j Hj Hin.
    destruct (Z.eq_dec (512 * (j - 1)) p) as [E|N].
    + assert (Hgt : grows p = true) by (apply Hg; lia).
      rewrite Hgt in Hpass. destruct Hpass as (nb & Hnb & Hf & _ & Hb & _).
      exists nb. split; [exact Hnb|].
      assert (Ej : 1 + p / 512 = j).
      { rewrite <- E. replace (512 * (j - 1)) with ((j - 1) * 512) by lia.
        rewrite Z.div_mul by lia. lia. }
      rewrite Ej in Hf. split.
      * rewrite (Rsame j ltac:(lia) ltac:(lia)). exact Hf.
      * apply Rbits. rewrite Hb. apply list_lookup_insert_eq. lia.
    + apply Rnew; [exact Hj|lia].
  - intros nb Hnb. apply Rbits. apply Hmono. exact Hnb.
Qed.

(** A write of [r] bytes on a ready state with enough source bytes and
    enough free blocks stores them all, up to the three-block ceiling. *)
Lemma write_loop_run (r : nat) :
  forall (s : FileSystem) (index : nat) (di : Z) (src : list Z) (bw : Z),
  write_ready s index di ->
  0 <= current_pos (slot_at s index) <= 1536 ->
  (r <= length src)%nat ->
  (crossings (current_pos (slot_at s index)) r <= free_blocks_left s)%nat ->
  exists s',
    write_loop r s index di src bw
      = (s', Ret (bw + Z.min (Z.of_nat r) (1536 - current_pos (slot_at s index)))) /\
    write_run_post s s' index di (current_pos (slot_at s index))
      (Z.min (Z.of_nat r) (1536 - current_pos (slot_at s index))).
Proof.
  induction r as [|r IH]; intros s index di src bw Hready Hp Hsrc Hfree.
  - exists s.
    replace (Z.min (Z.of_nat 0) (1536 - current_pos (slot_at s index))) with 0 by lia.
    split; [cbn [write_loop]; f_equal; f_equal; lia|].
    apply write_run_post_refl. exact Hready.
  - destruct (Z.eq_dec (current_pos (slot_at s index)) 1536) as [E|N].
    + exists s.
      replace (Z.min (Z.of_nat (S r)) (1536 - current_pos (slot_at s index)))
        with 0 by lia.
      split; [cbn [write_loop]; rewrite write_body_at_ceiling by lia; f_equal; f_equal; lia|].
      apply write_run_post_refl. exact Hready.
    + destruct src as [|x src]; [simpl in Hsrc; lia|].
      rewrite crossings_step in Hfree by lia.
      destruct (write_pass s index di x (Nat.eqb r 0) Hready ltac:(lia))
        as (s1 & Hbody & Hready1 & Hp1 & Hb1 & Hpass).
      { intros Hg. rewrite Hg in Hfree. lia. }
      assert (Hfree1 : (crossings (current_pos (slot_at s1 index)) r <= free_blocks_left s1)%nat).
      { rewrite Hp1. destruct (grows (current_pos (slot_at s index))).
        - destruct Hpass as (nb & _ & _ & _ & _ & Hf). simpl in Hfree. lia.
        - destruct Hpass as (_ & _ & Hf). simpl in Hfree. lia. }
      destruct (IH s1 index di src (bw + 1) Hready1 ltac:(lia) ltac:(simpl in Hsrc; lia) Hfree1)
        as (s' & Hloop & Hpost).
      exists s'. split.
      * cbn [write_loop head tail]. rewrite Hbody. rewrite Hloop. f_equal. f_equal.
        rewrite Hp1. lia.
      * rewrite Hp1 in Hpost.
        replace (Z.min (Z.of_nat (S r)) (1536 - current_pos (slot_at s index)))
          with (1 + Z.min (Z.of_nat r) (1536 - (current_pos (slot_at s index) + 1))) by lia.
        apply (write_run_post_step s s1 s' index di); try assumption; try lia.
        destruct Hready as (_ & _ & Hbits & _). exact Hbits.
Qed.

(** C7: a file as create and open leave it (slot open at cursor 0 on a
    descriptor with its first block, a 512-cell buffer) with free blocks in
    the pool.  Writing 513 bytes returns 513 and allocates the second block:
    the descriptor's block2 names a block of the pool and that block's bit is
    set.  Writing 1537 bytes returns 1536. *)
Theorem C7_block_crossing (s : FileSystem) (index : Z) (e : slot) (src : list Z) :
  open_slot s index = Some e ->
  current_pos e = 0 ->
  write_ready s (Z.to_nat index) (descriptor_index e) ->
  (length src = 513%nat -> (1 <= free_blocks_left s)%nat ->
   exists s' (nb : nat),
     write s index src 513 = (s', Ret 513) /\
     (8 <= nb <= 63)%nat /\
     descriptor_field s' (descriptor_index e) 2 = Some (Z.of_nat nb) /\
     bit s' (Z.of_nat nb) = Some (VInt 1)) /\
  (length src = 1537%nat -> (2 <= free_blocks_left s)%nat ->
   exists s', write s index src 1537 = (s', Ret 1536)).
Proof.
  intros Ho Hpos Hready.
  destruct (open_slot_Some _ _ _ Ho) as (_ & Hlk & _).
  pose proof (slot_at_lookup _ _ _ Hlk) as Hslot.
  assert (Hd : exists d, get_descriptor s (descriptor_index e) = Some d).
  { destruct Hready as (_ & _ & _ & _ & _ & d & Hd & _). eauto. }
  destruct Hd as [d Hd].
  split.
  - intros Hlen Hfree.
    destruct (write_loop_run 513 s (Z.to_nat index) (descriptor_index e) src 0 Hready)
      as (s' & Hloop & Hpost).
    { rewrite Hslot, Hpos. lia. }
    { rewrite Hlen. apply le_n. }
    { rewrite Hslot, Hpos.
      replace (crossings 0 513) with 1%nat by (vm_compute; reflexivity). exact Hfree. }
    rewrite Hslot, Hpos in Hloop, Hpost.
    replace (0 + Z.min (Z.of_nat 513) (1536 - 0)) with 513 in Hloop by (vm_compute; reflexivity).
    replace (Z.min (Z.of_nat 513) (1536 - 0)) with 513 in Hpost by (vm_compute; reflexivity).
    destruct Hpost as (_ & _ & Hb & _ & Hnew & _).
    destruct (Hnew 2 ltac:(lia) ltac:(lia)) as (nb & Hnb & Hf & Hbit).
    exists s', nb. split.
    { unfold write. rewrite Ho, Hd.
      replace (Z.to_nat 513) with 513%nat by (vm_compute; reflexivity). exact Hloop. }
    split; [exact Hnb|]. split; [exact Hf|].
    unfold bit. rewrite py_get_nonneg by lia. rewrite Nat2Z.id. exact Hbit.
  - intros Hlen Hfree.
    destruct (write_loop_run 1537 s (Z.to_nat index) (descriptor_index e) src 0 Hready)
      as (s' & Hloop & _).
    { rewrite Hslot, Hpos. lia. }
    { rewrite Hlen. apply le_n. }
    { rewrite Hslot, Hpos.
      replace (crossings 0 1537) with 2%nat by (vm_compute; reflexivity). exact Hfree. }
    rewrite Hslot, Hpos in Hloop.
    replace (0 + Z.min (Z.of_nat 1537) (1536 - 0)) with 1536 in Hloop by (vm_compute; reflexivity).
    exists s'. unfold write. rewrite Ho, Hd.
    replace (Z.to_nat 1537) with 1537%nat by (vm_compute; reflexivity). exact Hloop.
Qed.

Lemma write_ready_new_file : write_ready (run [Create "f"; Open "f"]) 1 1.
Proof.
  split; [vm_compute; lia|]. split; [vm_compute; reflexivity|].
  split; [vm_compute; reflexivity|]. split; [vm_compute; discriminate|].
  split; [vm_compute; reflexivity|].
  exists [0; 8; 0; 0]. split; [vm_compute; reflexivity|]. split; [reflexivity|].
  intros k b Hk Hget.
  assert (Hcases : k = 1 \/ k = 2 \/ k = 3) by lia.
  destruct Hcases as [-> | [-> | ->]]; vm_compute in Hget; inversion Hget; lia.
Qed.

Lemma C7_block_crossing_witness :
  open_slot (run [Create "f"; Open "f"]) 1 = Some (mkSlot 8%nat 0 0 1) /\
  (exists s' (nb : nat),
     write (run [Create "f"; Open "f"]) 1 (bytes 513 65) 513 = (s', Ret 513) /\
     (8 <= nb <= 63)%nat /\
     descriptor_field s' 1 2 = Some (Z.of_nat nb) /\
     bit s' (Z.of_nat nb) = Some (VInt 1)) /\
  (exists s', write (run [Create "f"; Open "f"]) 1 (bytes 1537 65) 1537 = (s', Ret 1536)).
Proof.
  assert (Ho : open_slot (run [Create "f"; Open "f"]) 1 = Some (mkSlot 8%nat 0 0 1))
    by (vm_compute; reflexivity).
  assert (Hfree : free_blocks_left (run [Create "f"; Open "f"]) = 55%nat)
    by (vm_compute; reflexivity).
  split; [exact Ho|]. split.
  - apply (proj1 (C7_block_crossing _ 1 _ (bytes 513 65) Ho eq_refl write_ready_new_file)).
    + apply length_replicate.
    + rewrite Hfree. lia.
  - apply (proj2 (C7_block_crossing _ 1 _ (bytes 1537 65) Ho eq_refl write_ready_new_file)).
    + apply length_replicate.
    + rewrite Hfree. lia.
Defined.

(** ** The descriptor table as one list *)

Lemma range_lookup (n k : nat) :
  (k < n)%nat -> range 0 n !! k = Some (Z.of_nat k).
Proof.
  intros H. unfold range. rewrite list_lookup_fmap.
  rewrite lookup_seq_lt by lia. reflexivity.
Qed.

Lemma descriptor_list_length (s : FileSystem) : length (descriptor_list s) = 192%nat.
Proof. unfold descriptor_list, range. rewrite !length_map, length_seq. reflexivity. Qed.

Lemma descriptor_list_lookup (s : FileSystem) (k : nat) :
  (k < 192)%nat ->
  descriptor_list s !! k = Some (default [] (get_descriptor s (Z.of_nat k))).
Proof.
  intros H. unfold descriptor_list. rewrite list_lookup_fmap.
  rewrite range_lookup by exact H. reflexivity.
Qed.

Lemma descriptor_list_ext (s s' : FileSystem) :
  descriptors s' = descriptors s -> descriptor_list s' = descriptor_list s.
Proof. unfold descriptor_list, get_descriptor. intros ->. reflexivity. Qed.

Lemma get_set_descriptor_ne (s s' : FileSystem) (di j : Z) (d : list Z) :
  0 <= di -> 0 <= j -> di <> j ->
  set_descriptor s di d = Some s' -> get_descriptor s' j = get_descriptor s j.
Proof.
  intros Hdi Hj Hne H. unfold set_descriptor in H. unfold get_descriptor.
  destruct (py_index (descriptors s) (di / 32)) as [b|] eqn:Hb; [|discriminate].
  destruct (descriptors s !! b) as [blk|] eqn:Hblk; [|discriminate].
  destruct (py_set blk (di mod 32) d) as [blk'|] eqn:Hset; [|discriminate].
  inversion H; subst s'. simpl.
  assert (Hdiv : 0 <= di / 32) by (apply Z.div_pos; lia).
  assert (Hdivj : 0 <= j / 32) by (apply Z.div_pos; lia).
  destruct (py_index_nonneg_inv _ _ _ Hdiv Hb) as [-> Hlt].
  rewrite !py_get_nonneg by lia.
  destruct (Z.eq_dec (di / 32) (j / 32)) as [E|N].
  - rewrite <- E. rewrite list_lookup_insert_eq by (eapply lookup_lt_Some; eauto).
    rewrite Hblk.
    apply (py_get_set_ne_nonneg blk blk' (di mod 32) (j mod 32) d).
    + apply Z.mod_pos_bound. lia.
    + apply Z.mod_pos_bound. lia.
    + intros Em. pose proof (Z.div_mod di 32 ltac:(lia)).
      pose proof (Z.div_mod j 32 ltac:(lia)). lia.
    + exact Hset.
  - rewrite list_lookup_insert_ne by lia. reflexivity.
Qed.

Lemma descriptor_list_set (s s' : FileSystem) (di : Z) (d : list Z) :
  0 <= di < 192 ->
  set_descriptor s di d = Some s' ->
  descriptor_list s' = <[Z.to_nat di := d]> (descriptor_list s).
Proof.
  intros Hdi H. apply list_eq. intros k.
  destruct (decide (k < 192)%nat) as [Hk|Hk].
  - rewrite descriptor_list_lookup by exact Hk.
    destruct (decide (k = Z.to_nat di)) as [->|Hne].
    + rewrite list_lookup_insert_eq by (rewrite descriptor_list_length; lia).
      rewrite Z2Nat.id by lia. rewrite (get_set_descriptor_eq _ _ _ _ H). reflexivity.
    + rewrite list_lookup_insert_ne by congruence.
      rewrite descriptor_list_lookup by exact Hk.
      rewrite (get_set_descriptor_ne s s' di (Z.of_nat k) d); [reflexivity|lia|lia|lia|exact H].
  - rewrite !lookup_ge_None_2; [reflexivity| |].
    + rewrite length_insert, descriptor_list_length. lia.
    + rewrite descriptor_list_length. lia.
Qed.

Lemma descriptor_list_get (s : FileSystem) (di : Z) (d : list Z) :
  0 <= di < 192 -> get_descriptor s di = Some d ->
  descriptor_list s !! Z.to_nat di = Some d.
Proof.
  intros Hdi Hd. rewrite descriptor_list_lookup by lia.
  rewrite Z2Nat.id by lia. rewrite Hd. reflexivity.
Qed.

(** ** Block numbers held by the table, under an update of one descriptor *)

Lemma concat_map_delete {A B} (f : A -> list B) (l : list A) (k : nat) (x : A) :
  l !! k = Some x ->
  concat (map f l) ≡ₚ f x ++ concat (map f (delete k l)).
Proof.
  revert k. induction l as [|a l IH]; intros k Hk; [discriminate|].
  destruct k as [|k]; simpl in *.
  - inversion Hk; subst. reflexivity.
  - rewrite (IH k Hk). apply Permutation_app_swap_app.
Qed.

Lemma concat_map_insert {A B} (f : A -> list B) (l : list A) (k : nat) (y : A) :
  (k < length l)%nat ->
  concat (map f (<[k := y]> l)) ≡ₚ f y ++ concat (map f (delete k l)).
Proof.
  revert k. induction l as [|a l IH]; intros k Hk; [simpl in Hk; lia|].
  destruct k as [|k]; simpl in *.
  - reflexivity.
  - rewrite (IH k ltac:(lia)). apply Permutation_app_swap_app.
Qed.

Lemma filter_insert_length_up {A} (P : A -> Prop) `{forall x, Decision (P x)}
    (l : list A) (k : nat) (x y : A) :
  l !! k = Some x -> ~ P x -> P y ->
  length (filter P (<[k := y]> l)) = S (length (filter P l)).
Proof.
  revert k. induction l as [|a l IH]; intros k Hk Hx Hy; [discriminate|].
  destruct k as [|k]; simpl in *.
  - inversion Hk; subst a. rewrite !filter_cons.
    destruct (decide (P y)); [|contradiction].
    destruct (decide (P x)); [contradiction|reflexivity].
  - rewrite !filter_cons. destruct (decide (P a)); simpl; rewrite (IH k Hk Hx Hy); reflexivity.
Qed.

Lemma filter_insert_length_same {A} (P : A -> Prop) `{forall x, Decision (P x)}
    (l : list A) (k : nat) (x y : A) :
  l !! k = Some x -> (P x <-> P y) ->
  length (filter P (<[k := y]> l)) = length (filter P l).
Proof.
  revert k. induction l as [|a l IH]; intros k Hk Hxy; [discriminate|].
  destruct k as [|k]; simpl in *.
  - inversion Hk; subst a. rewrite !filter_cons.
    destruct (decide (P y)), (decide (P x)); simpl; tauto.
  - rewrite !filter_cons. destruct (decide (P a)); simpl; rewrite (IH k Hk Hxy); reflexivity.
Qed.

(** The block fields of a four-field descriptor. *)
Lemma four_fields (d : list Z) :
  length d = 4%nat -> exists len b1 b2 b3, d = [len; b1; b2; b3].
Proof.
  destruct d as [|len [|b1 [|b2 [|b3 [|x d]]]]]; simpl; intros H; try discriminate.
  eauto.
Qed.

Lemma nz_set_length (d : list Z) (v : Z) :
  nz (<[0%nat := v]> d) = nz d.
Proof. destruct d; reflexivity. Qed.

Lemma nz_set_block (d : list Z) (j : nat) (nb : Z) :
  length d = 4%nat -> (1 <= j <= 3)%nat -> d !! j = Some 0 -> nb <> 0 ->
  nz (<[j := nb]> d) ≡ₚ nb :: nz d.
Proof.
  intros Hlen Hj Hz Hnb.
  destruct (four_fields d Hlen) as (len & b1 & b2 & b3 & ->).
  assert (Hcases : j = 1%nat \/ j = 2%nat \/ j = 3%nat) by lia.
  destruct Hcases as [-> | [-> | ->]]; simpl in Hz; inversion Hz; subst;
    unfold nz; simpl; rewrite !filter_cons, !filter_nil;
    destruct (decide (nb <> 0)) as [_|N]; try contradiction.
  - destruct (decide (0 <> 0)) as [N|_]; [contradiction|]. reflexivity.
  - destruct (decide (0 <> 0)) as [N|_]; [contradiction|].
    destruct (decide (b1 <> 0)); [apply Permutation_swap|reflexivity].
  - destruct (decide (0 <> 0)) as [N|_]; [contradiction|].
    destruct (decide (b1 <> 0)), (decide (b2 <> 0)); simpl.
    + change ([b1; b2; nb] ≡ₚ [nb] ++ [b1; b2]). apply (Permutation_app_comm [b1; b2] [nb]).
    + apply Permutation_swap.
    + apply Permutation_swap.
    + reflexivity.
Qed.

(** ** The initial state is consistent *)

Lemma forallb_range (f : Z -> bool) (a b : nat) :
  forallb f (range a b) = true ->
  forall i, Z.of_nat a <= i < Z.of_nat b -> f i = true.
Proof.
  intros H i Hi. rewrite forallb_forall in H. apply H.
  unfold range. apply in_map_iff. exists (Z.to_nat i). split; [lia|].
  apply in_seq. lia.
Qed.

Lemma init_descriptors_free (di : Z) :
  1 <= di < 192 -> get_descriptor init di = Some free_descriptor.
Proof.
  intros Hdi.
  assert (Hall : forallb (fun i => bool_decide (get_descriptor init i = Some free_descriptor))
                   (range 1 192) = true) by (vm_compute; reflexivity).
  pose proof (forallb_range _ 1 192 Hall di ltac:(lia)) as H. cbv beta in H.
  apply bool_decide_eq_true in H. exact H.
Qed.

Lemma init_data_blocks (b : nat) :
  (8 <= b <= 63)%nat ->
  disk init !! b = Some (Obj b) /\ b <> 0%nat /\ length (obj (heap init) b) = 512%nat.
Proof.
  intros Hb.
  assert (Hall : forallb
            (fun i => match disk init !! Z.to_nat i with
                      | Some (Obj l) => Nat.eqb l (Z.to_nat i)
                      | _ => false
                      end
                      && Nat.eqb (length (obj (heap init) (Z.to_nat i))) 512)
            (range 8 64) = true) by (vm_compute; reflexivity).
  pose proof (forallb_range _ 8 64 Hall (Z.of_nat b) ltac:(lia)) as H. cbv beta in H.
  rewrite Nat2Z.id in H. apply andb_true_iff in H. destruct H as [H1 H2].
  apply Nat.eqb_eq in H2.
  destruct (disk init !! b) as [[k|l]|]; try discriminate.
  apply Nat.eqb_eq in H1. subst l. split; [reflexivity|]. split; [lia|exact H2].
Qed.

Lemma fs_ok_init : fs_ok init.
Proof.
  split; [|split; [|split; [|split]]].
  - repeat split; try reflexivity. vm_compute. discriminate.
  - split.
    + intros b Hb. destruct (init_data_blocks b Hb) as (Hd & Hne & Hlen).
      exists b. split; [exact Hd|]. split; [exact Hne|exact Hlen].
    + intros i e Hi He.
      destruct i as [|[|[|[|i]]]]; simpl in He; try lia; try discriminate;
        inversion He; subst e; (split; [split; [vm_compute; discriminate|reflexivity]|]);
        simpl; intros Hc; contradiction.
  - split; [reflexivity|]. intros di Hdi. exists free_descriptor.
    split; [apply init_descriptors_free; exact Hdi|].
    split; [reflexivity|]. split; [|reflexivity].
    intros k b Hk Hget.
    assert (Hcases : k = 1 \/ k = 2 \/ k = 3) by lia.
    destruct Hcases as [-> | [-> | ->]]; vm_compute in Hget; inversion Hget; auto.
  - assert (Hrefs : refs init = [7]) by (vm_compute; reflexivity).
    split; [rewrite Hrefs; apply NoDup_singleton|].
    split; [|rewrite Hrefs; vm_compute; reflexivity].
    intros b Hb. rewrite Hrefs in Hb. apply list_elem_of_singleton in Hb. subst b.
    vm_compute. reflexivity.
  - intros i name d Hi Hname. exfalso.
    assert (Hdir : obj (heap init) (directory init) = replicate 64 (VEntry "" 0))
      by (vm_compute; reflexivity).
    rewrite Hdir in Hi. apply lookup_replicate in Hi. destruct Hi as [Hi _].
    inversion Hi. congruence.
Qed.

(** ** read and seek only rebind a slot *)

Lemma read_block_Ret (s : FileSystem) (bn : Z) (b : loc) :
  read_block s bn = Ret b -> 0 <= bn <= 63 /\ disk s !! Z.to_nat bn = Some (Obj b).
Proof.
  unfold read_block. destruct ((bn <? 0) || (63 <? bn)) eqn:Hr; [discriminate|].
  apply orb_false_iff in Hr. destruct Hr as [Ha Hb].
  apply Z.ltb_ge in Ha. apply Z.ltb_ge in Hb.
  rewrite py_get_nonneg by lia.
  destruct (disk s !! Z.to_nat bn) as [[k|l]|]; try discriminate.
  intros H. inversion H; subst. split; [lia|reflexivity].
Qed.

Lemma slot_loaded_refl (s : FileSystem) (index : nat) :
  (index < length (oft s))%nat -> 0 <= current_pos (slot_at s index) ->
  slot_loaded s s index.
Proof.
  intros Hidx Hpos. repeat (split; [reflexivity|]).
  exists (buffer (slot_at s index)), (current_pos (slot_at s index)).
  split; [exact Hpos|]. split; [|left; reflexivity].
  rewrite <- (slot_at_insert_self s index Hidx) at 1.
  destruct (slot_at s index); reflexivity.
Qed.

Lemma slot_loaded_slot (s s' : FileSystem) (index : nat) :
  (index < length (oft s))%nat -> slot_loaded s s' index ->
  (index < length (oft s'))%nat /\
  0 <= current_pos (slot_at s' index) /\
  file_size (slot_at s' index) = file_size (slot_at s index) /\
  descriptor_index (slot_at s' index) = descriptor_index (slot_at s index) /\
  get_descriptor s' (descriptor_index (slot_at s' index))
    = get_descriptor s (descriptor_index (slot_at s index)).
Proof.
  intros Hidx (_ & _ & Hd & _ & _ & b & p & Hp & Ho & _).
  split; [rewrite Ho, length_insert; exact Hidx|].
  assert (He : slot_at s' index
               = mkSlot b p (file_size (slot_at s index)) (descriptor_index (slot_at s index))).
  { unfold slot_at at 1. rewrite Ho.
    rewrite list_lookup_insert_eq; [reflexivity|exact Hidx]. }
  rewrite He. simpl. repeat split; auto.
  unfold get_descriptor. rewrite Hd. reflexivity.
Qed.

(** A load through [load_block] from a state reached by loads. *)
Lemma slot_loaded_load (s s1 s2 : FileSystem) (index : nat) (d : list Z) (k : Z) :
  (index < length (oft s))%nat ->
  slot_loaded s s1 index ->
  get_descriptor s (descriptor_index (slot_at s index)) = Some d ->
  0 <= k ->
  load_block s1 index (slot_at s1 index) d k = Ret (Some s2) ->
  slot_loaded s s2 index.
Proof.
  intros Hidx H1 Hd Hk Hl.
  destruct (slot_loaded_slot _ _ _ Hidx H1) as (Hidx1 & Hpos1 & Hfs & Hdi & _).
  destruct H1 as (Hh & Hdisk & Hdesc & Hb & Hdir & b1 & p1 & Hp1 & Ho1 & _).
  unfold load_block in Hl.
  destruct (py_get d (1 + k)) as [bn|] eqn:Hbn; [|discriminate].
  destruct (bn =? 0) eqn:Hz; [discriminate|]. apply Z.eqb_neq in Hz.
  destruct (read_block s1 bn) as [b|] eqn:Hrb; [|discriminate].
  inversion Hl; subst s2.
  assert (He : slot_at s1 index
               = mkSlot b1 p1 (file_size (slot_at s index)) (descriptor_index (slot_at s index))).
  { unfold slot_at at 1. rewrite Ho1.
    rewrite list_lookup_insert_eq; [reflexivity|exact Hidx]. }
  rewrite He in *. unfold with_buffer, set_slot. simpl in *.
  repeat (split; [assumption|]).
  exists b, p1. split; [exact Hp1|].
  split.
  - rewrite Ho1. apply list_insert_insert_eq.
  - right. exists d, k, bn. repeat (split; [assumption|]).
    unfold read_block in *. rewrite <- Hdisk. exact Hrb.
Qed.

Lemma slot_loaded_move (s s1 : FileSystem) (index : nat) (p : Z) :
  (index < length (oft s))%nat -> 0 <= p ->
  slot_loaded s s1 index ->
  slot_loaded s (set_slot s1 index (with_pos (slot_at s1 index) p)) index.
Proof.
  intros Hidx Hp H1.
  destruct (slot_loaded_slot _ _ _ Hidx H1) as (Hidx1 & Hpos1 & Hfs & Hdi & _).
  destruct H1 as (Hh & Hdisk & Hdesc & Hb & Hdir & b1 & p1 & Hp1 & Ho1 & Hbuf).
  simpl. repeat (split; [assumption|]).
  assert (He : slot_at s1 index
               = mkSlot b1 p1 (file_size (slot_at s index)) (descriptor_index (slot_at s index))).
  { unfold slot_at at 1. rewrite Ho1.
    rewrite list_lookup_insert_eq; [reflexivity|exact Hidx]. }
  exists b1, p. split; [exact Hp|]. split; [|exact Hbuf].
  rewrite He. unfold with_pos. simpl. rewrite Ho1. apply list_insert_insert_eq.
Qed.

Lemma read_body_loaded (s0 s s' : FileSystem) (index : nat) (d : list Z)
    (mem mem' : list val) (br : Z) (last : bool) (r : result (outcome * Z)) :
  (index < length (oft s0))%nat ->
  get_descriptor s0 (descriptor_index (slot_at s0 index)) = Some d ->
  slot_loaded s0 s index ->
  read_body s index d mem br last = (s', mem', r) ->
  slot_loaded s0 s' index.
Proof.
  intros Hidx Hd R0 H. unfold read_body in H.
  destruct (slot_loaded_slot _ _ _ Hidx R0) as (Hidxs & Hpos & _).
  set (e := slot_at s index) in *.
  destruct (py_get d 0) as [len|]; [|inversion H; subst; exact R0].
  destruct (len <=? current_pos e); [inversion H; subst; exact R0|].
  assert (Hk : 0 <= current_pos e / 512) by (apply Z.div_pos; lia).
  match type of H with
  | context [match ?c with Ret s1 => _ | Raise x => _ end] =>
      destruct c as [s1|x] eqn:Hl; [|inversion H; subst; exact R0]
  end.
  assert (R1 : slot_loaded s0 s1 index).
  { destruct ((0 <? current_pos e / 512) && (br =? 0)); [|inversion Hl; subst; exact R0].
    destruct (load_block s index e d (current_pos e / 512)) as [[s1'|]|x] eqn:Hlb;
      [| inversion Hl; subst; exact R0 | discriminate].
    inversion Hl; subst s1'.
    apply (slot_loaded_load s0 s s1 index d (current_pos e / 512) Hidx R0 Hd Hk Hlb). }
  destruct (slot_loaded_slot _ _ _ Hidx R1) as (Hidx1 & Hpos1 & _).
  set (e1 := slot_at s1 index) in *.
  destruct (py_get (obj (heap s1) (buffer e1)) (current_pos e mod 512)) as [v|];
    [|inversion H; subst; exact R1].
  destruct (py_set mem br v) as [m'|]; [|inversion H; subst; exact R1].
  assert (R2 : slot_loaded s0 (set_slot s1 index (with_pos e1 (current_pos e1 + 1))) index).
  { apply slot_loaded_move; [exact Hidx | lia | exact R1]. }
  set (s2 := set_slot s1 index (with_pos e1 (current_pos e1 + 1))) in *.
  assert (He2 : slot_at s2 index = with_pos e1 (current_pos e1 + 1)).
  { unfold s2. apply slot_at_set_slot. exact Hidx1. }
  destruct ((current_pos (with_pos e1 (current_pos e1 + 1)) mod 512 =? 0) && negb last);
    [|inversion H; subst; exact R2].
  destruct (current_pos (with_pos e1 (current_pos e1 + 1)) / 512 <? 3);
    [|inversion H; subst; exact R2].
  destruct (load_block s2 index (with_pos e1 (current_pos e1 + 1)) d
              (current_pos (with_pos e1 (current_pos e1 + 1)) / 512)) as [[s3|]|x] eqn:Hlb;
    [| inversion H; subst; exact R2 | inversion H; subst; exact R2].
  inversion H; subst s'. rewrite <- He2 in Hlb.
  apply (slot_loaded_load s0 s2 s3 index d (current_pos (slot_at s2 index) / 512) Hidx R2 Hd);
    [|exact Hlb].
  rewrite He2. simpl. apply Z.div_pos; lia.
Qed.

Lemma read_loop_loaded (r : nat) :
  forall (s0 s : FileSystem) (index : nat) (d : list Z) (mem : list val) (br : Z)
         (s' : FileSystem) (mem' : list val) (res : result Z),
  (index < length (oft s0))%nat ->
  get_descriptor s0 (descriptor_index (slot_at s0 index)) = Some d ->
  slot_loaded s0 s index ->
  read_loop r s index d mem br = (s', mem', res) ->
  slot_loaded s0 s' index.
Proof.
  induction r as [|r IH]; intros s0 s index d mem br s' mem' res Hidx Hd R0 H; simpl in H.
  - inversion H; subst. exact R0.
  - destruct (read_body s index d mem br (Nat.eqb r 0)) as [[s1 m1] rb] eqn:Hb.
    pose proof (read_body_loaded _ _ _ _ _ _ _ _ _ _ Hidx Hd R0 Hb) as R1.
    destruct rb as [[[|] br1]|x]; try (inversion H; subst; exact R1).
    eapply IH; eauto.
Qed.

Lemma read_loaded (s s' : FileSystem) (index : Z) (mem mem' : list val) (count : Z)
    (res : result Z) :
  Forall (fun e => -1 <= current_pos e) (oft s) ->
  read s index mem count = (s', mem', res) ->
  s' = s \/ exists e, open_slot s index = Some e /\ slot_loaded s s' (Z.to_nat index).
Proof.
  intros Hall H. unfold read in H.
  destruct (open_slot s index) as [e|] eqn:Ho; [|inversion H; auto].
  destruct (open_slot_Some _ _ _ Ho) as (_ & Hlk & Hopen).
  destruct (get_descriptor s (descriptor_index e)) as [d|] eqn:Hd; [|inversion H; auto].
  right. exists e. split; [reflexivity|].
  assert (Hidx : (Z.to_nat index < length (oft s))%nat) by (eapply lookup_lt_Some; eauto).
  eapply (read_loop_loaded _ s s); eauto.
  - rewrite (slot_at_lookup _ _ _ Hlk). exact Hd.
  - apply slot_loaded_refl; [exact Hidx|].
    rewrite (slot_at_lookup _ _ _ Hlk).
    pose proof (proj1 (Forall_lookup _ _) Hall _ _ Hlk) as Hge. simpl in Hge. lia.
Qed.

Lemma seek_loaded (s s' : FileSystem) (index pos : Z) (res : result Z) :
  Forall (fun e => -1 <= current_pos e) (oft s) ->
  seek s index pos = (s', res) ->
  s' = s \/ exists e, open_slot s index = Some e /\ slot_loaded s s' (Z.to_nat index).
Proof.
  intros Hall H. unfold seek in H.
  destruct (open_slot s index) as [e|] eqn:Ho; [|inversion H; auto].
  destruct (open_slot_Some _ _ _ Ho) as (_ & Hlk & Hopen).
  destruct (get_descriptor s (descriptor_index e)) as [d|] eqn:Hd; [|inversion H; auto].
  destruct (py_get d 0) as [len|]; [|inversion H; auto].
  destruct ((pos <? 0) || (len <? pos)) eqn:Hr; [inversion H; auto|].
  apply orb_false_iff in Hr. destruct Hr as [Hp0 _]. apply Z.ltb_ge in Hp0.
  destruct (pos / 512 <? 3); [|inversion H; auto].
  destruct (load_block s (Z.to_nat index) e d (pos / 512)) as [[s1|]|x] eqn:Hlb;
    [| inversion H; auto | inversion H; auto].
  inversion H; subst s'. right. exists e. split; [reflexivity|].
  assert (Hidx : (Z.to_nat index < length (oft s))%nat) by (eapply lookup_lt_Some; eauto).
  pose proof (slot_at_lookup _ _ _ Hlk) as Hslot.
  assert (R0 : slot_loaded s s (Z.to_nat index)).
  { apply slot_loaded_refl; [exact Hidx|]. rewrite Hslot.
    pose proof (proj1 (Forall_lookup _ _) Hall _ _ Hlk) as Hge. simpl in Hge. lia. }
  apply slot_loaded_move; [exact Hidx | exact Hp0 |].
  apply (slot_loaded_load s s s1 (Z.to_nat index) d (pos / 512) Hidx R0).
  - rewrite Hslot. exact Hd.
  - apply Z.div_pos; lia.
  - rewrite Hslot. exact Hlb.
Qed.

(** ** What each part of the invariant depends on *)

Lemma get_descriptor_ext (s s' : FileSystem) (di : Z) :
  descriptors s' = descriptors s -> get_descriptor s' di = get_descriptor s di.
Proof. unfold get_descriptor. intros ->. reflexivity. Qed.

Lemma descs_ok_ext (s s' : FileSystem) :
  descriptors s' = descriptors s -> descs_ok s -> descs_ok s'.
Proof.
  intros Hd [H0 Hall]. split.
  - rewrite (get_descriptor_ext _ _ _ Hd). exact H0.
  - intros di Hdi. rewrite (get_descriptor_ext _ _ _ Hd). apply Hall. exact Hdi.
Qed.

Lemma refs_ext (s s' : FileSystem) :
  descriptors s' = descriptors s -> refs s' = refs s.
Proof. intros Hd. unfold refs. rewrite (descriptor_list_ext _ _ Hd). reflexivity. Qed.

Lemma bits_ok_ext (s s' : FileSystem) :
  descriptors s' = descriptors s ->
  obj (heap s') (bitmap s') = obj (heap s) (bitmap s) ->
  bits_ok s -> bits_ok s'.
Proof.
  intros Hd Hb (Hnd & Hset & Hcount).
  unfold bits_ok, bit, bitmap_ones in *. rewrite (refs_ext _ _ Hd), Hb. auto.
Qed.

Lemma dir_ok_ext (s s' : FileSystem) :
  descriptors s' = descriptors s ->
  obj (heap s') (directory s') = obj (heap s) (directory s) ->
  dir_ok s -> dir_ok s'.
Proof.
  intros Hd Hdir Hok i name d Hi Hname. rewrite Hdir in Hi.
  destruct (Hok i name d Hi Hname) as (Hr & Hdesc & Hinj).
  split; [exact Hr|]. split.
  - rewrite (get_descriptor_ext _ _ _ Hd). exact Hdesc.
  - intros j name' Hj. rewrite Hdir in Hj. eauto.
Qed.

(** A state that differs by a rebinding of slot [index] as read and seek do
    it is consistent again. *)
Lemma fs_ok_loaded (s s' : FileSystem) (index : nat) (e : slot) :
  fs_ok s -> (1 <= index)%nat -> oft s !! index = Some e -> current_pos e <> -1 ->
  slot_loaded s s' index -> fs_ok s'.
Proof.
  intros (Hshape & Hdata & Hdescs & Hbits & Hdir) Hi He Hopen
         (Hh & Hdisk & Hdesc & Hb & Hdirl & b & p & Hp & Ho & Hbuf).
  pose proof (slot_at_lookup _ _ _ He) as Hslot. rewrite Hslot in *.
  assert (Hidx : (index < length (oft s))%nat) by (eapply lookup_lt_Some; eauto).
  destruct Hshape as (S1 & S2 & S3 & S4 & S5).
  destruct Hdata as [Dblk Dslot].
  destruct (Dslot index e Hi He) as [Hbe Hpe]. destruct (Hpe Hopen) as [Hpos Hdi].
  split; [|split; [|split; [|split]]].
  - unfold shape_ok. rewrite Ho, length_insert, Hdisk, Hb, Hdirl, Hh. auto.
  - split.
    + intros bn Hbn. destruct (Dblk bn Hbn) as (l & Hl & Hobj).
      exists l. rewrite Hdisk. split; [exact Hl|].
      unfold data_obj. rewrite Hb, Hh. exact Hobj.
    + intros i e' Hi' He'. rewrite Ho in He'.
      destruct (decide (i = index)) as [->|Hne].
      * rewrite list_lookup_insert_eq in He' by exact Hidx. inversion He'; subst e'. simpl.
        split; [|intros _; split; [exact Hp|exact Hdi]].
        unfold data_obj. rewrite Hb, Hh.
        destruct Hbuf as [->|(d & k & bn & Hd & Hk & Hget & Hnz & Hrb)]; [exact Hbe|].
        destruct Hdescs as [_ Hall]. destruct (Hall _ Hdi) as (d' & Hd' & Hlen & Hrange & _).
        rewrite Hd in Hd'. inversion Hd'; subst d'.
        assert (Hk3 : 1 + k <= 3).
        { destruct (Z_lt_le_dec 3 (1 + k)) as [Hgt|]; [|lia].
          rewrite py_get_nonneg in Hget by lia.
          apply lookup_lt_Some in Hget. lia. }
        destruct (Hrange (1 + k) bn ltac:(lia) Hget) as [->|Hbr]; [contradiction|].
        destruct (read_block_Ret _ _ _ Hrb) as [_ Hlk].
        destruct (Dblk (Z.to_nat bn) ltac:(lia)) as (l & Hl & Hobj).
        rewrite Hlk in Hl. inversion Hl; subst l. exact Hobj.
      * rewrite list_lookup_insert_ne in He' by congruence.
        destruct (Dslot i e' Hi' He') as [Hx Hy]. split; [|exact Hy].
        unfold data_obj. rewrite Hb, Hh. exact Hx.
  - eapply descs_ok_ext; eauto.
  - eapply bits_ok_ext; eauto. rewrite Hh, Hb. reflexivity.
  - eapply dir_ok_ext; eauto. rewrite Hh, Hdirl. reflexivity.
Qed.

(** ** open and close keep the state consistent *)

Lemma dir_find_Some (f : string) (l : list val) :
  forall (i0 k : nat) (d : Z),
  dir_find f l i0 = Ret (Some (k, d)) ->
  (i0 <= k)%nat /\ l !! (k - i0)%nat = Some (VEntry f d).
Proof.
  induction l as [|c l IH]; intros i0 k d H; simpl in H; [discriminate|].
  destruct c as [z|name d']; [discriminate|].
  destruct (String.eqb name f) eqn:Hn.
  - apply String.eqb_eq in Hn. inversion H; subst.
    split; [lia|]. replace (k - k)%nat with 0%nat by lia. reflexivity.
  - destruct (IH (S i0) k d H) as [Hle Hl]. split; [lia|].
    replace (k - i0)%nat with (S (k - S i0)) by lia. exact Hl.
Qed.

Lemma data_obj_ext (s s' : FileSystem) (l : loc) :
  bitmap s' = bitmap s ->
  length (obj (heap s') l) = length (obj (heap s) l) ->
  data_obj s l -> data_obj s' l.
Proof. unfold data_obj. intros -> ->. auto. Qed.

Lemma open_detail (s s' : FileSystem) (f : string) (r : result Z) :
  open s f = (s', r) ->
  s' = s \/
  exists i d b len e k desc b1,
    In i [1; 2; 3]%nat /\ oft s !! i = Some e /\
    obj (heap s) (directory s) !! k = Some (VEntry f d) /\
    get_descriptor s d = Some desc /\ py_get desc 1 = Some b1 /\
    read_block s b1 = Ret b /\
    s' = set_slot s i (mkSlot b 0 len d).
Proof.
  unfold open. intros H.
  destruct (dir_find f (obj (heap s) (directory s)) 0) as [[[k d]|]|] eqn:Hf;
    [| inversion H; auto | inversion H; auto].
  destruct (d =? -1); [inversion H; auto|].
  destruct (already_open s d) eqn:Ha; [inversion H; auto|].
  destruct (scan_oft (oft s) [1; 2; 3]%nat) as [i|] eqn:Hs; [|inversion H; auto].
  destruct (get_descriptor s d) as [desc|] eqn:Hd; [|inversion H; auto].
  destruct (py_get desc 1) as [b1|] eqn:Hb1; [|inversion H; auto].
  destruct (read_block s b1) as [b|] eqn:Hrb; [|inversion H; auto].
  destruct (py_get desc 0) as [len|]; [|inversion H; auto].
  inversion H; subst. right.
  destruct (scan_oft_Some _ _ _ Hs) as (Hin & e & He & Hp).
  destruct (dir_find_Some _ _ _ _ _ Hf) as [_ Hk]. rewrite Nat.sub_0_r in Hk.
  exists i, d, b, len, e, k, desc, b1. auto 10.
Qed.

Lemma fs_ok_open (s : FileSystem) (f : string) :
  f <> "" -> fs_ok s -> fs_ok (fst (open s f)).
Proof.
  intros Hf Hok. destruct (open s f) as [s' r] eqn:H. simpl.
  destruct (open_detail _ _ _ _ H)
    as [->|(i & d & b & len & e & k & desc & b1 & Hin & He & Hk & Hd & Hb1 & Hrb & ->)];
    [exact Hok|].
  destruct Hok as (Hshape & Hdata & Hdescs & Hbits & Hdir).
  destruct Hshape as (S1 & S2 & S3 & S4 & S5). destruct Hdata as [Dblk Dslot].
  assert (Hidx : (i < length (oft s))%nat) by (eapply lookup_lt_Some; eauto).
  destruct (Hdir k f d Hk Hf) as (Hdr & (desc' & len' & b1' & Hd' & _ & _ & Hb1' & Hb1r) & _).
  rewrite Hd in Hd'. inversion Hd'; subst desc'. rewrite Hb1 in Hb1'. inversion Hb1'; subst b1'.
  destruct (read_block_Ret _ _ _ Hrb) as [_ Hlk].
  destruct (Dblk (Z.to_nat b1) ltac:(lia)) as (l & Hl & Hobj).
  rewrite Hlk in Hl. inversion Hl; subst l.
  split; [|split; [|split; [|split]]].
  - unfold shape_ok. simpl. rewrite length_insert. auto.
  - split; [exact Dblk|].
    intros j e' Hj He'. simpl in He'.
    destruct (decide (j = i)) as [->|Hne].
    + rewrite list_lookup_insert_eq in He' by exact Hidx. inversion He'; subst e'. simpl.
      split; [exact Hobj|]. intros _. split; [lia|exact Hdr].
    + rewrite list_lookup_insert_ne in He' by congruence. exact (Dslot j e' Hj He').
  - exact Hdescs.
  - exact Hbits.
  - exact Hdir.
Qed.

Lemma close_detail (s s' : FileSystem) (index : Z) (r : result Z) :
  close s index = (s', r) ->
  s' = s \/
  exists e d cb,
    open_slot s index = Some e /\
    get_descriptor s (descriptor_index e) = Some d /\
    py_get d (if current_pos e / 512 =? 0 then 1 else 1 + current_pos e / 512) = Some cb /\
    heap s' = heap s ++ [zeros 512] /\
    descriptors s' = descriptors s /\ bitmap s' = bitmap s /\ directory s' = directory s /\
    oft s' = <[Z.to_nat index := closed_slot (length (heap s))]> (oft s) /\
    ((cb = 0 /\ disk s' = disk s) \/
     (cb <> 0 /\ py_set (disk s) cb (Obj (buffer e)) = Some (disk s'))).
Proof.
  unfold close. intros H.
  destruct (open_slot s index) as [e|] eqn:Ho; [|inversion H; auto].
  destruct (get_descriptor s (descriptor_index e)) as [d|] eqn:Hd; [|inversion H; auto].
  destruct (if current_pos e / 512 =? 0 then py_get d 1
            else py_get d (1 + current_pos e / 512)) as [cb|] eqn:Hcb; [|inversion H; auto].
  assert (Hcb' : py_get d (if current_pos e / 512 =? 0 then 1 else 1 + current_pos e / 512)
                 = Some cb).
  { destruct (current_pos e / 512 =? 0); exact Hcb. }
  destruct (cb =? 0) eqn:Hz.
  - apply Z.eqb_eq in Hz. simpl in H. inversion H; subst. right.
    exists e, d, 0. simpl. auto 15.
  - apply Z.eqb_neq in Hz. unfold disk_setitem in H.
    destruct (py_set (disk s) cb (Obj (buffer e))) as [dk|] eqn:Hset; [|inversion H; auto].
    simpl in H. inversion H; subst. right.
    exists e, d, cb. simpl. auto 15.
Qed.

Lemma data_obj_app (s s' : FileSystem) (o : list val) (l : loc) :
  bitmap s' = bitmap s -> heap s' = heap s ++ [o] ->
  data_obj s l -> data_obj s' l.
Proof.
  intros Hb Hh [Hne Hlen]. split; [rewrite Hb; exact Hne|].
  rewrite Hh, obj_app_l; [exact Hlen|]. eapply obj_length_valid; eauto.
Qed.

Lemma fs_ok_close (s : FileSystem) (index : Z) :
  index <> 0 -> fs_ok s -> fs_ok (fst (close s index)).
Proof.
  intros Hi Hok. destruct (close s index) as [s' r] eqn:H. simpl.
  destruct (close_detail _ _ _ _ H)
    as [->|(e & d & cb & Ho & Hd & Hcb & Hh & Hdesc & Hb & Hdirl & Hoft & Hdisk)];
    [exact Hok|].
  destruct Hok as (Hshape & Hdata & Hdescs & Hbits & Hdir).
  destruct Hshape as (S1 & S2 & S3 & S4 & S5). destruct Hdata as [Dblk Dslot].
  destruct (open_slot_Some _ _ _ Ho) as (Hrange & Hlk & Hopen).
  assert (Hidx : (Z.to_nat index < length (oft s))%nat) by (eapply lookup_lt_Some; eauto).
  destruct (Dslot (Z.to_nat index) e ltac:(lia) Hlk) as [Hbe Hpe].
  destruct (Hpe Hopen) as [Hpos Hdi].
  assert (Hvb : (bitmap s < length (heap s))%nat) by (eapply obj_length_valid; eauto).
  assert (Hvd : (directory s < length (heap s))%nat) by (eapply obj_length_valid; eauto).
  assert (Hkeep : forall l, data_obj s l -> data_obj s' l)
    by (intros l; apply (data_obj_app s s' (zeros 512) l Hb Hh)).
  split; [|split; [|split; [|split]]].
  - unfold shape_ok. rewrite Hoft, length_insert, Hb, Hdirl, Hh.
    rewrite !obj_app_l by assumption.
    split; [exact S1|]. split; [|auto].
    destruct Hdisk as [[_ ->]|[_ Hset]]; [exact S2|].
    rewrite (py_set_length _ _ _ _ Hset). exact S2.
  - split.
    + intros bn Hbn. destruct (Dblk bn Hbn) as (l & Hl & Hobj).
      destruct Hdisk as [[_ ->]|[Hnz Hset]]; [exists l; auto|].
      (* the block stored by close is the slot's buffer *)
      destruct Hdescs as [_ Hall]. destruct (Hall _ Hdi) as (d' & Hd' & Hlen & Hfields & _).
      rewrite Hd in Hd'. inversion Hd'; subst d'.
      assert (Hk : 0 <= current_pos e / 512) by (apply Z.div_pos; lia).
      assert (Hcbr : 8 <= cb <= 63).
      { destruct (current_pos e / 512 =? 0) eqn:Hz.
        - destruct (Hfields 1 cb ltac:(lia) Hcb) as [->|Hr]; [contradiction|exact Hr].
        - apply Z.eqb_neq in Hz.
          assert (1 + current_pos e / 512 <= 3).
          { destruct (Z_lt_le_dec 3 (1 + current_pos e / 512)) as [Hgt|]; [|lia].
            rewrite py_get_nonneg in Hcb by lia. apply lookup_lt_Some in Hcb. lia. }
          destruct (Hfields (1 + current_pos e / 512) cb ltac:(lia) Hcb) as [->|Hr];
            [contradiction|exact Hr]. }
      rewrite py_set_nonneg in Hset by lia. inversion Hset as [Hdk].
      destruct (decide (bn = Z.to_nat cb)) as [->|Hne].
      * exists (buffer e). rewrite list_lookup_insert_eq by lia. auto.
      * exists l. rewrite list_lookup_insert_ne by congruence. auto.
    + intros j e' Hj He'. rewrite Hoft in He'.
      destruct (decide (j = Z.to_nat index)) as [->|Hne].
      * rewrite list_lookup_insert_eq in He' by exact Hidx. inversion He'; subst e'. simpl.
        split; [|intros Hc; contradiction].
        split; [rewrite Hb; lia|]. rewrite Hh, obj_app_new. apply length_replicate.
      * rewrite list_lookup_insert_ne in He' by congruence.
        destruct (Dslot j e' Hj He') as [Hx Hy]. auto.
  - eapply descs_ok_ext; eauto.
  - eapply bits_ok_ext; eauto. rewrite Hb, Hh. apply obj_app_l. exact Hvb.
  - eapply dir_ok_ext; eauto. rewrite Hdirl, Hh. apply obj_app_l. exact Hvd.
Qed.

(** ** create keeps the state consistent *)

Lemma scan_descriptors_Some (s : FileSystem) (idxs : list Z) (di : Z) :
  scan_descriptors s idxs = Ret (Some di) ->
  In di idxs /\ exists d, get_descriptor s di = Some d /\ py_get d 0 = Some (-1).
Proof.
  induction idxs as [|i rest IH]; simpl; [discriminate|].
  destruct (get_descriptor s i) as [d|] eqn:Hd; [|discriminate].
  destruct (py_get d 0) as [len|] eqn:Hlen; [|discriminate].
  destruct (len =? -1) eqn:Hz.
  - apply Z.eqb_eq in Hz. subst len. intros H. inversion H; subst i.
    split; [auto|]. eauto.
  - intros H. destruct (IH H) as [Hin Hex]. auto.
Qed.

Lemma in_range (a b : nat) (i : Z) :
  In i (range a b) -> Z.of_nat a <= i < Z.of_nat b.
Proof.
  unfold range. intros H. apply in_map_iff in H. destruct H as (k & <- & Hk).
  apply in_seq in Hk. lia.
Qed.

Lemma find_free_block_Ret (s : FileSystem) (nb : Z) :
  length (obj (heap s) (bitmap s)) = 64%nat ->
  find_free_block s = Ret (Some nb) ->
  8 <= nb <= 63 /\
  exists v, obj (heap s) (bitmap s) !! Z.to_nat nb = Some v /\ is_zero v = true.
Proof.
  intros Hlen H. unfold find_free_block, range in H.
  destruct (scan_bitmap_spec (obj (heap s) (bitmap s)) (64 - 8) 8 ltac:(lia))
    as [(k & Hk & Hscan & Hzero & _)|[Hscan _]].
  - rewrite Hscan in H. inversion H; subst nb. split; [lia|].
    rewrite Nat2Z.id. exact Hzero.
  - rewrite Hscan in H. discriminate.
Qed.

(** The block numbers held by the table lie in 7..63. *)
Lemma nz_elem (d : list Z) (b : Z) :
  b ∈ nz d -> b <> 0 /\ exists k, 1 <= k <= 3 /\ py_get d k = Some b.
Proof.
  unfold nz. intros H. apply list_elem_of_filter in H. destruct H as [Hnz Hin].
  split; [exact Hnz|].
  apply list_elem_of_lookup in Hin. destruct Hin as [j Hj].
  pose proof (lookup_lt_Some _ _ _ Hj) as Hlt. rewrite length_take in Hlt.
  rewrite lookup_take_lt in Hj by lia. rewrite lookup_drop in Hj.
  exists (Z.of_nat (1 + j)). split; [lia|].
  rewrite py_get_nonneg by lia. rewrite Nat2Z.id. exact Hj.
Qed.

Lemma refs_elem (s : FileSystem) (b : Z) :
  b ∈ refs s ->
  exists di, 0 <= di < 192 /\ b ∈ nz (default [] (get_descriptor s di)).
Proof.
  unfold refs. intros H. apply list_elem_of_In in H. apply in_concat in H.
  destruct H as (l & Hl & Hb). apply in_map_iff in Hl. destruct Hl as (d & <- & Hd).
  apply list_elem_of_In in Hd. apply list_elem_of_lookup in Hd. destruct Hd as [k Hk].
  pose proof (lookup_lt_Some _ _ _ Hk) as Hlt. rewrite descriptor_list_length in Hlt.
  rewrite descriptor_list_lookup in Hk by exact Hlt. inversion Hk; subst d.
  exists (Z.of_nat k). split; [lia|]. apply list_elem_of_In. exact Hb.
Qed.

Lemma refs_range (s : FileSystem) (b : Z) :
  descs_ok s -> b ∈ refs s -> 7 <= b <= 63.
Proof.
  intros [H0 Hall] Hb. destruct (refs_elem _ _ Hb) as (di & Hdi & Hin).
  destruct (Z.eq_dec di 0) as [->|Hne].
  - rewrite H0 in Hin. simpl in Hin. vm_compute in Hin.
    apply list_elem_of_singleton in Hin. lia.
  - destruct (Hall di ltac:(lia)) as (d & Hd & _ & Hfields & _).
    rewrite Hd in Hin. simpl in Hin. destruct (nz_elem _ _ Hin) as (Hnz & k & Hk & Hget).
    destruct (Hfields k b Hk Hget); lia.
Qed.

Lemma refs_set_descriptor (s s' : FileSystem) (di : Z) (d d' : list Z) :
  0 <= di < 192 -> get_descriptor s di = Some d -> set_descriptor s di d' = Some s' ->
  exists rest, refs s ≡ₚ nz d ++ rest /\ refs s' ≡ₚ nz d' ++ rest.
Proof.
  intros Hdi Hd Hset.
  exists (concat (map nz (delete (Z.to_nat di) (descriptor_list s)))). split.
  - unfold refs. apply concat_map_delete. apply descriptor_list_get; assumption.
  - unfold refs. rewrite (descriptor_list_set _ _ _ _ Hdi Hset).
    apply concat_map_insert. rewrite descriptor_list_length. lia.
Qed.

Lemma py_get_insert_one (bits : list val) (k : nat) (b : Z) :
  py_get bits b = Some (VInt 1) -> py_get (<[k := VInt 1]> bits) b = Some (VInt 1).
Proof.
  unfold py_get. rewrite (py_index_length (<[k := VInt 1]> bits) bits) by apply length_insert.
  destruct (py_index bits b) as [j|]; [|discriminate].
  apply bit_stays_set. right. eauto.
Qed.

(** Taking a free block: one more block held, one more bit set. *)
Lemma bits_ok_alloc (s s' : FileSystem) (nb : nat) (v : val) :
  bits_ok s ->
  obj (heap s) (bitmap s) !! nb = Some v -> is_zero v = true ->
  refs s' ≡ₚ Z.of_nat nb :: refs s ->
  obj (heap s') (bitmap s') = <[nb := VInt 1]> (obj (heap s) (bitmap s)) ->
  bits_ok s'.
Proof.
  intros (Hnd & Hset & Hcount) Hv Hz Hrefs Hbits.
  assert (Hfresh : Z.of_nat nb ∉ refs s).
  { intros Hin. pose proof (Hset _ Hin) as Hone. unfold bit in Hone.
    rewrite py_get_nonneg in Hone by lia. rewrite Nat2Z.id, Hv in Hone.
    inversion Hone; subst v. discriminate. }
  split; [|split].
  - rewrite Hrefs. apply NoDup_cons. split; assumption.
  - intros b Hb. rewrite Hrefs in Hb. unfold bit. rewrite Hbits.
    apply elem_of_cons in Hb. destruct Hb as [->|Hb].
    + rewrite py_get_nonneg by lia. rewrite Nat2Z.id.
      apply list_lookup_insert_eq. eapply lookup_lt_Some; eauto.
    + apply py_get_insert_one. apply Hset. exact Hb.
  - unfold bitmap_ones in *. rewrite Hbits.
    rewrite (filter_insert_length_up _ _ _ v (VInt 1) Hv).
    + rewrite Hcount. rewrite (Permutation_length Hrefs). simpl. lia.
    + destruct v as [z|]; simpl in *; [|discriminate].
      apply Z.eqb_eq in Hz. subst z. discriminate.
    + reflexivity.
Qed.

Lemma create_detail (s s' : FileSystem) (f : string) (r : result Z) :
  create s f = (s', r) ->
  s' = s \/
  exists (dir_index : nat) (d0 di nb : Z),
    obj (heap s) (directory s) !! dir_index = Some (VEntry "" d0) /\
    In di (range 0 192) /\
    (exists d, get_descriptor s di = Some d /\ py_get d 0 = Some (-1)) /\
    find_free_block s = Ret (Some nb) /\
    match set_bit s nb 1 with
    | None => s' = s
    | Some s1 =>
        match set_descriptor s1 di [0; nb; 0; 0] with
        | None => s' = s1
        | Some s2 =>
            let s3 := with_heap s2 (set_obj (heap s2) (directory s2)
                        (<[dir_index := VEntry f di]> (obj (heap s2) (directory s2)))) in
            match disk_setitem s3 7 (directory s3) with
            | None => s' = s3
            | Some s4 => s' = s4
            end
        end
    end.
Proof.
  unfold create. intros H.
  destruct (3 <? String.length f)%nat; [inversion H; auto|].
  destruct (dir_find f (obj (heap s) (directory s)) 0) as [[?|]|];
    [inversion H; auto| |inversion H; auto].
  destruct (dir_find "" (obj (heap s) (directory s)) 0) as [[[dir_index d0]|]|] eqn:Hfree;
    [|inversion H; auto|inversion H; auto].
  destruct (scan_descriptors s (range 0 192)) as [[di|]|] eqn:Hscan;
    [|inversion H; auto|inversion H; auto].
  destruct (find_free_block s) as [[nb|]|] eqn:Hfind;
    [|inversion H; auto|inversion H; auto].
  right. exists dir_index, d0, di, nb.
  destruct (dir_find_Some _ _ _ _ _ Hfree) as [_ Hk]. rewrite Nat.sub_0_r in Hk.
  destruct (scan_descriptors_Some _ _ _ Hscan) as [Hin Hd].
  split; [exact Hk|]. split; [exact Hin|]. split; [exact Hd|]. split; [reflexivity|].
  destruct (set_bit s nb 1) as [s1|]; [|inversion H; reflexivity].
  destruct (set_descriptor s1 di [0; nb; 0; 0]) as [s2|]; [|inversion H; reflexivity].
  cbv zeta.
  match type of H with
  | context [disk_setitem ?a 7 ?b] => destruct (disk_setitem a 7 b); inversion H; reflexivity
  end.
Qed.

Lemma descriptor_ok_new (nb : Z) : 8 <= nb <= 63 -> descriptor_ok [0; nb; 0; 0].
Proof.
  intros Hnb. split; [reflexivity|]. split.
  - intros k b Hk Hget.
    assert (Hcases : k = 1 \/ k = 2 \/ k = 3) by lia.
    destruct Hcases as [-> | [-> | ->]]; vm_compute in Hget; inversion Hget; subst; auto.
  - intros H. vm_compute in H. discriminate.
Qed.

Lemma nz_new (nb : Z) : nb <> 0 -> nz [0; nb; 0; 0] = [nb].
Proof.
  intros H. unfold nz. simpl. rewrite !filter_cons, filter_nil.
  destruct (decide (nb <> 0)); [|contradiction].
  destruct (decide (0 <> 0)); [contradiction|]. reflexivity.
Qed.

Lemma fs_ok_create (s : FileSystem) (f : string) :
  f <> "" -> fs_ok s -> fs_ok (fst (create s f)).
Proof.
  intros Hf Hok. destruct (create s f) as [s' r] eqn:H. simpl.
  destruct (create_detail _ _ _ _ H)
    as [->|(dir_index & d0 & di & nb & Hfree & Hin & (d & Hd & Hlen) & Hfind & Hsteps)];
    [exact Hok|].
  destruct Hok as (Hshape & Hdata & Hdescs & Hbits & Hdir).
  pose proof Hshape as (S1 & S2 & S3 & S4 & S5).
  pose proof Hdata as [Dblk Dslot]. pose proof Hdescs as [Hd0 Hdall].
  apply in_range in Hin.
  assert (Hdi : 1 <= di < 192).
  { destruct (Z.eq_dec di 0) as [->|]; [|lia].
    rewrite Hd0 in Hd. inversion Hd; subst d. vm_compute in Hlen. discriminate. }
  destruct (find_free_block_Ret s nb S4 Hfind) as (Hnb & v & Hv & Hz).
  assert (Hvb : (bitmap s < length (heap s))%nat) by (eapply obj_length_valid; eauto).
  assert (Hvd : (directory s < length (heap s))%nat) by (eapply obj_length_valid; eauto).
  (* the steps succeed *)
  destruct (set_bit_ok s nb 1 ltac:(rewrite S4; lia)) as (s1 & Hs1 & Hh1).
  destruct (set_bit_frame _ _ _ _ Hs1) as (B1 & B2 & B3 & B4 & B5 & _).
  rewrite Hs1 in Hsteps.
  assert (Hd1 : get_descriptor s1 di = Some d)
    by (rewrite (get_descriptor_ext s s1 di B1); exact Hd).
  destruct (set_descriptor_ok s1 di d [0; nb; 0; 0] Hd1) as [s2 Hs2].
  destruct (set_descriptor_frame _ _ _ _ Hs2) as (D1 & D2 & D3 & D4 & D5).
  rewrite Hs2 in Hsteps. cbv zeta in Hsteps.
  unfold disk_setitem in Hsteps. simpl in Hsteps.
  rewrite py_set_nonneg in Hsteps by (try rewrite D2, B2, S2; lia).
  subst s'.
  set (bits' := <[Z.to_nat nb := VInt 1]> (obj (heap s) (bitmap s))) in *.
  assert (Hobjdir2 : obj (heap s2) (directory s2) = obj (heap s) (directory s)).
  { rewrite D1, D4, Hh1, B4. apply obj_insert_ne. exact S3. }
  rewrite Hobjdir2.
  set (dir' := <[dir_index := VEntry f di]> (obj (heap s) (directory s))) in *.
  set (s4 := with_disk _ _).
  assert (E1 : oft s4 = oft s) by (simpl; congruence).
  assert (E2 : bitmap s4 = bitmap s) by (simpl; congruence).
  assert (E3 : directory s4 = directory s) by (simpl; congruence).
  assert (E4 : heap s4 = <[directory s := dir']> (<[bitmap s := bits']> (heap s))).
  { simpl. unfold set_obj. rewrite D1, D4, B4, Hh1. reflexivity. }
  assert (E5 : disk s4 = <[7%nat := Obj (directory s)]> (disk s)).
  { simpl. rewrite D4, B4, D2, B2. reflexivity. }
  assert (E6 : forall j, get_descriptor s4 j = get_descriptor s2 j) by reflexivity.
  assert (Ebits : obj (heap s4) (bitmap s4) = bits').
  { rewrite E4, E2. rewrite obj_insert_ne by congruence.
    apply obj_insert_eq. exact Hvb. }
  assert (Edir : obj (heap s4) (directory s4) = dir').
  { rewrite E4, E3. apply obj_insert_eq. rewrite length_insert. exact Hvd. }
  assert (Elen : forall l, length (obj (heap s4) l) = length (obj (heap s) l)).
  { intros l. rewrite E4.
    destruct (decide (l = directory s)) as [->|N1].
    - rewrite obj_insert_eq by (rewrite length_insert; exact Hvd).
      unfold dir'. apply length_insert.
    - rewrite obj_insert_ne by congruence.
      destruct (decide (l = bitmap s)) as [->|N2].
      + rewrite obj_insert_eq by exact Hvb. unfold bits'. apply length_insert.
      + rewrite obj_insert_ne by congruence. reflexivity. }
  assert (Eother : forall j, 0 <= j -> j <> di -> get_descriptor s4 j = get_descriptor s j).
  { intros j Hj Hne. rewrite E6.
    rewrite (get_set_descriptor_ne s1 s2 di j [0; nb; 0; 0]) by (try lia; exact Hs2).
    apply get_descriptor_ext. exact B1. }
  assert (Enew : get_descriptor s4 di = Some [0; nb; 0; 0]).
  { rewrite E6. eapply get_set_descriptor_eq; eauto. }
  split; [|split; [|split; [|split]]].
  - unfold shape_ok. rewrite E1, E2, E3, E5, length_insert, !Elen. auto.
  - split.
    + intros b Hb. destruct (Dblk b Hb) as (l & Hl & Hobj).
      exists l. rewrite E5. rewrite list_lookup_insert_ne by lia.
      split; [exact Hl|]. eapply data_obj_ext; eauto.
    + intros i e Hi He. rewrite E1 in He. destruct (Dslot i e Hi He) as [Hx Hy].
      split; [|exact Hy]. eapply data_obj_ext; eauto.
  - split; [rewrite Eother by lia; exact Hd0|].
    intros j Hj. destruct (Z.eq_dec j di) as [->|Hne].
    + exists [0; nb; 0; 0]. split; [exact Enew|]. apply descriptor_ok_new. exact Hnb.
    + rewrite Eother by lia. apply Hdall. exact Hj.
  - destruct (Hdall di Hdi) as (d' & Hd' & _ & _ & Hfreeblk).
    rewrite Hd in Hd'. inversion Hd'; subst d'.
    apply (bits_ok_alloc s s4 (Z.to_nat nb) v Hbits Hv Hz); [|exact Ebits].
    assert (Hs2' : set_descriptor s1 di [0; nb; 0; 0] = Some s2) by exact Hs2.
    destruct (refs_set_descriptor s1 s2 di d [0; nb; 0; 0] ltac:(lia) Hd1 Hs2')
      as (rest & R1 & R2).
    rewrite (Hfreeblk Hlen) in R1. rewrite nz_new in R2 by lia.
    rewrite Z2Nat.id by lia.
    rewrite (refs_ext s2 s4 eq_refl). rewrite R2. simpl.
    apply perm_skip. rewrite <- (refs_ext s s1 B1). rewrite R1. reflexivity.
  - intros i name dd Hi Hname. rewrite Edir in Hi. rewrite Edir.
    unfold dir' in *.
    destruct (decide (i = dir_index)) as [->|Hne].
    + rewrite list_lookup_insert_eq in Hi by (eapply lookup_lt_Some; eauto).
      inversion Hi; subst name dd.
      split; [exact Hdi|]. split.
      * exists [0; nb; 0; 0], 0, nb. rewrite Enew. repeat split; auto; lia.
      * intros j name' Hj Hname'.
        destruct (decide (dir_index = j)) as [|Hnej]; [assumption|].
        rewrite list_lookup_insert_ne in Hj by congruence.
        destruct (Hdir j name' di Hj Hname') as (_ & (desc & len & b1 & Hdesc & Hl0 & Hl1 & _) & _).
        rewrite Hd in Hdesc. inversion Hdesc; subst desc. congruence.
    + rewrite list_lookup_insert_ne in Hi by congruence.
      destruct (Hdir i name dd Hi Hname) as (Hr & (desc & len & b1 & Hdesc & Hl0 & Hl1 & Hb1) & Hinj).
      assert (Hdd : dd <> di).
      { intros ->. rewrite Hd in Hdesc. inversion Hdesc; subst desc. congruence. }
      split; [exact Hr|]. split.
      * exists desc, len, b1. rewrite Eother by lia. auto.
      * intros j name' Hj Hname'.
        destruct (decide (j = dir_index)) as [->|Hnej].
        -- rewrite list_lookup_insert_eq in Hj by (eapply lookup_lt_Some; eauto).
           inversion Hj. congruence.
        -- rewrite list_lookup_insert_ne in Hj by congruence. eauto.
Qed.

(** ** destroy keeps the state consistent *)

Lemma clear_bits_length (bs : list Z) (bits : list val) :
  length (clear_bits bits bs) = length bits.
Proof.
  revert bits. induction bs as [|b bs IH]; intros bits; simpl; [reflexivity|].
  unfold clear_bits in *. simpl. rewrite IH. apply length_insert.
Qed.

Lemma clear_bits_other (bs : list Z) (bits : list val) (k : nat) :
  (forall b, b ∈ bs -> Z.to_nat b <> k) ->
  clear_bits bits bs !! k = bits !! k.
Proof.
  revert bits. induction bs as [|b bs IH]; intros bits Hno; [reflexivity|].
  unfold clear_bits in *. simpl. rewrite IH.
  - apply list_lookup_insert_ne. apply Hno. left.
  - intros b' Hb'. apply Hno. right. exact Hb'.
Qed.

Lemma clear_bits_count (bs : list Z) :
  forall bits : list val,
  NoDup bs ->
  (forall b, b ∈ bs -> 0 <= b /\ bits !! Z.to_nat b = Some (VInt 1)) ->
  (length (filter (fun v => is_one v = true) (clear_bits bits bs)) + length bs)%nat
  = length (filter (fun v => is_one v = true) bits).
Proof.
  induction bs as [|b bs IH]; intros bits Hnd Hone; [simpl; lia|].
  apply NoDup_cons in Hnd. destruct Hnd as [Hnotin Hnd].
  destruct (Hone b ltac:(left)) as [Hb Hbit].
  unfold clear_bits in *. simpl.
  rewrite <- (filter_insert_length _ bits (Z.to_nat b) (VInt 1) (VInt 0) Hbit);
    [|reflexivity|simpl; discriminate].
  rewrite <- (IH (<[Z.to_nat b := VInt 0]> bits) Hnd); [lia|].
  intros b' Hb'. destruct (Hone b' ltac:(right; exact Hb')) as [Hb0 Hbit'].
  split; [exact Hb0|]. rewrite list_lookup_insert_ne; [exact Hbit'|].
  intros E. apply Hnotin. assert (b = b') by lia. subst. exact Hb'.
Qed.

(** The loop of destroy on a 64-cell bitmap and blocks in range. *)
Lemma free_blocks_ok (blocks : list Z) :
  forall s : FileSystem,
  length (obj (heap s) (bitmap s)) = 64%nat ->
  (forall b, b ∈ blocks -> 0 <= b <= 63) ->
  exists s1,
    free_blocks s blocks = (s1, Ret tt) /\
    descriptors s1 = descriptors s /\ disk s1 = disk s /\ bitmap s1 = bitmap s /\
    directory s1 = directory s /\ oft s1 = oft s /\
    heap s1 = <[bitmap s := clear_bits (obj (heap s) (bitmap s))
                              (filter (fun b => b <> 0) blocks)]> (heap s).
Proof.
  induction blocks as [|b rest IH]; intros s Hlen Hr; simpl.
  - exists s. repeat (split; [reflexivity|]). simpl. symmetry.
    apply list_insert_id. unfold obj in *.
    destruct (heap s !! bitmap s) eqn:E; [simpl; exact E|]. simpl in Hlen. discriminate.
  - assert (Hvb : (bitmap s < length (heap s))%nat) by (eapply obj_length_valid; eauto).
    rewrite filter_cons. destruct (b =? 0) eqn:Hz.
    + apply Z.eqb_eq in Hz. subst b. destruct (decide (0 <> 0)); [contradiction|].
      apply IH; [exact Hlen|]. intros b Hb. apply Hr. right. exact Hb.
    + apply Z.eqb_neq in Hz. destruct (decide (b <> 0)); [|contradiction].
      destruct (set_bit_ok s b 0) as (s1 & Hs1 & Hh1);
        [rewrite Hlen; pose proof (Hr b ltac:(left)); lia|].
      destruct (set_bit_frame _ _ _ _ Hs1) as (B1 & B2 & B3 & B4 & B5 & _).
      rewrite Hs1.
      assert (Hobj1 : obj (heap s1) (bitmap s1)
                      = <[Z.to_nat b := VInt 0]> (obj (heap s) (bitmap s))).
      { rewrite Hh1, B3. apply obj_insert_eq. exact Hvb. }
      destruct (IH s1) as (s2 & Hs2 & F1 & F2 & F3 & F4 & F5 & Fh).
      { rewrite Hobj1, length_insert. exact Hlen. }
      { intros b' Hb'. apply Hr. right. exact Hb'. }
      exists s2. split; [exact Hs2|].
      repeat (split; [congruence|]).
      rewrite Fh, Hobj1, B3, Hh1. rewrite list_insert_insert_eq. reflexivity.
Qed.

(** Giving blocks back: they are no longer held and their bits are clear. *)
Lemma bits_ok_free (s s' : FileSystem) (B rest : list Z) :
  bits_ok s -> (forall b, b ∈ refs s -> 0 <= b) ->
  refs s ≡ₚ B ++ rest -> refs s' ≡ₚ rest ->
  obj (heap s') (bitmap s') = clear_bits (obj (heap s) (bitmap s)) B ->
  bits_ok s'.
Proof.
  intros (Hnd & Hset & Hcount) Hpos Hrefs Hrefs' Hbits.
  rewrite Hrefs in Hnd. apply NoDup_app in Hnd. destruct Hnd as (HndB & Hdisj & Hndr).
  assert (HB : forall b, b ∈ B -> 0 <= b /\ obj (heap s) (bitmap s) !! Z.to_nat b = Some (VInt 1)).
  { intros b Hb. assert (Hin : b ∈ refs s) by (rewrite Hrefs; apply elem_of_app; auto).
    pose proof (Hpos b Hin) as Hb0. split; [exact Hb0|].
    pose proof (Hset b Hin) as Hone. unfold bit in Hone.
    rewrite py_get_nonneg in Hone by lia. exact Hone. }
  split; [|split].
  - rewrite Hrefs'. exact Hndr.
  - intros b Hb. rewrite Hrefs' in Hb.
    assert (Hin : b ∈ refs s) by (rewrite Hrefs; apply elem_of_app; auto).
    pose proof (Hpos b Hin) as Hb0. pose proof (Hset b Hin) as Hone.
    unfold bit in *. rewrite Hbits. rewrite py_get_nonneg in * by lia.
    rewrite clear_bits_other; [exact Hone|].
    intros b' Hb' E. destruct (HB b' Hb') as [Hb'0 _].
    assert (b' = b) by lia. subst b'. exact (Hdisj b Hb' Hb).
  - unfold bitmap_ones in *. rewrite Hbits.
    pose proof (clear_bits_count B (obj (heap s) (bitmap s)) HndB HB) as Hc.
    rewrite (Permutation_length Hrefs) in Hcount. rewrite length_app in Hcount.
    rewrite (Permutation_length Hrefs'). lia.
Qed.

Lemma destroy_detail (s s' : FileSystem) (f : string) (r : result Z) :
  destroy s f = (s', r) ->
  s' = s \/
  exists (dir_index : nat) (di : Z) (d : list Z),
    obj (heap s) (directory s) !! dir_index = Some (VEntry f di) /\
    get_descriptor s di = Some d /\
    match free_blocks s (take 3 (drop 1 d)) with
    | (s1, Raise _) => s' = s1
    | (s1, Ret _) =>
        match set_descriptor s1 di free_descriptor with
        | None => s' = s1
        | Some s2 =>
            let s3 := with_heap s2 (set_obj (heap s2) (directory s2)
                        (<[dir_index := VEntry "" 0]> (obj (heap s2) (directory s2)))) in
            match disk_setitem s3 7 (directory s3) with
            | None => s' = s3
            | Some s4 => s' = s4
            end
        end
    end.
Proof.
  unfold destroy. intros H.
  destruct (dir_find f (obj (heap s) (directory s)) 0) as [[[dir_index di]|]|] eqn:Hf;
    [|inversion H; auto|inversion H; auto].
  destruct (get_descriptor s di) as [d|] eqn:Hd; [|inversion H; auto].
  right. exists dir_index, di, d.
  destruct (dir_find_Some _ _ _ _ _ Hf) as [_ Hk]. rewrite Nat.sub_0_r in Hk.
  split; [exact Hk|]. split; [exact Hd|].
  destruct (free_blocks s (take 3 (drop 1 d))) as [s1 [u|x]]; [|inversion H; reflexivity].
  destruct (set_descriptor s1 di free_descriptor) as [s2|]; [|inversion H; reflexivity].
  cbv zeta.
  match type of H with
  | context [disk_setitem ?a 7 ?b] => destruct (disk_setitem a 7 b); inversion H; reflexivity
  end.
Qed.

Lemma descriptor_ok_free : descriptor_ok free_descriptor.
Proof.
  split; [reflexivity|]. split; [|reflexivity].
  intros k b Hk Hget.
  assert (Hcases : k = 1 \/ k = 2 \/ k = 3) by lia.
  destruct Hcases as [-> | [-> | ->]]; vm_compute in Hget; inversion Hget; auto.
Qed.

Lemma take_drop_elem (d : list Z) (b : Z) :
  b ∈ take 3 (drop 1 d) -> exists k, 1 <= k <= 3 /\ py_get d k = Some b.
Proof.
  intros Hin. apply list_elem_of_lookup in Hin. destruct Hin as [j Hj].
  pose proof (lookup_lt_Some _ _ _ Hj) as Hlt. rewrite length_take in Hlt.
  rewrite lookup_take_lt in Hj by lia. rewrite lookup_drop in Hj.
  exists (Z.of_nat (1 + j)). split; [lia|].
  rewrite py_get_nonneg by lia. rewrite Nat2Z.id. exact Hj.
Qed.

Lemma fs_ok_destroy (s : FileSystem) (f : string) :
  f <> "" -> fs_ok s -> fs_ok (fst (destroy s f)).
Proof.
  intros Hf Hok. destruct (destroy s f) as [s' r] eqn:H. simpl.
  destruct (destroy_detail _ _ _ _ H)
    as [->|(dir_index & di & d & Hentry & Hd & Hsteps)]; [exact Hok|].
  destruct Hok as (Hshape & Hdata & Hdescs & Hbits & Hdir).
  pose proof Hshape as (S1 & S2 & S3 & S4 & S5).
  pose proof Hdata as [Dblk Dslot]. pose proof Hdescs as [Hd0 Hdall].
  destruct (Hdir dir_index f di Hentry Hf) as (Hdi & _ & Hinj).
  destruct (Hdall di Hdi) as (d' & Hd' & Hdlen & Hfields & _).
  rewrite Hd in Hd'. inversion Hd'; subst d'.
  assert (Hvb : (bitmap s < length (heap s))%nat) by (eapply obj_length_valid; eauto).
  assert (Hvd : (directory s < length (heap s))%nat) by (eapply obj_length_valid; eauto).
  (* the steps succeed *)
  destruct (free_blocks_ok (take 3 (drop 1 d)) s S4) as (s1 & Hs1 & B1 & B2 & B3 & B4 & B5 & Hh1).
  { intros b Hb. destruct (take_drop_elem _ _ Hb) as (k & Hk & Hget).
    destruct (Hfields k b Hk Hget); lia. }
  rewrite Hs1 in Hsteps. fold (nz d) in Hh1.
  assert (Hd1 : get_descriptor s1 di = Some d)
    by (rewrite (get_descriptor_ext s s1 di B1); exact Hd).
  destruct (set_descriptor_ok s1 di d free_descriptor Hd1) as [s2 Hs2].
  destruct (set_descriptor_frame _ _ _ _ Hs2) as (D1 & D2 & D3 & D4 & D5).
  rewrite Hs2 in Hsteps. cbv zeta in Hsteps.
  unfold disk_setitem in Hsteps. simpl in Hsteps.
  rewrite py_set_nonneg in Hsteps by (try rewrite D2, B2, S2; lia).
  subst s'.
  set (bits' := clear_bits (obj (heap s) (bitmap s)) (nz d)) in *.
  assert (Hobjdir2 : obj (heap s2) (directory s2) = obj (heap s) (directory s)).
  { rewrite D1, D4, Hh1, B4. apply obj_insert_ne. exact S3. }
  rewrite Hobjdir2.
  set (dir' := <[dir_index := VEntry "" 0]> (obj (heap s) (directory s))) in *.
  set (s4 := with_disk _ _).
  assert (E1 : oft s4 = oft s) by (simpl; congruence).
  assert (E2 : bitmap s4 = bitmap s) by (simpl; congruence).
  assert (E3 : directory s4 = directory s) by (simpl; congruence).
  assert (E4 : heap s4 = <[directory s := dir']> (<[bitmap s := bits']> (heap s))).
  { simpl. unfold set_obj. rewrite D1, D4, B4, Hh1. reflexivity. }
  assert (E5 : disk s4 = <[7%nat := Obj (directory s)]> (disk s)).
  { simpl. rewrite D4, B4, D2, B2. reflexivity. }
  assert (E6 : forall j, get_descriptor s4 j = get_descriptor s2 j) by reflexivity.
  assert (Ebits : obj (heap s4) (bitmap s4) = bits').
  { rewrite E4, E2. rewrite obj_insert_ne by congruence.
    apply obj_insert_eq. exact Hvb. }
  assert (Edir : obj (heap s4) (directory s4) = dir').
  { rewrite E4, E3. apply obj_insert_eq. rewrite length_insert. exact Hvd. }
  assert (Elen : forall l, length (obj (heap s4) l) = length (obj (heap s) l)).
  { intros l. rewrite E4.
    destruct (decide (l = directory s)) as [->|N1].
    - rewrite obj_insert_eq by (rewrite length_insert; exact Hvd).
      unfold dir'. apply length_insert.
    - rewrite obj_insert_ne by congruence.
      destruct (decide (l = bitmap s)) as [->|N2].
      + rewrite obj_insert_eq by exact Hvb. unfold bits'. apply clear_bits_length.
      + rewrite obj_insert_ne by congruence. reflexivity. }
  assert (Eother : forall j, 0 <= j -> j <> di -> get_descriptor s4 j = get_descriptor s j).
  { intros j Hj Hne. rewrite E6.
    rewrite (get_set_descriptor_ne s1 s2 di j free_descriptor) by (try lia; exact Hs2).
    apply get_descriptor_ext. exact B1. }
  assert (Enew : get_descriptor s4 di = Some free_descriptor).
  { rewrite E6. eapply get_set_descriptor_eq; eauto. }
  split; [|split; [|split; [|split]]].
  - unfold shape_ok. rewrite E1, E2, E3, E5, length_insert, !Elen. auto.
  - split.
    + intros b Hb. destruct (Dblk b Hb) as (l & Hl & Hobj).
      exists l. rewrite E5. rewrite list_lookup_insert_ne by lia.
      split; [exact Hl|]. eapply data_obj_ext; eauto.
    + intros i e Hi He. rewrite E1 in He. destruct (Dslot i e Hi He) as [Hx Hy].
      split; [|exact Hy]. eapply data_obj_ext; eauto.
  - split; [rewrite Eother by lia; exact Hd0|].
    intros j Hj. destruct (Z.eq_dec j di) as [->|Hne].
    + exists free_descriptor. split; [exact Enew|]. apply descriptor_ok_free.
    + rewrite Eother by lia. apply Hdall. exact Hj.
  - destruct (refs_set_descriptor s1 s2 di d free_descriptor ltac:(lia) Hd1 Hs2)
      as (rest & R1 & R2).
    apply (bits_ok_free s s4 (nz d) rest Hbits).
    + intros b Hb. pose proof (refs_range s b Hdescs Hb). lia.
    + rewrite <- (refs_ext s s1 B1). exact R1.
    + rewrite (refs_ext s2 s4 eq_refl). exact R2.
    + exact Ebits.
  - intros i name dd Hi Hname. rewrite Edir in Hi. rewrite Edir.
    unfold dir' in *.
    destruct (decide (i = dir_index)) as [->|Hne].
    + rewrite list_lookup_insert_eq in Hi by (eapply lookup_lt_Some; eauto).
      inversion Hi. congruence.
    + rewrite list_lookup_insert_ne in Hi by congruence.
      destruct (Hdir i name dd Hi Hname) as (Hr & (desc & len & b1 & Hdesc & Hl0 & Hl1 & Hb1) & Hinj').
      assert (Hdd : dd <> di).
      { intros ->. apply Hne. symmetry. eapply Hinj; eauto. }
      split; [exact Hr|]. split.
      * exists desc, len, b1. rewrite Eother by lia. auto.
      * intros j name' Hj Hname'.
        destruct (decide (j = dir_index)) as [->|Hnej].
        -- rewrite list_lookup_insert_eq in Hj by (eapply lookup_lt_Some; eauto).
           inversion Hj. congruence.
        -- rewrite list_lookup_insert_ne in Hj by congruence. eauto.
Qed.

(** ** What a pass of the write loop leaves alone *)

Lemma pass_frame_refl (di : Z) (s : FileSystem) : pass_frame di s s.
Proof. unfold pass_frame. auto 10. Qed.

Lemma pass_frame_trans (di : Z) (s s1 s2 : FileSystem) :
  pass_frame di s s1 -> pass_frame di s1 s2 -> pass_frame di s s2.
Proof.
  intros (A1 & A2 & A3 & A4 & A5 & A6 & A7) (B1 & B2 & B3 & B4 & B5 & B6 & B7).
  split; [congruence|]. split; [congruence|]. split; [lia|].
  split; [intros j Hj Hne; rewrite B4 by assumption; auto|].
  split; [congruence|]. split; [auto|].
  intros b. destruct (B7 b) as [E|(l & Hl & Hobj)].
  - rewrite E. destruct (A7 b) as [E'|(l & Hl & Hobj)]; [left; exact E'|].
    right. exists l. auto.
  - right. exists l. auto.
Qed.

Lemma valid_locs_frame (di : Z) (s s' : FileSystem) :
  pass_frame di s s' -> valid_locs s -> valid_locs s'.
Proof.
  intros (A1 & A2 & A3 & _) (V1 & V2 & V3). unfold valid_locs.
  rewrite A1, A2. split; [exact V1|]. split; lia.
Qed.

(** A state that differs in its descriptor table only, at [di]. *)
Lemma pass_frame_descriptors (di : Z) (s s' : FileSystem) :
  heap s' = heap s -> disk s' = disk s -> bitmap s' = bitmap s ->
  directory s' = directory s ->
  (forall j, 0 <= j -> j <> di -> get_descriptor s' j = get_descriptor s j) ->
  pass_frame di s s'.
Proof.
  intros Hh Hd Hb Hdir Hj. unfold pass_frame, data_obj.
  rewrite Hh, Hd, Hb, Hdir. auto 10.
Qed.

Lemma pass_frame_set_field (di k v : Z) (s s' : FileSystem) :
  0 <= di -> set_descriptor_field s di k v = Some s' -> pass_frame di s s'.
Proof.
  intros Hdi H. destruct (set_descriptor_field_frame _ _ _ _ _ H) as (F1 & F2 & F3 & F4 & F5).
  apply pass_frame_descriptors; try assumption.
  intros j Hj Hne. unfold set_descriptor_field in H.
  destruct (get_descriptor s di) as [d|]; [|discriminate].
  destruct (py_set d k v) as [d'|]; [|discriminate].
  eapply get_set_descriptor_ne; [exact Hdi | exact Hj | congruence | exact H].
Qed.

(** A state that differs in its store only, with the data lists and the
    directory list kept. *)
Lemma pass_frame_heap (di : Z) (s s' : FileSystem) :
  disk s' = disk s -> bitmap s' = bitmap s -> directory s' = directory s ->
  descriptors s' = descriptors s ->
  (length (heap s) <= length (heap s'))%nat ->
  obj (heap s') (directory s) = obj (heap s) (directory s) ->
  (forall l, l <> bitmap s -> length (obj (heap s) l) = 512%nat ->
             length (obj (heap s') l) = 512%nat) ->
  pass_frame di s s'.
Proof.
  intros Hd Hb Hdir Hdesc Hlen Hdirobj Hdata. unfold pass_frame, data_obj.
  rewrite Hd, Hb, Hdir.
  split; [reflexivity|]. split; [reflexivity|]. split; [exact Hlen|].
  split; [intros; apply get_descriptor_ext; exact Hdesc|].
  split; [exact Hdirobj|]. split; [|auto].
  intros l [H1 H2]. auto.
Qed.

Lemma pass_frame_set_bit (di i v : Z) (s s' : FileSystem) :
  valid_locs s -> set_bit s i v = Some s' -> pass_frame di s s'.
Proof.
  intros (V1 & V2 & V3) H.
  destruct (set_bit_frame _ _ _ _ H) as (F1 & F2 & F3 & F4 & F5 & F6).
  unfold set_bit in H.
  destruct (py_set (obj (heap s) (bitmap s)) i (VInt v)) as [bits|]; [|discriminate].
  inversion H; subst s'. simpl in *.
  apply pass_frame_heap; simpl; try reflexivity.
  - unfold set_obj. rewrite length_insert. lia.
  - apply obj_insert_ne. exact V1.
  - intros l Hne Hl. unfold set_obj. rewrite obj_insert_ne by congruence. exact Hl.
Qed.

Lemma pass_frame_grow (di cbi : Z) (index : nat) (s s' : FileSystem)
    (r : result (option unit)) :
  0 <= di -> valid_locs s -> grow s index di cbi = (s', r) -> pass_frame di s s'.
Proof.
  intros Hdi Hv H. unfold grow in H.
  destruct (find_free_block s) as [[nb|]|];
    [|inversion H; apply pass_frame_refl|inversion H; apply pass_frame_refl].
  destruct (set_descriptor_field s di (1 + cbi) nb) as [s1|] eqn:H1;
    [|inversion H; apply pass_frame_refl].
  pose proof (pass_frame_set_field _ _ _ _ _ Hdi H1) as P1.
  pose proof (valid_locs_frame _ _ _ P1 Hv) as Hv1.
  destruct (set_bit s1 nb 1) as [s2|] eqn:H2; [|inversion H; subst; exact P1].
  pose proof (pass_frame_set_bit di _ _ _ _ Hv1 H2) as P2.
  pose proof (valid_locs_frame _ _ _ P2 Hv1) as (V1 & V2 & V3).
  simpl in H. inversion H; subst s'.
  eapply pass_frame_trans; [exact P1|]. eapply pass_frame_trans; [exact P2|].
  apply pass_frame_heap; simpl; try reflexivity.
  - rewrite length_app. lia.
  - apply obj_app_l. exact V3.
  - intros l Hne Hl. rewrite obj_app_l; [exact Hl|]. eapply obj_length_valid; eauto.
Qed.

Lemma pass_frame_store (di : Z) (index : nat) (s : FileSystem) (b : loc)
    (data : list val) (e : slot) :
  b <> directory s -> length data = length (obj (heap s) b) ->
  pass_frame di s (set_slot (with_heap s (set_obj (heap s) b data)) index e).
Proof.
  intros Hb Hlen. apply pass_frame_heap; simpl; try reflexivity.
  - unfold set_obj. rewrite length_insert. lia.
  - apply obj_insert_ne. exact Hb.
  - intros l Hne Hl. unfold set_obj.
    destruct (decide (l = b)) as [->|N].
    + rewrite obj_insert_eq by (eapply obj_length_valid; eauto). congruence.
    + rewrite obj_insert_ne by congruence. exact Hl.
Qed.

Lemma pass_frame_write_block (di bn : Z) (s s' : FileSystem) (data : loc) :
  valid_locs s -> data <> bitmap s ->
  write_block s bn data = (s', Ret tt) -> pass_frame di s s'.
Proof.
  intros (V1 & V2 & V3) Hdata H.
  destruct (write_block_effect _ _ _ _ H) as (Hbn & Hlen & Hh & Hset & _).
  destruct (write_block_frame _ _ _ _ _ H) as (F1 & F2 & F3 & F4).
  assert (Hvd : (data < length (heap s))%nat) by (eapply obj_length_valid; eauto).
  unfold pass_frame. rewrite F2, F3, Hh.
  split; [reflexivity|]. split; [reflexivity|]. split; [rewrite length_app; lia|].
  split; [intros; apply get_descriptor_ext; exact F1|].
  split; [apply obj_app_l; exact V3|].
  assert (Hkeep : forall l, data_obj s l -> data_obj s' l).
  { intros l [H1 H2]. split; [rewrite F2; exact H1|].
    rewrite Hh, obj_app_l; [exact H2|]. eapply obj_length_valid; eauto. }
  split; [exact Hkeep|].
  intros b. unfold py_set in Hset.
  destruct (py_index (disk s) bn) as [k|] eqn:Hk; [|discriminate].
  destruct (py_index_nonneg_inv (disk s) bn k (proj1 Hbn) Hk) as [-> Hlt'].
  inversion Hset as [Hdisk].
  destruct (decide (b = Z.to_nat bn)) as [->|N].
  - destruct (decide (Z.to_nat bn < length (disk s))%nat) as [Hlt|Hge].
    + right. exists (length (heap s)). rewrite list_lookup_insert_eq by exact Hlt.
      split; [reflexivity|]. split; [rewrite F2; lia|].
      rewrite Hh, obj_app_new. exact Hlen.
    + left. rewrite list_insert_ge by lia. reflexivity.
  - left. apply list_lookup_insert_ne. congruence.
Qed.

Lemma grow_buffer (s s1 : FileSystem) (index : nat) (di cbi : Z) :
  (index < length (oft s))%nat ->
  grow s index di cbi = (s1, Ret (Some tt)) ->
  buffer (slot_at s1 index) = length (heap s).
Proof.
  intros Hidx H. unfold grow in H.
  destruct (find_free_block s) as [[nb|]|]; [|discriminate|discriminate].
  destruct (set_descriptor_field s di (1 + cbi) nb) as [sa|] eqn:H1; [|discriminate].
  destruct (set_descriptor_field_frame _ _ _ _ _ H1) as (A1 & _ & _ & _ & A5).
  destruct (set_bit sa nb 1) as [sb|] eqn:H2; [|discriminate].
  destruct (set_bit_frame _ _ _ _ H2) as (_ & _ & _ & _ & B5 & B6).
  simpl in H. inversion H; subst s1.
  rewrite slot_at_set_slot by (simpl; rewrite B5, A5; exact Hidx).
  simpl. rewrite B6, A1. reflexivity.
Qed.

(** A pass that stores a byte, as a whole. *)
Lemma write_body_frame (s s' : FileSystem) (index : nat) (di : Z)
    (byte : option Z) (last : bool) :
  0 <= di -> valid_locs s -> (index < length (oft s))%nat ->
  buffer (slot_at s index) <> bitmap s ->
  buffer (slot_at s index) <> directory s ->
  write_body s index di byte last = (s', Ret Continue) ->
  pass_frame di s s'.
Proof.
  intros Hdi Hv Hidx Hnb Hnd H.
  destruct (write_body_continue_inv _ _ _ _ _ _ H)
    as (Hc & s1 & x & data & s4 & Hg & _ & Hdata & Hf & Hu).
  set (p := current_pos (slot_at s index)) in *.
  (* after the optional allocation *)
  assert (G : pass_frame di s s1 /\ (index < length (oft s1))%nat /\
              buffer (slot_at s1 index) <> bitmap s1 /\
              buffer (slot_at s1 index) <> directory s1).
  { destruct ((p mod 512 =? 0) && (0 <? p / 512)).
    - pose proof (pass_frame_grow _ _ _ _ _ _ Hdi Hv Hg) as P.
      pose proof (grow_buffer _ _ _ _ _ Hidx Hg) as Hb.
      destruct (grow_oft _ _ _ _ _ _ Hg) as (_ & _ & Ho).
      split; [exact P|].
      destruct P as (P1 & P2 & P3 & _). destruct Hv as (V1 & V2 & V3).
      split; [destruct Ho as [-> | [b ->]]; [exact Hidx|rewrite length_insert; exact Hidx]|].
      rewrite Hb, P1, P2. split; lia.
    - subst s1. split; [apply pass_frame_refl|]. auto. }
  destruct G as (P1 & Hidx1 & Hnb1 & Hnd1).
  pose proof (valid_locs_frame _ _ _ P1 Hv) as Hv1.
  set (b1 := buffer (slot_at s1 index)) in *.
  set (s3 := set_slot (with_heap s1 (set_obj (heap s1) b1 data)) index
               (with_pos (slot_at s1 index) (current_pos (slot_at s1 index) + 1))) in *.
  assert (P3 : pass_frame di s1 s3).
  { apply pass_frame_store; [exact Hnd1|]. eapply py_set_length; eauto. }
  pose proof (valid_locs_frame _ _ _ P3 Hv1) as Hv3.
  assert (Hb3 : buffer (slot_at s3 index) = b1).
  { unfold s3. rewrite slot_at_set_slot by exact Hidx1. reflexivity. }
  assert (P4 : pass_frame di s3 s4).
  { destruct ((p mod 512 =? 511) || last); [|subst s4; apply pass_frame_refl].
    unfold flush in Hf.
    destruct (descriptor_field s3 di (1 + p / 512)) as [bn|]; [|discriminate].
    destruct (bn =? 0); [inversion Hf; apply pass_frame_refl|].
    apply (pass_frame_write_block di bn s3 s4 (buffer (slot_at s3 index)) Hv3); [|exact Hf].
    rewrite Hb3. destruct P3 as (-> & _). exact Hnb1. }
  assert (P5 : pass_frame di s4 s').
  { unfold update_length in Hu.
    destruct (descriptor_field s4 di 0) as [L|]; [|discriminate].
    destruct (L <? current_pos (slot_at s4 index)).
    - eapply pass_frame_set_field; eauto.
    - inversion Hu. apply pass_frame_refl. }
  eapply pass_frame_trans; [exact P1|]. eapply pass_frame_trans; [exact P3|].
  eapply pass_frame_trans; [exact P4|exact P5].
Qed.

(** ** A write that keeps to the interface keeps the allocator consistent *)

Lemma find_free_block_None (s : FileSystem) :
  length (obj (heap s) (bitmap s)) = 64%nat ->
  free_blocks_left s = 0%nat ->
  find_free_block s = Ret None.
Proof.
  intros Hlen Hfree. unfold find_free_block, range.
  destruct (scan_bitmap_spec (obj (heap s) (bitmap s)) (64 - 8) 8 ltac:(lia))
    as [(nb & Hnb & _ & (v & Hv & Hz) & _)|[Hscan _]]; [|exact Hscan].
  exfalso. unfold free_blocks_left in Hfree.
  assert (Hin : v ∈ filter (fun v => is_zero v = true) (drop 8 (obj (heap s) (bitmap s)))).
  { apply list_elem_of_filter. split; [exact Hz|].
    apply list_elem_of_lookup. exists (nb - 8)%nat. rewrite lookup_drop.
    replace (8 + (nb - 8))%nat with nb by lia. exact Hv. }
  destruct (filter _ _); [inversion Hin|discriminate].
Qed.

(** When setting a bit leaves one free block less, the bit was clear. *)
Lemma alloc_was_zero (bits : list val) (nb : nat) :
  (8 <= nb < length bits)%nat ->
  S (length (filter (fun v => is_zero v = true) (drop 8 (<[nb := VInt 1]> bits)))) =
    length (filter (fun v => is_zero v = true) (drop 8 bits)) ->
  exists v, bits !! nb = Some v /\ is_zero v = true.
Proof.
  intros Hnb Hcount.
  destruct (lookup_lt_is_Some_2 bits nb ltac:(lia)) as [v Hv].
  exists v. split; [exact Hv|].
  destruct (is_zero v) eqn:Hz; [reflexivity|]. exfalso.
  rewrite drop_insert_ge in Hcount by lia.
  rewrite (filter_insert_length_same _ _ _ v) in Hcount.
  - lia.
  - rewrite lookup_drop. replace (8 + (nb - 8))%nat with nb by lia. exact Hv.
  - rewrite Hz. simpl. split; discriminate.
Qed.

Lemma refs_update (s s' : FileSystem) (di : Z) (d d' : list Z) :
  0 <= di < 192 ->
  (forall j, 0 <= j -> j <> di -> get_descriptor s' j = get_descriptor s j) ->
  get_descriptor s di = Some d -> get_descriptor s' di = Some d' ->
  exists rest, refs s ≡ₚ nz d ++ rest /\ refs s' ≡ₚ nz d' ++ rest.
Proof.
  intros Hdi Hother Hd Hd'.
  assert (Hlist : descriptor_list s' = <[Z.to_nat di := d']> (descriptor_list s)).
  { apply list_eq. intros k.
    destruct (decide (k < 192)%nat) as [Hk|Hk].
    - rewrite descriptor_list_lookup by exact Hk.
      destruct (decide (k = Z.to_nat di)) as [->|Hne].
      + rewrite list_lookup_insert_eq by (rewrite descriptor_list_length; lia).
        rewrite Z2Nat.id by lia. rewrite Hd'. reflexivity.
      + rewrite list_lookup_insert_ne by auto.
        rewrite descriptor_list_lookup by exact Hk.
        rewrite Hother by lia. reflexivity.
    - rewrite !lookup_ge_None_2; [reflexivity| |].
      + rewrite length_insert, descriptor_list_length. lia.
      + rewrite descriptor_list_length. lia. }
  exists (concat (map nz (delete (Z.to_nat di) (descriptor_list s)))). split.
  - unfold refs. apply concat_map_delete. apply descriptor_list_get; assumption.
  - unfold refs. rewrite Hlist. apply concat_map_insert.
    rewrite descriptor_list_length. lia.
Qed.

Lemma nz_fields (d d' : list Z) :
  length d = 4%nat -> length d' = 4%nat ->
  (forall k, 1 <= k <= 3 -> py_get d' k = py_get d k) ->
  nz d' = nz d.
Proof.
  intros Hd Hd' H.
  destruct (four_fields d Hd) as (l & b1 & b2 & b3 & ->).
  destruct (four_fields d' Hd') as (l' & c1 & c2 & c3 & ->).
  pose proof (H 1 ltac:(lia)) as H1. pose proof (H 2 ltac:(lia)) as H2.
  pose proof (H 3 ltac:(lia)) as H3.
  vm_compute in H1, H2, H3. inversion H1; inversion H2; inversion H3; subst.
  reflexivity.
Qed.

Lemma nz_fields_grow (d d' : list Z) (j nb : Z) :
  length d = 4%nat -> length d' = 4%nat -> 1 <= j <= 3 ->
  py_get d j = Some 0 -> py_get d' j = Some nb -> nb <> 0 ->
  (forall k, 1 <= k <= 3 -> k <> j -> py_get d' k = py_get d k) ->
  nz d' ≡ₚ nb :: nz d.
Proof.
  intros Hd Hd' Hj H0 Hnb Hne H.
  assert (Heq : nz d' = nz (<[Z.to_nat j := nb]> d)).
  { apply nz_fields; [rewrite length_insert; exact Hd|exact Hd'|].
    intros k Hk. destruct (Z.eq_dec k j) as [->|Hkj].
    - rewrite Hnb. rewrite py_get_nonneg by lia.
      rewrite list_lookup_insert_eq by lia. reflexivity.
    - rewrite (H k Hk Hkj). rewrite !py_get_nonneg by lia.
      rewrite list_lookup_insert_ne by lia. reflexivity. }
  rewrite Heq. apply nz_set_block; [exact Hd|lia| |exact Hne].
  rewrite py_get_nonneg in H0 by lia. exact H0.
Qed.

Lemma bits_ok_perm (s s' : FileSystem) :
  refs s' ≡ₚ refs s ->
  obj (heap s') (bitmap s') = obj (heap s) (bitmap s) ->
  bits_ok s -> bits_ok s'.
Proof.
  intros Hrefs Hbits (Hnd & Hset & Hcount).
  unfold bits_ok, bit, bitmap_ones in *. rewrite Hbits. split; [|split].
  - rewrite Hrefs. exact Hnd.
  - intros b Hb. apply Hset. rewrite <- Hrefs. exact Hb.
  - rewrite Hcount. f_equal. symmetry. apply Permutation_length. exact Hrefs.
Qed.

(** One pass of the write loop, from a consistent state, through a slot of
    a file, with a byte at hand and a block slot that is still empty where
    the pass takes a new block: the pass stops and changes nothing, or it
    stores the byte and leaves a consistent state. *)
Lemma fs_ok_pass (s : FileSystem) (index : nat) (e : slot) (x : Z) (last : bool) :
  fs_ok s -> (1 <= index)%nat -> oft s !! index = Some e -> current_pos e <> -1 ->
  (grows (current_pos e) = true -> current_pos e / 512 < 3 ->
   descriptor_field s (descriptor_index e) (1 + current_pos e / 512) = Some 0) ->
  write_body s index (descriptor_index e) (Some x) last = (s, Ret Stop) \/
  exists s' b,
    write_body s index (descriptor_index e) (Some x) last = (s', Ret Continue) /\
    fs_ok s' /\
    oft s' = <[index := mkSlot b (current_pos e + 1) (file_size e) (descriptor_index e)]>
               (oft s) /\
    (forall k, 1 <= k -> k <> 1 + current_pos e / 512 ->
       descriptor_field s' (descriptor_index e) k =
       descriptor_field s (descriptor_index e) k) /\
    obj (heap s') (directory s') = obj (heap s) (directory s).
Proof.
  intros Hok Hidx He Hopen Hfresh.
  pose proof (slot_at_lookup _ _ _ He) as Hslot.
  destruct e as [b0 p fsz di]. cbn [current_pos descriptor_index file_size] in *.
  destruct Hok as (Hshape & Hdata & Hdescs & Hbits & Hdir).
  pose proof Hshape as (S1 & S2 & S3 & S4 & S5).
  pose proof Hdata as [Dblk Dslot]. pose proof Hdescs as [Hd0 Hdall].
  destruct (Dslot index _ Hidx He) as ((Hbb & Hbl) & Hcur).
  cbn [buffer current_pos descriptor_index] in Hbb, Hbl, Hcur.
  destruct (Hcur Hopen) as (Hp0 & Hdi).
  destruct (Hdall di Hdi) as (d & Hd & Hdlen & Hdrange & Hdfree).
  assert (Hlt : (index < length (oft s))%nat) by (eapply lookup_lt_Some; eauto).
  assert (Hready : write_ready s index di).
  { unfold write_ready, buffer_of. rewrite Hslot. cbn [buffer].
    split; [exact Hlt|]. split; [exact S2|]. split; [exact S4|].
    split; [exact Hbb|]. split; [exact Hbl|].
    exists d. split; [exact Hd|]. split; [exact Hdlen|].
    intros k b Hk Hg. destruct (Hdrange k b Hk Hg); lia. }
  destruct (Z_lt_le_dec (p / 512) 3) as [Hc|Hc].
  2: { left. unfold write_body. rewrite Hslot. cbn [current_pos].
       replace (3 <=? p / 512) with true by (symmetry; apply Z.leb_le; lia).
       reflexivity. }
  assert (Hp : 0 <= p < 1536).
  { pose proof (Z.div_mod p 512 ltac:(lia)). pose proof (Z.mod_pos_bound p 512 ltac:(lia)).
    lia. }
  destruct (decide (grows p = true /\ free_blocks_left s = 0%nat)) as [[Hgr Hf0]|Hno].
  { left. unfold write_body. rewrite Hslot. cbn [current_pos].
    replace (3 <=? p / 512) with false by (symmetry; apply Z.leb_gt; lia).
    unfold grows in Hgr. rewrite Hgr. unfold grow.
    rewrite (find_free_block_None s S4 Hf0). reflexivity. }
  right.
  destruct (write_pass s index di x last Hready)
    as (s' & Hbody & Hready' & Hpos' & Hbm' & Hcase).
  { rewrite Hslot. cbn [current_pos]. exact Hp. }
  { rewrite Hslot. cbn [current_pos]. intros Hgr.
    destruct (free_blocks_left s) eqn:Hf; [exfalso; apply Hno; auto|lia]. }
  rewrite Hslot in Hpos', Hcase. cbn [current_pos] in Hpos', Hcase.
  assert (Hvalid : valid_locs s).
  { split; [exact S3|]. split; eapply obj_length_valid; [exact S4|exact S5]. }
  assert (Hnd : buffer (slot_at s index) <> directory s).
  { rewrite Hslot. cbn [buffer]. intros E. rewrite E, S5 in Hbl. discriminate. }
  assert (Hnb : buffer (slot_at s index) <> bitmap s).
  { rewrite Hslot. exact Hbb. }
  assert (Hdi0 : 0 <= di) by lia.
  destruct (write_body_frame s s' index di (Some x) last Hdi0 Hvalid Hlt Hnb Hnd Hbody)
    as (F1 & F2 & F3 & F4 & F5 & F6 & F7).
  destruct (write_body_continue_effect s s' index di (Some x) last Hlt Hbody)
    as (_ & _ & (b & Hoft) & L & HL & HL').
  rewrite Hslot in Hoft, HL'. cbn [current_pos file_size descriptor_index] in Hoft, HL'.
  pose proof Hready' as (R1 & R2 & R3 & R4 & R5 & d' & Hd' & Hd'len & _).
  assert (Hslot' : slot_at s' index = mkSlot b (p + 1) fsz di).
  { apply slot_at_lookup. rewrite Hoft. apply list_lookup_insert_eq. exact Hlt. }
  assert (Hfield0 : py_get d' 0 = Some (Z.max L (p + 1))).
  { unfold descriptor_field in HL'. rewrite Hd' in HL'. exact HL'. }
  assert (Hfields : forall k, 1 <= k -> (grows p = true -> k <> 1 + p / 512) ->
                              py_get d' k = py_get d k).
  { intros k Hk Hne.
    assert (E : descriptor_field s' di k = descriptor_field s di k).
    { destruct (grows p).
      - destruct Hcase as (nb & _ & _ & Hsame & _). apply Hsame; auto.
      - destruct Hcase as (Hsame & _). apply Hsame; auto. }
    unfold descriptor_field in E. rewrite Hd, Hd' in E. exact E. }
  assert (Hused : py_get d' 0 = Some (-1) -> nz d' = []).
  { intros Hm1. rewrite Hfield0 in Hm1. inversion Hm1. lia. }
  assert (Hkey : descriptor_ok d' /\ bits_ok s').
  { destruct (grows p) eqn:Hgr.
    - destruct Hcase as (nb & Hnb' & Hfnb & _ & Hbits' & Hcount).
      pose proof (Hfresh eq_refl Hc) as Hzero.
      unfold descriptor_field in Hzero, Hfnb. rewrite Hd in Hzero. rewrite Hd' in Hfnb.
      unfold grows in Hgr. apply andb_true_iff in Hgr. destruct Hgr as [Hm Hq].
      apply Z.eqb_eq in Hm. apply Z.ltb_lt in Hq.
      split.
      + split; [exact Hd'len|]. split; [|exact Hused].
        intros k bb Hk Hget. destruct (Z.eq_dec k (1 + p / 512)) as [->|Hne].
        * rewrite Hfnb in Hget. inversion Hget. right. lia.
        * rewrite Hfields in Hget by (auto; lia). eapply Hdrange; eauto.
      + assert (Hdir192 : 0 <= di < 192) by lia.
        destruct (refs_update s s' di d d' Hdir192 F4 Hd Hd') as (rest & Hr & Hr').
        destruct (alloc_was_zero (obj (heap s) (bitmap s)) nb) as (v & Hv & Hz).
        { rewrite S4. lia. }
        { unfold free_blocks_left in Hcount. rewrite Hbits' in Hcount. exact Hcount. }
        apply (bits_ok_alloc s s' nb v Hbits Hv Hz); [|exact Hbits'].
        rewrite Hr', Hr.
        rewrite (nz_fields_grow d d' (1 + p / 512) (Z.of_nat nb) Hdlen Hd'len);
          [reflexivity|lia|exact Hzero|exact Hfnb|lia|].
        intros k Hk Hne. apply Hfields; [lia|auto].
    - destruct Hcase as (_ & Hbits' & _).
      assert (Hall : forall k, 1 <= k <= 3 -> py_get d' k = py_get d k).
      { intros k Hk. apply Hfields; [lia|discriminate]. }
      split.
      + split; [exact Hd'len|]. split; [|exact Hused].
        intros k bb Hk Hget. rewrite Hall in Hget by exact Hk. eapply Hdrange; eauto.
      + assert (Hdir192 : 0 <= di < 192) by lia.
        destruct (refs_update s s' di d d' Hdir192 F4 Hd Hd') as (rest & Hr & Hr').
        apply (bits_ok_perm s s'); [|exact Hbits'|exact Hbits].
        rewrite Hr', Hr, (nz_fields d d' Hdlen Hd'len Hall). reflexivity. }
  exists s', b. split; [exact Hbody|]. split; [|split; [exact Hoft|split; [|exact F5]]].
  2: { intros k Hk Hne. unfold descriptor_field. rewrite Hd, Hd'. apply Hfields; auto. }
  split; [|split; [|split; [|split]]].
  - split; [rewrite Hoft, length_insert; exact S1|]. split; [exact R2|].
    split; [rewrite F1, F2; exact S3|]. split; [exact R3|]. rewrite F5. exact S5.
  - split.
    + intros bk Hbk. destruct (F7 bk) as [Hsame|(l & Hl & Hdl)].
      * destruct (Dblk bk Hbk) as (l & Hl & Hdl). exists l.
        split; [rewrite Hsame; exact Hl|apply F6; exact Hdl].
      * exists l. auto.
    + intros i e0 Hi He0. rewrite Hoft in He0.
      destruct (decide (i = index)) as [->|Hne].
      * rewrite list_lookup_insert_eq in He0 by exact Hlt. inversion He0; subst e0.
        cbn [buffer current_pos descriptor_index]. split.
        -- split.
           ++ rewrite Hslot' in R4. exact R4.
           ++ unfold buffer_of in R5. rewrite Hslot' in R5. exact R5.
        -- intros _. lia.
      * rewrite list_lookup_insert_ne in He0 by auto.
        destruct (Dslot i e0 Hi He0) as [Hdo Hc0]. split; [apply F6; exact Hdo|exact Hc0].
  - split.
    + rewrite F4 by lia. exact Hd0.
    + intros j Hj. destruct (Z.eq_dec j di) as [->|Hne].
      * exists d'. split; [exact Hd'|apply Hkey].
      * rewrite F4 by lia. apply Hdall. exact Hj.
  - apply Hkey.
  - intros i name dd Hent Hname. rewrite F5 in Hent.
    destruct (Hdir i name dd Hent Hname)
      as (Hr & (desc & len & b1 & Hg & Hlen & Hlne & Hb1 & Hb1r) & Huniq).
    split; [exact Hr|]. split.
    + destruct (Z.eq_dec dd di) as [->|Hne].
      * rewrite Hd in Hg. inversion Hg; subst desc.
        exists d', (Z.max L (p + 1)), b1. split; [exact Hd'|]. split; [exact Hfield0|].
        split; [lia|]. split; [|exact Hb1r].
        rewrite Hfields; [exact Hb1|lia|].
        intros Hgr. unfold grows in Hgr. apply andb_true_iff in Hgr.
        destruct Hgr as [_ Hq]. apply Z.ltb_lt in Hq. lia.
      * exists desc, len, b1. rewrite F4 by lia. auto.
    + intros j name' Hj Hn'. rewrite F5 in Hj. eapply Huniq; eauto.
Qed.

(** ** The capacity invariant along the interface *)

Lemma fs_ok_write_loop (n : nat) :
  forall (s : FileSystem) (index : nat) (e : slot) (src : list Z) (w : Z),
  fs_ok s -> (1 <= index)%nat -> oft s !! index = Some e -> current_pos e <> -1 ->
  (n <= length src)%nat ->
  (forall k, 1 <= k <= 2 -> current_pos e <= 512 * k < current_pos e + Z.of_nat n ->
             descriptor_field s (descriptor_index e) (1 + k) = Some 0) ->
  fs_ok (fst (write_loop n s index (descriptor_index e) src w)) /\
  obj (heap (fst (write_loop n s index (descriptor_index e) src w)))
      (directory (fst (write_loop n s index (descriptor_index e) src w)))
    = obj (heap s) (directory s).
Proof.
  induction n as [|n IH]; intros s index e src w Hok Hidx He Hopen Hlen Hfresh.
  - split; [exact Hok|reflexivity].
  - destruct src as [|x src]; [simpl in Hlen; lia|].
    cbn [write_loop head tail].
    assert (Hp0 : 0 <= current_pos e).
    { destruct Hok as (_ & (_ & Dslot) & _).
      destruct (Dslot index e Hidx He) as (_ & Hcur). apply Hcur. exact Hopen. }
    destruct (fs_ok_pass s index e x (Nat.eqb n 0) Hok Hidx He Hopen)
      as [Hstop|(s' & b & Hbody & Hok' & Hoft & Hsame & Hdir)].
    { intros Hgr Hc. unfold grows in Hgr. apply andb_true_iff in Hgr.
      destruct Hgr as [Hm Hq]. apply Z.eqb_eq in Hm. apply Z.ltb_lt in Hq.
      apply Hfresh; [lia|].
      pose proof (Z.div_mod (current_pos e) 512 ltac:(lia)). lia. }
    + rewrite Hstop. split; [exact Hok|reflexivity].
    + rewrite Hbody. rewrite <- Hdir.
      assert (Hlt : (index < length (oft s))%nat) by (eapply lookup_lt_Some; eauto).
      apply (IH s' index
               (mkSlot b (current_pos e + 1) (file_size e) (descriptor_index e)) src (w + 1)).
      * exact Hok'.
      * exact Hidx.
      * rewrite Hoft. apply list_lookup_insert_eq. exact Hlt.
      * cbn [current_pos]. lia.
      * simpl in Hlen. lia.
      * cbn [current_pos descriptor_index]. intros k Hk Hr.
        rewrite Hsame; [apply Hfresh; lia|lia|].
        assert (current_pos e / 512 < k) by (apply Z.div_lt_upper_bound; lia). lia.
Qed.

Lemma write_ok (s : FileSystem) (index : Z) (src : list Z) (count : Z) :
  index <> 0 -> count <= Z.of_nat (length src) -> write_fresh s index count ->
  fs_ok s ->
  fs_ok (fst (write s index src count)) /\
  obj (heap (fst (write s index src count))) (directory (fst (write s index src count)))
    = obj (heap s) (directory s).
Proof.
  intros Hi Hlen Hfresh Hok. unfold write.
  destruct (open_slot s index) as [e|] eqn:Ho; [|split; [exact Hok|reflexivity]].
  destruct (open_slot_Some _ _ _ Ho) as (Hr & Hlk & Hopen).
  destruct (get_descriptor s (descriptor_index e)); [|split; [exact Hok|reflexivity]].
  apply fs_ok_write_loop; [exact Hok|lia|exact Hlk|exact Hopen|lia|].
  intros k Hk Hrange. apply (Hfresh e Ho k Hk). lia.
Qed.

Lemma fs_ok_write (s : FileSystem) (index : Z) (src : list Z) (count : Z) :
  index <> 0 -> count <= Z.of_nat (length src) -> write_fresh s index count ->
  fs_ok s -> fs_ok (fst (write s index src count)).
Proof. intros Hi Hlen Hfresh Hok. apply write_ok; assumption. Qed.

Lemma reachable_by_interface_reachable (s : FileSystem) :
  reachable_by_interface s -> reachable s.
Proof. induction 1; [apply reachable_init|apply reachable_step; assumption]. Qed.

Lemma fs_ok_step (s : FileSystem) (c : call) :
  reachable s -> fs_ok s -> admissible s c -> fs_ok (step s c).
Proof.
  intros Hreach Hok Hadm.
  destruct (reachable_oft_ok s Hreach) as (_ & Hall & _).
  destruct c as [|f|f|f|i|i m n|i m n|i p|]; simpl in Hadm; simpl.
  - apply fs_ok_init.
  - apply fs_ok_create; assumption.
  - apply fs_ok_destroy; assumption.
  - apply fs_ok_open; assumption.
  - apply fs_ok_close; assumption.
  - destruct (read s i m n) as [[s' m'] r] eqn:H. simpl.
    destruct (read_loaded _ _ _ _ _ _ _ Hall H) as [->|(e & Ho & Hl)]; [exact Hok|].
    destruct (open_slot_Some _ _ _ Ho) as (Hr & Hlk & Hopen).
    apply (fs_ok_loaded s s' (Z.to_nat i) e Hok); [lia|exact Hlk|exact Hopen|exact Hl].
  - destruct Hadm as (Hi & Hlen & Hfresh). apply fs_ok_write; assumption.
  - destruct (seek s i p) as [s' r] eqn:H. simpl.
    destruct (seek_loaded _ _ _ _ _ Hall H) as [->|(e & Ho & Hl)]; [exact Hok|].
    destruct (open_slot_Some _ _ _ Ho) as (Hr & Hlk & Hopen).
    apply (fs_ok_loaded s s' (Z.to_nat i) e Hok); [lia|exact Hlk|exact Hopen|exact Hl].
  - exact Hok.
Qed.

Lemma reachable_by_interface_ok (s : FileSystem) :
  reachable_by_interface s -> fs_ok s.
Proof.
  induction 1 as [|s c Hs IH Hadm]; [apply fs_ok_init|].
  apply fs_ok_step; [apply reachable_by_interface_reachable; exact Hs|exact IH|exact Hadm].
Qed.

Lemma admissible_run_reachable (cs : list call) :
  forall s, reachable_by_interface s -> admissible_run s cs ->
            reachable_by_interface (foldl step s cs).
Proof.
  induction cs as [|c cs IH]; intros s Hs Hadm; [exact Hs|].
  destruct Hadm as [Hc Hrest]. simpl. apply IH; [|exact Hrest].
  apply by_interface_step; assumption.
Qed.

Lemma blocks_of_nz (d : list Z) :
  (py_get d 0 = Some (-1) -> nz d = []) -> blocks_of d = nz d.
Proof.
  intros Hfree. destruct d as [|len blocks]; [reflexivity|].
  unfold blocks_of. destruct (len =? -1) eqn:Hlen.
  - apply Z.eqb_eq in Hlen. subst len. symmetry. apply Hfree.
    rewrite py_get_nonneg by lia. reflexivity.
  - reflexivity.
Qed.

(** With consistent descriptors, the blocks of the descriptors in use are
    all the blocks the table holds. *)
Lemma referenced_blocks_refs (s : FileSystem) :
  descs_ok s -> referenced_blocks s = length (refs s).
Proof.
  intros [Hd0 Hdall]. unfold referenced_blocks, refs. f_equal. f_equal.
  apply map_ext_in. intros d Hin.
  apply list_elem_of_In in Hin. apply list_elem_of_lookup in Hin. destruct Hin as [k Hk].
  pose proof (lookup_lt_Some _ _ _ Hk) as Hlt. rewrite descriptor_list_length in Hlt.
  rewrite descriptor_list_lookup in Hk by exact Hlt. inversion Hk as [Hd]. clear Hk.
  destruct k as [|k].
  - change (Z.of_nat 0) with 0. rewrite Hd0. reflexivity.
  - destruct (Hdall (Z.of_nat (S k)) ltac:(lia)) as (d' & Hd' & _ & _ & Hfree).
    rewrite Hd'. simpl. apply blocks_of_nz. exact Hfree.
Qed.

(** C1, amended: in every state reached from init() by calls that keep to
    the interface (file names are not empty, handles are 1..3, a write
    brings at least [count] bytes and starts no block the file already
    has), the number of 1 bits of the bitmap is 7 plus the number of
    non-zero block numbers held by the descriptors in use, descriptor 0
    counted like the others. *)
Theorem C1_capacity_along_interface (s : FileSystem) :
  reachable_by_interface s ->
  bitmap_ones s = (7 + referenced_blocks s)%nat.
Proof.
  intros H. destruct (reachable_by_interface_ok s H) as (_ & _ & Hdescs & Hbits & _).
  rewrite (referenced_blocks_refs s Hdescs). apply Hbits.
Qed.

Ltac fresh_by_evaluation :=
  let e := fresh "e" in let He := fresh "He" in
  let k := fresh "k" in let Hk := fresh "Hk" in let Hr := fresh "Hr" in
  unfold write_fresh; intros e He k Hk Hr;
  vm_compute in He; injection He as <-;
  cbn [current_pos descriptor_index] in Hr |- *;
  let Hc := fresh "Hc" in
  assert (Hc : k = 1 \/ k = 2) by lia;
  destruct Hc as [-> | ->]; first [lia | vm_compute; reflexivity].

Lemma C1_capacity_along_interface_witness :
  reachable_by_interface (run two_blocks_then_rewrite) /\
  bitmap_ones (run two_blocks_then_rewrite) =
    (7 + referenced_blocks (run two_blocks_then_rewrite))%nat.
Proof.
  assert (H : reachable_by_interface (run two_blocks_then_rewrite)).
  { apply admissible_run_reachable; [apply by_interface_init|].
    unfold two_blocks_then_rewrite. cbn [admissible_run admissible].
    split; [discriminate|]. split; [discriminate|].
    split.
    { split; [discriminate|]. split; [apply Z.leb_le; vm_compute; reflexivity|].
      fresh_by_evaluation. }
    split; [discriminate|]. split; [discriminate|].
    split.
    { split; [discriminate|]. split; [apply Z.leb_le; vm_compute; reflexivity|].
      fresh_by_evaluation. }
    split; [discriminate|]. split; [discriminate|]. exact I. }
  split; [exact H|]. apply (C1_capacity_along_interface _ H).
Defined.

(** ** seek along the interface *)

(** The premise of the seek specification holds for the handles of files
    in every state reached through the interface. *)
Lemma seek_ready_along_interface (s : FileSystem) (index : Z) :
  reachable_by_interface s -> index <> 0 -> seek_ready s index.
Proof.
  intros Hs Hi e Ho.
  destruct (reachable_by_interface_ok s Hs) as (_ & (Dblk & Dslot) & (_ & Hdall) & _).
  destruct (open_slot_Some _ _ _ Ho) as (Hr & Hlk & Hopen).
  destruct (Dslot (Z.to_nat index) e ltac:(lia) Hlk) as (_ & Hcur).
  destruct (Hcur Hopen) as (_ & Hdi).
  destruct (Hdall _ Hdi) as (d & Hd & Hlen & Hrange & _).
  exists d. split; [exact Hd|]. split; [exact Hlen|].
  intros k b Hk Hget Hb.
  destruct (Hrange k b Hk Hget) as [->|Hb8]; [contradiction|].
  destruct (Dblk (Z.to_nat b) ltac:(lia)) as (l & Hl & _).
  exists l. unfold read_block.
  replace ((b <? 0) || (63 <? b)) with false
    by (symmetry; apply orb_false_iff; split; apply Z.ltb_ge; lia).
  rewrite py_get_nonneg by lia. rewrite Hl. reflexivity.
Qed.

(** ** The directory along the interface *)

Lemma dir_find_intact (f : string) (l : list val) :
  Forall (fun v => is_entry v = true) l ->
  forall i, exists r, dir_find f l i = Ret r.
Proof.
  induction 1 as [|v l Hv _ IH]; intros i; simpl; [eauto|].
  destruct v as [z|name d]; [discriminate|].
  destruct (String.eqb name f); [eauto|apply IH].
Qed.

(** With an intact directory, [create] refuses the empty name and changes
    nothing: a free entry carries that very name, and a full directory has
    no entry to give. *)
Lemma create_empty_refused (s : FileSystem) :
  directory_intact s -> create s "" = (s, Ret (-1)).
Proof.
  intros H. unfold create. simpl.
  destruct (dir_find_intact "" _ H 0%nat) as [r Hr]. rewrite Hr.
  destruct r as [p|]; reflexivity.
Qed.

Lemma set_bit_directory (s s' : FileSystem) (i v : Z) :
  bitmap s <> directory s -> set_bit s i v = Some s' ->
  obj (heap s') (directory s') = obj (heap s) (directory s).
Proof.
  intros Hne H. unfold set_bit in H.
  destruct (py_set (obj (heap s) (bitmap s)) i (VInt v)); [|discriminate].
  inversion H; subst. simpl. unfold set_obj. apply obj_insert_ne. exact Hne.
Qed.

Lemma free_blocks_directory (blocks : list Z) :
  forall (s s' : FileSystem) (r : result unit),
  bitmap s <> directory s -> free_blocks s blocks = (s', r) ->
  obj (heap s') (directory s') = obj (heap s) (directory s).
Proof.
  induction blocks as [|b rest IH]; intros s s' r Hne H; simpl in H.
  - inversion H; subst. reflexivity.
  - destruct (b =? 0); [eapply IH; eauto|].
    destruct (set_bit s b 0) as [s1|] eqn:Hb; [|inversion H; subst; reflexivity].
    destruct (set_bit_frame _ _ _ _ Hb) as (_ & _ & B3 & B4 & _).
    rewrite <- (set_bit_directory _ _ _ _ Hne Hb).
    eapply IH; [|exact H]. rewrite B3, B4. exact Hne.
Qed.

Lemma intact_insert (l : list val) (k : nat) (name : string) (d : Z) :
  Forall (fun v => is_entry v = true) l ->
  Forall (fun v => is_entry v = true) (<[k := VEntry name d]> l).
Proof. intros H. apply Forall_insert; [exact H|reflexivity]. Qed.

(** Setting a directory entry and storing the list at block 7 again. *)
Lemma intact_set_entry (s2 s' : FileSystem) (k : nat) (name : string) (d : Z) :
  directory_intact s2 ->
  match disk_setitem
          (with_heap s2 (set_obj (heap s2) (directory s2)
             (<[k := VEntry name d]> (obj (heap s2) (directory s2)))))
          7 (directory s2) with
  | None => s' = with_heap s2 (set_obj (heap s2) (directory s2)
                     (<[k := VEntry name d]> (obj (heap s2) (directory s2))))
  | Some s4 => s' = s4
  end ->
  directory_intact s'.
Proof.
  intros H Hs.
  assert (Hs3 : directory_intact
                  (with_heap s2 (set_obj (heap s2) (directory s2)
                     (<[k := VEntry name d]> (obj (heap s2) (directory s2)))))).
  { unfold directory_intact. simpl. unfold set_obj, obj.
    destruct (decide (directory s2 < length (heap s2))%nat) as [Hlt|Hge].
    - rewrite list_lookup_insert_eq by exact Hlt. simpl.
      apply intact_insert. exact H.
    - rewrite list_insert_ge by lia. exact H. }
  destruct (disk_setitem _ 7 (directory s2)) as [s4|] eqn:Hd; [|subst s'; exact Hs3].
  subst s'. destruct (disk_setitem_frame _ _ _ _ Hd) as (D1 & _ & _ & D4 & _).
  unfold directory_intact. rewrite D1, D4. exact Hs3.
Qed.

Lemma directory_intact_init : directory_intact init.
Proof.
  unfold directory_intact.
  change (obj (heap init) (directory init)) with (replicate 64 (VEntry "" 0)).
  apply Forall_replicate. reflexivity.
Qed.

Lemma directory_intact_ext (s s' : FileSystem) :
  obj (heap s') (directory s') = obj (heap s) (directory s) ->
  directory_intact s -> directory_intact s'.
Proof. unfold directory_intact. intros ->. auto. Qed.

Lemma directory_intact_create (s : FileSystem) (f : string) :
  bitmap s <> directory s -> directory_intact s -> directory_intact (fst (create s f)).
Proof.
  intros Hne H. destruct (create s f) as [s' r] eqn:Hc. simpl.
  destruct (create_detail _ _ _ _ Hc)
    as [->|(dir_index & d0 & di & nb & _ & _ & _ & _ & Hsteps)]; [exact H|].
  destruct (set_bit s nb 1) as [s1|] eqn:Hb; [|subst s'; exact H].
  pose proof (set_bit_directory _ _ _ _ Hne Hb) as H1.
  assert (I1 : directory_intact s1) by (eapply directory_intact_ext; eauto).
  destruct (set_descriptor s1 di [0; nb; 0; 0]) as [s2|] eqn:Hsd; [|subst s'; exact I1].
  destruct (set_descriptor_frame _ _ _ _ Hsd) as (A1 & _ & _ & A4 & _).
  assert (I2 : directory_intact s2).
  { eapply directory_intact_ext; [|exact I1]. rewrite A1, A4. reflexivity. }
  cbv zeta in Hsteps. eapply intact_set_entry; [exact I2|exact Hsteps].
Qed.

Lemma directory_intact_destroy (s : FileSystem) (f : string) :
  bitmap s <> directory s -> directory_intact s -> directory_intact (fst (destroy s f)).
Proof.
  intros Hne H. destruct (destroy s f) as [s' r] eqn:Hc. simpl.
  destruct (destroy_detail _ _ _ _ Hc) as [->|(dir_index & di & d & _ & _ & Hsteps)];
    [exact H|].
  destruct (free_blocks s (take 3 (drop 1 d))) as [s1 r1] eqn:Hfree.
  pose proof (free_blocks_directory _ _ _ _ Hne Hfree) as H1.
  assert (I1 : directory_intact s1) by (eapply directory_intact_ext; eauto).
  destruct r1 as [u|x]; [|subst s'; exact I1].
  destruct (set_descriptor s1 di free_descriptor) as [s2|] eqn:Hsd; [|subst s'; exact I1].
  destruct (set_descriptor_frame _ _ _ _ Hsd) as (A1 & _ & _ & A4 & _).
  assert (I2 : directory_intact s2).
  { eapply directory_intact_ext; [|exact I1]. rewrite A1, A4. reflexivity. }
  cbv zeta in Hsteps. eapply intact_set_entry; [exact I2|exact Hsteps].
Qed.

Lemma directory_intact_step (s : FileSystem) (c : call) :
  reachable s -> fs_ok s -> admissible s c ->
  directory_intact s -> directory_intact (step s c).
Proof.
  intros Hreach Hok Hadm H.
  destruct (reachable_oft_ok s Hreach) as (_ & Hall & _).
  pose proof Hok as ((_ & _ & S3 & _ & S5) & _).
  destruct c as [|f|f|f|i|i m n|i m n|i p|]; simpl in Hadm; simpl.
  - apply directory_intact_init.
  - apply directory_intact_create; assumption.
  - apply directory_intact_destroy; assumption.
  - destruct (open s f) as [s' r] eqn:Ho. simpl.
    destruct (open_detail _ _ _ _ Ho)
      as [->|(k & d & b & len & e & j & desc & b1 & _ & _ & _ & _ & _ & _ & ->)];
      exact H.
  - destruct (close s i) as [s' r] eqn:Hc. simpl.
    destruct (close_detail _ _ _ _ Hc)
      as [->|(e & d & cb & _ & _ & _ & Hh & _ & _ & Hd & _)]; [exact H|].
    eapply directory_intact_ext; [|exact H]. rewrite Hh, Hd.
    apply obj_app_l. eapply obj_length_valid. exact S5.
  - destruct (read s i m n) as [[s' m'] r] eqn:Hr. simpl.
    destruct (read_loaded _ _ _ _ _ _ _ Hall Hr)
      as [->|(e & _ & (Hh & _ & _ & _ & Hd & _))]; [exact H|].
    eapply directory_intact_ext; [|exact H]. rewrite Hh, Hd. reflexivity.
  - destruct Hadm as (Hi & Hlen & Hfresh).
    eapply directory_intact_ext; [|exact H]. apply write_ok; assumption.
  - destruct (seek s i p) as [s' r] eqn:Hr. simpl.
    destruct (seek_loaded _ _ _ _ _ Hall Hr)
      as [->|(e & _ & (Hh & _ & _ & _ & Hd & _))]; [exact H|].
    eapply directory_intact_ext; [|exact H]. rewrite Hh, Hd. reflexivity.
  - exact H.
Qed.

Lemma directory_intact_along_interface (s : FileSystem) :
  reachable_by_interface s -> directory_intact s.
Proof.
  induction 1 as [|s c Hs IH Hadm]; [apply directory_intact_init|].
  apply directory_intact_step;
    [apply reachable_by_interface_reachable; exact Hs
    |apply reachable_by_interface_ok; exact Hs|exact Hadm|exact IH].
Qed.

(** In every state reached through the interface, [create] with the empty
    name returns the error value and leaves the state as it is. *)
Lemma create_empty_refused_along_interface (s : FileSystem) :
  reachable_by_interface s -> create s "" = (s, Ret (-1)).
Proof.
  intros H. apply create_empty_refused. apply directory_intact_along_interface. exact H.
Qed.

(** ** The directory's slot *)

(** [open] returns -1 or one of the handles 1, 2, 3. *)
Lemma open_never_0 (s s' : FileSystem) (f : string) : open s f <> (s', Ret 0).
Proof.
  intros H. destruct (open_effect _ _ _ _ H) as [->|(i & d & b & len & e & Hin & _ & _ & _ & _ & Hr)].
  - unfold open in H.
    destruct (dir_find f (obj (heap s) (directory s)) 0) as [[[di d]|]|]; try discriminate.
    destruct (d =? -1); [discriminate|].
    destruct (already_open s d); [discriminate|].
    destruct (scan_oft (oft s) [1; 2; 3]%nat) as [i|] eqn:Hs; [|discriminate].
    destruct (scan_oft_Some _ _ _ Hs) as (Hin & _).
    destruct (get_descriptor s d) as [desc|]; [|discriminate].
    destruct (py_get desc 1) as [b1|]; [|discriminate].
    destruct (read_block s b1) as [b|]; [|discriminate].
    destruct (py_get desc 0) as [len|]; [|discriminate].
    inversion H as [[Hs' Hi]]. simpl in Hin. lia.
  - inversion Hr as [Hi]. simpl in Hin. lia.
Qed.

Lemma rebound_keeps_slot_0 (s s' : FileSystem) (index : Z) (e : slot) :
  index <> 0 -> open_slot s index = Some e -> slot_rebound s s' (Z.to_nat index) ->
  oft s' !! 0%nat = oft s !! 0%nat.
Proof.
  intros Hi Ho (b & p & _ & Hoft).
  destruct (open_slot_Some _ _ _ Ho) as (Hr & _ & _).
  rewrite Hoft. apply list_lookup_insert_ne. lia.
Qed.

(** Calls that keep to the interface leave slot 0 as it is. *)
Lemma step_keeps_slot_0 (s : FileSystem) (c : call) :
  reachable s -> admissible s c -> c <> Init ->
  oft (step s c) !! 0%nat = oft s !! 0%nat.
Proof.
  intros Hreach Hadm Hc.
  destruct (reachable_oft_ok s Hreach) as (_ & Hall & _).
  destruct c as [|f|f|f|i|i m n|i m n|i p|]; simpl in Hadm; simpl.
  - contradiction.
  - destruct (create s f) as [s' r] eqn:H. simpl. rewrite (create_oft _ _ _ _ H). reflexivity.
  - destruct (destroy s f) as [s' r] eqn:H. simpl. rewrite (destroy_oft _ _ _ _ H). reflexivity.
  - destruct (open s f) as [s' r] eqn:H. simpl.
    destruct (open_effect _ _ _ _ H) as [->|(j & d & b & len & e & Hin & _ & _ & _ & -> & _)];
      [reflexivity|].
    unfold set_slot. simpl. apply list_lookup_insert_ne. simpl in Hin. lia.
  - destruct (close s i) as [s' r] eqn:H. simpl.
    destruct (close_effect _ _ _ _ H) as [->|(e & b & Ho & _ & Hoft)]; [reflexivity|].
    destruct (open_slot_Some _ _ _ Ho) as (Hr & _ & _).
    rewrite Hoft. apply list_lookup_insert_ne. lia.
  - destruct (read s i m n) as [[s' m'] r] eqn:H. simpl.
    destruct (read_rebound _ _ _ _ _ _ _ Hall H) as [->|(e & Ho & Hreb)]; [reflexivity|].
    eapply rebound_keeps_slot_0; eauto.
  - destruct Hadm as (Hi & _).
    destruct (write s i m n) as [s' r] eqn:H. simpl.
    destruct (write_rebound _ _ _ _ _ _ Hall H) as [->|(e & Ho & Hreb)]; [reflexivity|].
    eapply rebound_keeps_slot_0; eauto.
  - destruct (seek s i p) as [s' r] eqn:H. simpl.
    destruct (seek_rebound _ _ _ _ _ H) as [->|(e & Ho & Hreb)]; [reflexivity|].
    eapply rebound_keeps_slot_0; eauto.
  - reflexivity.
Qed.

(** In every state reached through the interface slot 0 is open at cursor
    0 on descriptor 0, with the directory list as its buffer. *)
Lemma slot_0_along_interface (s : FileSystem) :
  reachable_by_interface s -> oft s !! 0%nat = Some (mkSlot 7%nat 0 0 0).
Proof.
  induction 1 as [|s c Hs IH Hadm]; [reflexivity|].
  assert (Hcase : c = Init \/ c <> Init) by (destruct c; auto; right; discriminate).
  destruct Hcase as [->|Hc]; [reflexivity|].
  rewrite step_keeps_slot_0;
    [exact IH|apply reachable_by_interface_reachable; exact Hs|exact Hadm|exact Hc].
Qed.

(** ** close along the interface *)

(** What a state reached through the interface has behind an open handle
    of a file: a cursor that is not negative and a four-field descriptor
    whose blocks are 0 or in the pool. *)
Lemma open_file_slot (s : FileSystem) (index : Z) (e : slot) :
  reachable_by_interface s -> index <> 0 -> open_slot s index = Some e ->
  0 <= current_pos e /\ length (disk s) = 64%nat /\
  exists d, get_descriptor s (descriptor_index e) = Some d /\ descriptor_ok d.
Proof.
  intros Hs Hi Ho.
  destruct (reachable_by_interface_ok s Hs) as ((_ & S2 & _) & (_ & Dslot) & (_ & Hdall) & _).
  destruct (open_slot_Some _ _ _ Ho) as (Hr & Hlk & Hopen).
  destruct (Dslot (Z.to_nat index) e ltac:(lia) Hlk) as (_ & Hcur).
  destruct (Hcur Hopen) as (Hp & Hdi).
  split; [exact Hp|]. split; [exact S2|]. apply Hdall. exact Hdi.
Qed.

(** Below the three-block ceiling [close] returns 0 and resets the slot. *)
Lemma close_below_ceiling (s : FileSystem) (index : Z) (e : slot) :
  reachable_by_interface s -> index <> 0 -> open_slot s index = Some e ->
  current_pos e < 1536 ->
  snd (close s index) = Ret 0 /\
  exists b, oft (fst (close s index)) !! Z.to_nat index = Some (closed_slot b).
Proof.
  intros Hs Hi Ho Hp.
  destruct (open_file_slot s index e Hs Hi Ho) as (Hp0 & Hdisk & d & Hd & Hlen & Hrange & _).
  destruct (open_slot_Some _ _ _ Ho) as (Hr & Hlk & _).
  assert (Hlt : (Z.to_nat index < length (oft s))%nat) by (eapply lookup_lt_Some; eauto).
  assert (Hk : 0 <= current_pos e / 512 < 3).
  { split; [apply Z.div_pos; lia|apply Z.div_lt_upper_bound; lia]. }
  destruct (py_get_Some_nonneg d (1 + current_pos e / 512)) as [cb Hcb];
    [lia|rewrite Hlen; lia|].
  assert (Hsel : (if current_pos e / 512 =? 0 then py_get d 1
                  else py_get d (1 + current_pos e / 512)) = Some cb).
  { destruct (current_pos e / 512 =? 0) eqn:Hz; [|exact Hcb].
    apply Z.eqb_eq in Hz. rewrite Hz in Hcb. exact Hcb. }
  unfold close. rewrite Ho, Hd. cbv zeta. rewrite Hsel.
  destruct (cb =? 0) eqn:Hz.
  - simpl. split; [reflexivity|]. eexists.
    apply list_lookup_insert_eq. exact Hlt.
  - apply Z.eqb_neq in Hz.
    assert (Hk1 : 1 <= 1 + current_pos e / 512 <= 3) by lia.
    assert (Hcbr : 8 <= cb <= 63) by (destruct (Hrange _ _ Hk1 Hcb); lia).
    unfold disk_setitem. rewrite py_set_nonneg by lia.
    simpl. split; [reflexivity|]. eexists.
    apply list_lookup_insert_eq. exact Hlt.
Qed.

(** At the ceiling [close] subscripts the descriptor out of range, whatever
    the file: the fault escapes and the state is unchanged. *)
Lemma close_at_ceiling (s : FileSystem) (index : Z) (e : slot) :
  reachable_by_interface s -> index <> 0 -> open_slot s index = Some e ->
  1536 <= current_pos e ->
  close s index = (s, Raise IndexError).
Proof.
  intros Hs Hi Ho Hp.
  destruct (open_file_slot s index e Hs Hi Ho) as (_ & _ & d & Hd & Hlen & _).
  assert (Hk : 3 <= current_pos e / 512) by (apply Z.div_le_lower_bound; lia).
  unfold close. rewrite Ho, Hd. cbv zeta.
  replace (current_pos e / 512 =? 0) with false by (symmetry; apply Z.eqb_neq; lia).
  rewrite py_get_nonneg by lia.
  rewrite lookup_ge_None_2 by (rewrite Hlen; lia). reflexivity.
Qed.

(** Below the ceiling the round trip gives the bytes back, at block
    boundaries too. *)
Lemma round_trip_below_ceiling :
  (snd (fst (round_trip 0)) = map VInt (pattern 0) /\ snd (round_trip 0) = Ret 0) /\
  (snd (fst (round_trip 512)) = map VInt (pattern 512) /\ snd (round_trip 512) = Ret 512) /\
  (snd (fst (round_trip 513)) = map VInt (pattern 513) /\ snd (round_trip 513) = Ret 513) /\
  (snd (fst (round_trip 1024)) = map VInt (pattern 1024) /\
   snd (round_trip 1024) = Ret 1024) /\
  (snd (fst (round_trip 1535)) = map VInt (pattern 1535) /\
   snd (round_trip 1535) = Ret 1535).
Proof.
  split; [split; vm_compute; reflexivity|].
  split; [split; vm_compute; reflexivity|].
  split; [split; vm_compute; reflexivity|].
  split; [split; vm_compute; reflexivity|].
  split; vm_compute; reflexivity.
Qed.

(** ** A write that seek loses *)


(** * Further properties of the engine *)

(** ** The emulated disk and the allocator *)

Lemma filter_nil_not {A} (P : A -> Prop) `{forall x, Decision (P x)} (l : list A)
    (k : nat) (x : A) :
  filter P l = [] -> l !! k = Some x -> ~ P x.
Proof.
  intros Hnil Hk Hx.
  assert (Hin : x ∈ filter P l).
  { apply list_elem_of_filter. split; [exact Hx|]. eapply list_elem_of_lookup_2; eauto. }
  rewrite Hnil in Hin. inversion Hin.
Qed.

(** X1: the allocator is first fit over the pool.  With a 64-cell bitmap,
    [find_free_block] returns the smallest block number in 8..63 that
    [block_free] reports free, every pool block before it being taken; it
    returns -1 (here [None]) only when no pool block is free. *)
Theorem find_free_block_first_fit (s : FileSystem) :
  length (obj (heap s) (bitmap s)) = 64%nat ->
  (exists nb, find_free_block s = Ret (Some nb) /\ 8 <= nb <= 63 /\
              block_free s nb = Ret true /\
              forall j, 8 <= j < nb -> block_free s j = Ret false) \/
  (find_free_block s = Ret None /\
   forall j, 8 <= j <= 63 -> block_free s j = Ret false).
Proof.
  intros Hlen. unfold find_free_block, range.
  assert (Hcell : forall (n : nat) (j : Z),
            filter (fun v => is_zero v = true) (take n (drop 8 (obj (heap s) (bitmap s)))) = [] ->
            8 <= j < 8 + Z.of_nat n -> j <= 63 -> block_free s j = Ret false).
  { intros n j Hnil Hj Hj63. unfold block_free. rewrite py_get_nonneg by lia.
    destruct (lookup_lt_is_Some_2 (obj (heap s) (bitmap s)) (Z.to_nat j) ltac:(lia)) as [v Hv].
    rewrite Hv. f_equal.
    destruct (is_zero v) eqn:Hz; [|reflexivity]. exfalso.
    apply (filter_nil_not _ _ (Z.to_nat j - 8)%nat v Hnil); [|exact Hz].
    rewrite lookup_take_lt by lia. rewrite lookup_drop.
    replace (8 + (Z.to_nat j - 8))%nat with (Z.to_nat j) by lia. exact Hv. }
  destruct (scan_bitmap_spec (obj (heap s) (bitmap s)) (64 - 8) 8 ltac:(lia))
    as [(nb & Hnb & Hscan & (v & Hv & Hz) & Hnil)|[Hscan Hnil]].
  - left. exists (Z.of_nat nb). split; [exact Hscan|]. split; [lia|]. split.
    + unfold block_free. rewrite py_get_nonneg by lia. rewrite Nat2Z.id, Hv, Hz. reflexivity.
    + intros j Hj. apply (Hcell (nb - 8)%nat j Hnil); lia.
  - right. split; [exact Hscan|]. intros j Hj. apply (Hcell (64 - 8)%nat j Hnil); lia.
Qed.

Lemma find_free_block_first_fit_witness :
  length (obj (heap init) (bitmap init)) = 64%nat /\
  ((exists nb, find_free_block init = Ret (Some nb) /\ 8 <= nb <= 63 /\
               block_free init nb = Ret true /\
               forall j, 8 <= j < nb -> block_free init j = Ret false) \/
   (find_free_block init = Ret None /\
    forall j, 8 <= j <= 63 -> block_free init j = Ret false)).
Proof.
  split; [reflexivity|]. apply (find_free_block_first_fit init). reflexivity.
Defined.

(** X2: [write_block] checks the index first and the size second, and
    stores a copy.  On a 64-block disk: an index outside 0..63 raises
    [IndexError] and a list that has not 512 cells raises [ValueError], the
    disk and the store being left as they were; otherwise the block holds a
    new list object with the content of [data], which [read_block] returns,
    while [data] itself, every other list object and every other block are
    as before. *)
Theorem write_block_stores_copy (s : FileSystem) (b : Z) (data : loc) :
  length (disk s) = 64%nat ->
  ((b < 0 \/ 63 < b) /\ write_block s b data = (s, Raise IndexError)) \/
  (0 <= b <= 63 /\ length (obj (heap s) data) <> 512%nat /\
   write_block s b data = (s, Raise ValueError)) \/
  (0 <= b <= 63 /\ length (obj (heap s) data) = 512%nat /\
   exists s' l,
     write_block s b data = (s', Ret tt) /\
     read_block s' b = Ret l /\ l <> data /\
     obj (heap s') l = obj (heap s) data /\
     (forall l', (l' < length (heap s))%nat -> obj (heap s') l' = obj (heap s) l') /\
     (forall b', 0 <= b' <= 63 -> b' <> b -> read_block s' b' = read_block s b') /\
     bitmap s' = bitmap s /\ directory s' = directory s /\
     descriptors s' = descriptors s /\ oft s' = oft s).
Proof.
  intros Hdisk. unfold write_block.
  destruct ((b <? 0) || (63 <? b)) eqn:Hr.
  { left. apply orb_true_iff in Hr. split; [|reflexivity].
    destruct Hr as [Hr|Hr]; [apply Z.ltb_lt in Hr|apply Z.ltb_lt in Hr]; lia. }
  apply orb_false_iff in Hr. destruct Hr as [Ha Hb].
  apply Z.ltb_ge in Ha. apply Z.ltb_ge in Hb. right.
  destruct (length (obj (heap s) data) =? 512)%nat eqn:Hlen; simpl.
  2: { left. apply Nat.eqb_neq in Hlen. split; [lia|]. split; [exact Hlen|reflexivity]. }
  apply Nat.eqb_eq in Hlen. right. split; [lia|]. split; [exact Hlen|].
  rewrite py_set_nonneg by lia.
  assert (Hvalid : (data < length (heap s))%nat) by (eapply obj_length_valid; exact Hlen).
  eexists. exists (length (heap s)). split; [reflexivity|].
  split; [|split; [lia|split; [|split; [|split]]]].
  - unfold read_block. simpl.
    replace ((b <? 0) || (63 <? b)) with false
      by (symmetry; apply orb_false_iff; split; apply Z.ltb_ge; lia).
    rewrite py_get_nonneg by lia.
    rewrite list_lookup_insert_eq by lia. reflexivity.
  - simpl. apply obj_app_new.
  - intros l' Hl'. simpl. apply obj_app_l. exact Hl'.
  - intros b' Hb' Hne. unfold read_block. simpl.
    rewrite !py_get_nonneg by lia.
    rewrite list_lookup_insert_ne by lia. reflexivity.
  - simpl. auto.
Qed.

Lemma write_block_stores_copy_witness :
  length (disk init) = 64%nat /\
  exists s' l,
    write_block init 9 8%nat = (s', Ret tt) /\
    read_block s' 9 = Ret l /\ l <> 8%nat /\
    obj (heap s') l = obj (heap init) 8%nat.
Proof.
  split; [reflexivity|].
  destruct (write_block_stores_copy init 9 8%nat eq_refl)
    as [[[H|H] _]|[(_ & H & _)|(_ & _ & s' & l & Hw & Hr & Hne & Hc & _)]];
    [lia|lia|exfalso; apply H; reflexivity|].
  exists s', l. auto.
Defined.

(** ** Handles: open, close and the open file table *)

(** What a successful [open] went through. *)
Lemma open_success (s s' : FileSystem) (f : string) (h : Z) :
  open s f = (s', Ret h) -> 0 <= h ->
  exists (k i : nat) (d b1 len : Z) (desc : list Z) (b : loc),
    dir_find f (obj (heap s) (directory s)) 0 = Ret (Some (k, d)) /\
    d <> -1 /\ already_open s d = false /\
    scan_oft (oft s) [1; 2; 3]%nat = Some i /\
    get_descriptor s d = Some desc /\ py_get desc 1 = Some b1 /\
    read_block s b1 = Ret b /\ py_get desc 0 = Some len /\
    s' = set_slot s i (mkSlot b 0 len d) /\ h = Z.of_nat i.
Proof.
  unfold open. intros H Hh.
  destruct (dir_find f (obj (heap s) (directory s)) 0) as [[[k d]|]|] eqn:Hf;
    [|inversion H; lia|discriminate].
  destruct (d =? -1) eqn:Hd1; [inversion H; lia|]. apply Z.eqb_neq in Hd1.
  destruct (already_open s d) eqn:Ha; [inversion H; lia|].
  destruct (scan_oft (oft s) [1; 2; 3]%nat) as [i|] eqn:Hs; [|inversion H; lia].
  destruct (get_descriptor s d) as [desc|] eqn:Hd; [|discriminate].
  destruct (py_get desc 1) as [b1|] eqn:Hb1; [|discriminate].
  destruct (read_block s b1) as [b|] eqn:Hrb; [|discriminate].
  destruct (py_get desc 0) as [len|] eqn:Hlen; [|discriminate].
  inversion H; subst. exists k, i, d, b1, len, desc, b. auto 12.
Qed.

Lemma scan_oft_first (o : list slot) (idxs : list nat) (i : nat) :
  scan_oft o idxs = Some i ->
  exists pre post e, idxs = pre ++ i :: post /\ o !! i = Some e /\ current_pos e = -1 /\
    forall j e', j ∈ pre -> o !! j = Some e' -> current_pos e' <> -1.
Proof.
  induction idxs as [|j rest IH]; simpl; [discriminate|].
  destruct (o !! j) as [e|] eqn:He.
  - destruct (current_pos e =? -1) eqn:Hp.
    + intros H. inversion H; subst. apply Z.eqb_eq in Hp.
      exists [], rest, e. split; [reflexivity|]. split; [exact He|]. split; [exact Hp|].
      intros j e' Hj. inversion Hj.
    + intros H. destruct (IH H) as (pre & post & e0 & -> & He0 & Hp0 & Hpre).
      apply Z.eqb_neq in Hp.
      exists (j :: pre), post, e0. split; [reflexivity|]. split; [exact He0|].
      split; [exact Hp0|]. intros j' e' Hj' He'.
      apply elem_of_cons in Hj'. destruct Hj' as [->|Hj']; [|eapply Hpre; eauto].
      rewrite He in He'. inversion He'; subst. exact Hp.
  - intros H. destruct (IH H) as (pre & post & e0 & -> & He0 & Hp0 & Hpre).
    exists (j :: pre), post, e0. split; [reflexivity|]. split; [exact He0|].
    split; [exact Hp0|]. intros j' e' Hj' He'.
    apply elem_of_cons in Hj'. destruct Hj' as [->|Hj']; [|eapply Hpre; eauto].
    rewrite He in He'. discriminate.
Qed.

Lemma scan_oft_None (o : list slot) (idxs : list nat) :
  (forall j, j ∈ idxs -> exists e, o !! j = Some e /\ current_pos e <> -1) ->
  scan_oft o idxs = None.
Proof.
  induction idxs as [|j rest IH]; intros H; simpl; [reflexivity|].
  destruct (H j ltac:(left)) as (e & -> & Hp).
  replace (current_pos e =? -1) with false by (symmetry; apply Z.eqb_neq; exact Hp).
  apply IH. intros j' Hj'. apply H. right. exact Hj'.
Qed.

(** X3: a file cannot be opened twice.  In any state, when [open] has
    returned a handle for a name, a second [open] of the same name returns
    -1 and changes nothing. *)
Theorem open_twice_refused (s s' : FileSystem) (f : string) (h : Z) :
  open s f = (s', Ret h) -> 0 <= h ->
  open s' f = (s', Ret (-1)).
Proof.
  intros H Hh.
  destruct (open_success _ _ _ _ H Hh)
    as (k & i & d & b1 & len & desc & b & Hf & Hd1 & _ & Hs & _ & _ & _ & _ & -> & _).
  destruct (scan_oft_Some _ _ _ Hs) as (Hin & e & He & _).
  assert (Hlt : (i < length (oft s))%nat) by (eapply lookup_lt_Some; eauto).
  unfold open. simpl. rewrite Hf.
  replace (d =? -1) with false by (symmetry; apply Z.eqb_neq; exact Hd1).
  assert (Ha : already_open (set_slot s i (mkSlot b 0 len d)) d = true).
  { unfold already_open. apply existsb_exists. exists (mkSlot b 0 len d). split.
    - apply list_elem_of_In. apply (list_elem_of_lookup_2 _ i).
      simpl in Hin. rewrite lookup_take_lt by lia.
      simpl. apply list_lookup_insert_eq. exact Hlt.
    - unfold is_open_on. simpl. rewrite Z.eqb_refl. reflexivity. }
  rewrite Ha. reflexivity.
Qed.

Lemma open_twice_refused_witness :
  open (run [Create "f"]) "f" = (run [Create "f"; Open "f"], Ret 1) /\
  open (run [Create "f"; Open "f"]) "f" = (run [Create "f"; Open "f"], Ret (-1)).
Proof.
  assert (H : open (run [Create "f"]) "f" = (run [Create "f"; Open "f"], Ret 1))
    by (vm_compute; reflexivity).
  split; [exact H|]. apply (open_twice_refused _ _ "f" 1 H). lia.
Defined.

(** X4: [open] hands out the lowest free handle among 1, 2, 3 and never
    handle 0.  With the four-slot table, when [open] returns a handle [h],
    then [h] is 1, 2 or 3, slot [h] was closed, every slot from 1 up to
    [h - 1] was open, and the call changed nothing but slot [h], which is
    now open at cursor 0. *)
Theorem open_takes_lowest_free_slot (s s' : FileSystem) (f : string) (h : Z) :
  length (oft s) = 4%nat ->
  open s f = (s', Ret h) -> 0 <= h ->
  1 <= h <= 3 /\
  open_slot s h = None /\
  (forall j, 1 <= j < h -> exists e, open_slot s j = Some e) /\
  (exists b len d, s' = set_slot s (Z.to_nat h) (mkSlot b 0 len d)).
Proof.
  intros Hlen H Hh.
  destruct (open_success _ _ _ _ H Hh)
    as (k & i & d & b1 & len & desc & b & _ & _ & _ & Hs & _ & _ & _ & _ & -> & ->).
  destruct (scan_oft_first _ _ _ Hs) as (pre & post & e & Hsplit & He & Hp & Hpre).
  assert (Hi : (1 <= i <= 3)%nat).
  { destruct (scan_oft_Some _ _ _ Hs) as (Hin & _). simpl in Hin. lia. }
  split; [lia|]. split; [|split].
  - unfold open_slot.
    replace ((Z.of_nat i <? 0) || (3 <? Z.of_nat i)) with false
      by (symmetry; apply orb_false_iff; split; apply Z.ltb_ge; lia).
    rewrite Nat2Z.id, He, Hp. reflexivity.
  - intros j Hj.
    assert (Hjpre : Z.to_nat j ∈ pre).
    { destruct pre as [|p1 [|p2 [|p3 pre]]]; simpl in Hsplit; inversion Hsplit; subst;
        try lia.
      - assert (j = 1) by lia. subst j. left.
      - assert (Hc : j = 1 \/ j = 2) by lia. destruct Hc as [-> | ->]; [left|right; left].
      - destruct pre; discriminate. }
    destruct (lookup_lt_is_Some_2 (oft s) (Z.to_nat j) ltac:(lia)) as [e' He'].
    exists e'. unfold open_slot.
    replace ((j <? 0) || (3 <? j)) with false
      by (symmetry; apply orb_false_iff; split; apply Z.ltb_ge; lia).
    rewrite He'.
    replace (current_pos e' =? -1) with false
      by (symmetry; apply Z.eqb_neq; eapply Hpre; eauto).
    reflexivity.
  - exists b, len, d. rewrite Nat2Z.id. reflexivity.
Qed.

Lemma open_takes_lowest_free_slot_witness :
  length (oft (run [Create "f"; Open "f"; Create "g"])) = 4%nat /\
  open (run [Create "f"; Open "f"; Create "g"]) "g"
    = (run [Create "f"; Open "f"; Create "g"; Open "g"], Ret 2) /\
  open_slot (run [Create "f"; Open "f"; Create "g"]) 2 = None.
Proof.
  assert (H : open (run [Create "f"; Open "f"; Create "g"]) "g"
              = (run [Create "f"; Open "f"; Create "g"; Open "g"], Ret 2))
    by (vm_compute; reflexivity).
  assert (Hlen : length (oft (run [Create "f"; Open "f"; Create "g"])) = 4%nat)
    by (vm_compute; reflexivity).
  split; [exact Hlen|]. split; [exact H|].
  apply (open_takes_lowest_free_slot _ _ "g" 2 Hlen H). lia.
Defined.

(** X5: at most three files are open at a time.  With an intact
    directory, when slots 1, 2 and 3 are all open, [open] returns -1 for
    every name and changes nothing. *)
Theorem open_refused_when_table_full (s : FileSystem) (f : string) :
  directory_intact s ->
  (forall j, 1 <= j <= 3 -> exists e, open_slot s j = Some e) ->
  open s f = (s, Ret (-1)).
Proof.
  intros Hdir Hfull. unfold open.
  destruct (dir_find_intact f _ Hdir 0%nat) as [r Hr]. rewrite Hr.
  destruct r as [[k d]|]; [|reflexivity].
  destruct (d =? -1); [reflexivity|].
  destruct (already_open s d); [reflexivity|].
  rewrite scan_oft_None; [reflexivity|].
  intros j Hj.
  assert (Hjr : 1 <= Z.of_nat j <= 3).
  { apply list_elem_of_In in Hj. simpl in Hj. lia. }
  destruct (Hfull _ Hjr) as [e He].
  destruct (open_slot_Some _ _ _ He) as (_ & Hlk & Hp).
  rewrite Nat2Z.id in Hlk. eauto.
Qed.

Lemma open_refused_when_table_full_witness :
  directory_intact (run three_open_files) /\
  open (run three_open_files) "d" = (run three_open_files, Ret (-1)).
Proof.
  assert (Hdir : directory_intact (run three_open_files)).
  { apply directory_intact_along_interface.
    apply admissible_run_reachable; [apply by_interface_init|].
    unfold three_open_files. cbn [admissible_run admissible].
    split; [discriminate|]. split; [discriminate|]. split; [discriminate|].
    split; [discriminate|]. split; [discriminate|]. split; [discriminate|].
    split; [discriminate|]. exact I. }
  split; [exact Hdir|].
  apply (open_refused_when_table_full _ "d" Hdir).
  intros j Hj. assert (Hc : j = 1 \/ j = 2 \/ j = 3) by lia.
  destruct Hc as [-> | [-> | ->]]; vm_compute; eexists; reflexivity.
Defined.

(** X6: [destroy] does not look at the open file table.  In any state and
    for any name the table is left as it was, so a file that is open when
    it is destroyed stays open: every handle passes the guard of [close],
    [read], [write] and [seek] exactly as before. *)
Theorem destroy_leaves_handles_open (s : FileSystem) (f : string) :
  oft (fst (destroy s f)) = oft s /\
  forall h, open_slot (fst (destroy s f)) h = open_slot s h.
Proof.
  destruct (destroy s f) as [s' r] eqn:H. simpl.
  pose proof (destroy_oft _ _ _ _ H) as Ho.
  split; [exact Ho|]. intros h. unfold open_slot. rewrite Ho. reflexivity.
Qed.

(** What a successful [close] did to the table. *)
Lemma close_success (s s' : FileSystem) (index : Z) :
  close s index = (s', Ret 0) ->
  exists e b, open_slot s index = Some e /\
              oft s' = <[Z.to_nat index := closed_slot b]> (oft s).
Proof.
  unfold close. intros H.
  destruct (open_slot s index) as [e|] eqn:Ho; [|discriminate].
  destruct (get_descriptor s (descriptor_index e)) as [d|]; [|discriminate].
  destruct (if current_pos e / 512 =? 0 then py_get d 1
            else py_get d (1 + current_pos e / 512)) as [cb|]; [|discriminate].
  destruct (if cb =? 0 then Some s else disk_setitem s cb (buffer e)) as [s1|] eqn:H1;
    [|discriminate].
  assert (O1 : oft s1 = oft s).
  { destruct (cb =? 0).
    - inversion H1. reflexivity.
    - destruct (disk_setitem_frame _ _ _ _ H1) as (_ & _ & _ & _ & O). exact O. }
  simpl in H. inversion H; subst. exists e. eexists. split; [reflexivity|].
  simpl. rewrite O1. reflexivity.
Qed.

(** X7: a closed handle is dead.  In any state, once [close] has returned
    0 for a handle, that handle is rejected until it is handed out again:
    [close], [seek], [write] and [read] on it return -1 and change nothing,
    the caller's list included. *)
Theorem closed_handle_rejected (s s' : FileSystem) (index : Z) :
  close s index = (s', Ret 0) ->
  close s' index = (s', Ret (-1)) /\
  (forall pos, seek s' index pos = (s', Ret (-1))) /\
  (forall src count, write s' index src count = (s', Ret (-1))) /\
  (forall mem count, read s' index mem count = (s', mem, Ret (-1))).
Proof.
  intros H. destruct (close_success _ _ _ H) as (e & b & Ho & Hoft).
  destruct (open_slot_Some _ _ _ Ho) as (Hr & Hlk & _).
  assert (Hlt : (Z.to_nat index < length (oft s))%nat) by (eapply lookup_lt_Some; eauto).
  assert (Hclosed : open_slot s' index = None).
  { unfold open_slot.
    replace ((index <? 0) || (3 <? index)) with false
      by (symmetry; apply orb_false_iff; split; apply Z.ltb_ge; lia).
    rewrite Hoft, list_lookup_insert_eq by exact Hlt. reflexivity. }
  unfold close, seek, write, read. rewrite Hclosed. auto.
Qed.

Lemma closed_handle_rejected_witness :
  close (run [Create "f"; Open "f"]) 1 = (run [Create "f"; Open "f"; Close 1], Ret 0) /\
  close (run [Create "f"; Open "f"; Close 1]) 1
    = (run [Create "f"; Open "f"; Close 1], Ret (-1)).
Proof.
  assert (H : close (run [Create "f"; Open "f"]) 1
              = (run [Create "f"; Open "f"; Close 1], Ret 0))
    by (vm_compute; reflexivity).
  split; [exact H|]. apply (closed_handle_rejected _ _ 1 H).
Defined.

(** X8: opening and closing a file leaves the storage as it was.  In any
    state, when [open] returns a handle, [close] on that handle returns 0,
    and afterwards the disk (block by block the same list objects), the
    descriptors, the bitmap, the directory and every list object are what
    they were before [open]; only the slot has changed, closed again with a
    new empty buffer. *)
Theorem open_then_close_restores_storage (s s1 : FileSystem) (f : string) (h : Z) :
  open s f = (s1, Ret h) -> 0 <= h ->
  exists s2,
    close s1 h = (s2, Ret 0) /\
    disk s2 = disk s /\ descriptors s2 = descriptors s /\
    bitmap s2 = bitmap s /\ directory s2 = directory s /\
    heap s2 = heap s ++ [zeros 512] /\
    oft s2 = <[Z.to_nat h := closed_slot (length (heap s))]> (oft s).
Proof.
  intros H Hh.
  destruct (open_success _ _ _ _ H Hh)
    as (k & i & d & b1 & len & desc & b & _ & _ & _ & Hs & Hd & Hb1 & Hrb & _ & -> & ->).
  destruct (scan_oft_Some _ _ _ Hs) as (Hin & e & He & _).
  assert (Hi : (1 <= i <= 3)%nat) by (simpl in Hin; lia).
  assert (Hlt : (i < length (oft s))%nat) by (eapply lookup_lt_Some; eauto).
  destruct (read_block_Ret _ _ _ Hrb) as (Hb1r & Hdisk).
  assert (Hopen : open_slot (set_slot s i (mkSlot b 0 len d)) (Z.of_nat i)
                  = Some (mkSlot b 0 len d)).
  { unfold open_slot.
    replace ((Z.of_nat i <? 0) || (3 <? Z.of_nat i)) with false
      by (symmetry; apply orb_false_iff; split; apply Z.ltb_ge; lia).
    rewrite Nat2Z.id. simpl. rewrite list_lookup_insert_eq by exact Hlt. reflexivity. }
  unfold close. rewrite Hopen. cbn [descriptor_index current_pos buffer].
  change (get_descriptor (set_slot s i (mkSlot b 0 len d)) d) with (get_descriptor s d).
  rewrite Hd. cbv zeta. change (0 / 512 =? 0) with true. cbv iota. rewrite Hb1.
  assert (Hstore : (if b1 =? 0 then Some (set_slot s i (mkSlot b 0 len d))
                    else disk_setitem (set_slot s i (mkSlot b 0 len d)) b1 b)
                   = Some (set_slot s i (mkSlot b 0 len d))).
  { destruct (b1 =? 0); [reflexivity|].
    unfold disk_setitem. simpl.
    rewrite py_set_nonneg; [|lia|].
    - rewrite list_insert_id by exact Hdisk. reflexivity.
    - apply lookup_lt_Some in Hdisk. lia. }
  rewrite Hstore. simpl. eexists. split; [reflexivity|]. simpl.
  rewrite Nat2Z.id, list_insert_insert_eq. auto 10.
Qed.

Lemma open_then_close_restores_storage_witness :
  open (run [Create "f"]) "f" = (run [Create "f"; Open "f"], Ret 1) /\
  exists s2,
    close (run [Create "f"; Open "f"]) 1 = (s2, Ret 0) /\
    disk s2 = disk (run [Create "f"]).
Proof.
  assert (H : open (run [Create "f"]) "f" = (run [Create "f"; Open "f"], Ret 1))
    by (vm_compute; reflexivity).
  split; [exact H|].
  destruct (open_then_close_restores_storage _ _ "f" 1 H ltac:(lia))
    as (s2 & Hc & Hd & _).
  exists s2. auto.
Defined.

(** ** create and destroy along the interface *)

Lemma scan_descriptors_total (s : FileSystem) (idxs : list Z) :
  (forall i, In i idxs -> exists d len, get_descriptor s i = Some d /\ py_get d 0 = Some len) ->
  exists r, scan_descriptors s idxs = Ret r.
Proof.
  induction idxs as [|i rest IH]; intros H; simpl; [eauto|].
  destruct (H i ltac:(left; reflexivity)) as (d & len & -> & ->).
  destruct (len =? -1); [eauto|]. apply IH. intros j Hj. apply H. right. exact Hj.
Qed.

Lemma descs_ok_length_field (s : FileSystem) (i : Z) :
  descs_ok s -> 0 <= i < 192 ->
  exists d len, get_descriptor s i = Some d /\ py_get d 0 = Some len.
Proof.
  intros [H0 Hall] Hi. destruct (Z.eq_dec i 0) as [->|Hne].
  - exists [0; 7; 0; 0], 0. split; [exact H0|reflexivity].
  - destruct (Hall i ltac:(lia)) as (d & Hd & Hlen & _).
    destruct (four_fields d Hlen) as (len & b1 & b2 & b3 & ->).
    exists [len; b1; b2; b3], len. split; [exact Hd|reflexivity].
Qed.

Lemma free_descriptor_unique (d : list Z) :
  descriptor_ok d -> py_get d 0 = Some (-1) -> d = free_descriptor.
Proof.
  intros (Hlen & _ & Hfree) H0. pose proof (Hfree H0) as Hnz.
  destruct (four_fields d Hlen) as (len & b1 & b2 & b3 & ->).
  vm_compute in H0. inversion H0; subst len.
  unfold nz in Hnz. simpl in Hnz. rewrite !filter_cons, filter_nil in Hnz.
  destruct (decide (b1 <> 0)); [discriminate|].
  destruct (decide (b2 <> 0)); [discriminate|].
  destruct (decide (b3 <> 0)); [discriminate|].
  assert (b1 = 0) by lia. assert (b2 = 0) by lia. assert (b3 = 0) by lia.
  subst. reflexivity.
Qed.

(** [create] from a consistent state with an intact directory: it is
    refused and changes nothing, or it succeeds with every step taken. *)
Lemma create_outcome (s : FileSystem) (f : string) :
  fs_ok s -> directory_intact s ->
  create s f = (s, Ret (-1)) \/
  exists (k : nat) (d0 di nb : Z) (v : val) (s' : FileSystem),
    create s f = (s', Ret 0) /\
    (String.length f <= 3)%nat /\
    dir_find f (obj (heap s) (directory s)) 0 = Ret None /\
    obj (heap s) (directory s) !! k = Some (VEntry "" d0) /\
    1 <= di < 192 /\ get_descriptor s di = Some free_descriptor /\
    8 <= nb <= 63 /\ obj (heap s) (bitmap s) !! Z.to_nat nb = Some v /\ is_zero v = true /\
    oft s' = oft s /\ bitmap s' = bitmap s /\ directory s' = directory s /\
    heap s' = <[directory s := <[k := VEntry f di]> (obj (heap s) (directory s))]>
                (<[bitmap s := <[Z.to_nat nb := VInt 1]> (obj (heap s) (bitmap s))]> (heap s)) /\
    disk s' = <[7%nat := Obj (directory s)]> (disk s) /\
    get_descriptor s' di = Some [0; nb; 0; 0] /\
    (forall j, 0 <= j -> j <> di -> get_descriptor s' j = get_descriptor s j).
Proof.
  intros Hok Hint.
  destruct Hok as (Hshape & _ & Hdescs & _ & _).
  pose proof Hshape as (S1 & S2 & S3 & S4 & S5). pose proof Hdescs as [Hd0 Hdall].
  unfold create.
  destruct (3 <? String.length f)%nat eqn:Hlen3; [left; reflexivity|].
  apply Nat.ltb_ge in Hlen3.
  destruct (dir_find_intact f _ Hint 0%nat) as [r1 Hr1]. rewrite Hr1.
  destruct r1 as [p1|]; [left; reflexivity|].
  destruct (dir_find_intact "" _ Hint 0%nat) as [r2 Hr2]. rewrite Hr2.
  destruct r2 as [[k d0]|]; [|left; reflexivity].
  destruct (dir_find_Some _ _ _ _ _ Hr2) as [_ Hk]. rewrite Nat.sub_0_r in Hk.
  destruct (scan_descriptors_total s (range 0 192)) as [r3 Hr3].
  { intros i Hi. apply in_range in Hi. apply descs_ok_length_field; [exact Hdescs|lia]. }
  rewrite Hr3. destruct r3 as [di|]; [|left; reflexivity].
  destruct (scan_descriptors_Some _ _ _ Hr3) as [Hin (d & Hd & Hdlen)].
  apply in_range in Hin.
  assert (Hdi : 1 <= di < 192).
  { destruct (Z.eq_dec di 0) as [->|]; [|lia].
    rewrite Hd0 in Hd. inversion Hd; subst d. vm_compute in Hdlen. discriminate. }
  assert (Hdfree : d = free_descriptor).
  { destruct (Hdall di Hdi) as (d' & Hd' & Hok'). rewrite Hd in Hd'. inversion Hd'; subst d'.
    apply free_descriptor_unique; assumption. }
  subst d.
  destruct (scan_bitmap_spec (obj (heap s) (bitmap s)) (64 - 8) 8 ltac:(lia))
    as [(nb & Hnb & Hscan & (v & Hv & Hz) & _)|[Hscan _]];
    unfold find_free_block, range; rewrite Hscan; [|left; reflexivity].
  right. exists k, d0, di, (Z.of_nat nb), v.
  assert (Hvb : (bitmap s < length (heap s))%nat) by (eapply obj_length_valid; eauto).
  assert (Hvd : (directory s < length (heap s))%nat) by (eapply obj_length_valid; eauto).
  destruct (set_bit_ok s (Z.of_nat nb) 1 ltac:(rewrite S4; lia)) as (s1 & Hs1 & Hh1).
  destruct (set_bit_frame _ _ _ _ Hs1) as (B1 & B2 & B3 & B4 & B5 & _).
  rewrite Hs1.
  assert (Hd1 : get_descriptor s1 di = Some free_descriptor)
    by (rewrite (get_descriptor_ext s s1 di B1); exact Hd).
  destruct (set_descriptor_ok s1 di free_descriptor [0; Z.of_nat nb; 0; 0] Hd1) as [s2 Hs2].
  destruct (set_descriptor_frame _ _ _ _ Hs2) as (D1 & D2 & D3 & D4 & D5).
  rewrite Hs2. cbv zeta. unfold disk_setitem. simpl.
  rewrite py_set_nonneg by (try rewrite D2, B2, S2; lia).
  eexists. split; [reflexivity|]. simpl.
  rewrite Nat2Z.id.
  split; [exact Hlen3|]. split; [reflexivity|]. split; [exact Hk|]. split; [exact Hdi|].
  split; [exact Hd|]. split; [lia|]. split; [exact Hv|]. split; [exact Hz|].
  split; [congruence|]. split; [congruence|]. split; [congruence|].
  split.
  { unfold set_obj. rewrite D1, D4, B4, Hh1. rewrite Nat2Z.id.
    rewrite obj_insert_ne by exact S3. reflexivity. }
  split; [rewrite D4, B4, D2, B2; reflexivity|].
  split.
  { change (get_descriptor s2 di = Some [0; Z.of_nat nb; 0; 0]).
    eapply get_set_descriptor_eq; eauto. }
  intros j Hj Hne.
  change (get_descriptor s2 j = get_descriptor s j).
  rewrite (get_set_descriptor_ne s1 s2 di j [0; Z.of_nat nb; 0; 0]) by (try lia; exact Hs2).
  apply get_descriptor_ext. exact B1.
Qed.

(** [destroy] of a named file from a consistent state with an intact
    directory: the name is not there and nothing changes, or every step is
    taken. *)
Lemma destroy_outcome (s : FileSystem) (f : string) :
  fs_ok s -> directory_intact s -> f <> "" ->
  (dir_find f (obj (heap s) (directory s)) 0 = Ret None /\
   destroy s f = (s, Ret (-1))) \/
  exists (k : nat) (di : Z) (d : list Z) (s' : FileSystem),
    dir_find f (obj (heap s) (directory s)) 0 = Ret (Some (k, di)) /\
    obj (heap s) (directory s) !! k = Some (VEntry f di) /\
    1 <= di < 192 /\ get_descriptor s di = Some d /\ descriptor_ok d /\
    destroy s f = (s', Ret 0) /\
    oft s' = oft s /\ bitmap s' = bitmap s /\ directory s' = directory s /\
    heap s' = <[directory s := <[k := VEntry "" 0]> (obj (heap s) (directory s))]>
                (<[bitmap s := clear_bits (obj (heap s) (bitmap s)) (nz d)]> (heap s)) /\
    disk s' = <[7%nat := Obj (directory s)]> (disk s) /\
    get_descriptor s' di = Some free_descriptor /\
    (forall j, 0 <= j -> j <> di -> get_descriptor s' j = get_descriptor s j).
Proof.
  intros Hok Hint Hf.
  destruct Hok as (Hshape & _ & Hdescs & _ & Hdir).
  pose proof Hshape as (S1 & S2 & S3 & S4 & S5). pose proof Hdescs as [Hd0 Hdall].
  unfold destroy.
  destruct (dir_find_intact f _ Hint 0%nat) as [r1 Hr1]. rewrite Hr1.
  destruct r1 as [[k di]|]; [|left; split; reflexivity].
  destruct (dir_find_Some _ _ _ _ _ Hr1) as [_ Hk]. rewrite Nat.sub_0_r in Hk.
  destruct (Hdir k f di Hk Hf) as (Hdi & _ & _).
  destruct (Hdall di Hdi) as (d & Hd & Hdok).
  pose proof Hdok as (Hdlen & Hfields & _).
  rewrite Hd. right. exists k, di, d.
  assert (Hvb : (bitmap s < length (heap s))%nat) by (eapply obj_length_valid; eauto).
  assert (Hvd : (directory s < length (heap s))%nat) by (eapply obj_length_valid; eauto).
  destruct (free_blocks_ok (take 3 (drop 1 d)) s S4) as (s1 & Hs1 & B1 & B2 & B3 & B4 & B5 & Hh1).
  { intros b Hb. destruct (take_drop_elem _ _ Hb) as (j & Hj & Hget).
    destruct (Hfields j b Hj Hget); lia. }
  rewrite Hs1. fold (nz d) in Hh1.
  assert (Hd1 : get_descriptor s1 di = Some d)
    by (rewrite (get_descriptor_ext s s1 di B1); exact Hd).
  destruct (set_descriptor_ok s1 di d free_descriptor Hd1) as [s2 Hs2].
  destruct (set_descriptor_frame _ _ _ _ Hs2) as (D1 & D2 & D3 & D4 & D5).
  rewrite Hs2. cbv zeta. unfold disk_setitem. simpl.
  rewrite py_set_nonneg by (try rewrite D2, B2, S2; lia).
  eexists. split; [reflexivity|]. split; [exact Hk|]. split; [exact Hdi|].
  split; [exact Hd|]. split; [exact Hdok|]. split; [reflexivity|]. simpl.
  split; [congruence|]. split; [congruence|]. split; [congruence|].
  split.
  { unfold set_obj. rewrite D1, D4, B4, Hh1.
    rewrite obj_insert_ne by exact S3. reflexivity. }
  split; [rewrite D4, B4, D2, B2; reflexivity|].
  split.
  { change (get_descriptor s2 di = Some free_descriptor).
    eapply get_set_descriptor_eq; eauto. }
  intros j Hj Hne.
  change (get_descriptor s2 j = get_descriptor s j).
  rewrite (get_set_descriptor_ne s1 s2 di j free_descriptor) by (try lia; exact Hs2).
  apply get_descriptor_ext. exact B1.
Qed.

(** ** File names *)

Lemma dir_find_None (f : string) (l : list val) :
  forall (i0 k : nat) (d : Z),
  dir_find f l i0 = Ret None -> l !! k = Some (VEntry f d) -> False.
Proof.
  induction l as [|v l IH]; intros i0 k d H Hk; [discriminate|].
  simpl in H. destruct v as [z|name d']; [discriminate|].
  destruct (String.eqb name f) eqn:Hn; [discriminate|].
  destruct k as [|k]; simpl in Hk.
  - inversion Hk; subst. rewrite String.eqb_refl in Hn. discriminate.
  - eapply IH; eauto.
Qed.

Lemma dir_find_present (f : string) (l : list val) :
  Forall (fun v => is_entry v = true) l ->
  forall (i0 k : nat) (d : Z),
  l !! k = Some (VEntry f d) ->
  exists k' d', dir_find f l i0 = Ret (Some (k', d')).
Proof.
  induction 1 as [|v l Hv _ IH]; intros i0 k d Hk; [discriminate|].
  simpl. destruct v as [z|name d']; [discriminate|].
  destruct (String.eqb name f) eqn:Hn; [eauto|].
  destruct k as [|k]; simpl in Hk.
  - inversion Hk; subst. rewrite String.eqb_refl in Hn. discriminate.
  - eapply IH; eauto.
Qed.

(** How a call that keeps to the interface changes the directory list:
    not at all, or by the one entry that [create] or [destroy] sets. *)
Lemma step_directory (s : FileSystem) (c : call) :
  reachable s -> fs_ok s -> directory_intact s -> admissible s c ->
  obj (heap (step s c)) (directory (step s c)) = obj (heap s) (directory s) \/
  c = Init \/
  (exists f (k : nat) d0 di,
     c = Create f /\ f <> "" /\
     dir_find f (obj (heap s) (directory s)) 0 = Ret None /\
     obj (heap s) (directory s) !! k = Some (VEntry "" d0) /\
     obj (heap (step s c)) (directory (step s c))
       = <[k := VEntry f di]> (obj (heap s) (directory s))) \/
  (exists f (k : nat) di,
     c = Destroy f /\ f <> "" /\
     obj (heap s) (directory s) !! k = Some (VEntry f di) /\
     obj (heap (step s c)) (directory (step s c))
       = <[k := VEntry "" 0]> (obj (heap s) (directory s))).
Proof.
  intros Hreach Hok Hint Hadm.
  destruct (reachable_oft_ok s Hreach) as (_ & Hall & _).
  pose proof Hok as ((_ & _ & S3 & S4 & S5) & _).
  assert (Hvd : (directory s < length (heap s))%nat) by (eapply obj_length_valid; eauto).
  destruct c as [|f|f|f|i|i m n|i m n|i p|]; simpl in Hadm; simpl.
  - right. left. reflexivity.
  - destruct (create_outcome s f Hok Hint)
      as [Hc|(k & d0 & di & nb & v & s' & Hc & _ & Hnone & Hk & _ & _ & _ & _ & _ & _ & _ &
              Hdir & Hheap & _)];
      rewrite Hc; simpl; [left; reflexivity|].
    right. right. left. exists f, k, d0, di.
    split; [reflexivity|]. split; [exact Hadm|]. split; [exact Hnone|]. split; [exact Hk|].
    rewrite Hdir, Hheap. apply obj_insert_eq. rewrite length_insert. exact Hvd.
  - destruct (destroy_outcome s f Hok Hint Hadm)
      as [[_ Hc]|(k & di & d & s' & _ & Hk & _ & _ & _ & Hc & _ & _ & Hdir & Hheap & _)];
      rewrite Hc; simpl; [left; reflexivity|].
    right. right. right. exists f, k, di.
    split; [reflexivity|]. split; [exact Hadm|]. split; [exact Hk|].
    rewrite Hdir, Hheap. apply obj_insert_eq. rewrite length_insert. exact Hvd.
  - left. destruct (open s f) as [s' r] eqn:Ho. simpl.
    destruct (open_detail _ _ _ _ Ho)
      as [->|(k & d & b & len & e & j & desc & b1 & _ & _ & _ & _ & _ & _ & ->)];
      reflexivity.
  - left. destruct (close s i) as [s' r] eqn:Hc. simpl.
    destruct (close_detail _ _ _ _ Hc)
      as [->|(e & d & cb & _ & _ & _ & Hh & _ & _ & Hd & _)]; [reflexivity|].
    rewrite Hh, Hd. apply obj_app_l. exact Hvd.
  - left. destruct (read s i m n) as [[s' m'] r] eqn:Hr. simpl.
    destruct (read_loaded _ _ _ _ _ _ _ Hall Hr)
      as [->|(e & _ & (Hh & _ & _ & _ & Hd & _))]; [reflexivity|].
    rewrite Hh, Hd. reflexivity.
  - left. destruct Hadm as (Hi & Hlen & Hfresh). apply write_ok; assumption.
  - left. destruct (seek s i p) as [s' r] eqn:Hr. simpl.
    destruct (seek_loaded _ _ _ _ _ Hall Hr)
      as [->|(e & _ & (Hh & _ & _ & _ & Hd & _))]; [reflexivity|].
    rewrite Hh, Hd. reflexivity.
  - left. reflexivity.
Qed.

Lemma names_ok_init : names_ok init.
Proof.
  assert (Hdir : obj (heap init) (directory init) = replicate 64 (VEntry "" 0))
    by reflexivity.
  unfold names_ok. rewrite Hdir. split.
  - intros i j name d d' Hi _ Hname. apply lookup_replicate in Hi.
    destruct Hi as [Hi _]. inversion Hi; subst. contradiction.
  - intros i d Hi. apply lookup_replicate in Hi. destruct Hi as [Hi _].
    inversion Hi. reflexivity.
Qed.

Lemma names_ok_step (s : FileSystem) (c : call) :
  reachable s -> fs_ok s -> directory_intact s -> admissible s c ->
  names_ok s -> names_ok (step s c).
Proof.
  intros Hreach Hok Hint Hadm [Hdist Hzero].
  destruct (step_directory s c Hreach Hok Hint Hadm)
    as [Hsame|[->|[(f & k & d0 & di & -> & Hf & Hnone & Hk & Hnew)
                  |(f & k & di & -> & Hf & Hk & Hnew)]]].
  - unfold names_ok. rewrite Hsame. split; assumption.
  - apply names_ok_init.
  - assert (Hlt : (k < length (obj (heap s) (directory s)))%nat)
      by (eapply lookup_lt_Some; eauto).
    unfold names_ok. rewrite Hnew. split.
    + intros i j name d d' Hi Hj Hname.
      destruct (decide (i = k)) as [->|Hik]; destruct (decide (j = k)) as [->|Hjk];
        [reflexivity| | |].
      * rewrite list_lookup_insert_eq in Hi by exact Hlt. inversion Hi; subst.
        rewrite list_lookup_insert_ne in Hj by auto.
        exfalso. eapply dir_find_None; eauto.
      * rewrite list_lookup_insert_eq in Hj by exact Hlt. inversion Hj; subst.
        rewrite list_lookup_insert_ne in Hi by auto.
        exfalso. eapply dir_find_None; eauto.
      * rewrite list_lookup_insert_ne in Hi, Hj by auto. eapply Hdist; eauto.
    + intros i d Hi. destruct (decide (i = k)) as [->|Hik].
      * rewrite list_lookup_insert_eq in Hi by exact Hlt. inversion Hi. congruence.
      * rewrite list_lookup_insert_ne in Hi by auto. eapply Hzero; eauto.
  - assert (Hlt : (k < length (obj (heap s) (directory s)))%nat)
      by (eapply lookup_lt_Some; eauto).
    unfold names_ok. rewrite Hnew. split.
    + intros i j name d d' Hi Hj Hname.
      destruct (decide (i = k)) as [->|Hik].
      { rewrite list_lookup_insert_eq in Hi by exact Hlt. inversion Hi. congruence. }
      destruct (decide (j = k)) as [->|Hjk].
      { rewrite list_lookup_insert_eq in Hj by exact Hlt. inversion Hj. congruence. }
      rewrite list_lookup_insert_ne in Hi, Hj by auto. eapply Hdist; eauto.
    + intros i d Hi. destruct (decide (i = k)) as [->|Hik].
      * rewrite list_lookup_insert_eq in Hi by exact Hlt. inversion Hi. reflexivity.
      * rewrite list_lookup_insert_ne in Hi by auto. eapply Hzero; eauto.
Qed.

Lemma names_ok_along_interface (s : FileSystem) :
  reachable_by_interface s -> names_ok s.
Proof.
  induction 1 as [|s c Hs IH Hadm]; [apply names_ok_init|].
  apply names_ok_step;
    [apply reachable_by_interface_reachable; exact Hs
    |apply reachable_by_interface_ok; exact Hs
    |apply directory_intact_along_interface; exact Hs|exact Hadm|exact IH].
Qed.

(** ** What create and destroy do *)

Lemma dir_find_insert_new (f : string) (d : Z) (l : list val) :
  forall (i0 k : nat),
  dir_find f l i0 = Ret None -> (k < length l)%nat ->
  dir_find f (<[k := VEntry f d]> l) i0 = Ret (Some ((i0 + k)%nat, d)).
Proof.
  induction l as [|v l IH]; intros i0 k H Hk; [simpl in Hk; lia|].
  simpl in H. destruct v as [z|name d']; [discriminate|].
  destruct (String.eqb name f) eqn:Hn; [discriminate|].
  destruct k as [|k]; simpl.
  - rewrite String.eqb_refl. rewrite Nat.add_0_r. reflexivity.
  - rewrite Hn. simpl in Hk. rewrite (IH (S i0) k H) by lia.
    replace (S i0 + k)%nat with (i0 + S k)%nat by lia. reflexivity.
Qed.

Lemma dir_find_absent (f : string) (l : list val) (i0 : nat) :
  Forall (fun v => is_entry v = true) l ->
  (forall k d, l !! k = Some (VEntry f d) -> False) ->
  dir_find f l i0 = Ret None.
Proof.
  intros Hint Hno. destruct (dir_find_intact f l Hint i0) as [r Hr].
  destruct r as [[k d]|]; [|exact Hr].
  destruct (dir_find_Some _ _ _ _ _ Hr) as [_ Hk]. exfalso. eapply Hno; eauto.
Qed.

Lemma clear_bits_in (bs : list Z) :
  forall (bits : list val) (k : nat),
  (exists b, b ∈ bs /\ Z.to_nat b = k) -> (k < length bits)%nat ->
  clear_bits bits bs !! k = Some (VInt 0).
Proof.
  induction bs as [|b1 bs IH]; intros bits k (b & Hb & Hk) Hlt; [inversion Hb|].
  change (clear_bits bits (b1 :: bs))
    with (clear_bits (<[Z.to_nat b1 := VInt 0]> bits) bs).
  destruct (decide (Exists (fun b' => Z.to_nat b' = k) bs)) as [Hex|Hno].
  - apply IH; [|rewrite length_insert; exact Hlt].
    apply Exists_exists in Hex. destruct Hex as (b' & Hb' & Hk'). eauto.
  - rewrite clear_bits_other.
    + apply elem_of_cons in Hb. destruct Hb as [->|Hb].
      * rewrite Hk. apply list_lookup_insert_eq. exact Hlt.
      * exfalso. apply Hno. apply Exists_exists. eauto.
    + intros b' Hb' E. apply Hno. apply Exists_exists. eauto.
Qed.

(** X9: [create] is all or nothing.  In every state reached through the
    interface, for every name, [create] either returns -1 and leaves the
    state as it was, or returns 0; no exception escapes.  When it returns 0
    the name was not in the directory before and is found there afterwards,
    bound to a descriptor of length 0 whose only block was free before and
    is taken now; exactly one more bit of the bitmap is set, and the open
    file table is untouched. *)
Theorem create_all_or_nothing (s : FileSystem) (f : string) :
  reachable_by_interface s ->
  create s f = (s, Ret (-1)) \/
  exists (s' : FileSystem) (k : nat) (di nb : Z),
    create s f = (s', Ret 0) /\
    dir_find f (obj (heap s) (directory s)) 0 = Ret None /\
    dir_find f (obj (heap s') (directory s')) 0 = Ret (Some (k, di)) /\
    get_descriptor s' di = Some [0; nb; 0; 0] /\
    block_free s nb = Ret true /\ block_free s' nb = Ret false /\
    bitmap_ones s' = S (bitmap_ones s) /\
    oft s' = oft s.
Proof.
  intros Hs.
  pose proof (reachable_by_interface_ok s Hs) as Hok.
  pose proof (directory_intact_along_interface s Hs) as Hint.
  pose proof Hok as ((_ & _ & S3 & S4 & S5) & _).
  assert (Hvb : (bitmap s < length (heap s))%nat) by (eapply obj_length_valid; eauto).
  assert (Hvd : (directory s < length (heap s))%nat) by (eapply obj_length_valid; eauto).
  destruct (create_outcome s f Hok Hint)
    as [Hc|(k & d0 & di & nb & v & s' & Hc & _ & Hnone & Hk & Hdi & _ & Hnb & Hv & Hz &
            Hoft & Hbm & Hdir & Hheap & _ & Hnew & _)]; [left; exact Hc|].
  right. exists s', k, di, nb.
  assert (Ebits : obj (heap s') (bitmap s')
                  = <[Z.to_nat nb := VInt 1]> (obj (heap s) (bitmap s))).
  { rewrite Hbm, Hheap. rewrite obj_insert_ne by congruence.
    apply obj_insert_eq. exact Hvb. }
  assert (Edir : obj (heap s') (directory s')
                 = <[k := VEntry f di]> (obj (heap s) (directory s))).
  { rewrite Hdir, Hheap. apply obj_insert_eq. rewrite length_insert. exact Hvd. }
  split; [exact Hc|]. split; [exact Hnone|]. split.
  { rewrite Edir. rewrite (dir_find_insert_new f di _ 0 k Hnone); [reflexivity|].
    eapply lookup_lt_Some; eauto. }
  split; [exact Hnew|]. split.
  { unfold block_free. rewrite py_get_nonneg by lia. rewrite Hv, Hz. reflexivity. }
  split.
  { unfold block_free. rewrite Ebits. rewrite py_get_nonneg by lia.
    rewrite list_lookup_insert_eq by (rewrite S4; lia). reflexivity. }
  split; [|exact Hoft].
  unfold bitmap_ones. rewrite Ebits.
  apply (filter_insert_length_up _ _ _ v); [exact Hv| |reflexivity].
  destruct v as [z|]; [|discriminate]. simpl in Hz. apply Z.eqb_eq in Hz. subst z.
  simpl. discriminate.
Qed.

Lemma create_all_or_nothing_witness :
  reachable_by_interface init /\
  (create init "f" = (init, Ret (-1)) \/
   exists (s' : FileSystem) (k : nat) (di nb : Z),
     create init "f" = (s', Ret 0) /\
     dir_find "f" (obj (heap init) (directory init)) 0 = Ret None /\
     dir_find "f" (obj (heap s') (directory s')) 0 = Ret (Some (k, di)) /\
     get_descriptor s' di = Some [0; nb; 0; 0] /\
     block_free init nb = Ret true /\ block_free s' nb = Ret false /\
     bitmap_ones s' = S (bitmap_ones init) /\
     oft s' = oft init).
Proof.
  split; [apply by_interface_init|].
  apply (create_all_or_nothing init "f"). apply by_interface_init.
Defined.

(** X10: a name is created once.  In any state whose directory is intact,
    [create] of a name that some directory entry already carries returns
    -1 and changes nothing. *)
Theorem create_refuses_existing_name (s : FileSystem) (f : string) (k : nat) (d : Z) :
  directory_intact s ->
  obj (heap s) (directory s) !! k = Some (VEntry f d) ->
  create s f = (s, Ret (-1)).
Proof.
  intros Hint Hk. unfold create.
  destruct (3 <? String.length f)%nat; [reflexivity|].
  destruct (dir_find_present f _ Hint 0%nat k d Hk) as (k' & d' & ->).
  reflexivity.
Qed.

Lemma create_refuses_existing_name_witness :
  directory_intact (run [Create "f"]) /\
  obj (heap (run [Create "f"])) (directory (run [Create "f"])) !! 0%nat
    = Some (VEntry "f" 1) /\
  create (run [Create "f"]) "f" = (run [Create "f"], Ret (-1)).
Proof.
  assert (Hint : directory_intact (run [Create "f"])).
  { apply directory_intact_along_interface.
    apply admissible_run_reachable; [apply by_interface_init|].
    cbn [admissible_run admissible]. split; [discriminate|exact I]. }
  assert (Hk : obj (heap (run [Create "f"])) (directory (run [Create "f"])) !! 0%nat
               = Some (VEntry "f" 1)) by (vm_compute; reflexivity).
  split; [exact Hint|]. split; [exact Hk|].
  apply (create_refuses_existing_name _ "f" 0%nat 1 Hint Hk).
Defined.

(** X11: [destroy] is all or nothing and gives everything back.  In every
    state reached through the interface, for every non-empty name,
    [destroy] returns -1 and changes nothing when the name is not in the
    directory; otherwise it returns 0, the name is no longer found, its
    descriptor is free, every block the file held is free again, the
    bitmap has as many bits less as the file held blocks, and the open
    file table is untouched.  No exception escapes. *)
Theorem destroy_all_or_nothing (s : FileSystem) (f : string) :
  reachable_by_interface s -> f <> "" ->
  (dir_find f (obj (heap s) (directory s)) 0 = Ret None /\
   destroy s f = (s, Ret (-1))) \/
  exists (s' : FileSystem) (k : nat) (di : Z) (d : list Z),
    dir_find f (obj (heap s) (directory s)) 0 = Ret (Some (k, di)) /\
    get_descriptor s di = Some d /\
    destroy s f = (s', Ret 0) /\
    dir_find f (obj (heap s') (directory s')) 0 = Ret None /\
    get_descriptor s' di = Some free_descriptor /\
    (forall b, b ∈ nz d -> block_free s b = Ret false /\ block_free s' b = Ret true) /\
    (bitmap_ones s' + length (nz d))%nat = bitmap_ones s /\
    oft s' = oft s.
Proof.
  intros Hs Hf.
  pose proof (reachable_by_interface_ok s Hs) as Hok.
  pose proof (directory_intact_along_interface s Hs) as Hint.
  pose proof (names_ok_along_interface s Hs) as [Hdist _].
  pose proof Hok as ((_ & _ & S3 & S4 & S5) & _ & Hdescs & (Hnd & Hset & _) & _).
  assert (Hvb : (bitmap s < length (heap s))%nat) by (eapply obj_length_valid; eauto).
  assert (Hvd : (directory s < length (heap s))%nat) by (eapply obj_length_valid; eauto).
  destruct (destroy_outcome s f Hok Hint Hf)
    as [Hc|(k & di & d & s' & Hfind & Hk & Hdi & Hd & Hdok & Hc &
            Hoft & Hbm & Hdir & Hheap & _ & Hnew & _)]; [left; exact Hc|].
  right. exists s', k, di, d.
  assert (Ebits : obj (heap s') (bitmap s') = clear_bits (obj (heap s) (bitmap s)) (nz d)).
  { rewrite Hbm, Hheap. rewrite obj_insert_ne by congruence.
    apply obj_insert_eq. exact Hvb. }
  assert (Edir : obj (heap s') (directory s')
                 = <[k := VEntry "" 0]> (obj (heap s) (directory s))).
  { rewrite Hdir, Hheap. apply obj_insert_eq. rewrite length_insert. exact Hvd. }
  (* the blocks of the file: held once, in the pool, bits set *)
  assert (Hrefs : exists rest, refs s ≡ₚ nz d ++ rest).
  { exists (concat (map nz (delete (Z.to_nat di) (descriptor_list s)))).
    unfold refs. apply concat_map_delete. apply descriptor_list_get; [lia|exact Hd]. }
  destruct Hrefs as [rest Hrefs].
  assert (Hblk : forall b, b ∈ nz d ->
            0 <= b <= 63 /\ obj (heap s) (bitmap s) !! Z.to_nat b = Some (VInt 1)).
  { intros b Hb. assert (Hin : b ∈ refs s) by (rewrite Hrefs; apply elem_of_app; auto).
    pose proof (refs_range s b Hdescs Hin) as Hr. split; [lia|].
    pose proof (Hset b Hin) as Hone. unfold bit in Hone.
    rewrite py_get_nonneg in Hone by lia. exact Hone. }
  assert (HndB : NoDup (nz d)).
  { rewrite Hrefs in Hnd. apply NoDup_app in Hnd. tauto. }
  split; [exact Hfind|]. split; [exact Hd|]. split; [exact Hc|]. split.
  { rewrite Edir. apply dir_find_absent.
    - apply Forall_insert; [exact Hint|reflexivity].
    - intros j dj Hj. destruct (decide (j = k)) as [->|Hne].
      + rewrite list_lookup_insert_eq in Hj by (eapply lookup_lt_Some; eauto).
        inversion Hj. congruence.
      + rewrite list_lookup_insert_ne in Hj by auto.
        apply Hne. eapply Hdist; eauto. }
  split; [exact Hnew|]. split.
  { intros b Hb. destruct (Hblk b Hb) as [Hbr Hone]. unfold block_free. split.
    - rewrite py_get_nonneg by lia. rewrite Hone. reflexivity.
    - rewrite Ebits. rewrite py_get_nonneg by lia.
      rewrite (clear_bits_in (nz d)); [reflexivity|eauto|rewrite S4; lia]. }
  split; [|exact Hoft].
  unfold bitmap_ones. rewrite Ebits. apply clear_bits_count; [exact HndB|].
  intros b Hb. destruct (Hblk b Hb) as [Hbr Hone]. split; [lia|exact Hone].
Qed.

Lemma destroy_all_or_nothing_witness :
  reachable_by_interface (run [Create "f"]) /\
  snd (destroy (run [Create "f"]) "f") = Ret 0.
Proof.
  assert (Hs : reachable_by_interface (run [Create "f"])).
  { apply admissible_run_reachable; [apply by_interface_init|].
    cbn [admissible_run admissible]. split; [discriminate|exact I]. }
  split; [exact Hs|].
  destruct (destroy_all_or_nothing (run [Create "f"]) "f" Hs ltac:(discriminate))
    as [[Hnone _]|(s' & k & di & d & _ & _ & Hc & _)].
  - vm_compute in Hnone. discriminate.
  - rewrite Hc. reflexivity.
Defined.

(** ** list_directory *)

Lemma list_entries_spec (s : FileSystem) (l : list val) :
  Forall (fun v => is_entry v = true) l ->
  (forall (k : nat) name d, l !! k = Some (VEntry name d) -> name <> "" ->
     exists desc len, get_descriptor s d = Some desc /\ py_get desc 0 = Some len) ->
  (forall (i j : nat) name d d',
     l !! i = Some (VEntry name d) -> l !! j = Some (VEntry name d') ->
     name <> "" -> i = j) ->
  exists r, list_entries s l = Ret r /\
    NoDup (fst <$> r) /\
    forall name len,
      (name, len) ∈ r <->
      (name <> "" /\ exists (k : nat) d desc,
         l !! k = Some (VEntry name d) /\ get_descriptor s d = Some desc /\
         py_get desc 0 = Some len).
Proof.
  induction 1 as [|v l Hv _ IH]; intros Hdesc Hdist.
  - exists []. split; [reflexivity|]. split; [constructor|].
    intros name len. split.
    + intros H. inversion H.
    + intros (_ & k & d & desc & Hk & _). discriminate.
  - destruct v as [z|name0 d0]; [discriminate|].
    destruct IH as (r & Hr & Hnd & Hmem).
    { intros k name d Hk. apply (Hdesc (S k) name d Hk). }
    { intros i j name d d' Hi Hj Hn.
      assert (S i = S j) by (eapply Hdist; eauto). lia. }
    simpl. destruct (String.eqb name0 "") eqn:Hn0.
    + apply String.eqb_eq in Hn0. subst name0.
      exists r. split; [exact Hr|]. split; [exact Hnd|].
      intros name len. rewrite Hmem. split.
      * intros (Hn & k & d & desc & Hk & Hd & Hl). split; [exact Hn|].
        exists (S k), d, desc. auto.
      * intros (Hn & k & d & desc & Hk & Hd & Hl). split; [exact Hn|].
        destruct k as [|k]; [simpl in Hk; inversion Hk; congruence|].
        exists k, d, desc. auto.
    + apply String.eqb_neq in Hn0.
      destruct (Hdesc 0%nat name0 d0 eq_refl Hn0) as (desc0 & len0 & Hd0 & Hl0).
      rewrite Hd0, Hl0, Hr.
      exists ((name0, len0) :: r). split; [reflexivity|]. split.
      * simpl. apply NoDup_cons. split; [|exact Hnd].
        intros Hin. apply list_elem_of_fmap in Hin. destruct Hin as ([n l0] & Hfst & Hin).
        simpl in Hfst. subst n. apply Hmem in Hin.
        destruct Hin as (_ & k & d & desc & Hk & _).
        assert (0%nat = S k) by (eapply Hdist; eauto; reflexivity). discriminate.
      * intros name len. rewrite elem_of_cons, Hmem. split.
        -- intros [E|(Hn & k & d & desc & Hk & Hd & Hl)].
           ++ inversion E; subst. split; [exact Hn0|]. exists 0%nat, d0, desc0. auto.
           ++ split; [exact Hn|]. exists (S k), d, desc. auto.
        -- intros (Hn & k & d & desc & Hk & Hd & Hl).
           destruct k as [|k].
           ++ left. simpl in Hk. inversion Hk; subst. rewrite Hd0 in Hd.
              inversion Hd; subst. rewrite Hl0 in Hl. inversion Hl. reflexivity.
           ++ right. split; [exact Hn|]. exists k, d, desc. auto.
Qed.

(** X12: [list_directory] lists the files, each once.  In every state
    reached through the interface it returns a list and raises nothing;
    the list has a pair (name, length) exactly for the directory entries
    with a non-empty name, the length being the length field of the
    entry's descriptor, and no name occurs twice. *)
Theorem list_directory_lists_files (s : FileSystem) :
  reachable_by_interface s ->
  exists r, list_directory s = Ret r /\
    NoDup (fst <$> r) /\
    forall name len,
      (name, len) ∈ r <->
      (name <> "" /\ exists (k : nat) d desc,
         obj (heap s) (directory s) !! k = Some (VEntry name d) /\
         get_descriptor s d = Some desc /\ py_get desc 0 = Some len).
Proof.
  intros Hs.
  pose proof (reachable_by_interface_ok s Hs) as (_ & _ & _ & _ & Hdir).
  pose proof (directory_intact_along_interface s Hs) as Hint.
  pose proof (names_ok_along_interface s Hs) as [Hdist _].
  unfold list_directory. apply list_entries_spec; [exact Hint| |exact Hdist].
  intros k name d Hk Hn.
  destruct (Hdir k name d Hk Hn) as (_ & (desc & len & b1 & Hd & Hl & _) & _). eauto.
Qed.

Lemma list_directory_lists_files_witness :
  reachable_by_interface (run [Create "f"]) /\
  exists r, list_directory (run [Create "f"]) = Ret r /\ ("f", 0) ∈ r.
Proof.
  assert (Hs : reachable_by_interface (run [Create "f"])).
  { apply admissible_run_reachable; [apply by_interface_init|].
    cbn [admissible_run admissible]. split; [discriminate|exact I]. }
  split; [exact Hs|].
  destruct (list_directory_lists_files _ Hs) as (r & Hr & _ & Hmem).
  exists r. split; [exact Hr|]. apply Hmem. split; [discriminate|].
  exists 0%nat, 1, [0; 8; 0; 0]. split; [|split]; vm_compute; reflexivity.
Defined.

(** ** What a write along the interface returns *)

Lemma write_body_stop_reason (s s' : FileSystem) (index : nat) (di : Z)
    (byte : option Z) (last : bool) :
  write_body s index di byte last = (s', Ret Stop) ->
  3 <= current_pos (slot_at s index) / 512 \/
  (current_pos (slot_at s index) mod 512 = 0 /\ 0 < current_pos (slot_at s index) / 512 /\
   find_free_block s = Ret None).
Proof.
  unfold write_body. intros H.
  destruct (3 <=? current_pos (slot_at s index) / 512) eqn:H3.
  { apply Z.leb_le in H3. auto. }
  destruct ((current_pos (slot_at s index) mod 512 =? 0)
            && (0 <? current_pos (slot_at s index) / 512)) eqn:Hg.
  - apply andb_true_iff in Hg. destruct Hg as [Ha Hb].
    apply Z.eqb_eq in Ha. apply Z.ltb_lt in Hb.
    destruct (grow s index di (current_pos (slot_at s index) / 512)) as [s1 [[u|]|x]] eqn:Hgrow.
    + exfalso. destruct byte; [|discriminate].
      destruct (py_set _ _ _); [|discriminate].
      destruct (if _ : bool then _ else _) as [s4 [u'|x]]; [|discriminate].
      destruct (update_length s4 index di); discriminate.
    + right. split; [exact Ha|]. split; [exact Hb|].
      unfold grow in Hgrow.
      destruct (find_free_block s) as [[nb|]|]; [|reflexivity|discriminate].
      destruct (set_descriptor_field s di _ nb) as [sa|]; [|discriminate].
      destruct (set_bit sa nb 1) as [sb|]; [|discriminate].
      simpl in Hgrow. discriminate.
    + discriminate.
  - exfalso. destruct byte; [|discriminate].
    destruct (py_set _ _ _); [|discriminate].
    destruct (if _ : bool then _ else _) as [s4 [u'|x]]; [|discriminate].
    destruct (update_length s4 index di); discriminate.
Qed.

(** What a consistent state has behind an open slot of a file. *)
Lemma fs_ok_slot (s : FileSystem) (index : nat) (e : slot) :
  fs_ok s -> (1 <= index)%nat -> oft s !! index = Some e -> current_pos e <> -1 ->
  valid_locs s /\ (index < length (oft s))%nat /\
  buffer e <> bitmap s /\ buffer e <> directory s /\
  length (obj (heap s) (buffer e)) = 512%nat /\
  0 <= current_pos e /\ 1 <= descriptor_index e < 192 /\
  exists d, get_descriptor s (descriptor_index e) = Some d /\ descriptor_ok d.
Proof.
  intros ((S1 & S2 & S3 & S4 & S5) & (_ & Dslot) & (_ & Hdall) & _) Hidx He Hopen.
  destruct (Dslot index e Hidx He) as ((Hbb & Hbl) & Hcur).
  destruct (Hcur Hopen) as (Hp0 & Hdi).
  split; [split; [exact S3|split; eapply obj_length_valid; [exact S4|exact S5]]|].
  split; [eapply lookup_lt_Some; eauto|]. split; [exact Hbb|].
  split; [intros E; rewrite E, S5 in Hbl; discriminate|].
  split; [exact Hbl|]. split; [exact Hp0|]. split; [exact Hdi|]. apply Hdall. exact Hdi.
Qed.

Lemma write_loop_outcome (n : nat) :
  forall (s : FileSystem) (index : nat) (e : slot) (src : list Z) (w : Z),
  fs_ok s -> (1 <= index)%nat -> oft s !! index = Some e -> current_pos e <> -1 ->
  (n <= length src)%nat ->
  (forall k, 1 <= k <= 2 -> current_pos e <= 512 * k < current_pos e + Z.of_nat n ->
             descriptor_field s (descriptor_index e) (1 + k) = Some 0) ->
  exists s' k,
    write_loop n s index (descriptor_index e) src w = (s', Ret k) /\
    fs_ok s' /\ pass_frame (descriptor_index e) s s' /\
    current_pos (slot_at s' index) <= Z.max (current_pos e) 1536 /\
    (k < w + Z.of_nat n ->
     1536 <= current_pos (slot_at s' index) \/
     (current_pos (slot_at s' index) mod 512 = 0 /\ 0 < current_pos (slot_at s' index) /\
      find_free_block s' = Ret None)).
Proof.
  induction n as [|n IH]; intros s index e src w Hok Hidx He Hopen Hlen Hfresh.
  - exists s, w. split; [reflexivity|]. split; [exact Hok|].
    split; [apply pass_frame_refl|]. rewrite (slot_at_lookup _ _ _ He).
    split; [lia|]. intros Hk. lia.
  - destruct src as [|x src]; [simpl in Hlen; lia|].
    cbn [write_loop head tail].
    pose proof (slot_at_lookup _ _ _ He) as Hslot.
    destruct (fs_ok_slot s index e Hok Hidx He Hopen)
      as (Hvalid & Hlt & Hnb & Hnd & _ & Hp0 & Hdi & _).
    destruct (fs_ok_pass s index e x (Nat.eqb n 0) Hok Hidx He Hopen)
      as [Hstop|(s1 & b & Hbody & Hok1 & Hoft & Hsame & _)].
    { intros Hgr Hc. unfold grows in Hgr. apply andb_true_iff in Hgr.
      destruct Hgr as [Hm Hq]. apply Z.eqb_eq in Hm. apply Z.ltb_lt in Hq.
      apply Hfresh; [lia|].
      pose proof (Z.div_mod (current_pos e) 512 ltac:(lia)). lia. }
    + rewrite Hstop. exists s, w. split; [reflexivity|]. split; [exact Hok|].
      split; [apply pass_frame_refl|]. rewrite Hslot. split; [lia|]. intros _.
      destruct (write_body_stop_reason _ _ _ _ _ _ Hstop) as [H3|(Hm & Hq & Hnone)];
        rewrite Hslot in *.
      * left. pose proof (Z.div_mod (current_pos e) 512 ltac:(lia)).
        pose proof (Z.mod_pos_bound (current_pos e) 512 ltac:(lia)). lia.
      * right. split; [exact Hm|]. split; [|exact Hnone].
        pose proof (Z.div_mod (current_pos e) 512 ltac:(lia)). lia.
    + rewrite Hbody.
      assert (Hframe1 : pass_frame (descriptor_index e) s s1).
      { apply (write_body_frame s s1 index (descriptor_index e) (Some x) (Nat.eqb n 0));
          [lia|exact Hvalid|exact Hlt|rewrite Hslot; exact Hnb|rewrite Hslot; exact Hnd
          |exact Hbody]. }
      destruct (write_body_continue_inv _ _ _ _ _ _ Hbody) as (Hc & _).
      rewrite Hslot in Hc. cbv zeta in Hc.
      assert (Hp1536 : current_pos e < 1536).
      { pose proof (Z.div_mod (current_pos e) 512 ltac:(lia)).
        pose proof (Z.mod_pos_bound (current_pos e) 512 ltac:(lia)). lia. }
      destruct (IH s1 index
                  (mkSlot b (current_pos e + 1) (file_size e) (descriptor_index e)) src (w + 1))
        as (s' & k & Hloop & Hok' & Hframe' & Hcur & Hreason).
      * exact Hok1.
      * exact Hidx.
      * rewrite Hoft. apply list_lookup_insert_eq. exact Hlt.
      * cbn [current_pos]. lia.
      * simpl in Hlen. lia.
      * cbn [current_pos descriptor_index]. intros k Hk Hr.
        rewrite Hsame; [apply Hfresh; lia|lia|].
        assert (current_pos e / 512 < k) by (apply Z.div_lt_upper_bound; lia). lia.
      * cbn [descriptor_index current_pos] in Hloop, Hframe', Hcur.
        exists s', k. split; [exact Hloop|]. split; [exact Hok'|].
        split; [eapply pass_frame_trans; eauto|]. split; [lia|].
        intros Hk. apply Hreason. lia.
Qed.

(** A write that keeps to the interface, as a whole. *)
Lemma write_outcome (s : FileSystem) (index : Z) (src : list Z) (count : Z) (e : slot) :
  fs_ok s -> index <> 0 -> open_slot s index = Some e ->
  count <= Z.of_nat (length src) -> write_fresh s index count ->
  exists s' k b,
    write s index src count = (s', Ret k) /\
    0 <= k <= Z.max 0 count /\
    fs_ok s' /\ pass_frame (descriptor_index e) s s' /\
    oft s' = <[Z.to_nat index := mkSlot b (current_pos e + k) (file_size e)
                                        (descriptor_index e)]> (oft s) /\
    current_pos e + k <= Z.max (current_pos e) 1536 /\
    (k < count ->
     1536 <= current_pos e + k \/
     ((current_pos e + k) mod 512 = 0 /\ 0 < current_pos e + k /\
      find_free_block s' = Ret None)) /\
    (0 < k -> forall L, descriptor_field s (descriptor_index e) 0 = Some L ->
       descriptor_field s' (descriptor_index e) 0 = Some (Z.max L (current_pos e + k))) /\
    (k = 0 -> s' = s).
Proof.
  intros Hok Hi Ho Hlen Hfresh.
  destruct (open_slot_Some _ _ _ Ho) as (Hr & Hlk & Hopen).
  pose proof (slot_at_lookup _ _ _ Hlk) as Hslot.
  destruct (fs_ok_slot s (Z.to_nat index) e Hok ltac:(lia) Hlk Hopen)
    as (_ & Hlt & _ & _ & _ & Hp0 & _ & d & Hd & _).
  destruct (write_loop_outcome (Z.to_nat count) s (Z.to_nat index) e src 0 Hok
              ltac:(lia) Hlk Hopen ltac:(lia))
    as (s' & k & Hloop & Hok' & Hframe & Hcur & Hreason).
  { intros j Hj Hrange. apply (Hfresh e Ho j Hj). lia. }
  pose proof (write_loop_length _ _ _ _ _ _ _ _ Hlt Hloop)
    as (Hk & _ & Hpos & Hzero & Hlenf).
  rewrite Hslot in Hpos, Hlenf.
  assert (Hreb : slot_rebound s s' (Z.to_nat index)).
  { eapply write_loop_rebound; [exact Hlt| |exact Hloop]. rewrite Hslot. exact Hp0. }
  destruct Hreb as (b & p & _ & Hoft). rewrite Hslot in Hoft.
  assert (Hp : p = current_pos e + k).
  { assert (Hs' : slot_at s' (Z.to_nat index)
                  = mkSlot b p (file_size e) (descriptor_index e)).
    { apply slot_at_lookup. rewrite Hoft. apply list_lookup_insert_eq. exact Hlt. }
    rewrite Hs' in Hpos. simpl in Hpos. lia. }
  subst p.
  assert (Hsp : current_pos (slot_at s' (Z.to_nat index)) = current_pos e + k) by lia.
  rewrite Hsp in Hcur, Hreason.
  exists s', k, b. unfold write. rewrite Ho, Hd.
  split; [exact Hloop|]. split; [lia|]. split; [exact Hok'|]. split; [exact Hframe|].
  split; [exact Hoft|]. split; [exact Hcur|]. split; [intros Hkc; apply Hreason; lia|].
  split.
  - intros Hk0 L HL. replace (current_pos e + k) with (current_pos e + (k - 0)) by lia.
    apply Hlenf; [lia|exact HL].
  - intros ->. apply Hzero. reflexivity.
Qed.

(** X13: a write through a file handle never fails half way.  In every
    state reached through the interface, for a handle 1..3 that is open,
    a source list of at least [count] bytes and a write that starts no
    block the file already has, [write] returns a number [k] between 0 and
    [count] and raises nothing; the cursor has moved by exactly [k] and the
    slot keeps its descriptor; when [k] is less than [count] the cursor is
    at the 1536-byte ceiling, or on a block boundary with no free block
    left; the descriptors of all other files and the directory list are
    as before. *)
Theorem write_returns_along_interface (s : FileSystem) (index : Z) (src : list Z)
    (count : Z) (e : slot) :
  reachable_by_interface s -> index <> 0 -> open_slot s index = Some e ->
  count <= Z.of_nat (length src) -> write_fresh s index count ->
  exists s' k b,
    write s index src count = (s', Ret k) /\
    0 <= k <= Z.max 0 count /\
    oft s' = <[Z.to_nat index := mkSlot b (current_pos e + k) (file_size e)
                                        (descriptor_index e)]> (oft s) /\
    (k < count ->
     1536 <= current_pos e + k \/
     ((current_pos e + k) mod 512 = 0 /\ 0 < current_pos e + k /\
      find_free_block s' = Ret None)) /\
    (forall j, 0 <= j -> j <> descriptor_index e ->
       get_descriptor s' j = get_descriptor s j) /\
    obj (heap s') (directory s') = obj (heap s) (directory s).
Proof.
  intros Hs Hi Ho Hlen Hfresh.
  pose proof (reachable_by_interface_ok s Hs) as Hok.
  destruct (write_outcome s index src count e Hok Hi Ho Hlen Hfresh)
    as (s' & k & b & Hw & Hk & _ & (_ & _ & _ & Hother & Hdir & _) & Hoft & _ & Hreason & _).
  exists s', k, b. auto 10.
Qed.

Lemma write_returns_along_interface_witness :
  reachable_by_interface (run [Create "f"; Open "f"]) /\
  exists s', write (run [Create "f"; Open "f"]) 1 (bytes 600 65) 600 = (s', Ret 600).
Proof.
  assert (Hs : reachable_by_interface (run [Create "f"; Open "f"])).
  { apply admissible_run_reachable; [apply by_interface_init|].
    cbn [admissible_run admissible]. split; [discriminate|]. split; [discriminate|exact I]. }
  split; [exact Hs|].
  assert (Ho : open_slot (run [Create "f"; Open "f"]) 1 = Some (mkSlot 8%nat 0 0 1))
    by (vm_compute; reflexivity).
  destruct (write_returns_along_interface _ 1 (bytes 600 65) 600 _ Hs ltac:(discriminate) Ho)
    as (s' & k & b & Hw & _).
  - apply Z.leb_le. vm_compute. reflexivity.
  - fresh_by_evaluation.
  - exists s'. rewrite Hw. f_equal. f_equal.
    assert (Hk : snd (write (run [Create "f"; Open "f"]) 1 (bytes 600 65) 600) = Ret 600)
      by (vm_compute; reflexivity).
    rewrite Hw in Hk. simpl in Hk. inversion Hk. reflexivity.
Defined.

(** ** File sizes and cursors *)

Lemma read_body_cursor (s s' : FileSystem) (index : nat) (d : list Z)
    (mem mem' : list val) (br : Z) (last : bool) (r : result (outcome * Z)) (M : Z) :
  (index < length (oft s))%nat ->
  (forall len, py_get d 0 = Some len -> len <= M) ->
  current_pos (slot_at s index) <= M ->
  read_body s index d mem br last = (s', mem', r) ->
  current_pos (slot_at s' index) <= M /\ length (oft s') = length (oft s).
Proof.
  intros Hidx HM Hcur H. unfold read_body in H.
  set (e := slot_at s index) in *.
  destruct (py_get d 0) as [len|] eqn:Hlen; [|inversion H; subst; auto].
  destruct (len <=? current_pos e) eqn:Hle; [inversion H; subst; auto|].
  apply Z.leb_gt in Hle. pose proof (HM len eq_refl) as HlenM.
  match type of H with
  | context [match ?c with Ret s1 => _ | Raise x => _ end] =>
      destruct c as [s1|x] eqn:Hl; [|inversion H; subst; auto]
  end.
  assert (A1 : current_pos (slot_at s1 index) = current_pos e /\
               length (oft s1) = length (oft s)).
  { destruct ((0 <? current_pos e / 512) && (br =? 0)); [|inversion Hl; subst; auto].
    destruct (load_block s index e d (current_pos e / 512)) as [[s1'|]|x] eqn:Hlb;
      [| inversion Hl; subst; auto | discriminate].
    inversion Hl; subst s1'. destruct (load_block_Some _ _ _ _ _ _ Hlb) as [b ->].
    rewrite slot_at_set_slot by exact Hidx. simpl. rewrite length_insert. auto. }
  destruct A1 as [Hc1 Hl1].
  assert (Hidx1 : (index < length (oft s1))%nat) by (rewrite Hl1; exact Hidx).
  set (e1 := slot_at s1 index) in *.
  destruct (py_get (obj (heap s1) (buffer e1)) (current_pos e mod 512)) as [v|];
    [|inversion H; subst; split; [fold e1; lia|exact Hl1]].
  destruct (py_set mem br v) as [m'|];
    [|inversion H; subst; split; [fold e1; lia|exact Hl1]].
  set (s2 := set_slot s1 index (with_pos e1 (current_pos e1 + 1))) in *.
  assert (He2 : slot_at s2 index = with_pos e1 (current_pos e1 + 1)).
  { unfold s2. apply slot_at_set_slot. exact Hidx1. }
  assert (Hl2 : length (oft s2) = length (oft s)).
  { unfold s2. simpl. rewrite length_insert. exact Hl1. }
  assert (A2 : current_pos (slot_at s2 index) <= M /\ length (oft s2) = length (oft s)).
  { rewrite He2. simpl. split; [lia|exact Hl2]. }
  destruct ((current_pos (with_pos e1 (current_pos e1 + 1)) mod 512 =? 0) && negb last);
    [|inversion H; subst; exact A2].
  destruct (current_pos (with_pos e1 (current_pos e1 + 1)) / 512 <? 3);
    [|inversion H; subst; exact A2].
  destruct (load_block s2 index (with_pos e1 (current_pos e1 + 1)) d
              (current_pos (with_pos e1 (current_pos e1 + 1)) / 512)) as [[s3|]|x] eqn:Hlb;
    [| inversion H; subst; exact A2 | inversion H; subst; exact A2].
  inversion H; subst s'. destruct (load_block_Some _ _ _ _ _ _ Hlb) as [b ->].
  rewrite slot_at_set_slot by (rewrite Hl2; exact Hidx).
  simpl. rewrite length_insert. split; [lia|exact Hl2].
Qed.

Lemma read_loop_cursor (n : nat) :
  forall (s s' : FileSystem) (index : nat) (d : list Z) (mem mem' : list val) (br : Z)
         (r : result Z) (M : Z),
  (index < length (oft s))%nat ->
  (forall len, py_get d 0 = Some len -> len <= M) ->
  current_pos (slot_at s index) <= M ->
  read_loop n s index d mem br = (s', mem', r) ->
  current_pos (slot_at s' index) <= M.
Proof.
  induction n as [|n IH]; intros s s' index d mem mem' br r M Hidx HM Hcur H; simpl in H.
  - inversion H; subst. exact Hcur.
  - destruct (read_body s index d mem br (Nat.eqb n 0)) as [[s1 m1] rb] eqn:Hb.
    destruct (read_body_cursor _ _ _ _ _ _ _ _ _ M Hidx HM Hcur Hb) as [Hc1 Hl1].
    destruct rb as [[[|] br1]|x]; try (inversion H; subst; exact Hc1).
    eapply IH; [|exact HM|exact Hc1|exact H]. rewrite Hl1. exact Hidx.
Qed.

Lemma seek_cursor (s s' : FileSystem) (index pos : Z) (r : result Z) (M : Z) :
  (forall e d len, open_slot s index = Some e ->
     get_descriptor s (descriptor_index e) = Some d -> py_get d 0 = Some len -> len <= M) ->
  seek s index pos = (s', r) ->
  s' = s \/
  (descriptors s' = descriptors s /\
   exists e', oft s' = <[Z.to_nat index := e']> (oft s) /\ 0 <= current_pos e' <= M).
Proof.
  intros HM H. unfold seek in H.
  destruct (open_slot s index) as [e|] eqn:Ho; [|inversion H; auto].
  destruct (open_slot_Some _ _ _ Ho) as (_ & Hlk & _).
  assert (Hidx : (Z.to_nat index < length (oft s))%nat) by (eapply lookup_lt_Some; eauto).
  destruct (get_descriptor s (descriptor_index e)) as [d|] eqn:Hd; [|inversion H; auto].
  destruct (py_get d 0) as [len|] eqn:Hlen; [|inversion H; auto].
  pose proof (HM e d len eq_refl Hd Hlen) as HlenM.
  destruct ((pos <? 0) || (len <? pos)) eqn:Hr; [inversion H; auto|].
  apply orb_false_iff in Hr. destruct Hr as [Hp0 Hp1].
  apply Z.ltb_ge in Hp0. apply Z.ltb_ge in Hp1.
  destruct (pos / 512 <? 3); [|inversion H; auto].
  destruct (load_block s (Z.to_nat index) e d (pos / 512)) as [[s1|]|x] eqn:Hlb;
    [| inversion H; auto | inversion H; auto].
  destruct (load_block_Some _ _ _ _ _ _ Hlb) as [b ->].
  inversion H; subst s'. right. split; [reflexivity|].
  eexists. split.
  - simpl. rewrite list_insert_insert_eq. reflexivity.
  - rewrite slot_at_set_slot by exact Hidx. simpl. lia.
Qed.

Lemma sizes_ok_init : sizes_ok init.
Proof.
  split.
  - intros di d len Hdi Hd Hl. destruct (Z.eq_dec di 0) as [->|Hne].
    + vm_compute in Hd. inversion Hd; subst d. vm_compute in Hl. inversion Hl. lia.
    + rewrite init_descriptors_free in Hd by lia. inversion Hd; subst d.
      vm_compute in Hl. inversion Hl. lia.
  - intros i e He.
    change (oft init) with [mkSlot 7%nat 0 0 0; closed_slot 65%nat; closed_slot 66%nat;
                            closed_slot 67%nat] in He.
    destruct i as [|[|[|[|i]]]]; simpl in He; inversion He; subst; simpl; lia.
Qed.

Lemma sizes_ok_rebind (s s' : FileSystem) (index : nat) (e' : slot) :
  sizes_ok s -> descriptors s' = descriptors s ->
  oft s' = <[index := e']> (oft s) -> -1 <= current_pos e' <= 1536 ->
  sizes_ok s'.
Proof.
  intros [Hd Ho] Hdesc Hoft He'. split.
  - intros di d len Hdi Hget. apply (Hd di d len Hdi).
    rewrite <- (get_descriptor_ext s s' di Hdesc). exact Hget.
  - intros i e He. rewrite Hoft in He.
    destruct (decide (i = index)) as [->|Hne].
    + destruct (decide (index < length (oft s))%nat) as [Hlt|Hge].
      * rewrite list_lookup_insert_eq in He by exact Hlt. inversion He; subst. exact He'.
      * rewrite list_insert_ge in He by lia. eapply Ho; eauto.
    + rewrite list_lookup_insert_ne in He by auto. eapply Ho; eauto.
Qed.

Lemma sizes_ok_descriptor (s s' : FileSystem) (di : Z) (d' : list Z) (len' : Z) :
  sizes_ok s -> oft s' = oft s ->
  (forall j, 0 <= j -> j <> di -> get_descriptor s' j = get_descriptor s j) ->
  get_descriptor s' di = Some d' -> py_get d' 0 = Some len' -> -1 <= len' <= 1536 ->
  sizes_ok s'.
Proof.
  intros [Hd Ho] Hoft Hother Hnew Hl' Hr. split.
  - intros j d len Hj Hget Hl. destruct (Z.eq_dec j di) as [->|Hne].
    + rewrite Hnew in Hget. inversion Hget; subst d. rewrite Hl' in Hl. inversion Hl. lia.
    + rewrite Hother in Hget by lia. eapply Hd; eauto.
  - rewrite Hoft. exact Ho.
Qed.

Lemma sizes_ok_step (s : FileSystem) (c : call) :
  reachable s -> fs_ok s -> directory_intact s -> admissible s c ->
  sizes_ok s -> sizes_ok (step s c).
Proof.
  intros Hreach Hok Hint Hadm Hsz.
  destruct (reachable_oft_ok s Hreach) as (_ & Hall & _).
  pose proof Hsz as [Hszd Hszo].
  destruct c as [|f|f|f|i|i m n|i m n|i p|]; simpl in Hadm; simpl.
  - apply sizes_ok_init.
  - destruct (create_outcome s f Hok Hint)
      as [Hc|(k & d0 & di & nb & v & s' & Hc & _ & _ & _ & Hdi & _ & _ & _ & _ &
              Hoft & _ & _ & _ & _ & Hnew & Hother)];
      rewrite Hc; simpl; [exact Hsz|].
    apply (sizes_ok_descriptor s s' di [0; nb; 0; 0] 0 Hsz Hoft Hother Hnew);
      [reflexivity|lia].
  - destruct (destroy_outcome s f Hok Hint Hadm)
      as [[_ Hc]|(k & di & d & s' & _ & _ & Hdi & _ & _ & Hc & Hoft & _ & _ & _ & _ &
                  Hnew & Hother)];
      rewrite Hc; simpl; [exact Hsz|].
    apply (sizes_ok_descriptor s s' di free_descriptor (-1) Hsz Hoft Hother Hnew);
      [reflexivity|lia].
  - destruct (open s f) as [s' r] eqn:Ho. simpl.
    destruct (open_detail _ _ _ _ Ho)
      as [->|(k & d & b & len & e & j & desc & b1 & _ & _ & _ & _ & _ & _ & ->)];
      [exact Hsz|].
    eapply (sizes_ok_rebind s _ k (mkSlot b 0 len d) Hsz); [reflexivity|reflexivity|].
    simpl. lia.
  - destruct (close s i) as [s' r] eqn:Hc. simpl.
    destruct (close_detail _ _ _ _ Hc)
      as [->|(e & d & cb & _ & _ & _ & _ & Hdesc & _ & _ & Hoft & _)]; [exact Hsz|].
    eapply (sizes_ok_rebind s s' _ _ Hsz Hdesc Hoft). simpl. lia.
  - destruct (read s i m n) as [[s' m'] r] eqn:Hr. simpl.
    destruct (read_loaded _ _ _ _ _ _ _ Hall Hr)
      as [->|(e & Ho & (_ & _ & Hdesc & _ & _ & b & p & Hp & Hoft & _))]; [exact Hsz|].
    eapply (sizes_ok_rebind s s' _ _ Hsz Hdesc Hoft). simpl. split; [lia|].
    destruct (open_slot_Some _ _ _ Ho) as (Hrange & Hlk & Hopen).
    assert (Hidx : (Z.to_nat i < length (oft s))%nat) by (eapply lookup_lt_Some; eauto).
    assert (Hcur : current_pos (slot_at s' (Z.to_nat i)) <= 1536).
    { unfold read in Hr. rewrite Ho in Hr.
      destruct (fs_ok_slot s (Z.to_nat i) e Hok ltac:(lia) Hlk Hopen)
        as (_ & _ & _ & _ & _ & _ & Hdi & d & Hd & _).
      rewrite Hd in Hr.
      eapply (read_loop_cursor _ s s' (Z.to_nat i) d m m' 0 r 1536 Hidx); [| |exact Hr].
      - intros len Hl.
        assert (Hdi0 : 0 <= descriptor_index e < 192) by lia.
        apply (Hszd (descriptor_index e) d len Hdi0 Hd Hl).
      - rewrite (slot_at_lookup _ _ _ Hlk). apply (Hszo _ _ Hlk). }
    assert (Hs' : slot_at s' (Z.to_nat i)
                  = mkSlot b p (file_size (slot_at s (Z.to_nat i)))
                           (descriptor_index (slot_at s (Z.to_nat i)))).
    { apply slot_at_lookup. rewrite Hoft. apply list_lookup_insert_eq. exact Hidx. }
    rewrite Hs' in Hcur. exact Hcur.
  - destruct Hadm as (Hi & Hlen & Hfresh).
    unfold write at 1. destruct (open_slot s i) as [e|] eqn:Ho; [|exact Hsz].
    destruct (write_outcome s i m n e Hok Hi Ho Hlen Hfresh)
      as (s' & k & b & Hw & Hk & _ & (_ & _ & _ & Hother & _) & Hoft & Hcur & _ & Hlenf & Hzero).
    unfold write in Hw. rewrite Ho in Hw.
    destruct (open_slot_Some _ _ _ Ho) as (Hrange & Hlk & Hopen).
    destruct (fs_ok_slot s (Z.to_nat i) e Hok ltac:(lia) Hlk Hopen)
      as (_ & _ & _ & _ & _ & Hp0 & Hdi & d & Hd & Hdok).
    rewrite Hd in Hw |- *. rewrite Hw. simpl.
    destruct (Z.eq_dec k 0) as [->|Hk0]; [rewrite (Hzero eq_refl); exact Hsz|].
    pose proof (Hszo _ _ Hlk) as Hpe.
    destruct Hdok as (Hdlen & _).
    destruct (four_fields d Hdlen) as (L & b1 & b2 & b3 & ->).
    assert (HL : descriptor_field s (descriptor_index e) 0 = Some L).
    { unfold descriptor_field. rewrite Hd. reflexivity. }
    pose proof (Hlenf ltac:(lia) L HL) as HL'.
    unfold descriptor_field in HL'.
    destruct (get_descriptor s' (descriptor_index e)) as [d'|] eqn:Hd'; [|discriminate].
    assert (Hdi0 : 0 <= descriptor_index e < 192) by lia.
    pose proof (Hszd (descriptor_index e) _ L Hdi0 Hd eq_refl) as HLr.
    split.
    + intros j dj len Hj Hget Hl. destruct (Z.eq_dec j (descriptor_index e)) as [->|Hne].
      * rewrite Hd' in Hget. inversion Hget; subst dj. rewrite HL' in Hl.
        inversion Hl. lia.
      * rewrite Hother in Hget by lia. eapply Hszd; eauto.
    + intros j ej Hej. rewrite Hoft in Hej.
      destruct (decide (j = Z.to_nat i)) as [->|Hne].
      * rewrite list_lookup_insert_eq in Hej by (eapply lookup_lt_Some; eauto).
        inversion Hej; subst ej. simpl. lia.
      * rewrite list_lookup_insert_ne in Hej by auto. eapply Hszo; eauto.
  - destruct (seek s i p) as [s' r] eqn:Hr. simpl.
    destruct (seek_cursor s s' i p r 1536) as [->|(Hdesc & e' & Hoft & He')];
      [|exact Hr|exact Hsz|].
    + intros e d len Ho Hd Hl.
      destruct (open_slot_Some _ _ _ Ho) as (Hrange & Hlk & Hopen).
      destruct (fs_ok_slot s (Z.to_nat i) e Hok ltac:(lia) Hlk Hopen)
        as (_ & _ & _ & _ & _ & _ & Hdi & _).
      assert (Hdi0 : 0 <= descriptor_index e < 192) by lia.
      apply (Hszd (descriptor_index e) d len Hdi0 Hd Hl).
    + eapply (sizes_ok_rebind s s' _ _ Hsz Hdesc Hoft). lia.
  - exact Hsz.
Qed.

Lemma sizes_ok_along_interface (s : FileSystem) :
  reachable_by_interface s -> sizes_ok s.
Proof.
  induction 1 as [|s c Hs IH Hadm]; [apply sizes_ok_init|].
  apply sizes_ok_step;
    [apply reachable_by_interface_reachable; exact Hs
    |apply reachable_by_interface_ok; exact Hs
    |apply directory_intact_along_interface; exact Hs|exact Hadm|exact IH].
Qed.

(** X14: sizes stay within three blocks.  In every state reached through
    the interface, every length that [list_directory] reports is between 0
    and 1536, and the cursor of every open handle is between 0 and 1536. *)
Theorem sizes_bounded_along_interface (s : FileSystem) :
  reachable_by_interface s ->
  (forall r name len, list_directory s = Ret r -> (name, len) ∈ r -> 0 <= len <= 1536) /\
  (forall index e, open_slot s index = Some e -> 0 <= current_pos e <= 1536).
Proof.
  intros Hs.
  pose proof (sizes_ok_along_interface s Hs) as [Hlen Hcur].
  pose proof (reachable_by_interface_ok s Hs) as (_ & _ & _ & _ & Hdir).
  pose proof (directory_intact_along_interface s Hs) as Hint.
  pose proof (names_ok_along_interface s Hs) as [Hdist _].
  split.
  - intros r name len Hr Hin.
    destruct (list_entries_spec s (obj (heap s) (directory s)) Hint) as (r' & Hr' & _ & Hmem);
      [|exact Hdist|].
    { intros k name' d Hk Hn.
      destruct (Hdir k name' d Hk Hn) as (_ & (desc & len' & b1 & Hd & Hl & _) & _). eauto. }
    unfold list_directory in Hr. rewrite Hr' in Hr. inversion Hr; subst r'.
    apply Hmem in Hin. destruct Hin as (Hn & k & d & desc & Hk & Hd & Hl).
    destruct (Hdir k name d Hk Hn) as (Hrange & (desc' & len' & b1 & Hd' & Hl' & Hused & _) & _).
    rewrite Hd in Hd'. inversion Hd'; subst desc'.
    rewrite Hl in Hl'. inversion Hl'; subst len'.
    assert (Hd192 : 0 <= d < 192) by lia.
    pose proof (Hlen d desc len Hd192 Hd Hl). lia.
  - intros index e Ho.
    destruct (open_slot_Some _ _ _ Ho) as (_ & Hlk & Hopen).
    pose proof (Hcur _ _ Hlk). lia.
Qed.

Lemma sizes_bounded_along_interface_witness :
  reachable_by_interface (run fill_file) /\
  0 <= current_pos (mkSlot 71%nat 1536 0 1) <= 1536.
Proof.
  assert (Hs : reachable_by_interface (run fill_file)).
  { apply admissible_run_reachable; [apply by_interface_init|].
    unfold fill_file. cbn [admissible_run admissible].
    split; [discriminate|]. split; [discriminate|].
    split; [|exact I]. split; [discriminate|]. split; [vm_compute; discriminate|].
    intros e Ho k Hk _. vm_compute in Ho. inversion Ho; subst e.
    assert (Hk12 : k = 1 \/ k = 2) by lia.
    destruct Hk12; subst k; vm_compute; reflexivity. }
  split; [exact Hs|].
  apply (proj2 (sizes_bounded_along_interface _ Hs) 1).
  vm_compute. reflexivity.
Defined.

(** ** One pass of the read loop *)

Lemma read_block_ext (s s' : FileSystem) (b : Z) :
  disk s' = disk s -> read_block s' b = read_block s b.
Proof. unfold read_block. intros ->. reflexivity. Qed.

Lemma with_buffer_self (e : slot) : with_buffer e (buffer e) = e.
Proof. destruct e; reflexivity. Qed.

(** A load of block [k], from a state that differs from [s] in the table
    only. *)
Lemma load_block_ready (s s1 : FileSystem) (index : nat) (e : slot) (d : list Z) (k : Z)
    (dflt : loc) :
  length d = 4%nat -> 0 <= k < 3 ->
  (forall j b, 1 <= j <= 3 -> py_get d j = Some b -> b <> 0 ->
     exists l, read_block s b = Ret l /\ length (obj (heap s) l) = 512%nat) ->
  disk s1 = disk s ->
  (load_block s1 index e d k = Ret None /\ py_get d (1 + k) = Some 0 /\
   block_buffer s d k dflt = dflt) \/
  (exists bn, py_get d (1 + k) = Some bn /\ bn <> 0 /\
     read_block s bn = Ret (block_buffer s d k dflt) /\
     length (obj (heap s) (block_buffer s d k dflt)) = 512%nat /\
     load_block s1 index e d k
       = Ret (Some (set_slot s1 index (with_buffer e (block_buffer s d k dflt))))).
Proof.
  intros Hlen Hk Hblocks Hdisk.
  destruct (py_get_Some_nonneg d (1 + k)) as [bn Hbn]; [lia|rewrite Hlen; lia|].
  unfold load_block, block_buffer. rewrite Hbn.
  destruct (bn =? 0) eqn:Hz.
  - apply Z.eqb_eq in Hz. subst bn. left. auto.
  - apply Z.eqb_neq in Hz. right.
    destruct (Hblocks (1 + k) bn ltac:(lia) Hbn Hz) as (l & Hl & Hl512).
    exists bn. rewrite (read_block_ext s s1 bn Hdisk), Hl. auto.
Qed.

Lemma read_pass (s : FileSystem) (index : nat) (d : list Z) (mem : list val)
    (br len : Z) (last : bool) :
  read_ready s index d -> py_get d 0 = Some len ->
  0 <= br < Z.of_nat (length mem) ->
  let e := slot_at s index in
  let p := current_pos e in
  (len <= p /\ read_body s index d mem br last = (s, mem, Ret (Stop, br))) \/
  (p < len /\
   exists s' v,
     obj (heap s) (pass_buffer s d p br (buffer e)) !! Z.to_nat (p mod 512) = Some v /\
     read_body s index d mem br last
       = (s', <[Z.to_nat br := v]> mem,
          Ret (if pass_stops d p last then Stop else Continue, br + 1)) /\
     heap s' = heap s /\ disk s' = disk s /\ descriptors s' = descriptors s /\
     bitmap s' = bitmap s /\ directory s' = directory s /\
     oft s' = <[index := mkSlot (next_buffer s d p last (pass_buffer s d p br (buffer e)))
                                (p + 1) (file_size e) (descriptor_index e)]> (oft s) /\
     read_ready s' index d).
Proof.
  intros (Hidx & Hdlen & Hmax & Hblocks & Hbuf & Hp0') Hlen Hbr e p.
  assert (Hp0 : 0 <= p) by exact Hp0'. clear Hp0'.
  change (length (obj (heap s) (buffer e)) = 512%nat) in Hbuf.
  unfold read_body. fold e. rewrite Hlen. fold p.
  destruct (len <=? p) eqn:Hle.
  { apply Z.leb_le in Hle. left. auto. }
  apply Z.leb_gt in Hle. right. split; [exact Hle|].
  pose proof (Hmax len Hlen) as Hlen1536.
  assert (Hk : 0 <= p / 512 < 3).
  { split; [apply Z.div_pos; lia|apply Z.div_lt_upper_bound; lia]. }
  assert (Hmod : 0 <= p mod 512 < 512) by (apply Z.mod_pos_bound; lia).
  set (b1 := pass_buffer s d p br (buffer e)).
  (* the load before the first byte *)
  assert (Hfirst : exists s1,
            (if (0 <? p / 512) && (br =? 0)
             then match load_block s index e d (p / 512) with
                  | Raise x => Raise x
                  | Ret (Some s') => Ret s'
                  | Ret None => Ret s
                  end
             else Ret s) = Ret s1 /\
            heap s1 = heap s /\ disk s1 = disk s /\ descriptors s1 = descriptors s /\
            bitmap s1 = bitmap s /\ directory s1 = directory s /\
            oft s1 = <[index := with_buffer e b1]> (oft s) /\
            length (obj (heap s) b1) = 512%nat).
  { unfold b1, pass_buffer. destruct ((0 <? p / 512) && (br =? 0)).
    - destruct (load_block_ready s s index e d (p / 512) (buffer e) Hdlen Hk Hblocks eq_refl)
        as [(Hl & _ & Hb)|(bn & _ & _ & _ & H512 & Hl)]; rewrite Hl.
      + exists s. rewrite Hb. repeat (split; [reflexivity|]).
        split; [|exact Hbuf]. rewrite with_buffer_self. symmetry.
        apply slot_at_insert_self. exact Hidx.
      + eexists. split; [reflexivity|]. simpl. auto 10.
    - exists s. repeat (split; [reflexivity|]).
      split; [|exact Hbuf]. rewrite with_buffer_self. symmetry.
      apply slot_at_insert_self. exact Hidx. }
  destruct Hfirst as (s1 & E1 & Hh1 & Hd1 & Hds1 & Hbm1 & Hdir1 & Ho1 & Hb1).
  rewrite E1.
  assert (He1 : slot_at s1 index = with_buffer e b1).
  { apply slot_at_lookup. rewrite Ho1. apply list_lookup_insert_eq. exact Hidx. }
  rewrite He1. cbn [buffer with_buffer current_pos file_size descriptor_index with_pos].
  rewrite Hh1.
  destruct (lookup_lt_is_Some_2 (obj (heap s) b1) (Z.to_nat (p mod 512)) ltac:(lia)) as [v Hv].
  rewrite py_get_nonneg by lia. rewrite Hv.
  rewrite py_set_nonneg by lia.
  fold p.
  set (e2 := mkSlot b1 (p + 1) (file_size e) (descriptor_index e)).
  change (with_pos (with_buffer e b1) (p + 1)) with e2.
  set (s2 := set_slot s1 index e2).
  assert (Ho2 : oft s2 = <[index := e2]> (oft s)).
  { unfold s2. simpl. rewrite Ho1. apply list_insert_insert_eq. }
  exists (if ((p + 1) mod 512 =? 0) && negb last && ((p + 1) / 512 <? 3)
          then (if match py_get d (1 + (p + 1) / 512) with
                   | Some bn => bn =? 0 | None => false end
                then s2
                else set_slot s2 index (with_buffer e2 (block_buffer s d ((p + 1) / 512) b1)))
          else s2), v.
  split; [reflexivity|].
  unfold pass_stops, next_buffer.
  assert (Hready2 : forall b2, length (obj (heap s) b2) = 512%nat ->
            forall s', heap s' = heap s -> disk s' = disk s ->
            oft s' = <[index := mkSlot b2 (p + 1) (file_size e) (descriptor_index e)]> (oft s) ->
            read_ready s' index d).
  { intros b2 Hb2 s' Hh' Hd' Ho'.
    assert (Hs' : slot_at s' index = mkSlot b2 (p + 1) (file_size e) (descriptor_index e)).
    { apply slot_at_lookup. rewrite Ho'. apply list_lookup_insert_eq. exact Hidx. }
    split; [rewrite Ho', length_insert; exact Hidx|]. split; [exact Hdlen|].
    split; [exact Hmax|]. split.
    - intros k b Hkr Hget Hb. destruct (Hblocks k b Hkr Hget Hb) as (l & Hl & H512).
      exists l. rewrite (read_block_ext s s' b Hd'), Hh'. auto.
    - rewrite Hs', Hh'. simpl. split; [exact Hb2|lia]. }
  destruct (((p + 1) mod 512 =? 0) && negb last) eqn:Hcross; simpl.
  - destruct ((p + 1) / 512 <? 3) eqn:Hnext; simpl.
    + apply Z.ltb_lt in Hnext.
      assert (Hk2 : 0 <= (p + 1) / 512 < 3) by (split; [apply Z.div_pos; lia|exact Hnext]).
      destruct (load_block_ready s s2 index e2 d ((p + 1) / 512) b1 Hdlen Hk2 Hblocks Hd1)
        as [(Hl & Hz & Hb)|(bn & Hbn & Hnz & _ & H512 & Hl)]; rewrite Hl.
      * rewrite Hz. simpl. split; [reflexivity|].
        split; [exact Hh1|]. split; [exact Hd1|]. split; [exact Hds1|]. split; [exact Hbm1|]. split; [exact Hdir1|].
        rewrite Hb. split; [exact Ho2|].
        apply (Hready2 b1 Hb1 s2 Hh1 Hd1 Ho2).
      * rewrite Hbn. replace (bn =? 0) with false by (symmetry; apply Z.eqb_neq; exact Hnz).
        split; [reflexivity|]. simpl.
        split; [exact Hh1|]. split; [exact Hd1|]. split; [exact Hds1|]. split; [exact Hbm1|]. split; [exact Hdir1|].
        assert (Ho3 : <[index := with_buffer e2 (block_buffer s d ((p + 1) / 512) b1)]>
                        (<[index := e2]> (oft s1))
                      = <[index := mkSlot (block_buffer s d ((p + 1) / 512) b1) (p + 1)
                                          (file_size e) (descriptor_index e)]> (oft s)).
        { rewrite list_insert_insert_eq, Ho1, list_insert_insert_eq. reflexivity. }
        split; [exact Ho3|].
        apply (Hready2 _ H512); [exact Hh1|exact Hd1|exact Ho3].
    + split; [reflexivity|]. split; [exact Hh1|]. split; [exact Hd1|]. split; [exact Hds1|]. split; [exact Hbm1|]. split; [exact Hdir1|].
      split; [exact Ho2|].
      apply (Hready2 b1 Hb1 s2 Hh1 Hd1 Ho2).
  - split; [reflexivity|]. split; [exact Hh1|]. split; [exact Hd1|]. split; [exact Hds1|]. split; [exact Hbm1|]. split; [exact Hdir1|].
    split; [exact Ho2|].
    apply (Hready2 b1 Hb1 s2 Hh1 Hd1 Ho2).
Qed.

(** ** What a read returns *)



Lemma read_ready_along_interface (s : FileSystem) (index : Z) (e : slot) :
  reachable_by_interface s -> index <> 0 -> open_slot s index = Some e ->
  exists d len, get_descriptor s (descriptor_index e) = Some d /\
                py_get d 0 = Some len /\ read_ready s (Z.to_nat index) d.
Proof.
  intros Hs Hi Ho.
  pose proof (reachable_by_interface_ok s Hs) as Hok.
  pose proof (sizes_ok_along_interface s Hs) as [Hszd _].
  destruct (open_slot_Some _ _ _ Ho) as (Hr & Hlk & Hopen).
  destruct (fs_ok_slot s (Z.to_nat index) e Hok ltac:(lia) Hlk Hopen)
    as (_ & Hlt & _ & _ & Hbuf & Hp0 & Hdi & d & Hd & Hdlen & Hrange & _).
  destruct Hok as (_ & (Dblk & _) & _).
  destruct (four_fields d Hdlen) as (len & b1 & b2 & b3 & Hdeq).
  exists d, len. split; [exact Hd|]. split; [rewrite Hdeq; reflexivity|].
  unfold read_ready. rewrite (slot_at_lookup _ _ _ Hlk).
  split; [exact Hlt|]. split; [exact Hdlen|]. split.
  { intros len' Hl'. assert (Hdi0 : 0 <= descriptor_index e < 192) by lia.
    pose proof (Hszd (descriptor_index e) d len' Hdi0 Hd Hl'). lia. }
  split; [|split; [exact Hbuf|exact Hp0]].
  intros k b Hk Hget Hb.
  destruct (Hrange k b Hk Hget) as [->|Hb8]; [contradiction|].
  destruct (Dblk (Z.to_nat b) ltac:(lia)) as (l & Hl & _ & Hl512).
  exists l. split; [|exact Hl512]. unfold read_block.
  replace ((b <? 0) || (63 <? b)) with false
    by (symmetry; apply orb_false_iff; split; apply Z.ltb_ge; lia).
  rewrite py_get_nonneg by lia. rewrite Hl. reflexivity.
Qed.



(** ** What a write leaves in the buffer *)

Lemma py_set_nonneg_inv {A} (l l' : list A) (i : Z) (x : A) :
  0 <= i -> py_set l i x = Some l' ->
  l' = <[Z.to_nat i := x]> l /\ i < Z.of_nat (length l).
Proof.
  intros H0 H. unfold py_set in H.
  destruct (py_index l i) as [k|] eqn:Hk; [|discriminate].
  destruct (py_index_nonneg_inv l i k H0 Hk) as [-> Hlt].
  inversion H. auto.
Qed.

Lemma same_block_succ (p : Z) :
  0 <= p -> p + 1 < 512 * (p / 512 + 1) ->
  (p + 1) / 512 = p / 512 /\ (p + 1) mod 512 = p mod 512 + 1.
Proof.
  intros Hp Hlt.
  pose proof (Z.div_mod p 512 ltac:(lia)) as Hdm.
  pose proof (Z.mod_pos_bound p 512 ltac:(lia)) as Hm.
  assert (Hq : (p + 1) / 512 = p / 512).
  { symmetry. apply (Z.div_unique (p + 1) 512 (p / 512) (p mod 512 + 1)); lia. }
  split; [exact Hq|].
  symmetry. apply (Z.mod_unique (p + 1) 512 (p / 512) (p mod 512 + 1)); lia.
Qed.

Lemma flush_heap (s s' : FileSystem) (index : nat) (di cbi : Z) :
  flush s index di cbi = (s', Ret tt) ->
  (length (heap s) <= length (heap s'))%nat /\
  forall l, (l < length (heap s))%nat -> obj (heap s') l = obj (heap s) l.
Proof.
  unfold flush. intros H.
  destruct (descriptor_field s di (1 + cbi)) as [bn|]; [|discriminate].
  destruct (bn =? 0).
  - inversion H; subst. auto.
  - destruct (write_block_effect _ _ _ _ H) as (_ & _ & Hh & _).
    rewrite Hh. split; [rewrite length_app; lia|].
    intros l Hl. apply obj_app_l. exact Hl.
Qed.

(** A pass that takes no new block stores its byte in the buffer the slot
    has and leaves the block fields of the descriptor alone. *)
Lemma write_pass_content (s s' : FileSystem) (index : nat) (di x : Z) (last : bool) :
  (index < length (oft s))%nat ->
  (buffer (slot_at s index) < length (heap s))%nat ->
  0 <= current_pos (slot_at s index) ->
  grows (current_pos (slot_at s index)) = false ->
  write_body s index di (Some x) last = (s', Ret Continue) ->
  (index < length (oft s'))%nat /\
  (length (heap s) <= length (heap s'))%nat /\
  buffer (slot_at s' index) = buffer (slot_at s index) /\
  current_pos (slot_at s' index) = current_pos (slot_at s index) + 1 /\
  obj (heap s') (buffer (slot_at s index))
    = <[Z.to_nat (current_pos (slot_at s index) mod 512) := VInt x]>
        (obj (heap s) (buffer (slot_at s index))) /\
  (Z.to_nat (current_pos (slot_at s index) mod 512)
     < length (obj (heap s) (buffer (slot_at s index))))%nat /\
  (forall k, 1 <= k -> descriptor_field s' di k = descriptor_field s di k).
Proof.
  intros Hidx Hbuf Hp0 Hgr H.
  destruct (write_body_continue_inv _ _ _ _ _ _ H)
    as (Hc & s1 & x' & data & s4 & Hg & Hbyte & Hdata & Hf & Hu).
  cbv zeta in Hc, Hg, Hdata, Hf.
  unfold grows in Hgr. rewrite Hgr in Hg. subst s1.
  inversion Hbyte; subst x'. clear Hbyte.
  set (e := slot_at s index) in *.
  pose proof (Z.mod_pos_bound (current_pos e) 512 ltac:(lia)) as Hmod.
  assert (Hm0 : 0 <= current_pos e mod 512) by lia.
  destruct (py_set_nonneg_inv _ _ _ _ Hm0 Hdata) as [-> Hoff].
  set (data := <[Z.to_nat (current_pos e mod 512) := VInt x]> (obj (heap s) (buffer e))) in *.
  set (s3 := set_slot (with_heap s (set_obj (heap s) (buffer e) data)) index
               (with_pos e (current_pos e + 1))) in *.
  assert (A3 : heap s3 = <[buffer e := data]> (heap s) /\
               oft s3 = <[index := with_pos e (current_pos e + 1)]> (oft s) /\
               descriptors s3 = descriptors s) by (unfold s3; simpl; auto).
  destruct A3 as (Hh3 & Ho3 & Hd3).
  assert (A4 : (length (heap s3) <= length (heap s4))%nat /\
               (forall l, (l < length (heap s3))%nat -> obj (heap s4) l = obj (heap s3) l) /\
               oft s4 = oft s3 /\ descriptors s4 = descriptors s3).
  { destruct ((current_pos e mod 512 =? 511) || last).
    - destruct (flush_heap _ _ _ _ _ Hf) as [Hl Ho].
      destruct (flush_frame _ _ _ _ _ _ Hf) as (Fd & _ & _ & Fo). auto.
    - subst s4. auto. }
  destruct A4 as (Hl4 & Hobj4 & Ho4 & Hd4).
  destruct (update_length_effect _ _ _ _ Hu) as (Hh5 & _ & _ & _ & Ho5 & _).
  assert (Hl3 : length (heap s3) = length (heap s)) by (rewrite Hh3; apply length_insert).
  assert (Hs' : slot_at s' index = with_pos e (current_pos e + 1)).
  { apply slot_at_lookup. rewrite Ho5, Ho4, Ho3. apply list_lookup_insert_eq. exact Hidx. }
  split; [rewrite Ho5, Ho4, Ho3, length_insert; exact Hidx|].
  split; [rewrite Hh5; lia|].
  split; [rewrite Hs'; reflexivity|]. split; [rewrite Hs'; reflexivity|].
  split.
  { rewrite Hh5, Hobj4 by lia. rewrite Hh3. apply obj_insert_eq. exact Hbuf. }
  split; [lia|].
  intros k Hk.
  assert (E4 : descriptor_field s4 di k = descriptor_field s di k).
  { apply descriptor_field_ext. congruence. }
  rewrite <- E4. unfold update_length in Hu.
  destruct (descriptor_field s4 di 0) as [L|]; [|discriminate].
  destruct (L <? current_pos (slot_at s4 index)).
  - eapply (descriptor_field_set_ne s4 s' di 0 k); [lia|lia|lia|exact Hu].
  - inversion Hu. reflexivity.
Qed.

Lemma write_loop_content (n : nat) :
  forall (s s' : FileSystem) (index : nat) (di : Z) (src : list Z) (w : Z),
  (index < length (oft s))%nat ->
  (buffer (slot_at s index) < length (heap s))%nat ->
  0 <= current_pos (slot_at s index) ->
  ((0 < n)%nat ->
   (current_pos (slot_at s index) mod 512 <> 0 \/ current_pos (slot_at s index) / 512 = 0) /\
   current_pos (slot_at s index) + Z.of_nat n
     <= 512 * (current_pos (slot_at s index) / 512 + 1)) ->
  write_loop n s index di src w = (s', Ret (w + Z.of_nat n)) ->
  buffer (slot_at s' index) = buffer (slot_at s index) /\
  (forall j : nat, (j < Z.to_nat (current_pos (slot_at s index) mod 512))%nat ->
     obj (heap s') (buffer (slot_at s index)) !! j
       = obj (heap s) (buffer (slot_at s index)) !! j) /\
  (forall (i : nat) x, (i < n)%nat -> src !! i = Some x ->
     obj (heap s') (buffer (slot_at s index))
       !! (Z.to_nat (current_pos (slot_at s index) mod 512) + i)%nat = Some (VInt x)) /\
  (forall k, 1 <= k -> descriptor_field s' di k = descriptor_field s di k).
Proof.
  induction n as [|n IH]; intros s s' index di src w Hidx Hbuf Hp0 Hblock H.
  - simpl in H. inversion H; subst s'. split; [reflexivity|]. split; [auto|].
    split; [intros i x Hi; lia|auto].
  - cbn [write_loop] in H.
    destruct (write_body s index di (head src) (Nat.eqb n 0)) as [s1 [[|]|ex]] eqn:Hbody;
      [inversion H; lia| |discriminate].
    destruct (Hblock ltac:(lia)) as [Hstart Hend].
    set (p := current_pos (slot_at s index)) in *.
    set (buf := buffer (slot_at s index)) in *.
    pose proof (Z.mod_pos_bound p 512 ltac:(lia)) as Hmod.
    assert (Hgr : grows p = false).
    { unfold grows. destruct Hstart as [Hm|Hq].
      - replace (p mod 512 =? 0) with false by (symmetry; apply Z.eqb_neq; exact Hm).
        reflexivity.
      - rewrite Hq. rewrite andb_false_r. reflexivity. }
    destruct (head src) as [x0|] eqn:Hhead.
    2: { destruct (write_body_continue_inv _ _ _ _ _ _ Hbody)
           as (_ & ? & ? & ? & ? & _ & Hb & _). discriminate. }
    destruct (write_pass_content s s1 index di x0 (Nat.eqb n 0) Hidx Hbuf Hp0 Hgr Hbody)
      as (Hidx1 & Hl1 & Hb1 & Hp1 & Hobj1 & Hoff & Hf1).
    fold p in Hp1, Hobj1, Hoff. fold buf in Hb1, Hobj1, Hoff.
    replace (w + Z.of_nat (S n)) with (w + 1 + Z.of_nat n) in H by lia.
    destruct (IH s1 s' index di (tail src) (w + 1) Hidx1) as (Hb' & Hlow & Hbytes & Hf');
      [rewrite Hb1; fold buf; lia|rewrite Hp1; lia| |exact H|].
    { intros Hn. rewrite Hp1.
      destruct (same_block_succ p Hp0 ltac:(lia)) as [Hq Hm].
      rewrite Hq, Hm. split; [left; lia|lia]. }
    rewrite Hb1 in Hb', Hlow, Hbytes. rewrite Hp1 in Hlow, Hbytes. fold buf in Hb', Hlow, Hbytes.
    assert (Hsrc : src = x0 :: tail src) by (destruct src; inversion Hhead; reflexivity).
    split; [exact Hb'|]. split; [|split].
    + intros j Hj.
      destruct n as [|n'].
      * simpl in H. inversion H; subst s'. rewrite Hobj1.
        apply list_lookup_insert_ne. lia.
      * destruct (same_block_succ p Hp0 ltac:(lia)) as [_ Hm].
        rewrite Hlow by (rewrite Hm; lia). rewrite Hobj1.
        apply list_lookup_insert_ne. lia.
    + intros i x Hi Hx. rewrite Hsrc in Hx. destruct i as [|i].
      * simpl in Hx. inversion Hx; subst x. rewrite Nat.add_0_r.
        destruct n as [|n'].
        -- simpl in H. inversion H; subst s'. rewrite Hobj1.
           apply list_lookup_insert_eq. exact Hoff.
        -- destruct (same_block_succ p Hp0 ltac:(lia)) as [_ Hm].
           rewrite Hlow by (rewrite Hm; lia). rewrite Hobj1.
           apply list_lookup_insert_eq. exact Hoff.
      * simpl in Hx.
        destruct (same_block_succ p Hp0 ltac:(lia)) as [_ Hm].
        pose proof (Hbytes i x ltac:(lia) Hx) as Hget. rewrite Hm in Hget.
        replace (Z.to_nat (p mod 512) + S i)%nat
          with (Z.to_nat (p mod 512 + 1) + i)%nat by lia.
        exact Hget.
    + intros k Hk. rewrite Hf' by exact Hk. apply Hf1. exact Hk.
Qed.

(** ** Reading inside one block *)

Lemma read_loop_in_block (r : nat) :
  forall (s : FileSystem) (index : nat) (d : list Z) (mem : list val) (br len : Z)
         (B : list val),
  read_ready s index d -> py_get d 0 = Some len ->
  0 <= br -> br + Z.of_nat r <= Z.of_nat (length mem) ->
  current_pos (slot_at s index) + Z.of_nat r <= len ->
  ((0 < r)%nat ->
   current_pos (slot_at s index) + Z.of_nat r
     <= 512 * (current_pos (slot_at s index) / 512 + 1)) ->
  obj (heap s) (pass_buffer s d (current_pos (slot_at s index)) br
                  (buffer (slot_at s index))) = B ->
  exists s' mem',
    read_loop r s index d mem br = (s', mem', Ret (br + Z.of_nat r)) /\
    length mem' = length mem /\
    (forall i : nat, (i < r)%nat ->
       mem' !! (Z.to_nat br + i)%nat
         = B !! (Z.to_nat (current_pos (slot_at s index) mod 512) + i)%nat) /\
    (forall k : nat, (k < Z.to_nat br \/ Z.to_nat br + r <= k)%nat -> mem' !! k = mem !! k).
Proof.
  induction r as [|r IH]; intros s index d mem br len B Hready Hlen Hbr Hroom Hend Hblock HB.
  - exists s, mem. simpl. rewrite Z.add_0_r. split; [reflexivity|]. split; [reflexivity|].
    split; [intros i Hi; lia|auto].
  - pose proof Hready as (Hidx & _ & _ & _ & _ & Hp0).
    cbn [read_loop].
    destruct (read_pass s index d mem br len (Nat.eqb r 0) Hready Hlen ltac:(lia))
      as [(Hle & _)|(Hlt & s1 & v & Hv & Hbody & Hh1 & Hd1 & _ & _ & _ & Ho1 & Hready1)];
      [lia|].
    set (p := current_pos (slot_at s index)) in *.
    set (b1 := pass_buffer s d p br (buffer (slot_at s index))) in *.
    pose proof (Hblock ltac:(lia)) as Hin.
    assert (Hcross : ((p + 1) mod 512 =? 0) && negb (Nat.eqb r 0) = false).
    { destruct r as [|r']; [simpl; apply andb_false_r|].
      destruct (same_block_succ p Hp0 ltac:(lia)) as [_ Hm].
      pose proof (Z.mod_pos_bound p 512 ltac:(lia)).
      replace ((p + 1) mod 512 =? 0) with false by (symmetry; apply Z.eqb_neq; lia).
      reflexivity. }
    assert (Hstop : pass_stops d p (Nat.eqb r 0) = false).
    { unfold pass_stops. rewrite Hcross. reflexivity. }
    assert (Hnext : next_buffer s d p (Nat.eqb r 0) b1 = b1).
    { unfold next_buffer. rewrite Hcross. reflexivity. }
    rewrite Hstop in Hbody. rewrite Hnext in Ho1. rewrite Hbody.
    assert (Hs1 : slot_at s1 index
                  = mkSlot b1 (p + 1) (file_size (slot_at s index))
                           (descriptor_index (slot_at s index))).
    { apply slot_at_lookup. rewrite Ho1. apply list_lookup_insert_eq. exact Hidx. }
    destruct (IH s1 index d (<[Z.to_nat br := v]> mem) (br + 1) len B Hready1 Hlen)
      as (s' & mem' & Hloop & Hlen' & Hbytes & Hother).
    + lia.
    + rewrite length_insert. lia.
    + rewrite Hs1. simpl. lia.
    + intros Hr. rewrite Hs1. cbn [current_pos].
      destruct (same_block_succ p Hp0 ltac:(lia)) as [Hq _]. rewrite Hq. lia.
    + rewrite Hs1. cbn [current_pos buffer]. unfold pass_buffer.
      replace (br + 1 =? 0) with false by (symmetry; apply Z.eqb_neq; lia).
      rewrite andb_false_r. rewrite Hh1. exact HB.
    + rewrite Hs1 in Hbytes. cbn [current_pos] in Hbytes.
      exists s', mem'.
      replace (br + Z.of_nat (S r)) with (br + 1 + Z.of_nat r) by lia.
      split; [exact Hloop|]. split; [rewrite Hlen'; apply length_insert|]. split.
      * intros i Hi. destruct i as [|i].
        -- rewrite !Nat.add_0_r. rewrite Hother by lia.
           rewrite list_lookup_insert_eq by lia. rewrite <- HB. symmetry. exact Hv.
        -- destruct r as [|r']; [lia|].
           destruct (same_block_succ p Hp0 ltac:(lia)) as [_ Hm].
           pose proof (Z.mod_pos_bound p 512 ltac:(lia)).
           pose proof (Hbytes i ltac:(lia)) as Hget. rewrite Hm in Hget.
           replace (Z.to_nat br + S i)%nat with (Z.to_nat (br + 1) + i)%nat by lia.
           replace (Z.to_nat (p mod 512) + S i)%nat
             with (Z.to_nat (p mod 512 + 1) + i)%nat by lia.
           exact Hget.
      * intros k Hk. rewrite Hother by lia. apply list_lookup_insert_ne. lia.
Qed.

(** ** Writing and reading back *)

Lemma block_of_range (c N q : Z) :
  0 <= c -> 0 < N -> c / 512 = q -> (c + N - 1) / 512 = q ->
  512 * q <= c /\ c + N <= 512 * (q + 1).
Proof.
  intros Hc HN Hq1 Hq2.
  pose proof (Z.div_mod c 512 ltac:(lia)) as H1.
  pose proof (Z.mod_pos_bound c 512 ltac:(lia)) as H2.
  pose proof (Z.div_mod (c + N - 1) 512 ltac:(lia)) as H3.
  pose proof (Z.mod_pos_bound (c + N - 1) 512 ltac:(lia)) as H4.
  rewrite Hq1 in H1. rewrite Hq2 in H3. lia.
Qed.

(** A write that stays inside one allocated block, and does not start on
    the first byte of the second or third block: all bytes are stored in
    the slot's buffer, which stays the same list, and the block on disk
    holds a list with the same content. *)
Lemma write_in_block (s : FileSystem) (index : Z) (src : list Z) (e : slot) (b : Z) :
  fs_ok s -> index <> 0 -> open_slot s index = Some e ->
  (0 < length src)%nat ->
  current_pos e / 512 = (current_pos e + Z.of_nat (length src) - 1) / 512 ->
  (current_pos e mod 512 <> 0 \/ current_pos e / 512 = 0) ->
  descriptor_field s (descriptor_index e) (1 + current_pos e / 512) = Some b -> b <> 0 ->
  exists (s1 : FileSystem) (l : loc) (d1 : list Z) (L : Z),
    write s index src (Z.of_nat (length src)) = (s1, Ret (Z.of_nat (length src))) /\
    write_fresh s index (Z.of_nat (length src)) /\
    fs_ok s1 /\
    (Z.to_nat index < length (oft s))%nat /\
    oft s1 = <[Z.to_nat index := mkSlot (buffer e) (current_pos e + Z.of_nat (length src))
                                        (file_size e) (descriptor_index e)]> (oft s) /\
    open_slot s1 index = Some (mkSlot (buffer e) (current_pos e + Z.of_nat (length src))
                                      (file_size e) (descriptor_index e)) /\
    (forall (i : nat) x, (i < length src)%nat -> src !! i = Some x ->
       obj (heap s1) (buffer e) !! (Z.to_nat (current_pos e mod 512) + i)%nat
         = Some (VInt x)) /\
    read_block s1 b = Ret l /\ obj (heap s1) l = obj (heap s1) (buffer e) /\
    get_descriptor s1 (descriptor_index e) = Some d1 /\
    py_get d1 0 = Some (Z.max L (current_pos e + Z.of_nat (length src))) /\
    py_get d1 (1 + current_pos e / 512) = Some b /\
    8 <= b <= 63 /\ 0 <= current_pos e /\ current_pos e / 512 < 3 /\
    current_pos e + Z.of_nat (length src) <= 512 * (current_pos e / 512 + 1) /\
    directory s1 = directory s /\
    obj (heap s1) (directory s1) = obj (heap s) (directory s).
Proof.
  intros Hok Hi Ho Hn Hblock Hstart Hb Hbnz.
  set (c := current_pos e) in *. set (n := length src) in *.
  set (N := Z.of_nat n) in *. set (di := descriptor_index e) in *.
  set (idx := Z.to_nat index) in *. set (q := c / 512) in *.
  destruct (open_slot_Some _ _ _ Ho) as (Hr & Hlk & Hopen). fold idx in Hlk.
  pose proof (slot_at_lookup _ _ _ Hlk) as Hslot.
  assert (Hidx1 : (1 <= idx)%nat) by (unfold idx; lia).
  destruct (fs_ok_slot s idx e Hok Hidx1 Hlk Hopen)
    as (_ & Hlt & _ & _ & Hbuf512 & Hc0 & Hdi & d & Hd & Hdlen & Hdrange & _).
  fold c in Hc0. fold di in Hdi, Hd.
  assert (Hbd : py_get d (1 + q) = Some b).
  { unfold descriptor_field in Hb. rewrite Hd in Hb. exact Hb. }
  assert (Hq0 : 0 <= q) by (apply Z.div_pos; lia).
  assert (Hq3 : q < 3).
  { rewrite py_get_nonneg in Hbd by lia. apply lookup_lt_Some in Hbd. lia. }
  assert (Hbr : 8 <= b <= 63).
  { destruct (Hdrange (1 + q) b ltac:(lia) Hbd); [contradiction|assumption]. }
  assert (HN : 0 < N) by (unfold N; lia).
  destruct (block_of_range c N q Hc0 HN eq_refl (eq_sym Hblock)) as [Hlo Hhi].
  pose proof (Z.div_mod c 512 ltac:(lia)) as Hcdm. fold q in Hcdm.
  pose proof (Z.mod_pos_bound c 512 ltac:(lia)) as Hcm.
  (* the write *)
  assert (Hfresh : write_fresh s index N).
  { intros e' Ho' k Hk Hrange. rewrite Ho in Ho'. inversion Ho'; subst e'.
    fold c in Hrange. exfalso. destruct Hstart as [Hm|Hz]; unfold q in *; lia. }
  assert (Hsrc : N <= Z.of_nat (length src)) by (unfold N, n; lia).
  destruct (write_outcome s index src N e Hok Hi Ho Hsrc Hfresh)
    as (s1 & k & bw & Hw & Hk & Hok1 & Hframe & Hoft1 & _ & Hreason & Hlenf & _).
  fold c di idx in Hoft1, Hreason, Hlenf.
  assert (HkN : k = N).
  { destruct (Z_lt_le_dec k N) as [Hlt'|Hge]; [exfalso|lia].
    destruct (Hreason Hlt') as [H1536|(Hm & Hpos & _)]; [lia|].
    pose proof (Z.div_mod (c + k) 512 ltac:(lia)) as Hdm. rewrite Hm in Hdm.
    assert ((c + k) / 512 = q) by lia.
    destruct Hstart as [Hm'|Hz]; unfold q in *; lia. }
  subst k.
  assert (Hloop : write_loop n s idx di src 0 = (s1, Ret (0 + Z.of_nat n))).
  { unfold write in Hw. rewrite Ho in Hw. fold di in Hw. rewrite Hd in Hw.
    unfold N in Hw. rewrite Nat2Z.id in Hw. exact Hw. }
  assert (Hvalid : (buffer e < length (heap s))%nat).
  { eapply obj_length_valid. exact Hbuf512. }
  destruct (write_loop_content n s s1 idx di src 0) as (Hbuf1 & _ & Hbytes & Hfields);
    [exact Hlt|rewrite Hslot; exact Hvalid|rewrite Hslot; exact Hc0| |exact Hloop|].
  { intros _. rewrite Hslot. fold c q. split; [exact Hstart|]. fold N. lia. }
  rewrite Hslot in Hbuf1, Hbytes. fold c in Hbytes.
  set (e1 := mkSlot bw (c + N) (file_size e) di) in *.
  assert (Hslot1 : slot_at s1 idx = e1).
  { apply slot_at_lookup. rewrite Hoft1. apply list_lookup_insert_eq. exact Hlt. }
  rewrite Hslot1 in Hbuf1. cbn [buffer e1] in Hbuf1. subst bw.
  set (B1 := obj (heap s1) (buffer e)) in *.
  assert (Hb1 : descriptor_field s1 di (1 + q) = Some b).
  { rewrite Hfields by lia. exact Hb. }
  (* the block on disk holds the buffer *)
  assert (Hflushed : flushed s1 idx di).
  { apply (write_flushes s s1 index src N N e Ho Hc0 Hw HN). }
  assert (Hcontent : block_content s1 b = Some B1).
  { pose proof (Hflushed b) as Hf. rewrite Hslot1 in Hf. cbn [current_pos e1] in Hf.
    replace ((c + N - 1) / 512) with q in Hf by exact Hblock.
    unfold buffer_of in Hf. rewrite Hslot1 in Hf. apply Hf; assumption. }
  assert (Hread1 : exists l, read_block s1 b = Ret l /\ obj (heap s1) l = B1).
  { unfold block_content in Hcontent. unfold read_block.
    replace ((b <? 0) || (63 <? b)) with false
      by (symmetry; apply orb_false_iff; split; apply Z.ltb_ge; lia).
    destruct (py_get (disk s1) b) as [[j|l]|]; try discriminate.
    exists l. inversion Hcontent. auto. }
  destruct Hread1 as (l & Hrb1 & Hl).
  (* the descriptor after the write *)
  assert (Hlk1 : oft s1 !! idx = Some e1).
  { rewrite Hoft1. apply list_lookup_insert_eq. exact Hlt. }
  assert (Hopen1 : current_pos e1 <> -1) by (simpl; lia).
  destruct (fs_ok_slot s1 idx e1 Hok1 Hidx1 Hlk1 Hopen1)
    as (_ & Hlt1 & _ & _ & _ & _ & _ & d1 & Hd1 & Hd1len & _).
  cbn [descriptor_index e1] in Hd1.
  destruct (four_fields d Hdlen) as (L & x1 & x2 & x3 & Hdeq).
  assert (HL : descriptor_field s di 0 = Some L).
  { unfold descriptor_field. rewrite Hd, Hdeq. reflexivity. }
  pose proof (Hlenf HN L HL) as Hlen1.
  assert (Hlen1' : py_get d1 0 = Some (Z.max L (c + N))).
  { unfold descriptor_field in Hlen1. rewrite Hd1 in Hlen1. exact Hlen1. }
  assert (Hb1' : py_get d1 (1 + q) = Some b).
  { unfold descriptor_field in Hb1. rewrite Hd1 in Hb1. exact Hb1. }
  assert (Ho1 : open_slot s1 index = Some e1).
  { unfold open_slot.
    replace ((index <? 0) || (3 <? index)) with false
      by (symmetry; apply orb_false_iff; split; apply Z.ltb_ge; lia).
    fold idx. rewrite Hlk1.
    replace (current_pos e1 =? -1) with false by (symmetry; apply Z.eqb_neq; exact Hopen1).
    reflexivity. }
  destruct Hframe as (_ & Hdir1 & _ & _ & Hdirobj & _).
  exists s1, l, d1, L.
  split; [exact Hw|]. split; [exact Hfresh|]. split; [exact Hok1|].
  split; [exact Hlt|]. split; [exact Hoft1|]. split; [exact Ho1|].
  split; [exact Hbytes|]. split; [exact Hrb1|]. split; [exact Hl|].
  split; [exact Hd1|]. split; [exact Hlen1'|]. split; [exact Hb1'|].
  split; [exact Hbr|]. split; [exact Hc0|]. split; [exact Hq3|].
  split; [exact Hhi|]. split; [exact Hdir1|exact Hdirobj].
Qed.

(** X16: what is written can be read back.  In every state reached
    through the interface, take an open handle 1..3 whose cursor [c] lies
    in an allocated block and not on the first byte of the second or third
    block, and a non-empty source list that fits between [c] and the end of
    that block.  Then [write] stores all its bytes, [seek] back to [c]
    succeeds, and a [read] of as many bytes returns exactly the bytes
    written, in order, in the first cells of the caller's list (whose other
    cells are untouched). *)
Theorem write_seek_read_round_trip (s : FileSystem) (index : Z) (src : list Z)
    (mem : list val) (e : slot) :
  reachable_by_interface s -> index <> 0 -> open_slot s index = Some e ->
  (0 < length src)%nat ->
  current_pos e / 512 = (current_pos e + Z.of_nat (length src) - 1) / 512 ->
  (current_pos e mod 512 <> 0 \/ current_pos e / 512 = 0) ->
  (exists b, descriptor_field s (descriptor_index e) (1 + current_pos e / 512) = Some b /\
             b <> 0) ->
  (length src <= length mem)%nat ->
  exists s1 s2 s3,
    write s index src (Z.of_nat (length src)) = (s1, Ret (Z.of_nat (length src))) /\
    seek s1 index (current_pos e) = (s2, Ret (current_pos e)) /\
    read s2 index mem (Z.of_nat (length src))
      = (s3, (VInt <$> src) ++ drop (length src) mem, Ret (Z.of_nat (length src))).
Proof.
  intros Hs Hi Ho Hn Hblock Hstart (b & Hb & Hbnz) Hroom.
  pose proof (reachable_by_interface_ok s Hs) as Hok.
  destruct (write_in_block s index src e b Hok Hi Ho Hn Hblock Hstart Hb Hbnz)
    as (s1 & l & d1 & L & Hw & Hfresh & Hok1 & Hlt & Hoft1 & Ho1 & Hbytes & Hrb1 & Hl &
        Hd1 & Hlen1' & Hb1' & Hbr & Hc0 & Hq3 & Hhi & _).
  set (c := current_pos e) in *. set (n := length src) in *.
  set (N := Z.of_nat n) in *. set (di := descriptor_index e) in *.
  set (idx := Z.to_nat index) in *. set (q := c / 512) in *.
  set (e1 := mkSlot (buffer e) (c + N) (file_size e) di) in *.
  set (B1 := obj (heap s1) (buffer e)) in *.
  destruct (open_slot_Some _ _ _ Ho) as (Hr & _ & _).
  assert (HN : 0 < N) by (unfold N; lia).
  assert (Hsrc : N <= Z.of_nat (length src)) by (unfold N, n; lia).
  assert (Hlt1 : (idx < length (oft s1))%nat) by (rewrite Hoft1, length_insert; exact Hlt).
  (* the seek *)
  set (e2 := mkSlot l c (file_size e) di).
  set (s2 := set_slot (set_slot s1 idx (with_buffer e1 l)) idx
               (with_pos (slot_at (set_slot s1 idx (with_buffer e1 l)) idx) c)).
  assert (Hseek : seek s1 index c = (s2, Ret c)).
  { unfold seek. rewrite Ho1. cbn [descriptor_index e1]. rewrite Hd1, Hlen1'.
    replace ((c <? 0) || (Z.max L (c + N) <? c)) with false
      by (symmetry; apply orb_false_iff; split; apply Z.ltb_ge; lia).
    fold q. replace (q <? 3) with true by (symmetry; apply Z.ltb_lt; exact Hq3).
    unfold load_block. rewrite Hb1'.
    replace (b =? 0) with false by (symmetry; apply Z.eqb_neq; exact Hbnz).
    rewrite Hrb1. fold idx. reflexivity. }
  assert (Hoft2 : oft s2 = <[idx := e2]> (oft s1)).
  { unfold s2. rewrite slot_at_set_slot by exact Hlt1.
    simpl. rewrite list_insert_insert_eq. reflexivity. }
  assert (Hh2 : heap s2 = heap s1) by reflexivity.
  assert (Hdisk2 : disk s2 = disk s1) by reflexivity.
  assert (Hlk2 : oft s2 !! idx = Some e2).
  { rewrite Hoft2. apply list_lookup_insert_eq. exact Hlt1. }
  assert (Ho2 : open_slot s2 index = Some e2).
  { unfold open_slot.
    replace ((index <? 0) || (3 <? index)) with false
      by (symmetry; apply orb_false_iff; split; apply Z.ltb_ge; lia).
    fold idx. rewrite Hlk2.
    replace (current_pos e2 =? -1) with false by (symmetry; apply Z.eqb_neq; simpl; lia).
    reflexivity. }
  (* the state after write and seek is reached through the interface *)
  assert (Hs2 : reachable_by_interface s2).
  { assert (E1 : s1 = step s (Write index src N)) by (simpl; rewrite Hw; reflexivity).
    assert (E2 : s2 = step s1 (Seek index c)) by (simpl; rewrite Hseek; reflexivity).
    rewrite E2. apply by_interface_step; [|exact Hi].
    rewrite E1. apply by_interface_step; [exact Hs|].
    simpl. auto. }
  destruct (read_ready_along_interface s2 index e2 Hs2 Hi Ho2)
    as (d2 & len2 & Hd2 & Hlen2 & Hready2).
  cbn [descriptor_index e2] in Hd2.
  assert (Hd21 : d2 = d1).
  { change (get_descriptor s2 di) with (get_descriptor s1 di) in Hd2.
    rewrite Hd1 in Hd2. inversion Hd2. reflexivity. }
  subst d2. rewrite Hlen1' in Hlen2. inversion Hlen2; subst len2. clear Hlen2.
  pose proof (slot_at_lookup _ _ _ Hlk2) as Hslot2.
  fold idx in Hready2.
  (* the read *)
  destruct (read_loop_in_block n s2 idx d1 mem 0 (Z.max L (c + N)) B1 Hready2 Hlen1')
    as (s3 & mem' & Hrl & Hlen' & Hget & Hother).
  - lia.
  - lia.
  - rewrite Hslot2. cbn [current_pos e2]. fold N. lia.
  - intros _. rewrite Hslot2. cbn [current_pos e2]. fold q N. lia.
  - rewrite Hslot2. cbn [current_pos buffer e2]. unfold pass_buffer, block_buffer.
    fold q. rewrite Hb1'.
    replace (b =? 0) with false by (symmetry; apply Z.eqb_neq; exact Hbnz).
    rewrite (read_block_ext s1 s2 b Hdisk2), Hrb1.
    destruct ((0 <? q) && (0 =? 0)); rewrite Hh2; exact Hl.
  - rewrite Hslot2 in Hget. cbn [current_pos e2] in Hget.
    exists s1, s2, s3. split; [exact Hw|]. split; [exact Hseek|].
    unfold read. rewrite Ho2. cbn [descriptor_index e2].
    change (get_descriptor s2 di) with (get_descriptor s1 di). rewrite Hd1.
    fold idx. unfold N at 1. rewrite Nat2Z.id. rewrite Hrl.
    f_equal. f_equal. apply list_eq. intros j.
    destruct (decide (j < n)%nat) as [Hj|Hj].
    + rewrite lookup_app_l by (rewrite length_fmap; exact Hj).
      pose proof (Hget j Hj) as Hgj. simpl in Hgj. rewrite Hgj.
      rewrite list_lookup_fmap.
      destruct (lookup_lt_is_Some_2 src j Hj) as [x Hx]. rewrite Hx. simpl.
      apply (Hbytes j x Hj Hx).
    + rewrite lookup_app_r by (rewrite length_fmap; fold n; lia).
      rewrite length_fmap. fold n. rewrite lookup_drop.
      replace (n + (j - n))%nat with j by lia.
      apply Hother. right. simpl. lia.
Qed.

Lemma write_seek_read_round_trip_witness :
  reachable_by_interface (run [Create "f"; Open "f"]) /\
  exists s1 s2 s3,
    write (run [Create "f"; Open "f"]) 1 [72; 105] 2 = (s1, Ret 2) /\
    seek s1 1 0 = (s2, Ret 0) /\
    read s2 1 (zeros 4) 2 = (s3, [VInt 72; VInt 105; VInt 0; VInt 0], Ret 2).
Proof.
  assert (Hs : reachable_by_interface (run [Create "f"; Open "f"])).
  { apply admissible_run_reachable; [apply by_interface_init|].
    cbn [admissible_run admissible]. split; [discriminate|]. split; [discriminate|exact I]. }
  split; [exact Hs|].
  assert (Ho : open_slot (run [Create "f"; Open "f"]) 1 = Some (mkSlot 8%nat 0 0 1))
    by (vm_compute; reflexivity).
  apply (write_seek_read_round_trip _ 1 [72; 105] (zeros 4) _ Hs ltac:(discriminate) Ho).
  - simpl. lia.
  - reflexivity.
  - right. reflexivity.
  - exists 8. split; [vm_compute; reflexivity|discriminate].
  - simpl. lia.
Defined.

(** ** open: every outcome *)

Lemma read_block_in_pool (s : FileSystem) (b : Z) :
  fs_ok s -> 8 <= b <= 63 ->
  exists l, read_block s b = Ret l /\ disk s !! Z.to_nat b = Some (Obj l) /\ data_obj s l.
Proof.
  intros (Hshape & (Hpool & _) & _) Hb.
  destruct Hshape as (_ & Hdisk & _).
  destruct (Hpool (Z.to_nat b) ltac:(lia)) as (l & Hl & Hdata).
  exists l. split; [|split; assumption].
  unfold read_block.
  replace ((b <? 0) || (63 <? b)) with false
    by (symmetry; apply orb_false_iff; split; apply Z.ltb_ge; lia).
  rewrite py_get_nonneg by lia. rewrite Hl. reflexivity.
Qed.

Lemma scan_oft_all_open (o : list slot) (idxs : list nat) :
  scan_oft o idxs = None ->
  forall j e, j ∈ idxs -> o !! j = Some e -> current_pos e <> -1.
Proof.
  induction idxs as [|i rest IH]; intros H j e Hj He; [inversion Hj|].
  simpl in H. apply elem_of_cons in Hj. destruct Hj as [->|Hj].
  - rewrite He in H. destruct (current_pos e =? -1) eqn:Hp; [discriminate|].
    apply Z.eqb_neq. exact Hp.
  - destruct (o !! i) as [e'|].
    + destruct (current_pos e' =? -1); [discriminate|]. eapply IH; eauto.
    + eapply IH; eauto.
Qed.

(** [open] from a consistent state with an intact directory, for a name
    that is not empty: it hands out a slot with every step taken, or it is
    refused for one of three reasons and changes nothing. *)
Lemma open_outcome (s : FileSystem) (f : string) :
  fs_ok s -> directory_intact s -> f <> "" ->
  (exists (h k : nat) (d len b1 : Z) (desc : list Z) (b : loc),
     open s f = (set_slot s h (mkSlot b 0 len d), Ret (Z.of_nat h)) /\
     (1 <= h <= 3)%nat /\
     dir_find f (obj (heap s) (directory s)) 0 = Ret (Some (k, d)) /\
     obj (heap s) (directory s) !! k = Some (VEntry f d) /\
     already_open s d = false /\
     scan_oft (oft s) [1; 2; 3]%nat = Some h /\
     get_descriptor s d = Some desc /\ py_get desc 0 = Some len /\
     py_get desc 1 = Some b1 /\ 8 <= b1 <= 63 /\
     read_block s b1 = Ret b /\ disk s !! Z.to_nat b1 = Some (Obj b) /\ data_obj s b) \/
  (open s f = (s, Ret (-1)) /\
   ((forall k d, obj (heap s) (directory s) !! k <> Some (VEntry f d)) \/
    (exists k d, obj (heap s) (directory s) !! k = Some (VEntry f d) /\
                 already_open s d = true) \/
    scan_oft (oft s) [1; 2; 3]%nat = None)).
Proof.
  intros Hok Hint Hf.
  pose proof Hok as (_ & _ & _ & _ & Hdir).
  unfold open.
  destruct (dir_find_intact f _ Hint 0%nat) as [[[k d]|] Hfind]; rewrite Hfind.
  - destruct (dir_find_Some _ _ _ _ _ Hfind) as [_ Hk].
    replace (k - 0)%nat with k in Hk by lia.
    destruct (Hdir k f d Hk Hf) as (Hd & (desc & len & b1 & Hdesc & Hlen & _ & Hb1 & Hb1r) & _).
    replace (d =? -1) with false by (symmetry; apply Z.eqb_neq; lia).
    destruct (already_open s d) eqn:Ha.
    { right. split; [reflexivity|]. right. left. exists k, d. auto. }
    destruct (scan_oft (oft s) [1; 2; 3]%nat) as [h|] eqn:Hscan.
    2:{ right. split; [reflexivity|]. right. right. reflexivity. }
    destruct (read_block_in_pool s b1 Hok Hb1r) as (b & Hrb & Hdb & Hdata).
    rewrite Hdesc, Hb1, Hrb, Hlen.
    left. exists h, k, d, len, b1, desc, b.
    split; [reflexivity|].
    split.
    { destruct (scan_oft_first _ _ _ Hscan) as (pre & post & e & Hsplit & _).
      assert (Hin : h ∈ [1; 2; 3]%nat) by (rewrite Hsplit; apply elem_of_app; right; apply elem_of_cons; left; reflexivity).
      repeat (apply elem_of_cons in Hin; destruct Hin as [->|Hin]; [lia|]).
      inversion Hin. }
    auto 12.
  - right. split; [reflexivity|]. left. intros k d Hk.
    exact (dir_find_None _ _ _ _ _ Hfind Hk).
Qed.

(** X17: every outcome of [open].  In every state reached through the
    interface, [open] of a non-empty name raises nothing.  It returns a
    handle in 1..3 when the name is in the directory, its file is not open
    and one of the slots 1..3 is closed; the slot then has cursor 0, the
    length recorded in the file's descriptor, and as its buffer the very
    list stored at the file's first block (not a copy).  In all other cases
    it returns -1 and changes nothing: the name is not in the directory, or
    the file is open already, or slots 1, 2 and 3 are all open. *)
Theorem open_outcome_along_interface (s : FileSystem) (f : string) :
  reachable_by_interface s -> f <> "" ->
  (exists (s' : FileSystem) (h : Z) (k : nat) (d len b1 : Z) (desc : list Z) (b : loc),
     open s f = (s', Ret h) /\ 1 <= h <= 3 /\
     obj (heap s) (directory s) !! k = Some (VEntry f d) /\
     already_open s d = false /\
     get_descriptor s d = Some desc /\ py_get desc 0 = Some len /\
     py_get desc 1 = Some b1 /\ py_get (disk s) b1 = Some (Obj b) /\
     open_slot s h = None /\
     open_slot s' h = Some (mkSlot b 0 len d) /\
     (forall j, j <> h -> open_slot s' j = open_slot s j)) \/
  (open s f = (s, Ret (-1)) /\
   ((forall k d, obj (heap s) (directory s) !! k <> Some (VEntry f d)) \/
    (exists k d, obj (heap s) (directory s) !! k = Some (VEntry f d) /\
                 already_open s d = true) \/
    (forall i, 1 <= i <= 3 -> exists e, open_slot s i = Some e))).
Proof.
  intros Hs Hf.
  pose proof (reachable_by_interface_ok s Hs) as Hok.
  pose proof (directory_intact_along_interface s Hs) as Hint.
  pose proof Hok as ((Hlen4 & _) & _).
  destruct (open_outcome s f Hok Hint Hf)
    as [(h & k & d & len & b1 & desc & b & Ho & Hh & _ & Hk & Ha & Hscan & Hdesc & Hlen &
         Hb1 & Hb1r & _ & Hdb & _)|(Ho & Hwhy)].
  - left. exists (set_slot s h (mkSlot b 0 len d)), (Z.of_nat h), k, d, len, b1, desc, b.
    split; [exact Ho|]. split; [lia|]. split; [exact Hk|]. split; [exact Ha|].
    split; [exact Hdesc|]. split; [exact Hlen|]. split; [exact Hb1|].
    split; [rewrite py_get_nonneg by lia; exact Hdb|].
    destruct (scan_oft_first _ _ _ Hscan) as (_ & _ & e & _ & He & Hclosed & _).
    assert (Hrange : (Z.of_nat h <? 0) || (3 <? Z.of_nat h) = false)
      by (apply orb_false_iff; split; apply Z.ltb_ge; lia).
    split.
    { unfold open_slot. rewrite Hrange, Nat2Z.id, He, Hclosed. reflexivity. }
    split.
    { unfold open_slot. rewrite Hrange, Nat2Z.id. simpl.
      rewrite list_lookup_insert_eq by lia. reflexivity. }
    intros j Hj. unfold open_slot.
    destruct ((j <? 0) || (3 <? j)) eqn:Hjr; [reflexivity|].
    apply orb_false_iff in Hjr. destruct Hjr as [Hj0 Hj3].
    apply Z.ltb_ge in Hj0. apply Z.ltb_ge in Hj3.
    simpl. rewrite list_lookup_insert_ne by lia. reflexivity.
  - right. split; [exact Ho|].
    destruct Hwhy as [Hno|[Hopen|Hfull]]; [left; exact Hno|right; left; exact Hopen|].
    right. right. intros i Hi.
    destruct (lookup_lt_is_Some_2 (oft s) (Z.to_nat i) ltac:(lia)) as [e He].
    exists e. unfold open_slot.
    replace ((i <? 0) || (3 <? i)) with false
      by (symmetry; apply orb_false_iff; split; apply Z.ltb_ge; lia).
    rewrite He.
    assert (Hopen : current_pos e <> -1).
    { apply (scan_oft_all_open _ _ Hfull (Z.to_nat i) e); [|exact He].
      assert (Hcases : Z.to_nat i = 1%nat \/ Z.to_nat i = 2%nat \/ Z.to_nat i = 3%nat) by lia.
      destruct Hcases as [H1 | [H1 | H1]]; rewrite H1; repeat constructor. }
    replace (current_pos e =? -1) with false by (symmetry; apply Z.eqb_neq; exact Hopen).
    reflexivity.
Qed.

Lemma open_outcome_along_interface_witness :
  reachable_by_interface (run [Create "f"]) /\
  exists s', open (run [Create "f"]) "f" = (s', Ret 1).
Proof.
  assert (Hs : reachable_by_interface (run [Create "f"])).
  { apply admissible_run_reachable; [apply by_interface_init|].
    cbn [admissible_run admissible]. split; [discriminate|exact I]. }
  split; [exact Hs|].
  destruct (open_outcome_along_interface _ "f" Hs ltac:(discriminate))
    as [(s' & h & k & d & len & b1 & desc & b & Ho & _)|(Ho & _)].
  - exists s'. rewrite Ho. f_equal.
    assert (Hh : snd (open (run [Create "f"]) "f") = Ret 1) by (vm_compute; reflexivity).
    rewrite Ho in Hh. exact Hh.
  - exfalso.
    assert (Hh : snd (open (run [Create "f"]) "f") = Ret 1) by (vm_compute; reflexivity).
    rewrite Ho in Hh. discriminate.
Defined.

(** ** Closing and opening again *)

(** [close] of an open file handle below the three-block ceiling, step by
    step: the buffer is stored (the list itself) at the block of the
    cursor when there is one, and the slot is closed with a new zero
    buffer. *)
Lemma close_outcome (s : FileSystem) (index : Z) (e : slot) :
  fs_ok s -> index <> 0 -> open_slot s index = Some e -> current_pos e < 1536 ->
  exists (s' : FileSystem) (d : list Z) (cb : Z),
    close s index = (s', Ret 0) /\
    get_descriptor s (descriptor_index e) = Some d /\
    py_get d (1 + current_pos e / 512) = Some cb /\
    (cb = 0 \/ 8 <= cb <= 63) /\
    heap s' = heap s ++ [zeros 512] /\
    descriptors s' = descriptors s /\ directory s' = directory s /\
    bitmap s' = bitmap s /\
    oft s' = <[Z.to_nat index := closed_slot (length (heap s))]> (oft s) /\
    disk s' = (if cb =? 0 then disk s else <[Z.to_nat cb := Obj (buffer e)]> (disk s)).
Proof.
  intros Hok Hi Ho Hp.
  destruct (open_slot_Some _ _ _ Ho) as (Hr & Hlk & Hopen).
  assert (Hidx1 : (1 <= Z.to_nat index)%nat) by lia.
  destruct (fs_ok_slot s (Z.to_nat index) e Hok Hidx1 Hlk Hopen)
    as (_ & Hlt & _ & _ & _ & Hp0 & _ & d & Hd & Hlen & Hrange & _).
  pose proof Hok as ((_ & Hdisk & _) & _).
  assert (Hk : 0 <= current_pos e / 512 < 3).
  { split; [apply Z.div_pos; lia|apply Z.div_lt_upper_bound; lia]. }
  destruct (py_get_Some_nonneg d (1 + current_pos e / 512)) as [cb Hcb];
    [lia|rewrite Hlen; lia|].
  assert (Hsel : (if current_pos e / 512 =? 0 then py_get d 1
                  else py_get d (1 + current_pos e / 512)) = Some cb).
  { destruct (current_pos e / 512 =? 0) eqn:Hz; [|exact Hcb].
    apply Z.eqb_eq in Hz. rewrite Hz in Hcb. exact Hcb. }
  assert (Hk1 : 1 <= 1 + current_pos e / 512 <= 3) by lia.
  pose proof (Hrange _ _ Hk1 Hcb) as Hcbr.
  unfold close. rewrite Ho, Hd. cbv zeta. rewrite Hsel.
  destruct (cb =? 0) eqn:Hz.
  - exists (set_slot (with_heap s (heap s ++ [zeros 512])) (Z.to_nat index)
                     (closed_slot (length (heap s)))), d, cb.
    rewrite Hz. simpl. auto 12.
  - apply Z.eqb_neq in Hz.
    assert (Hcbr' : 8 <= cb <= 63) by lia.
    unfold disk_setitem. rewrite py_set_nonneg by lia.
    exists (set_slot (with_heap (with_disk s (<[Z.to_nat cb := Obj (buffer e)]> (disk s)))
                                (heap s ++ [zeros 512])) (Z.to_nat index)
                     (closed_slot (length (heap s)))), d, cb.
    replace (cb =? 0) with false by (symmetry; apply Z.eqb_neq; exact Hz).
    simpl. auto 12.
Qed.

(** X18: what is written survives closing and opening again.  In every
    state reached through the interface, take a handle 1..3 open at cursor
    0 on a file that the directory lists under a name, and a source list
    of 1 to 512 bytes.  Then [write] stores all the bytes, [close] returns
    0, [open] of the name returns a handle in 1..3, and a [read] of as many
    bytes through that handle returns exactly the bytes written, in order,
    in the first cells of the caller's list (whose other cells are
    untouched). *)
Theorem write_close_open_read (s : FileSystem) (index : Z) (f : string) (src : list Z)
    (mem : list val) (e : slot) (k : nat) :
  reachable_by_interface s -> index <> 0 -> open_slot s index = Some e ->
  current_pos e = 0 ->
  obj (heap s) (directory s) !! k = Some (VEntry f (descriptor_index e)) -> f <> "" ->
  (0 < length src <= 512)%nat -> (length src <= length mem)%nat ->
  exists s1 s2 s3 s4 h,
    write s index src (Z.of_nat (length src)) = (s1, Ret (Z.of_nat (length src))) /\
    close s1 index = (s2, Ret 0) /\
    open s2 f = (s3, Ret h) /\ 1 <= h <= 3 /\
    read s3 h mem (Z.of_nat (length src))
      = (s4, (VInt <$> src) ++ drop (length src) mem, Ret (Z.of_nat (length src))).
Proof.
  intros Hs Hi Ho Hc Hk Hf Hn Hroom.
  destruct e as [eb ep efs di]. cbn [current_pos] in Hc. subst ep.
  cbn [descriptor_index] in Hk.
  set (n := length src) in *. set (N := Z.of_nat n) in *.
  set (idx := Z.to_nat index) in *.
  pose proof (reachable_by_interface_ok s Hs) as Hok.
  pose proof (names_ok_along_interface s Hs) as [Hnames _].
  destruct (open_slot_Some _ _ _ Ho) as (Hr & Hlk & _). fold idx in Hlk.
  assert (HN : 0 < N <= 512) by (unfold N; lia).
  (* the file's first block *)
  pose proof Hok as (_ & _ & _ & _ & Hdirok).
  destruct (Hdirok k f di Hk Hf) as (_ & (desc & len0 & b1 & Hdesc & _ & _ & Hb1 & Hb1r) & _).
  assert (Hfield : descriptor_field s di (1 + 0 / 512) = Some b1).
  { unfold descriptor_field. rewrite Hdesc. exact Hb1. }
  (* the write *)
  destruct (write_in_block s index src (mkSlot eb 0 efs di) b1 Hok Hi Ho)
    as (s1 & l & d1 & L & Hw & Hfresh & Hok1 & Hlt & Hoft1 & Ho1 & Hbytes & Hrb1 & Hl &
        Hd1 & Hlen1 & Hb11 & _ & _ & _ & _ & Hdir1 & Hdirobj1).
  { lia. }
  { cbn [current_pos]. fold n N. symmetry. apply Z.div_small. lia. }
  { right. reflexivity. }
  { exact Hfield. }
  { lia. }
  cbn [current_pos descriptor_index buffer file_size] in *. fold n N idx in Hw, Hoft1, Ho1, Hlen1.
  change (1 + 0 / 512) with 1 in Hb11.
  change (Z.to_nat (0 mod 512)) with 0%nat in Hbytes.
  set (e1 := mkSlot eb (0 + N) efs di) in *.
  set (B1 := obj (heap s1) eb) in *.
  assert (Hs1 : reachable_by_interface s1).
  { assert (E1 : s1 = step s (Write index src N)) by (simpl; rewrite Hw; reflexivity).
    rewrite E1. apply by_interface_step; [exact Hs|].
    simpl. split; [exact Hi|]. split; [unfold N, n; lia|exact Hfresh]. }
  assert (Hlk1 : oft s1 !! idx = Some e1).
  { rewrite Hoft1. apply list_lookup_insert_eq. exact Hlt. }
  assert (Hidx1 : (1 <= idx)%nat) by (unfold idx; lia).
  assert (Hopen1 : current_pos e1 <> -1) by (simpl; lia).
  destruct (fs_ok_slot s1 idx e1 Hok1 Hidx1 Hlk1 Hopen1)
    as ((_ & _ & Hvdir1) & Hlt1 & _ & _ & HB512 & _).
  cbn [buffer e1] in HB512. fold B1 in HB512.
  destruct (read_block_Ret _ _ _ Hrb1) as [_ Hdl].
  assert (Hvl : (l < length (heap s1))%nat).
  { eapply obj_length_valid. rewrite Hl. exact HB512. }
  assert (Hveb : (eb < length (heap s1))%nat).
  { eapply obj_length_valid. exact HB512. }
  (* the close *)
  destruct (close_outcome s1 index e1 Hok1 Hi Ho1)
    as (s2 & d1' & cb & Hcl & Hd1' & _ & Hcbr & Hh2 & Hds2 & Hdir2 & _ & Hoft2 & Hdisk2).
  { simpl. lia. }
  cbn [descriptor_index buffer e1] in Hd1', Hdisk2. fold idx in Hoft2.
  assert (Hs2 : reachable_by_interface s2).
  { assert (E2 : s2 = step s1 (Close index)) by (simpl; rewrite Hcl; reflexivity).
    rewrite E2. apply by_interface_step; [exact Hs1|exact Hi]. }
  pose proof (reachable_by_interface_ok s2 Hs2) as Hok2.
  pose proof (directory_intact_along_interface s2 Hs2) as Hint2.
  assert (Hdirobj2 : obj (heap s2) (directory s2) = obj (heap s) (directory s)).
  { rewrite Hh2, Hdir2. rewrite obj_app_l by exact Hvdir1. exact Hdirobj1. }
  assert (Hblock2 : exists l2, disk s2 !! Z.to_nat b1 = Some (Obj l2) /\
                               obj (heap s2) l2 = B1).
  { rewrite Hdisk2, Hh2. destruct (cb =? 0) eqn:Hz.
    - exists l. split; [exact Hdl|]. rewrite obj_app_l by exact Hvl. exact Hl.
    - destruct (decide (cb = b1)) as [->|Hne].
      + exists eb. split.
        * apply list_lookup_insert_eq. eapply lookup_lt_Some. exact Hdl.
        * rewrite obj_app_l by exact Hveb. reflexivity.
      + exists l. split.
        * rewrite list_lookup_insert_ne; [exact Hdl|].
          apply Z.eqb_neq in Hz. lia.
        * rewrite obj_app_l by exact Hvl. exact Hl. }
  destruct Hblock2 as (l2 & Hdl2 & Hl2).
  assert (Hclosed2 : oft s2 !! idx = Some (closed_slot (length (heap s1)))).
  { rewrite Hoft2. apply list_lookup_insert_eq. exact Hlt1. }
  (* the open *)
  destruct (open_outcome s2 f Hok2 Hint2 Hf)
    as [(h & k' & d' & len' & b1' & desc' & b' & Hop & Hh & _ & Hk' & _ & _ & Hdesc' &
         Hlen' & Hb1' & _ & _ & Hdb' & _)|(_ & Hwhy)].
  2:{ exfalso. destruct Hwhy as [Hno|[(k' & d' & Hk' & Ha)|Hfull]].
      - apply (Hno k di). rewrite Hdirobj2. exact Hk.
      - rewrite Hdirobj2 in Hk'.
        assert (k' = k) by (eapply Hnames; eauto). subst k'.
        rewrite Hk in Hk'. inversion Hk'; subst d'.
        unfold already_open in Ha. apply existsb_exists in Ha.
        destruct Ha as (e' & Hin & Hon).
        apply list_elem_of_In in Hin. apply list_elem_of_lookup in Hin.
        destruct Hin as [j Hj]. apply lookup_take_Some in Hj. destruct Hj as [Hj _].
        destruct (decide (j = idx)) as [->|Hne].
        + rewrite Hclosed2 in Hj. inversion Hj; subst e'.
          unfold is_open_on in Hon. simpl in Hon. rewrite andb_false_r in Hon. discriminate.
        + rewrite Hoft2 in Hj. rewrite list_lookup_insert_ne in Hj by congruence.
          pose proof (reachable_oft_ok s1 (reachable_by_interface_reachable s1 Hs1))
            as (_ & _ & Huniq).
          apply Hne. apply (Huniq j idx di).
          * eapply is_open_on_key; eauto.
          * eapply is_open_on_key; [exact Hlk1|].
            unfold is_open_on. simpl. rewrite Z.eqb_refl.
            replace (0 + N =? -1) with false by (symmetry; apply Z.eqb_neq; lia).
            reflexivity.
      - apply (scan_oft_all_open _ _ Hfull idx _) in Hclosed2; [apply Hclosed2; reflexivity|].
        assert (Hcases : idx = 1%nat \/ idx = 2%nat \/ idx = 3%nat) by (unfold idx; lia).
        destruct Hcases as [H1 | [H1 | H1]]; rewrite H1; repeat constructor. }
  rewrite Hdirobj2 in Hk'.
  assert (k' = k) by (eapply Hnames; eauto). subst k'.
  rewrite Hk in Hk'. inversion Hk'; subst d'. clear Hk'.
  assert (Hdesc2 : get_descriptor s2 di = Some d1).
  { unfold get_descriptor. rewrite Hds2. exact Hd1. }
  rewrite Hdesc2 in Hdesc'. inversion Hdesc'; subst desc'. clear Hdesc'.
  rewrite Hlen1 in Hlen'. inversion Hlen'; subst len'. clear Hlen'.
  rewrite Hb11 in Hb1'. inversion Hb1'; subst b1'. clear Hb1'.
  rewrite Hdl2 in Hdb'. inversion Hdb'; subst b'. clear Hdb'.
  set (e3 := mkSlot l2 0 (Z.max L (0 + N)) di) in *.
  set (s3 := set_slot s2 h e3) in *.
  assert (Hlen4 : length (oft s2) = 4%nat) by (destruct Hok2 as ((H4 & _) & _); exact H4).
  assert (Hlk3 : oft s3 !! h = Some e3).
  { simpl. apply list_lookup_insert_eq. lia. }
  assert (Ho3 : open_slot s3 (Z.of_nat h) = Some e3).
  { unfold open_slot.
    replace ((Z.of_nat h <? 0) || (3 <? Z.of_nat h)) with false
      by (symmetry; apply orb_false_iff; split; apply Z.ltb_ge; lia).
    rewrite Nat2Z.id, Hlk3. reflexivity. }
  assert (Hs3 : reachable_by_interface s3).
  { assert (E3 : s3 = step s2 (Open f)) by (simpl; rewrite Hop; reflexivity).
    rewrite E3. apply by_interface_step; [exact Hs2|exact Hf]. }
  (* the read *)
  assert (Hh0 : Z.of_nat h <> 0) by lia.
  destruct (read_ready_along_interface s3 (Z.of_nat h) e3 Hs3 Hh0 Ho3)
    as (d3 & len3 & Hd3 & _ & Hready3).
  cbn [descriptor_index e3] in Hd3.
  change (get_descriptor s3 di) with (get_descriptor s2 di) in Hd3.
  rewrite Hdesc2 in Hd3. inversion Hd3; subst d3. clear Hd3.
  rewrite Nat2Z.id in Hready3.
  pose proof (slot_at_lookup _ _ _ Hlk3) as Hslot3.
  destruct (read_loop_in_block n s3 h d1 mem 0 (Z.max L (0 + N)) B1 Hready3 Hlen1)
    as (s4 & mem' & Hrl & Hlen' & Hget & Hother).
  - lia.
  - fold N. lia.
  - rewrite Hslot3. cbn [current_pos e3]. fold N. lia.
  - intros _. rewrite Hslot3. cbn [current_pos e3]. fold N.
    change (0 / 512) with 0. lia.
  - rewrite Hslot3. cbn [current_pos buffer e3].
    change (pass_buffer s3 d1 0 0 l2) with l2. exact Hl2.
  - rewrite Hslot3 in Hget. cbn [current_pos e3] in Hget.
    change (Z.to_nat (0 mod 512)) with 0%nat in Hget.
    exists s1, s2, s3, s4, (Z.of_nat h).
    split; [exact Hw|]. split; [exact Hcl|]. split; [exact Hop|]. split; [lia|].
    unfold read. rewrite Ho3. cbn [descriptor_index e3].
    change (get_descriptor s3 di) with (get_descriptor s2 di). rewrite Hdesc2.
    rewrite Nat2Z.id. unfold N at 1. rewrite Nat2Z.id. rewrite Hrl.
    f_equal. f_equal. apply list_eq. intros j.
    destruct (decide (j < n)%nat) as [Hj|Hj].
    + rewrite lookup_app_l by (rewrite length_fmap; exact Hj).
      pose proof (Hget j Hj) as Hgj. simpl in Hgj. rewrite Hgj.
      rewrite list_lookup_fmap.
      destruct (lookup_lt_is_Some_2 src j Hj) as [x Hx]. rewrite Hx. simpl.
      apply (Hbytes j x Hj Hx).
    + rewrite lookup_app_r by (rewrite length_fmap; fold n; lia).
      rewrite length_fmap. fold n. rewrite lookup_drop.
      replace (n + (j - n))%nat with j by lia.
      apply Hother. right. simpl. lia.
Qed.

Lemma write_close_open_read_witness :
  reachable_by_interface (run [Create "f"; Open "f"]) /\
  exists s1 s2 s3 s4,
    write (run [Create "f"; Open "f"]) 1 [72; 105] 2 = (s1, Ret 2) /\
    close s1 1 = (s2, Ret 0) /\
    open s2 "f" = (s3, Ret 1) /\
    read s3 1 (zeros 4) 2 = (s4, [VInt 72; VInt 105; VInt 0; VInt 0], Ret 2).
Proof.
  assert (Hs : reachable_by_interface (run [Create "f"; Open "f"])).
  { apply admissible_run_reachable; [apply by_interface_init|].
    cbn [admissible_run admissible]. split; [discriminate|]. split; [discriminate|exact I]. }
  split; [exact Hs|].
  assert (Ho : open_slot (run [Create "f"; Open "f"]) 1 = Some (mkSlot 8%nat 0 0 1))
    by (vm_compute; reflexivity).
  destruct (write_close_open_read _ 1 "f" [72; 105] (zeros 4) _ 0%nat Hs ltac:(discriminate) Ho)
    as (s1 & s2 & s3 & s4 & h & Hw & Hcl & Hop & Hh & Hrd).
  - reflexivity.
  - vm_compute. reflexivity.
  - discriminate.
  - simpl. lia.
  - simpl. lia.
  - assert (Hall : snd (open (fst (close (fst (write (run [Create "f"; Open "f"]) 1 [72; 105] 2)) 1)) "f")
                   = Ret 1) by (vm_compute; reflexivity).
    change (Z.of_nat (length [72; 105])) with 2 in Hw, Hrd.
    rewrite Hw in Hall. cbn [fst] in Hall. rewrite Hcl in Hall. cbn [fst] in Hall.
    rewrite Hop in Hall. cbn [snd] in Hall. inversion Hall; subst h.
    exists s1, s2, s3, s4.
    split; [exact Hw|]. split; [exact Hcl|]. split; [exact Hop|exact Hrd].
Defined.

(** X19: [close] below the three-block ceiling.  In every state reached
    through the interface, [close] of an open handle 1..3 whose cursor is
    below 1536 returns 0 and raises nothing.  With cb the block that the
    file's descriptor names for the cursor (field 1 + cursor // 512): when
    cb is not 0 the disk holds at cb the very list that was the slot's
    buffer (not a copy), and every other block is what it was; when cb is 0
    no block changes.  The descriptors, the bitmap, the directory and every
    existing list are as before; the handle is closed and the other slots
    are untouched. *)
Theorem close_stores_buffer_list (s : FileSystem) (index : Z) (e : slot) :
  reachable_by_interface s -> index <> 0 -> open_slot s index = Some e ->
  current_pos e < 1536 ->
  exists (s' : FileSystem) (cb : Z),
    close s index = (s', Ret 0) /\
    descriptor_field s (descriptor_index e) (1 + current_pos e / 512) = Some cb /\
    (cb <> 0 -> py_get (disk s') cb = Some (Obj (buffer e))) /\
    (forall j, 0 <= j -> cb = 0 \/ j <> cb -> py_get (disk s') j = py_get (disk s) j) /\
    descriptors s' = descriptors s /\ bitmap s' = bitmap s /\ directory s' = directory s /\
    (forall l, (l < length (heap s))%nat -> obj (heap s') l = obj (heap s) l) /\
    open_slot s' index = None /\
    (forall j, j <> index -> open_slot s' j = open_slot s j).
Proof.
  intros Hs Hi Ho Hp.
  pose proof (reachable_by_interface_ok s Hs) as Hok.
  pose proof Hok as ((Hlen4 & Hdisk64 & _) & _).
  destruct (open_slot_Some _ _ _ Ho) as (Hr & Hlk & _).
  destruct (close_outcome s index e Hok Hi Ho Hp)
    as (s' & d & cb & Hcl & Hd & Hcb & Hcbr & Hh & Hds & Hdir & Hbm & Hoft & Hdisk).
  exists s', cb.
  split; [exact Hcl|].
  split; [unfold descriptor_field; rewrite Hd; exact Hcb|].
  split.
  { intros Hnz. rewrite Hdisk.
    replace (cb =? 0) with false by (symmetry; apply Z.eqb_neq; exact Hnz).
    rewrite py_get_nonneg by lia. apply list_lookup_insert_eq. lia. }
  split.
  { intros j Hj Hne. rewrite Hdisk. destruct (cb =? 0) eqn:Hz; [reflexivity|].
    apply Z.eqb_neq in Hz. rewrite !py_get_nonneg by lia.
    apply list_lookup_insert_ne. lia. }
  split; [exact Hds|]. split; [exact Hbm|]. split; [exact Hdir|].
  split; [intros l Hl; rewrite Hh; apply obj_app_l; exact Hl|].
  assert (Hrange : (index <? 0) || (3 <? index) = false)
    by (apply orb_false_iff; split; apply Z.ltb_ge; lia).
  split.
  { unfold open_slot. rewrite Hrange, Hoft.
    rewrite list_lookup_insert_eq by lia. reflexivity. }
  intros j Hj. unfold open_slot.
  destruct ((j <? 0) || (3 <? j)) eqn:Hjr; [reflexivity|].
  apply orb_false_iff in Hjr. destruct Hjr as [Hj0 Hj3].
  apply Z.ltb_ge in Hj0. apply Z.ltb_ge in Hj3.
  rewrite Hoft. rewrite list_lookup_insert_ne by lia. reflexivity.
Qed.

Lemma close_stores_buffer_list_witness :
  reachable_by_interface (run [Create "f"; Open "f"]) /\
  exists s', close (run [Create "f"; Open "f"]) 1 = (s', Ret 0) /\
             py_get (disk s') 8 = Some (Obj 8%nat).
Proof.
  assert (Hs : reachable_by_interface (run [Create "f"; Open "f"])).
  { apply admissible_run_reachable; [apply by_interface_init|].
    cbn [admissible_run admissible]. split; [discriminate|]. split; [discriminate|exact I]. }
  split; [exact Hs|].
  assert (Ho : open_slot (run [Create "f"; Open "f"]) 1 = Some (mkSlot 8%nat 0 0 1))
    by (vm_compute; reflexivity).
  destruct (close_stores_buffer_list _ 1 _ Hs ltac:(discriminate) Ho)
    as (s' & cb & Hcl & Hcb & Hstored & _).
  - simpl. lia.
  - exists s'. split; [exact Hcl|].
    assert (E : cb = 8) by (vm_compute in Hcb; inversion Hcb; reflexivity).
    subst cb. apply Hstored. discriminate.
Defined.
